(* ===== verification/_CoqProject ===== *)
-Q . S2P
Prelude.v
Heap.v
GoStrings.v
GoTime.v
Base64.v
Api.v
DeepCopy.v
DeepCopyFacts.v
Effects.v
Answers.v
Store.v
Codec.v
Lib.v
Samples.v
Policy.v
Robot.v
Rescue.v
Talos.v
Bundle.v
HostClaim.v
Inject.v
Ignition.v
FlatcarConfig.v
Retry.v
States.v
Machine.v
Safety.v
Lifecycle.v
Resets.v
Evidence.v
TalosConfig.v
Progress.v
Remediation.v
HostCtl.v
ClusterCtl.v
Writes.v
Validation.v
Manager.v
Wakeups.v
RemediationLife.v
Leases.v
Ownership.v
OwnershipRuns.v
System.v
Addresses.v
