(* ===== verification/Prelude.v ===== *)
(** * A verification development of cluster-api-provider-hetzner-robot

    The repository is a Cluster API infrastructure provider for dedicated
    servers of Hetzner: Kubernetes controllers that claim a physical server for
    a machine, boot it into a rescue system through the Robot web service, wipe
    its disks over SSH, install Talos or Flatcar Linux on it, configure it, and
    reset and release it when the machine goes away.  Its mistakes erase disks,
    so the development is first about what is never done, then about what is
    computed.

    ** How the program is modelled

    A Go function that talks to the outside is a program of type [prog]
    (Effects): a tree of calls, with a continuation for every answer.  The
    calls are those of the Kubernetes client, of the HTTP client, of TCP, SSH
    and gRPC connections, and of the clock; nothing is assumed of the answers,
    so a theorem over [exec] holds whatever the API server, other controllers
    working at the same time, the Robot service and the servers do between two
    calls.  A history lists calls and answers, newest first.  A guard says
    which calls may be made at a history; [wp] proves, call by call, that a
    program stays within a guard and what holds when it ends; [by_exec] turns
    it into a statement on executions.  A Go function that assigns to a machine
    or host it was given returns the changed object beside its result, also
    when it fails: the deferred patch of [Reconcile] writes those assignments.
    A result is a value, an error (its text, and whether it is a not-found
    error) or a panic.  [int] and [time.Duration] are integers of 64 bits with
    their wrap-around ([wrap64]); strings are bytes.

    Packages outside the repository are parameters: the class [Lib] (Lib), with
    the documented behaviour the theorems use in [LibLaws] and [YamlLaws], and
    an instance of all of them, [Demo], for the concrete inputs of the
    witnesses.  The Go standard library is written out where its behaviour
    matters: string functions, [strconv], [net/url], base64.  The primitives of
    cryptography, PEM and the deep copies of the Kubernetes types are classes
    with laws of their own ([Crypto] in Bundle, [K8sCopies] in DeepCopy).

    Two more views of the same code.  Store makes the API server concrete:
    hosts and machines are finite maps, a write is the merge patch of the patch
    helper, which may be applied in part when it reports an error; [srun rd R]
    runs a program on such a store, with reads answered as [rd] says, which may
    be from a cache, and steps of [R] between its calls; [swp] is its weakest
    precondition when the reads are [upToDate], and [serve] is one server that
    behaves so.
    Heap is a memory of typed cells, in which pointers, slices and maps can be
    shared; the deep copies of the API types are programs on it.

    ** The files

    - Prelude, GoStrings, GoTime, Base64: errors, notations, automation, the
      standard library.  Heap: memory with sharing.
    - Api: api/v1alpha1, as records and enumerations with setters.  DeepCopy:
      the same structs in memory, and zz_generated.deepcopy.go.
    - Effects: calls, programs, executions, guards, [wp].  Answers: programs
      whose calls are answered well.  Store: the API server as a store.
    - Codec, Lib, Samples: untyped values, third-party code, sample objects and
      worlds for the witnesses.
    - Policy: controllers/hetznerrobotmachine_policy.go.
    - Robot: pkg/robot and hetznerrobotmachine_secrets.go.
    - Rescue: pkg/sshrescue/client.go.  Talos: pkg/talos/client.go.  Bundle:
      pkg/talos/bundle.go.
    - HostClaim: hetznerrobotmachine_host.go.
    - Inject: hetznerrobotmachine_inject.go.  Ignition:
      hetznerrobotmachine_ignition.go.
    - Retry, Machine: hetznerrobotmachine_controller.go.  States:
      hetznerrobotmachine_states.go and hetznerrobotmachine_flatcar.go.
    - Remediation, HostCtl, ClusterCtl: the three other controllers.
    - Safety, Lifecycle, Resets, Evidence, Progress: theorems about whole runs
      of the machine reconciler.  Writes: what a run of any of the four
      reconcilers writes.  Validation: the kubebuilder markers of api/v1alpha1,
      as the API server applies them.  Manager: main.go, groupversion_info.go,
      the [SetupWithManager] and the RBAC markers of the controllers.  Wakeups:
      when a machine is reconciled again.  RemediationLife: a remediation from
      its start to its end.
    - Leases: an abstract lease book.  Ownership, OwnershipRuns, System: all
      controllers on one store, and what they enter in the book.
    - FlatcarConfig, TalosConfig, Addresses: theorems about what a server is
      configured with.  DeepCopyFacts: theorems about deep copies.

    A definition has the name of the Go function it translates.  A part of a Go
    function that is a definition of its own (for instance [gate], [runState],
    [checkTimeout] and [reconcileAttempt] of [Reconcile]) says so in its
    comment; [Machine.Reconcile] composes them in the order of the code.

    ** The theorems

    - What is never done.  [Safety]: no destructive call without a policy or
      release that allows it, in provisioning and deletion alike.  [Evidence]:
      no installation before a confirmed wipe, no progress without evidence
      from the server.  [Resets]: resets are spaced and recorded.
      [HostClaim]: a host of another machine is never claimed, adopted or
      released.  [HostCtl], [ClusterCtl], [Remediation]: what the other
      controllers never write or ask for.
    - State machines.  [Safety.reconcile_transitions] is the transition
      relation of a machine, per operating system; [remMove] in Remediation is
      the abstract state machine of a remediation, each run refines one of its
      moves, and by induction over sequences of runs the retry limit holds.
    - Composition.  [System.exclusive_ownership]: the four reconcilers and the
      users on one store never make two machines record one host, when the
      machine reconciler makes one run at a time and the others work between
      its calls, under the assumptions on reads, on runs of the host reconciler
      and on deletions that are listed below.  The invariant, what the others may do ([interferes]) and the
      preservation by each part of a run are in Ownership and OwnershipRuns.
      [System.controllers_keep_leases]: in the same setting the
      controllers implement the lease book of Leases, in which a machine that
      lives keeps the host it has.
    - The API server's side.  [Validation.writes_pass_validation]: which writes
      are admitted.  [Manager.permissions_suffice]: every call is permitted.
    - Progress.  [Progress.provisioning_completes]: in an environment that
      cooperates a machine is Provisioned after one run per state.
      [Lifecycle.deletion_completes]: one run finishes a deletion, whatever
      fails.  [Wakeups.machine_not_forgotten]: every run is followed by another,
      or says why not.  [RemediationLife.remediation_ends]: in an environment
      that cooperates a remediation reaches its terminal phase after two runs
      per reset and one more.
    - Error paths.  [Lifecycle]: how every attempt ends, what is persisted,
      the timeout, the backoff, the finalizer and the drain.
    - Deep copies read the same as the original and are isolated from later
      writes to it, but for the cells two of the methods leave shared.
    - Functional behaviour.  The policy and release checks, the choice of the
      install disk, the wipe, the installers, the Talos probe, the requests to
      the Robot service, each exact; the contents of a Talos and a Flatcar
      config; the agreement of all parts on the address of a server.
    - Round trips: hardware detection, shell quoting, data URLs, provider ids,
      the machine CA of a machineconfig.

    A few theorems that are no properties record where the code and its intent
    differ: [Lifecycle.denial_reason_lost], [Lifecycle.error_failure_cleared],
    [FlatcarConfig.kubelet_unit_twice], [Addresses.ipv6_addresses_differ],
    [System.stale_deletion_takes_host], [System.concurrent_claims_collide],
    [System.cached_read_steals], [System.adoption_races_with_host_run], [Validation.other_provider_id_rejected],
    [Wakeups.paused_not_resumed].

    ** Bounds

    No definition takes fuel: the loops of the code run over finite lists or
    strings and are structural, and a controller's waiting is a requeue, not a
    loop.  So every program ends after finitely many calls, by construction of
    [prog].  The retry limit of a remediation is assumed to be an [int].

    ** What is not modelled

    Logging, events and metrics; the parsing of the command line, and what
    controller-runtime does when [main] calls it; the credentials passed to a
    gRPC connection.  In the theorems over [exec] a patch is the write of an
    object with the object it was read as, and how it is merged with concurrent
    writes is left to the answers of later reads.  The theorems of System are
    about a store that is written by one run of the machine reconciler at a time,
    and assume that reads are up to date in ownership ([Store.upToDate]; they may
    lag in all else), that a run of the host reconciler for a new host or one
    under deletion is atomic (any other may write at any time what it read at any
    other), and that no step ends with a deletion half done
    ([Ownership.finished]: a machine whose host has been released does not stay,
    as it does when the last write of its run fails or somebody else has a
    finalizer on it); [System.concurrent_claims_collide],
    [System.cached_read_steals], [System.adoption_races_with_host_run] and
    [System.stale_deletion_takes_host] show what happens otherwise.  A patch
    that the rules of Validation reject is, on the store, one of those that fail
    and are applied in part.  The truncation of a [metav1.Time] to seconds when
    it is stored is left out.  Go maps whose iteration order is not observable
    are finite maps.

    ** Plan

    Next: what of the ownership of hosts remains when the reads of the machine
    reconciler lag behind the store in ownership, or a deletion ends half
    done. *)

From stdpp Require Export base tactics list strings gmap numbers.

Declare Scope go_scope.
Delimit Scope go_scope with go.

(** ** Errors

    A Go [error] is modelled by its message and by what
    [apierrors.IsNotFound] answers for it.  [fmt.Errorf] with [%w] keeps that
    answer (the predicate unwraps); [fmt.Errorf] without [%w] and
    [errors.New] make an error that is not a not-found error. *)
Record error := MkError { err_msg : string; err_notfound : bool }.

(** [fmt.Errorf] with no wrapped error. *)
Definition errorf (msg : string) : error := MkError msg false.

(** [fmt.Errorf("<pre>%w<post>", err)]. *)
Definition wrapf (pre : string) (e : error) (post : string) : error :=
  MkError (pre +:+ err_msg e +:+ post) (err_notfound e).

(** The pair [(value, error)] a Go function returns: the value counts only
    when the error is nil. *)
Inductive res (A : Type) : Type :=
| Ok (a : A)
| Err (e : error).
Arguments Ok {A} a.
Arguments Err {A} e.

Definition res_map {A B} (f : A -> B) (r : res A) : res B :=
  match r with Ok a => Ok (f a) | Err e => Err e end.

Definition is_ok {A} (r : res A) : bool :=
  match r with Ok _ => true | Err _ => false end.

#[export] Instance error_eq_dec : EqDecision error.
Proof. solve_decision. Defined.

#[export] Instance res_eq_dec {A} `{EqDecision A} : EqDecision (res A).
Proof. solve_decision. Defined.

(** Go's [if err != nil { ... }]: [unwrap x := r orelse err => e ; k] runs the
    error branch [e], or goes on with [k] and the value [x]. *)
Notation "'unwrap' x := r 'orelse' err => e ; k" :=
  (match r with Ok x => k | Err err => e end)
  (at level 10, x name, err name, r at level 99, e at level 99, k at level 200,
   only parsing) : go_scope.

(** The same for a call that returns only an error. *)
Notation "'ensure' r 'orelse' err => e ; k" :=
  (match r with None => k | Some err => e end)
  (at level 10, err name, r at level 99, e at level 99, k at level 200,
   only parsing) : go_scope.

(** ** Record fields

    [r <| f := v |>] is Go's assignment [r.f = v] on a value. *)
Class Setter {R T : Type} (get : R -> T) := set_field : T -> R -> R.
Arguments set_field {R T} get {_} v r : assert.

Class SetterOk {R T : Type} (get : R -> T) `{!Setter get} : Prop :=
  get_set_field : forall v r, get (set_field get v r) = v.

Notation "r <| f := v |>" := (set_field f v r)
  (at level 1, left associativity, f constr, v at level 200,
   format "r  <|  f  :=  v  |>") : go_scope.

(** String literals are read everywhere; [++] stays list append, and [+:+] is
    string append. *)
#[global] Open Scope string_scope.
#[global] Open Scope list_scope.
#[global] Open Scope go_scope.

(** stdpp keeps [String.append] folded; the facts about strings compute it on a
    constructor. *)
#[global] Arguments String.append !_ _ : simpl nomatch.

(** ** Generic automation *)

(** Case analysis on the head [match] or [if] of the goal, keeping the
    equation. *)
Ltac case_goal :=
  match goal with
  | |- context [match ?x with _ => _ end] =>
      lazymatch x with
      | context [match _ with _ => _ end] => fail
      | _ => destruct x eqn:?
      end
  end.

Ltac case_hyp H :=
  match type of H with
  | context [match ?x with _ => _ end] =>
      lazymatch x with
      | context [match _ with _ => _ end] => fail
      | _ => destruct x eqn:?
      end
  end.

(** Reflection of the boolean connectives and tests used by the guards. *)

Ltac bool_prop :=
  repeat match goal with
  | H : (_ && _)%bool = true |- _ => apply andb_true_iff in H; destruct H
  | H : (_ || _)%bool = false |- _ => apply orb_false_iff in H; destruct H
  | H : negb _ = true |- _ => apply negb_true_iff in H
  | H : negb _ = false |- _ => apply negb_false_iff in H
  | H : bool_decide _ = true |- _ => apply bool_decide_eq_true in H
  | H : bool_decide _ = false |- _ => apply bool_decide_eq_false in H
  | H : String.eqb _ _ = true |- _ => apply String.eqb_eq in H
  | H : String.eqb _ _ = false |- _ => apply String.eqb_neq in H
  | H : Z.eqb _ _ = true |- _ => apply Z.eqb_eq in H
  | H : Z.eqb _ _ = false |- _ => apply Z.eqb_neq in H
  | H : Z.ltb _ _ = true |- _ => apply Z.ltb_lt in H
  | H : Z.ltb _ _ = false |- _ => apply Z.ltb_ge in H
  | H : Z.leb _ _ = true |- _ => apply Z.leb_le in H
  | H : Z.leb _ _ = false |- _ => apply Z.leb_gt in H
  end.

(** ** Lists *)

(** A boolean filter that keeps nothing. *)
Lemma filter_nil_elem {A} (f : A -> bool) (l : list A) :
  List.filter f l = [] -> forall x, x ∈ l -> f x = false.
Proof.
  induction l as [|y l IH]; cbn; [by intros _ x Hx%elem_of_nil|].
  destruct (f y) eqn:Hy; [done|]. intros Hl x [->|Hx]%elem_of_cons; auto.
Qed.
