(* ===== verification/Heap.v ===== *)
(** * Memory

    The memory of a Go program as far as the deep copies of [api/v1alpha1]
    need it: typed cells, pointers, slices and maps, computations that read and
    allocate cells, and what it means for a copy to share nothing with its
    original.

    A reader ([rd]) is a tree of reads; running it on a heap gives the value
    it computes and its footprint, the cells it has looked at.  That a value
    depends on its footprint only is one induction ([run_local]).  [copied]
    says that a value reads the same and that the cells it occupies are new,
    except for a set of shared ones; the lemmas about [wpm] and [copied]
    prove it for a copy from the copies of its parts. *)

From S2P Require Import Prelude.

(** ** Cells *)

(** The types of cells: what a pointer can point to ([Base]), and the backing
    array of a slice. *)
Inductive gtype (B : Set) : Set :=
| Base (b : B)
| Slice (t : gtype B).
Arguments Base {B} b.
Arguments Slice {B} t.

#[export] Instance gtype_eq_dec {B : Set} `{!EqDecision B} : EqDecision (gtype B).
Proof. solve_decision. Defined.

(** A pointer, slice or map of Go, by the type of the cell it refers to; [None]
    is [nil].  A slice is modelled with its backing array, of its own length. *)
Definition ptr {B : Set} (t : gtype B) := option positive.

(** The contents of the cells of each base type. *)
Class Cells := {
  base : Set;
  #[global] base_eq_dec :: EqDecision base;
  base_sem : base -> Type
}.

Section cells.
Context `{Cells}.

Abbreviation ty := (gtype base).

Fixpoint sem (t : ty) : Type :=
  match t with
  | Base b => base_sem b
  | Slice t => list (sem t)
  end.

Abbreviation loc := positive.

Record cell := Cell { cell_ty : ty; cell_val : sem cell_ty }.

Abbreviation heap := (gmap loc cell).


Definition cast (t : ty) (c : cell) : option (sem t) :=
  match decide (cell_ty c = t) with
  | left e => Some (eq_rect _ sem (cell_val c) _ e)
  | right _ => None
  end.

Lemma cast_cell t x : cast t (Cell t x) = Some x.
Proof.
  unfold cast; simpl. case_decide as Ht; [|done].
  by rewrite (Eqdep_dec.UIP_dec (A:=ty) (fun a b => decide (a = b)) Ht eq_refl).
Qed.

(** ** Computations *)

(** A computation returns a result and the heap it leaves; none when it
    follows a dangling pointer. *)
Definition M (A : Type) := heap -> option (A * heap).

#[export] Instance M_ret : MRet M := fun A a h => Some (a, h).
#[export] Instance M_bind : MBind M := fun A B k m h =>
  match m h with Some (a, h') => k a h' | None => None end.

Definition get (t : ty) (l : loc) : M (sem t) := fun h =>
  match h !! l ≫= cast t with Some x => Some (x, h) | None => None end.

(** [new] or [make], with the contents the cell is given before anybody else
    sees it. *)
Definition alloc (t : ty) (x : sem t) : M (ptr t) := fun h =>
  let l := fresh (dom h) in Some (Some l, <[l := Cell t x]> h).

Fixpoint mapC {A B} (f : A -> M B) (xs : list A) : M (list B) :=
  match xs with
  | [] => mret []
  | x :: xs => y ← f x; ys ← mapC f xs; mret (y :: ys)
  end.

(** [if *in != nil { *out = new(T); copy **in into **out }]. *)
Definition copyPtr (t : ty) (into : sem t -> M (sem t)) (p : ptr t) : M (ptr t) :=
  match p with
  | None => mret None
  | Some l => x ← get t l; y ← into x; alloc t y
  end.

(** [if *in != nil { *out = make([]T, len( *in)); copy every element }]. *)
Definition copySlice (t : ty) (into : sem t -> M (sem t)) : ptr (Slice t) -> M (ptr (Slice t)) :=
  copyPtr (Slice t) (mapC into).

(** ** Readers *)

Inductive rd (A : Type) : Type :=
| Done (a : A)
| Read (t : ty) (l : loc) (k : sem t -> rd A).
Arguments Done {A} a.
Arguments Read {A} t l k.

Fixpoint rbind {A B} (r : rd A) (k : A -> rd B) : rd B :=
  match r with
  | Done a => k a
  | Read t l k' => Read t l (fun x => rbind (k' x) k)
  end.

#[export] Instance rd_ret : MRet rd := fun A a => Done a.
#[export] Instance rd_bind : MBind rd := fun A B k r => rbind r k.

Fixpoint run {A} (r : rd A) (h : heap) : option (A * gset loc) :=
  match r with
  | Done a => Some (a, ∅)
  | Read t l k =>
      match h !! l ≫= cast t with
      | Some x => match run (k x) h with Some (a, F) => Some (a, {[l]} ∪ F) | None => None end
      | None => None
      end
  end.

Fixpoint mapR {A B} (f : A -> rd B) (xs : list A) : rd (list B) :=
  match xs with
  | [] => Done []
  | x :: xs => y ← f x; ys ← mapR f xs; mret (y :: ys)
  end.

Definition readPtr {V} (t : ty) (k : sem t -> rd V) (p : ptr t) : rd (option V) :=
  match p with
  | None => Done None
  | Some l => Read t l (fun x => v ← k x; mret (Some v))
  end.

(** A nil slice reads as an empty one. *)
Definition readSlice {V} (t : ty) (k : sem t -> rd V) (p : ptr (Slice t)) : rd (list V) :=
  match p with
  | None => Done []
  | Some l => Read (Slice t) l (mapR k)
  end.

(** The cell of a pointer, and the cells a reader looks at. *)
Definition cellOf (p : option loc) : gset loc := match p with Some l => {[l]} | None => ∅ end.

Definition footprint {A} (r : rd A) (h : heap) : gset loc :=
  match run r h with Some (_, F) => F | None => ∅ end.

Lemma run_bind {A B} (r : rd A) (k : A -> rd B) h b F :
  run (r ≫= k) h = Some (b, F) <->
  exists a F1 F2, run r h = Some (a, F1) /\ run (k a) h = Some (b, F2) /\ F = F1 ∪ F2.
Proof.
  unfold mbind, rd_bind. revert F. induction r as [a|t l k' IH]; intros F; simpl.
  - split; [intros Hb; exists a, ∅, F; by rewrite (left_id_L ∅ (∪))|].
    intros (a' & F1 & F2 & [= <- <-] & -> & ->). by rewrite (left_id_L ∅ (∪)).
  - destruct (h !! l ≫= cast t) as [x|]; [|naive_solver]. specialize (IH x).
    destruct (run (rbind (k' x) k) h) as [[b' F']|].
    + split.
      * intros [= -> <-]. destruct (proj1 (IH F') eq_refl) as (a & F1 & F2 & -> & Hk & ->).
        eexists a, _, F2. by rewrite (assoc_L (∪)).
      * intros (a & F1 & F2 & Hr & Hk & ->). destruct (run (k' x) h) as [[a' F1']|]; [|done].
        injection Hr as -> <-.
        assert (HF : Some (b', F') = Some (b, F1' ∪ F2)) by (apply IH; by eexists _, _, _).
        injection HF as -> ->. by rewrite (assoc_L (∪)).
    + split; [done|]. intros (a & F1 & F2 & Hr & Hk & ->).
      destruct (run (k' x) h) as [[a' F1']|]; [|done]. injection Hr as -> <-.
      assert (HF : None = Some (b, F1' ∪ F2)) by (apply IH; by eexists _, _, _). done.
Qed.

Lemma run_read {A} t l (k : sem t -> rd A) h v F :
  run (Read t l k) h = Some (v, F) ->
  exists x F', h !! l ≫= cast t = Some x /\ run (k x) h = Some (v, F') /\ F = {[l]} ∪ F'.
Proof.
  simpl. destruct (h !! l ≫= cast t) as [x|]; [|done].
  destruct (run (k x) h) as [[a F']|] eqn:Hk; [|done]. intros [= -> <-]. eauto.
Qed.

(** A value depends on its footprint only. *)
Lemma run_local {A} (r : rd A) h h' a F :
  run r h = Some (a, F) -> (forall l, l ∈ F -> h' !! l = h !! l) -> run r h' = Some (a, F).
Proof.
  revert F. induction r as [a'|t l k IH]; intros F; simpl; [done|].
  destruct (h !! l ≫= cast t) as [x|] eqn:Hl; [|done].
  destruct (run (k x) h) as [[a' F']|] eqn:Hk; [|done]. intros [= -> <-] Hh.
  rewrite Hh; [|set_solver-]. rewrite Hl. rewrite (IH x F' Hk); [done|].
  intros l' Hl'. apply Hh. set_solver+ Hl'.
Qed.

Lemma run_ptr_plain t (p : ptr t) h v F : run (readPtr t Done p) h = Some (v, F) -> F ⊆ cellOf p.
Proof.
  destruct p as [l|]; [|intros [= _ <-]; set_solver-].
  intros (x & F' & _ & [= _ <-] & ->)%run_read. simpl. set_solver-.
Qed.

Lemma run_dom {A} (r : rd A) h a F : run r h = Some (a, F) -> F ⊆ dom h.
Proof.
  revert F. induction r as [a'|t l k IH]; intros F; simpl; [intros [= _ <-]; set_solver-|].
  destruct (h !! l) as [c|] eqn:Hl; simpl; [|done]. destruct (cast t c) as [x|]; [|done].
  destruct (run (k x) h) as [[a' F']|] eqn:Hk; [|done]. intros [= -> <-].
  apply IH in Hk. apply elem_of_dom_2 in Hl. set_solver+ Hk Hl.
Qed.

Lemma run_mono {A} (r : rd A) h h' a F :
  run r h = Some (a, F) -> h ⊆ h' -> run r h' = Some (a, F).
Proof.
  intros Hr Hh. apply (run_local r h); [done|]. intros l Hl.
  apply (run_dom _ _ _ _ Hr), elem_of_dom in Hl as [c Hc]. rewrite Hc.
  by eapply lookup_weaken.
Qed.

(** ** Copies *)

(** [m] succeeds, only adds cells, and [Q] holds of its result. *)
Definition wpm {A} (m : M A) (h : heap) (Q : A -> heap -> Prop) : Prop :=
  exists a h', m h = Some (a, h') /\ h ⊆ h' /\ Q a h'.

(** [r] reads [v], and of the cells of [h0] it looks at those of [S] only. *)
Definition copied {V} (S : gset loc) (h0 h' : heap) (r : rd V) (v : V) : Prop :=
  exists F, run r h' = Some (v, F) /\ F ∩ dom h0 ⊆ S.

(** [into] copies what [ld] reads, sharing the cells of [sh] with the original. *)
Definition copies {A V} (sh : heap -> A -> gset loc) (ld : A -> rd V) (into : A -> M A) : Prop :=
  forall x h v F, run (ld x) h = Some (v, F) ->
    wpm (into x) h (fun y h' => copied (sh h x) h h' (ld y) v).

(** Nothing is shared. *)
Definition unshared {A} (h : heap) (x : A) : gset loc := ∅.

(** What is shared by the contents of a pointer, and by the elements of a list. *)
Definition sharedAt {t} (sh : heap -> sem t -> gset loc) (h : heap) (p : ptr t) : gset loc :=
  match p with
  | None => ∅
  | Some l => match h !! l ≫= cast t with Some x => sh h x | None => ∅ end
  end.

Definition sharedList {A} (sh : heap -> A -> gset loc) (h : heap) (xs : list A) : gset loc :=
  ⋃ (sh h <$> xs).

(** What is shared does not grow with the heap. *)
Definition stable {A V} (sh : heap -> A -> gset loc) (ld : A -> rd V) : Prop :=
  forall h h' x v F, run (ld x) h = Some (v, F) -> h ⊆ h' -> sh h' x ⊆ sh h x.

Lemma bind_some {A B} (m : M A) (k : A -> M B) h b h' :
  (m ≫= k) h = Some (b, h') -> exists a h1, m h = Some (a, h1) /\ k a h1 = Some (b, h').
Proof. unfold mbind, M_bind. destruct (m h) as [[a h1]|]; [|done]. eauto. Qed.

Lemma wpm_ret {A} (a : A) h (Q : A -> heap -> Prop) : Q a h -> wpm (mret a) h Q.
Proof. intros HQ. by exists a, h. Qed.

Lemma wpm_bind {A B} (m : M A) (k : A -> M B) h Q :
  wpm m h (fun a h' => wpm (k a) h' Q) -> wpm (m ≫= k) h Q.
Proof.
  intros (a & h1 & Hm & Hh1 & b & h2 & Hk & Hh2 & HQ). exists b, h2. split_and!; [|by transitivity h1|done].
  unfold mbind, M_bind. by rewrite Hm.
Qed.

Lemma wpm_weaken {A} (m : M A) h (Q Q' : A -> heap -> Prop) :
  wpm m h Q -> (forall a h', h ⊆ h' -> Q a h' -> Q' a h') -> wpm m h Q'.
Proof. intros (a & h' & Hm & Hh & HQ) HQQ. exists a, h'. auto. Qed.

Lemma copied_mono {V} S h0 h h' (r : rd V) v : copied S h0 h r v -> h ⊆ h' -> copied S h0 h' r v.
Proof. intros (F & Hr & HF) Hh. exists F. split; [by eapply run_mono|done]. Qed.

Lemma copied_weaken {V} S S' h0 h1 h (r : rd V) v :
  copied S h1 h r v -> h0 ⊆ h1 -> S ⊆ S' -> copied S' h0 h r v.
Proof.
  intros (F & Hr & HF) Hh HS. exists F. split; [done|]. apply subseteq_dom in Hh. set_solver+ HF Hh HS.
Qed.

Lemma copied_ret {V} S h0 h (v : V) : copied S h0 h (mret v) v.
Proof. exists ∅. split; [done|set_solver-]. Qed.

Lemma copied_done {V} S h0 h (v : V) : copied S h0 h (Done v) v.
Proof. apply copied_ret. Qed.

(** A part that is not copied is shared. *)
Lemma copied_kept {V} S h h' (r : rd V) v F :
  run r h = Some (v, F) -> h ⊆ h' -> F ⊆ S -> copied S h h' r v.
Proof. intros Hr Hh HF. exists F. split; [by eapply run_mono|set_solver+ HF]. Qed.

Lemma copied_bind {V W} S h0 h (r : rd V) (k : V -> rd W) v w :
  copied S h0 h r v -> copied S h0 h (k v) w -> copied S h0 h (r ≫= k) w.
Proof.
  intros (F1 & Hr & HF1) (F2 & Hk & HF2). exists (F1 ∪ F2). split; [|set_solver+ HF1 HF2].
  apply run_bind. by exists v, F1, F2.
Qed.

(** One part of a struct is copied, at a later heap than it was read in. *)
Lemma wpm_copies {A V} (S : gset loc) sh (ld : A -> rd V) into x h0 h v F (Q : A -> heap -> Prop) :
  copies sh ld into -> run (ld x) h0 = Some (v, F) -> h0 ⊆ h -> sh h x ⊆ S ->
  (forall y h', h ⊆ h' -> copied S h0 h' (ld y) v -> Q y h') -> wpm (into x) h Q.
Proof.
  intros Hc Hr Hh HS HQ. eapply wpm_weaken; [exact (Hc _ _ _ _ (run_mono _ _ _ _ _ Hr Hh))|].
  intros y h' Hh' Hy. apply HQ; [done|]. exact (copied_weaken _ _ _ _ _ _ _ Hy Hh HS).
Qed.

Lemma copies_plain {A} : copies unshared (fun x : A => Done x) mret.
Proof. intros x h v F [= <- <-]. apply wpm_ret, copied_done. Qed.

Lemma stable_const {A V} (sh : A -> gset loc) (ld : A -> rd V) : stable (fun _ => sh) ld.
Proof. by intros h h' x v F _ _. Qed.

Lemma stable_list {A V} sh (ld : A -> rd V) : stable sh ld -> stable (sharedList sh) (mapR ld).
Proof.
  intros Hs h h' xs. unfold sharedList. induction xs as [|x xs IH]; intros v F Hr Hh; simpl in *; [done|].
  apply run_bind in Hr as (v1 & F1 & F2 & Hx & Hr & ->).
  apply run_bind in Hr as (v2 & F3 & F4 & Hxs & _ & ->).
  assert (H1 := Hs _ _ _ _ _ Hx Hh). assert (H2 := IH _ _ Hxs Hh). set_solver+ H1 H2.
Qed.

Lemma copies_mapC {A V} sh (ld : A -> rd V) into :
  stable sh ld -> copies sh ld into -> copies (sharedList sh) (mapR ld) (mapC into).
Proof.
  intros Hs Hc xs. induction xs as [|x xs IH]; intros h v F Hr; simpl in *.
  - injection Hr as <- <-. apply wpm_ret, copied_done.
  - apply run_bind in Hr as (v1 & F1 & F2 & Hx & Hr & ->).
    apply run_bind in Hr as (v2 & F3 & F4 & Hxs & [= <- <-] & ->).
    apply wpm_bind. eapply (wpm_copies (sharedList sh h (x :: xs)));
      [done..|unfold sharedList; set_solver-|]. intros y h1 Hh1 Hy.
    apply wpm_bind. eapply wpm_weaken; [exact (IH _ _ _ (run_mono _ _ _ _ _ Hxs Hh1))|].
    intros ys h2 Hh2 Hys. apply wpm_ret. eapply copied_bind; [by eapply copied_mono|].
    eapply copied_bind; [|apply copied_ret]. refine (copied_weaken _ _ _ _ _ _ _ Hys Hh1 _).
    transitivity (sharedList sh h xs); [by eapply stable_list|unfold sharedList; set_solver-].
Qed.

Lemma fresh_subseteq t (x : sem t) (h : heap) : h ⊆ <[fresh (dom h) := Cell t x]> h.
Proof. apply insert_subseteq, not_elem_of_dom, is_fresh. Qed.

(** A new cell reads as its contents. *)
Lemma wpm_alloc {V} S h0 h t (y : sem t) (r : ptr t -> rd V) (k : sem t -> rd V) v :
  (forall l, r (Some l) = Read t l k) -> h0 ⊆ h -> copied S h0 h (k y) v ->
  wpm (alloc t y) h (fun q h' => copied S h0 h' (r q) v).
Proof.
  intros Hr Hh Hy. assert (Hsub := fresh_subseteq t y h).
  eexists _, _. split_and!; [reflexivity|done|].
  destruct (copied_mono _ _ _ _ _ _ Hy Hsub) as (F & HF & Hdisj).
  rewrite Hr. exists ({[fresh (dom h)]} ∪ F). split.
  - simpl. rewrite lookup_insert. case_decide; [|done]. simpl. by rewrite cast_cell, HF.
  - apply subseteq_dom in Hh. assert (Hf := is_fresh (dom h)). set_solver+ Hdisj Hh Hf.
Qed.

(** The copy of what a pointer points to shares what the copy of the contents
    shares. *)
Lemma copies_ptr {V} t sh (ld : sem t -> rd V) into :
  copies sh ld into -> copies (sharedAt sh) (readPtr t ld) (copyPtr t into).
Proof.
  intros Hc [l|] h v F Hr; [|injection Hr as <- <-; apply wpm_ret, copied_done].
  apply run_read in Hr as (x & F' & Hl & Hr & ->).
  apply run_bind in Hr as (w & F1 & F2 & Hx & [= <- <-] & ->).
  simpl. rewrite Hl. apply wpm_bind. exists x, h. split_and!; [unfold get; by rewrite Hl|reflexivity|].
  apply wpm_bind. eapply wpm_copies; [exact Hc|exact Hx|done|done|]. intros y h' Hh' Hy.
  eapply (wpm_alloc _ _ _ _ _ _ (fun z => w ← ld z; mret (Some w))); [done..|].
  eapply copied_bind; [exact Hy|apply copied_ret].
Qed.

Lemma copies_slice {V} t sh (ld : sem t -> rd V) into :
  stable sh ld -> copies sh ld into ->
  copies (sharedAt (t:=Slice t) (sharedList sh)) (readSlice t ld) (copySlice t into).
Proof.
  intros Hs Hc [l|] h v F Hr; [|injection Hr as <- <-; apply wpm_ret, copied_done].
  apply run_read in Hr as (xs & F' & Hl & Hx & ->).
  unfold copySlice, copyPtr, sharedAt. rewrite Hl. apply wpm_bind.
  exists xs, h. split_and!; [unfold get; by rewrite Hl|reflexivity|].
  apply wpm_bind. eapply wpm_weaken; [exact (copies_mapC sh ld into Hs Hc _ _ _ _ Hx)|]. intros ys h' Hh' Hys.
  by apply (wpm_alloc _ _ _ (Slice t) ys (readSlice t ld) (mapR ld)).
Qed.

Lemma stable_slice {V} t sh (ld : sem t -> rd V) :
  stable sh ld -> stable (sharedAt (t:=Slice t) (sharedList sh)) (readSlice t ld).
Proof.
  intros Hs h h' [l|] v F Hr Hh; [|done]. apply run_read in Hr as (xs & F' & Hl & Hx & _).
  unfold sharedAt. destruct (h !! l) as [c|] eqn:Hc; [|done].
  rewrite (lookup_weaken _ _ _ _ Hc Hh), Hl. by eapply stable_list.
Qed.

Lemma copies_ext {A V} sh sh' (ld : A -> rd V) into :
  copies sh ld into -> (forall h x, sh h x ⊆ sh' h x) -> copies sh' ld into.
Proof.
  intros Hc Hsh x h v F Hr. eapply wpm_weaken; [exact (Hc _ _ _ _ Hr)|]. intros y h' Hh Hy.
  exact (copied_weaken _ _ _ _ _ _ _ Hy (reflexivity _) (Hsh h x)).
Qed.

(** The copy of a value is a copy of what is computed from it. *)
Lemma copies_fmap {A V W} (f : V -> W) sh (ld : A -> rd V) into :
  copies sh ld into -> copies sh (fun x => v ← ld x; mret (f v)) into.
Proof.
  intros Hc x h v F (w & F1 & F2 & Hx & [= <- <-] & ->)%run_bind.
  eapply wpm_weaken; [exact (Hc _ _ _ _ Hx)|]. intros y h' _ Hy.
  eapply copied_bind; [exact Hy|apply copied_ret].
Qed.

(** Pointers and slices of contents that share nothing share nothing. *)
Lemma copies_ptr_unshared {V} t (ld : sem t -> rd V) into :
  copies unshared ld into -> copies unshared (readPtr t ld) (copyPtr t into).
Proof.
  intros Hc. eapply copies_ext; [exact (copies_ptr t unshared ld into Hc)|].
  intros h [l|]; [|done]. simpl. by destruct (h !! l ≫= cast t).
Qed.

Lemma sharedList_unshared {A} (h : heap) (xs : list A) : sharedList unshared h xs ⊆ ∅.
Proof. unfold sharedList, unshared. induction xs as [|x xs IH]; simpl; set_solver. Qed.

Lemma copies_slice_unshared {V} t (ld : sem t -> rd V) into :
  copies unshared ld into -> copies unshared (readSlice t ld) (copySlice t into).
Proof.
  intros Hc. eapply copies_ext; [exact (copies_slice t unshared ld into (stable_const _ ld) Hc)|].
  intros h [l|]; unfold sharedAt, unshared; [|done].
  destruct (h !! l ≫= cast (Slice t)) as [xs|]; [|done]. apply sharedList_unshared.
Qed.

(** ** Isolation *)

(** The copy made through a pointer reads as the original did, and goes on to
    do so whatever is written later to the cells that existed before the copy,
    those of [shared] excepted. *)
Definition isolated {A V} (shared : heap -> A -> gset loc) (ld : A -> rd V) (copy : A -> M A) : Prop :=
  forall p h v F, run (ld p) h = Some (v, F) ->
    exists q h', copy p h = Some (q, h') /\ h ⊆ h' /\ run (ld p) h' = Some (v, F) /\
      forall h'', (forall l, l ∉ dom h \/ l ∈ shared h p -> h'' !! l = h' !! l) ->
        exists F', run (ld q) h'' = Some (v, F') /\ F' ∩ dom h ⊆ shared h p.

Lemma copies_isolated {A V} shared (ld : A -> rd V) copy :
  copies shared ld copy -> isolated shared ld copy.
Proof.
  intros Hc p h v F Hr. destruct (Hc p h v F Hr) as (q & h' & Hq & Hh & F' & HF' & Hsh).
  exists q, h'. split_and!; [done..|by eapply run_mono|]. intros h'' Hh''. exists F'. split; [|done].
  apply (run_local _ h'); [done|]. intros l Hl. apply Hh''.
  destruct (decide (l ∈ dom h)) as [Hd|]; [right|by left]. set_solver+ Hl Hd Hsh.
Qed.



End cells.

Arguments Done {_ A} a.
Arguments Read {_ A} t l k.
Arguments rd {_} A.
Arguments M {_} A.

#[global] Typeclasses Opaque M.

(** Takes apart, in hypothesis [H], the run of a reader that binds. *)
Ltac run_inv H :=
  lazymatch type of H with
  | run (_ ≫= _) _ = Some _ =>
      let v := fresh "v" in let F1 := fresh "F" in let F2 := fresh "F" in let Hr := fresh "Hrun" in
      apply run_bind in H as (v & F1 & F2 & Hr & H & ->); run_inv H
  | run (mret _) _ = Some _ => injection H as <- <-
  | _ => idtac
  end.

(** The same for a computation. *)
Ltac steps_inv H :=
  lazymatch type of H with
  | (_ ≫= _) _ = Some _ =>
      let a := fresh "a" in let h := fresh "h" in let Hm := fresh "Hm" in
      apply bind_some in H as (a & h & Hm & H); steps_inv H
  | _ => idtac
  end.
