(* ===== verification/GoStrings.v ===== *)
(** * The Go string functions the controller uses

    Packages [strings], [bytes], [strconv] and [net/url] of Go's standard
    library, on byte strings.  A Go string is a sequence of bytes, so is a
    [string] here; the two functions whose meaning depends on Unicode
    ([TrimSpace] and [ToLower]) are written out on the UTF-8 encodings. *)

From S2P Require Import Prelude.
From Stdlib Require Import Ascii.

Create HintDb gostr.

Abbreviation strlen := String.length.

(** ** Prefixes, suffixes, substrings *)

Fixpoint strdrop (n : nat) (s : string) : string :=
  match n, s with
  | O, _ => s
  | S n', String _ s' => strdrop n' s'
  | S _, EmptyString => EmptyString
  end.

Definition hasPrefix (s pre : string) : bool := String.prefix pre s.

Definition trimPrefix (s pre : string) : string :=
  if hasPrefix s pre then strdrop (strlen pre) s else s.

Fixpoint hasSuffix (s suf : string) : bool :=
  String.eqb s suf ||
  match s with EmptyString => false | String _ s' => hasSuffix s' suf end.

Fixpoint trimSuffix (s suf : string) : string :=
  if String.eqb s suf then EmptyString
  else match s with
       | EmptyString => EmptyString
       | String c s' => String c (trimSuffix s' suf)
       end.

Fixpoint contains (s sub : string) : bool :=
  String.prefix sub s ||
  match s with EmptyString => false | String _ s' => contains s' sub end.

(** [strings.TrimRight s cutset], the cutset as a test on bytes. *)
Fixpoint trimRight (cutset : ascii -> bool) (s : string) : string :=
  match s with
  | EmptyString => EmptyString
  | String c s' =>
      let r := trimRight cutset s' in
      if String.eqb r EmptyString && cutset c then EmptyString else String c r
  end.

(** ** Splitting and joining *)

(** [strings.Cut]: the text before and after the first [sep]. *)
Fixpoint cut (sep s : string) : option (string * string) :=
  if String.prefix sep s then Some (EmptyString, strdrop (strlen sep) s)
  else match s with
       | EmptyString => None
       | String c s' =>
           match cut sep s' with
           | Some (a, b) => Some (String c a, b)
           | None => None
           end
       end.

Fixpoint split_fuel (fuel : nat) (sep s : string) : list string :=
  match fuel with
  | O => [s]
  | S n => match cut sep s with
           | Some (a, b) => a :: split_fuel n sep b
           | None => [s]
           end
  end.

(** [strings.Split s sep] for a nonempty [sep]: every cut removes at least one
    byte, so [strlen s] cuts are enough. *)
Definition split (s sep : string) : list string := split_fuel (strlen s) sep s.

(** [strings.SplitN s sep 2]. *)
Definition splitN2 (s sep : string) : list string :=
  match cut sep s with Some (a, b) => [a; b] | None => [s] end.

Fixpoint join (l : list string) (sep : string) : string :=
  match l with
  | [] => EmptyString
  | [x] => x
  | x :: rest => x +:+ sep +:+ join rest sep
  end.

(** [strings.ReplaceAll s old new] for a nonempty [old]. *)
Definition replaceAll (s old new : string) : string := join (split s old) new.

(** [sort.Strings]: byte-wise lexicographic order. *)
Fixpoint insertSorted (x : string) (l : list string) : list string :=
  match l with
  | [] => [x]
  | y :: l' => if String.leb x y then x :: l else y :: insertSorted x l'
  end.

Definition sortStrings (l : list string) : list string := foldr insertSorted [] l.

(** ** White space *)

Definition byte (n : nat) : string := String (ascii_of_nat n) EmptyString.
Definition bytes (l : list nat) : string := String.concat "" (map byte l).

(** The newline. *)
Definition nl : string := byte 10.

(** A Go raw string literal, written with a back quote for each double quote:
    a raw string literal holds no back quote of its own. *)
Fixpoint rawString (s : string) : string :=
  match s with
  | EmptyString => EmptyString
  | String c s' => String (if Ascii.eqb c "`" then ascii_of_nat 34 else c) (rawString s')
  end.

(** The UTF-8 encodings of the runes [unicode.IsSpace] accepts. *)
Definition spaceRunes : list string :=
  map bytes
    [[9]; [10]; [11]; [12]; [13]; [32]; [194; 133]; [194; 160]; [225; 154; 128];
     [226; 128; 128]; [226; 128; 129]; [226; 128; 130]; [226; 128; 131];
     [226; 128; 132]; [226; 128; 133]; [226; 128; 134]; [226; 128; 135];
     [226; 128; 136]; [226; 128; 137]; [226; 128; 138]; [226; 128; 168];
     [226; 128; 169]; [226; 128; 175]; [226; 129; 159]; [227; 128; 128]].

Fixpoint strrev_app (s acc : string) : string :=
  match s with
  | EmptyString => acc
  | String c s' => strrev_app s' (String c acc)
  end.
Definition strrev (s : string) : string := strrev_app s EmptyString.

Fixpoint stripOne (runes : list string) (s : string) : option string :=
  match runes with
  | [] => None
  | r :: rest => if String.prefix r s then Some (strdrop (strlen r) s) else stripOne rest s
  end.

Fixpoint strip_fuel (fuel : nat) (runes : list string) (s : string) : string :=
  match fuel with
  | O => s
  | S n => match stripOne runes s with
           | Some s' => strip_fuel n runes s'
           | None => s
           end
  end.

Definition trimLeftSpace (s : string) : string := strip_fuel (strlen s) spaceRunes s.
Definition trimRightSpace (s : string) : string :=
  strrev (strip_fuel (strlen s) (map strrev spaceRunes) (strrev s)).

(** [strings.TrimSpace] and [bytes.TrimSpace]. *)
Definition trimSpace (s : string) : string := trimRightSpace (trimLeftSpace s).

(** ** Case *)

Definition lowerByte (c : ascii) : ascii :=
  let n := nat_of_ascii c in
  if (65 <=? n)%nat && (n <=? 90)%nat then ascii_of_nat (n + 32) else c.

(** [strings.ToLower], up to the non-ASCII letters that stay non-ASCII: the
    two runes whose lower case is an ASCII letter are U+0130 (C4 B0, [i]) and
    U+212A (E2 84 AA, [k]).  Testing the result for an ASCII substring
    therefore answers what it answers in Go. *)
Fixpoint toLower (s : string) : string :=
  match s with
  | String c1 ((String c2 rest2) as rest1) =>
      if (nat_of_ascii c1 =? 196)%nat && (nat_of_ascii c2 =? 176)%nat
      then String "i" (toLower rest2)
      else match rest2 with
           | String c3 rest3 =>
               if (nat_of_ascii c1 =? 226)%nat && (nat_of_ascii c2 =? 132)%nat
                  && (nat_of_ascii c3 =? 170)%nat
               then String "k" (toLower rest3)
               else String (lowerByte c1) (toLower rest1)
           | EmptyString => String (lowerByte c1) (toLower rest1)
           end
  | String c EmptyString => String (lowerByte c) EmptyString
  | EmptyString => EmptyString
  end.

(** ** Integers as text *)

Definition digit (n : N) : ascii := ascii_of_N (48 + n).

Fixpoint digits_fuel (fuel : nat) (n : N) (acc : string) : string :=
  match fuel with
  | O => acc
  | S k =>
      let acc' := String (digit (n mod 10)) acc in
      if (n <? 10)%N then acc' else digits_fuel k (n / 10) acc'
  end.

(** A number has no more decimal than binary digits, so [N.size_nat] is enough
    fuel ([S] for zero). *)
Definition digits (n : N) : string := digits_fuel (S (N.size_nat n)) n EmptyString.

(** [%d] of [fmt]. *)
Definition itoa (z : Z) : string :=
  if (z <? 0)%Z then String "-" (digits (Z.to_N (- z))) else digits (Z.to_N z).

Definition minInt64 : Z := - 2 ^ 63.
Definition maxInt64 : Z := 2 ^ 63 - 1.
Definition in_int64 (z : Z) : Prop := (minInt64 <= z <= maxInt64)%Z.

Definition digitValue (c : ascii) : option N :=
  let n := N_of_ascii c in
  if (48 <=? n)%N && (n <=? 57)%N then Some (n - 48)%N else None.

Fixpoint readDigits (s : string) (acc : N) : option N :=
  match s with
  | EmptyString => Some acc
  | String c s' =>
      match digitValue c with
      | Some d => readDigits s' (10 * acc + d)
      | None => None
      end
  end.

Definition readNat (s : string) : option N :=
  match s with EmptyString => None | _ => readDigits s 0 end.

(** [strconv.Atoi] on a 64-bit platform: an optional sign, decimal digits, and
    a range error outside [int64]; [None] is its non-nil error. *)
Definition atoi (s : string) : option Z :=
  let signed :=
    match s with
    | String c s' =>
        if Ascii.eqb c "-" then option_map (fun n => - Z.of_N n)%Z (readNat s')
        else if Ascii.eqb c "+" then option_map Z.of_N (readNat s')
        else option_map Z.of_N (readNat s)
    | EmptyString => None
    end in
  match signed with
  | Some z => if (minInt64 <=? z)%Z && (z <=? maxInt64)%Z then Some z else None
  | None => None
  end.

(** ** Quoting with [%q] *)

Definition lowerHex (n : N) : ascii :=
  if (n <? 10)%N then ascii_of_N (48 + n) else ascii_of_N (87 + n).

(** One byte of [strconv.Quote]: printable ASCII as it is, quote and backslash
    escaped, control bytes by name or as [\x..].  Bytes from 128 on are kept:
    that is what Go does for the encodings of printable runes. *)
Definition quoteByte (c : ascii) : string :=
  let n := nat_of_ascii c in
  match n with
  | 34 => String "\" (String c EmptyString)
  | 92 => String "\" (String c EmptyString)
  | 7 => "\a" | 8 => "\b" | 9 => "\t" | 10 => "\n" | 11 => "\v" | 12 => "\f" | 13 => "\r"
  | _ => if (n <? 32)%nat || (n =? 127)%nat
         then "\x" +:+ String (lowerHex (N_of_ascii c / 16))
                         (String (lowerHex (N_of_ascii c `mod` 16)) EmptyString)
         else String c EmptyString
  end.

Definition doubleQuote : string := byte 34.

(** [%q] of [fmt]. *)
Definition quote (s : string) : string :=
  doubleQuote +:+ String.concat EmptyString (map quoteByte (String.list_ascii_of_string s)) +:+ doubleQuote.

(** ** [net/url]: percent encoding *)

Definition isAlnum (n : nat) : bool :=
  ((97 <=? n) && (n <=? 122) || (65 <=? n) && (n <=? 90) || (48 <=? n) && (n <=? 57))%nat.

(** [shouldEscape] in the mode of [url.PathEscape]: letters, digits, [- _ . ~]
    and [$ & + : = @] are kept, everything else is escaped. *)
Definition pathKeeps (c : ascii) : bool :=
  let n := nat_of_ascii c in
  isAlnum n || existsb (Nat.eqb n) [45; 95; 46; 126; 36; 38; 43; 58; 61; 64]%nat.

(** [shouldEscape] in the mode of [url.Values.Encode]. *)
Definition queryKeeps (c : ascii) : bool :=
  let n := nat_of_ascii c in
  isAlnum n || existsb (Nat.eqb n) [45; 95; 46; 126]%nat.

Definition upperHex (n : N) : ascii :=
  if (n <? 10)%N then ascii_of_N (48 + n) else ascii_of_N (55 + n).

Definition percent (c : ascii) : string :=
  let n := N_of_ascii c in
  String "%" (String (upperHex (n / 16)) (String (upperHex (n mod 16)) EmptyString)).

Fixpoint pathEscape (s : string) : string :=
  match s with
  | EmptyString => EmptyString
  | String c s' => (if pathKeeps c then String c EmptyString else percent c) +:+ pathEscape s'
  end.

Fixpoint queryEscape (s : string) : string :=
  match s with
  | EmptyString => EmptyString
  | String c s' =>
      (if queryKeeps c then String c EmptyString
       else if Ascii.eqb c " " then "+" else percent c) +:+ queryEscape s'
  end.

Definition unhex (c : ascii) : option N :=
  let n := N_of_ascii c in
  if (48 <=? n)%N && (n <=? 57)%N then Some (n - 48)%N
  else if (65 <=? n)%N && (n <=? 70)%N then Some (n - 55)%N
  else if (97 <=? n)%N && (n <=? 102)%N then Some (n - 87)%N
  else None.

(** [url.PathUnescape], the reader of such a text; [None] is its error. *)
Fixpoint pathUnescape (s : string) : option string :=
  match s with
  | EmptyString => Some EmptyString
  | String c s' =>
      if Ascii.eqb c "%" then
        match s' with
        | String h (String l rest) =>
            match unhex h, unhex l, pathUnescape rest with
            | Some a, Some b, Some r => Some (String (ascii_of_N (16 * a + b)) r)
            | _, _, _ => None
            end
        | _ => None
        end
      else match pathUnescape s' with Some r => Some (String c r) | None => None end
  end.

(** * Facts *)

Section Append.

Lemma app_nil_str (s : string) : s +:+ "" = s.
Proof. induction s as [|c s IH]; cbn; congruence. Qed.

Lemma app_assoc_str (a b c : string) : (a +:+ b) +:+ c = a +:+ (b +:+ c).
Proof. induction a as [|x a IH]; cbn; congruence. Qed.

Lemma strlen_app (a b : string) : strlen (a +:+ b) = strlen a + strlen b.
Proof. induction a as [|x a IH]; cbn; congruence. Qed.

Lemma app_cancel_l (a b c : string) : a +:+ b = a +:+ c -> b = c.
Proof. induction a as [|x a IH]; cbn; [done | intros [= H]; auto]. Qed.

Lemma app_cancel_r (a b c : string) : a +:+ c = b +:+ c -> a = b.
Proof.
  intros H. assert (strlen a = strlen b) as Hlen.
  { apply (f_equal strlen) in H. rewrite !strlen_app in H. lia. }
  revert b H Hlen. induction a as [|x a IH]; intros [|y b] H Hlen; try done.
  injection H as -> H. injection Hlen as Hlen. f_equal. by apply IH.
Qed.

Lemma app_eq_nil_str (a b : string) : a +:+ b = "" -> a = "" /\ b = "".
Proof. by destruct a. Qed.

End Append.

Section Substrings.

Lemma strdrop_app (p t : string) : strdrop (strlen p) (p +:+ t) = t.
Proof. induction p as [|c p IH]; cbn; [by destruct t | done]. Qed.

Lemma prefix_spec (p s : string) :
  String.prefix p s = true <-> exists t, s = p +:+ t.
Proof.
  revert s; induction p as [|c p IH]; intros s.
  - split; [by eexists | by destruct s].
  - destruct s as [|d s]; [by split; [|intros [? [=]]]|].
    cbn [String.prefix]. destruct (ascii_dec c d) as [->|Hne].
    + rewrite IH. split; intros [t Ht]; exists t; [by rewrite Ht | by injection Ht].
    + split; [done|]. intros [t [= ? ?]]. congruence.
Qed.

Lemma prefix_app (p t : string) : String.prefix p (p +:+ t) = true.
Proof. apply prefix_spec. by eexists. Qed.

Lemma prefix_drop (p s : string) :
  String.prefix p s = true -> p +:+ strdrop (strlen p) s = s.
Proof. intros [t ->]%prefix_spec. by rewrite strdrop_app. Qed.

Lemma trimPrefix_app (p t : string) : trimPrefix (p +:+ t) p = t.
Proof. unfold trimPrefix, hasPrefix. by rewrite prefix_app, strdrop_app. Qed.

Lemma contains_spec (s sub : string) :
  contains s sub = true <-> exists a b, s = a +:+ sub +:+ b.
Proof.
  induction s as [|c s IH]; cbn [contains]; rewrite orb_true_iff, prefix_spec.
  - split.
    + intros [[t Ht]|]; [by exists "", t | done].
    + intros (a & b & H). symmetry in H. apply app_eq_nil_str in H as [-> H]. eauto.
  - rewrite IH. split.
    + intros [[t ->]|(a & b & ->)]; [by exists "", t | by exists (String c a), b].
    + intros ([|x a] & b & H); cbn in H; [eauto|].
      injection H as -> ->. right. eauto.
Qed.

Lemma contains_infix (a sub b : string) : contains (a +:+ sub +:+ b) sub = true.
Proof. apply contains_spec. eauto. Qed.

Lemma contains_app_l (a b sub : string) :
  contains a sub = true -> contains (a +:+ b) sub = true.
Proof.
  intros (x & y & ->)%contains_spec. apply contains_spec.
  exists x, (y +:+ b). by rewrite !app_assoc_str.
Qed.

Lemma contains_app_r (a b sub : string) :
  contains b sub = true -> contains (a +:+ b) sub = true.
Proof.
  intros (x & y & ->)%contains_spec. apply contains_spec.
  exists (a +:+ x), y. by rewrite !app_assoc_str.
Qed.

Lemma hasSuffix_spec (s suf : string) :
  hasSuffix s suf = true <-> exists t, s = t +:+ suf.
Proof.
  induction s as [|c s IH]; cbn [hasSuffix]; rewrite orb_true_iff, String.eqb_eq.
  - split.
    + intros [<-|]; [by exists "" | done].
    + intros [t H]. symmetry in H. apply app_eq_nil_str in H as [-> ->]. by left.
  - rewrite IH. split.
    + intros [<-|[t ->]]; [by exists "" | by exists (String c t)].
    + intros ([|x t] & H); cbn in H; [by left|]. injection H as -> ->. eauto.
Qed.

Lemma trimSuffix_app (t suf : string) : trimSuffix (t +:+ suf) suf = t.
Proof.
  induction t as [|c t IH].
  - destruct suf; cbn; [done|]. by rewrite Ascii.eqb_refl, String.eqb_refl.
  - cbn [String.append trimSuffix].
    destruct (String.eqb_spec (String c (t +:+ suf)) suf) as [H|_]; [|by rewrite IH].
    apply (f_equal strlen) in H. cbn in H. rewrite strlen_app in H. lia.
Qed.

Lemma trimSuffix_none (s suf : string) : hasSuffix s suf = false -> trimSuffix s suf = s.
Proof.
  induction s as [|c s IH]; cbn [hasSuffix trimSuffix]; rewrite orb_false_iff; intros [-> H];
    [done|]. by rewrite IH.
Qed.

End Substrings.
#[export] Hint Resolve prefix_app contains_infix contains_app_l contains_app_r : gostr.

Section Splitting.

Lemma cut_some (sep s a b : string) : cut sep s = Some (a, b) -> s = a +:+ sep +:+ b.
Proof.
  revert a b; induction s as [|c s IH]; intros a b; cbn [cut]; case_goal.
  2: done.
  1,2: intros [= <- <-]; by rewrite <- (prefix_drop sep) at 1.
  destruct (cut sep s) as [[x y]|]; [|done]. intros [= <- <-].
  cbn. f_equal. by apply IH.
Qed.

Lemma cut_none (sep s : string) : cut sep s = None <-> contains s sep = false.
Proof.
  induction s as [|c s IH]; cbn [cut contains]; case_goal; cbn [orb]; try done.
  rewrite <- IH. destruct (cut sep s) as [[x y]|]; done.
Qed.

Lemma cut_first (sep s a b : string) :
  sep <> "" -> cut sep s = Some (a, b) -> contains a sep = false.
Proof.
  intros Hsep. revert a b; induction s as [|c s IH]; intros a b; cbn [cut]; case_goal.
  1,3: by intros [= <- _]; destruct sep.
  - done.
  - destruct (cut sep s) as [[x y]|] eqn:Hc; [|done]. intros [= <- <-].
    cbn [contains]. rewrite orb_false_iff. split; [|eauto].
    apply not_true_is_false. intros [t Ht]%prefix_spec.
    apply cut_some in Hc. apply not_true_iff_false in Heqb0. apply Heqb0, prefix_spec.
    exists (t +:+ sep +:+ y). by rewrite <- (app_assoc_str sep), <- Ht, Hc.
Qed.

(** A single-byte separator is found where it was put. *)
Lemma cut_char (c : ascii) (a b : string) :
  contains a (String c "") = false ->
  cut (String c "") (a +:+ String c b) = Some (a, b).
Proof.
  induction a as [|x a IH]; cbn [String.append].
  - intros _. cbn. destruct (ascii_dec c c); [by destruct b | congruence].
  - cbn [contains cut]. rewrite orb_false_iff. intros [Hx Ha].
    rewrite (IH Ha). revert Hx. cbn. destruct (ascii_dec c x); [by destruct a | done].
Qed.

Lemma split_fuel_nonnil (n : nat) (sep s : string) : split_fuel n sep s <> [].
Proof. destruct n; cbn; [done|]. by destruct (cut sep s) as [[??]|]. Qed.

Lemma join_cons (x : string) (l : list string) (sep : string) :
  l <> [] -> join (x :: l) sep = x +:+ sep +:+ join l sep.
Proof. by destruct l. Qed.

Lemma join_split_fuel (n : nat) (sep s : string) : join (split_fuel n sep s) sep = s.
Proof.
  revert s; induction n as [|n IH]; intros s; cbn [split_fuel]; [done|].
  destruct (cut sep s) as [[a b]|] eqn:Hc; [|done].
  rewrite join_cons by apply split_fuel_nonnil. rewrite IH. by apply cut_some in Hc.
Qed.

(** [Join] undoes [Split]. *)
Lemma join_split (s sep : string) : join (split s sep) sep = s.
Proof. apply join_split_fuel. Qed.

Lemma split_fuel_pieces (n : nat) (sep s : string) :
  sep <> "" -> strlen s <= n -> Forall (fun p => contains p sep = false) (split_fuel n sep s).
Proof.
  intros Hsep. revert s; induction n as [|n IH]; intros s Hn; cbn [split_fuel].
  - destruct s; [|cbn in Hn; lia]. constructor; [|done]. by destruct sep.
  - destruct (cut sep s) as [[a b]|] eqn:Hc.
    + constructor; [by eapply cut_first|]. apply IH. apply cut_some in Hc. subst s.
      rewrite !strlen_app in Hn. destruct sep; [done|]. cbn in Hn. lia.
    + constructor; [|done]. by apply cut_none.
Qed.

(** No piece of a split contains the separator. *)
Lemma split_pieces (s sep : string) :
  sep <> "" -> Forall (fun p => contains p sep = false) (split s sep).
Proof. intros. by apply split_fuel_pieces. Qed.

Lemma split_fuel_join (c : ascii) (l : list string) (n : nat) :
  l <> [] -> Forall (fun p => contains p (String c "") = false) l ->
  strlen (join l (String c "")) <= n ->
  split_fuel n (String c "") (join l (String c "")) = l.
Proof.
  intros Hl Hf. revert n; induction l as [|x [|y l] IH]; intros n Hn; [done| |].
  - cbn. destruct n; [done|]. cbn [split_fuel].
    apply Forall_cons_1 in Hf as [Hf _]. apply cut_none in Hf. by rewrite Hf.
  - rewrite join_cons in * by done. apply Forall_cons_1 in Hf as [Hx Hf].
    cbn [String.append] in *. rewrite strlen_app in Hn. cbn [strlen] in Hn.
    destruct n as [|n]; [lia|]. cbn [split_fuel]. rewrite cut_char by done.
    f_equal. apply IH; [done..|]. lia.
Qed.

(** [Split] undoes [Join] when no piece contains the one-byte separator. *)
Lemma split_join (c : ascii) (l : list string) :
  l <> [] -> Forall (fun p => contains p (String c "") = false) l ->
  split (join l (String c "")) (String c "") = l.
Proof. intros. by apply split_fuel_join. Qed.

Lemma split_fuel_enough (n m : nat) (sep s : string) :
  sep <> "" -> strlen s <= n -> strlen s <= m -> split_fuel n sep s = split_fuel m sep s.
Proof.
  intros Hsep. revert m s; induction n as [|n IH]; intros m s Hn Hm.
  - destruct s; [|cbn in Hn; lia]. destruct m; [done|]. cbn. by destruct sep.
  - destruct m as [|m].
    + destruct s; [|cbn in Hm; lia]. cbn. by destruct sep.
    + cbn [split_fuel]. destruct (cut sep s) as [[a b]|] eqn:Hc; [|done].
      f_equal. apply cut_some in Hc. subst s. rewrite !strlen_app in Hn, Hm.
      destruct sep; [done|]. cbn in Hn, Hm. apply IH; lia.
Qed.

(** The unfolding equation of [Split]. *)
Lemma split_unfold (s sep : string) : sep <> "" ->
  split s sep = match cut sep s with Some (a, b) => a :: split b sep | None => [s] end.
Proof.
  intros Hsep. unfold split. destruct (cut sep s) as [[a b]|] eqn:Hc.
  - destruct (strlen s) as [|n] eqn:Hn.
    + destruct s; [|done]. cbn in Hc. by destruct sep.
    + cbn [split_fuel]. rewrite Hc. f_equal. apply cut_some in Hc. subst s.
      rewrite !strlen_app in Hn. destruct sep; [done|]. cbn in Hn.
      apply split_fuel_enough; [done|lia..].
  - destruct (strlen s); cbn [split_fuel]; by rewrite ?Hc.
Qed.

End Splitting.

Section Replacing.

Lemma replaceAll_nil (old new : string) : replaceAll "" old new = "".
Proof. by destruct old. Qed.

(** [ReplaceAll] of a one-byte pattern works byte by byte. *)
Lemma replaceAll_char (c x : ascii) (s new : string) :
  replaceAll (String x s) (String c "") new =
  (if ascii_dec c x then new else String x "") +:+ replaceAll s (String c "") new.
Proof.
  unfold replaceAll. rewrite split_unfold by done. cbn [cut String.prefix].
  destruct (ascii_dec c x) as [_|_].
  - replace (String.prefix "" s) with true by (by destruct s). cbn [strlen strdrop].
    rewrite join_cons by apply split_fuel_nonnil. by destruct s.
  - rewrite (split_unfold s) by done. destruct (cut (String c "") s) as [[a b]|]; [|done].
    by rewrite !join_cons by apply split_fuel_nonnil.
Qed.

End Replacing.

Section Trimming.

Definition noLeadingSpace (s : string) : Prop := stripOne spaceRunes s = None.
Definition noTrailingSpace (s : string) : Prop :=
  stripOne (map strrev spaceRunes) (strrev s) = None.

Lemma strrev_app_spec (s acc : string) : strrev_app s acc = strrev s +:+ acc.
Proof.
  revert acc; induction s as [|c s IH]; intros acc; unfold strrev; cbn [strrev_app]; [done|].
  rewrite (IH (String c acc)), (IH (String c "")), app_assoc_str. done.
Qed.

Lemma strrev_cons (c : ascii) (s : string) : strrev (String c s) = strrev s +:+ String c "".
Proof. exact (strrev_app_spec s (String c "")). Qed.

Lemma strrev_append (a b : string) : strrev (a +:+ b) = strrev b +:+ strrev a.
Proof.
  induction a as [|c a IH]; cbn [String.append]; [by rewrite app_nil_str|].
  by rewrite !strrev_cons, IH, app_assoc_str.
Qed.

Lemma strrev_involutive (s : string) : strrev (strrev s) = s.
Proof. induction s as [|c s IH]; [done|]. rewrite strrev_cons, strrev_append, IH. done. Qed.

Lemma strip_fuel_none (n : nat) (rs : list string) (s : string) :
  stripOne rs s = None -> strip_fuel n rs s = s.
Proof. intros H. destruct n; cbn [strip_fuel]; by rewrite ?H. Qed.

(** Text with no white space at either end is left alone. *)
Lemma trimSpace_id (s : string) : noLeadingSpace s -> noTrailingSpace s -> trimSpace s = s.
Proof.
  unfold trimSpace, trimLeftSpace, trimRightSpace. intros Hl Ht.
  rewrite (strip_fuel_none _ spaceRunes) by done.
  rewrite strip_fuel_none by done. apply strrev_involutive.
Qed.

(** Printable ASCII without the space. *)
Definition graphic (c : ascii) : bool :=
  ((33 <=? nat_of_ascii c) && (nat_of_ascii c <=? 126))%nat.

Fixpoint allGraphic (s : string) : bool :=
  match s with EmptyString => true | String c s' => graphic c && allGraphic s' end.

Lemma allGraphic_app (a b : string) : allGraphic (a +:+ b) = allGraphic a && allGraphic b.
Proof. induction a as [|c a IH]; cbn; [done|]. by rewrite IH, andb_assoc. Qed.

Lemma allGraphic_rev (s : string) : allGraphic (strrev s) = allGraphic s.
Proof.
  induction s as [|c s IH]; [done|]. rewrite strrev_cons, allGraphic_app, IH. cbn.
  by rewrite andb_true_r, andb_comm.
Qed.

(** The first byte of a rune is no graphic character. *)
Definition startsNonGraphic (r : string) : bool :=
  match r with EmptyString => false | String c _ => negb (graphic c) end.

Lemma stripOne_graphic (rs : list string) (s : string) :
  forallb startsNonGraphic rs = true -> allGraphic s = true -> stripOne rs s = None.
Proof.
  intros Hrs Hs. induction rs as [|[|x r] rs IH]; cbn in Hrs; [done|done|]. bool_prop.
  destruct s as [|c s]; [by apply IH|]. cbn in Hs. bool_prop. cbn [stripOne String.prefix].
  destruct (ascii_dec x c) as [->|]; [congruence|]. by apply IH.
Qed.

Lemma trimSpace_graphic (s : string) : allGraphic s = true -> trimSpace s = s.
Proof.
  intros Hs. apply trimSpace_id; apply stripOne_graphic;
    rewrite ?allGraphic_rev; try done; by vm_compute.
Qed.

Lemma graphic_no_char (s : string) (c : ascii) :
  allGraphic s = true -> graphic c = false -> contains s (String c "") = false.
Proof.
  intros Hs Hc. induction s as [|x s IH]; [done|]. cbn in Hs. bool_prop. cbn [contains String.prefix].
  destruct (ascii_dec c x) as [->|]; [congruence|]. by apply IH.
Qed.

(** Text that starts and ends with a printable character. *)
Lemma stripOne_first (rs : list string) (c : ascii) (s : string) :
  forallb startsNonGraphic rs = true -> graphic c = true -> stripOne rs (String c s) = None.
Proof.
  intros Hrs Hc. induction rs as [|[|x r] rs IH]; cbn in Hrs; [done|done|]. bool_prop.
  cbn [stripOne String.prefix]. destruct (ascii_dec x c) as [->|]; [congruence|]. by apply IH.
Qed.

Lemma trimSpace_ends (c d : ascii) (s : string) :
  graphic c = true -> graphic d = true -> trimSpace (String c (s +:+ String d "")) = String c (s +:+ String d "").
Proof.
  intros Hc Hd. apply trimSpace_id; [apply stripOne_first; [by vm_compute|done]|].
  unfold noTrailingSpace. rewrite strrev_cons, strrev_append.
  change (strrev (String d "") +:+ strrev s) with (String d (strrev s)). cbn [String.append].
  apply stripOne_first; [by vm_compute|done].
Qed.

End Trimming.

(** ** Lines *)

(** The number of newlines. *)
Fixpoint newlines (s : string) : nat :=
  match s with
  | EmptyString => 0
  | String c s => (if Ascii.eqb c (ascii_of_nat 10) then 1 else 0) + newlines s
  end.

Lemma newlines_app (a b : string) : newlines (a +:+ b) = newlines a + newlines b.
Proof. induction a as [|c a IH]; cbn; [done|]. rewrite IH. lia. Qed.

Lemma newlines_none (s : string) : contains s nl = false <-> newlines s = 0.
Proof.
  induction s as [|c s IH]; [done|]. cbn [contains newlines]. rewrite orb_false_iff, IH.
  change (String.prefix nl (String c s)) with
    (if ascii_dec (ascii_of_nat 10) c then String.prefix "" s else false).
  assert (String.prefix "" s = true) as -> by by destruct s.
  destruct (ascii_dec (ascii_of_nat 10) c) as [Hc|Hc].
  - rewrite <- Hc, Ascii.eqb_refl. split; [by intros []|lia].
  - destruct (Ascii.eqb_spec c (ascii_of_nat 10)) as [He|_]; [by rewrite He in Hc|]. split; [by intros []|by split].
Qed.


Section Numbers.
Local Open Scope N_scope.

Lemma digitValue_digit (d : N) : d < 10 -> digitValue (digit d) = Some d.
Proof.
  intros Hd. unfold digitValue, digit. rewrite N_ascii_embedding by lia.
  replace (48 <=? 48 + d) with true by (symmetry; apply N.leb_le; lia).
  replace (48 + d <=? 57) with true by (symmetry; apply N.leb_le; lia).
  cbn [andb]. f_equal. lia.
Qed.

Lemma readDigits_fuel (k : nat) (n : N) (acc : string) :
  n < 2 ^ N.of_nat k -> readDigits (digits_fuel k n acc) 0 = readDigits acc n.
Proof.
  revert n acc; induction k as [|k IH]; intros n acc Hn.
  - cbn in Hn. by replace n with 0 by lia.
  - assert (n mod 10 < 10) as Hm by (apply N.mod_lt; lia).
    assert (n = 10 * (n / 10) + n mod 10) as Hdm by (apply N.div_mod; lia).
    cbn [digits_fuel]. case_goal.
    + cbn [readDigits]. rewrite digitValue_digit by done. apply N.ltb_lt in Heqb.
      rewrite (N.mod_small n 10) by done. done.
    + rewrite IH.
      * cbn [readDigits]. rewrite digitValue_digit by done. by rewrite <- Hdm.
      * rewrite Nat2N.inj_succ, N.pow_succ_r' in Hn. apply N.Div0.div_lt_upper_bound. lia.
Qed.

Lemma size_nat_gt (n : N) : n < 2 ^ N.of_nat (S (N.size_nat n)).
Proof.
  assert (n < 2 ^ N.of_nat (N.size_nat n)) as H.
  { destruct n as [|p]; [done|]. cbn [N.size_nat].
    replace (N.of_nat (Pos.size_nat p)) with (N.size (N.pos p)).
    - apply N.size_gt.
    - cbn. induction p as [p IH|p IH|]; cbn; try done; lia. }
  rewrite Nat2N.inj_succ, N.pow_succ_r'. lia.
Qed.

Lemma readDigits_digits (n : N) : readDigits (digits n) 0 = Some n.
Proof. unfold digits. rewrite readDigits_fuel by apply size_nat_gt. done. Qed.

Lemma digits_fuel_head (k : nat) (n : N) (acc : string) :
  exists d s, d < 10 /\ digits_fuel (S k) n acc = String (digit d) s.
Proof.
  revert n acc; induction k as [|k IH]; intros n acc.
  - exists (n mod 10), acc. split; [apply N.mod_lt; lia|]. cbn. by case_goal.
  - cbn [digits_fuel]. case_goal; [|apply IH].
    exists (n mod 10), acc. split; [apply N.mod_lt; lia|done].
Qed.

Lemma digit_not_sign (d : N) : d < 10 -> digit d <> "-"%char /\ digit d <> "+"%char.
Proof.
  intros Hd. split; intros H; apply (f_equal N_of_ascii) in H; unfold digit in H;
    rewrite N_ascii_embedding in H by lia; cbn in H; lia.
Qed.

End Numbers.

(** Printing with [%d] and reading with [Atoi] is the identity on [int64]. *)
Lemma atoi_itoa (z : Z) : in_int64 z -> atoi (itoa z) = Some z.
Proof.
  intros Hz. assert (forall n, readNat (digits n) = Some n) as Hread.
  { intros n. pose proof (readDigits_digits n) as Hd.
    destruct (digits_fuel_head (N.size_nat n) n "") as (d & s & _ & Hs).
    unfold digits in *. rewrite Hs in *. exact Hd. }
  assert ((minInt64 <=? z)%Z && (z <=? maxInt64)%Z = true) as Hrange.
  { unfold in_int64 in Hz. apply andb_true_iff. split; lia. }
  unfold atoi, itoa. case_goal.
  - rewrite Ascii.eqb_refl, Hread. cbn [option_map]. rewrite Z2N.id by lia.
    by replace (- - z)%Z with z by lia; rewrite Hrange.
  - destruct (digits_fuel_head (N.size_nat (Z.to_N z)) (Z.to_N z) "") as (d & s & Hd & Hs).
    specialize (Hread (Z.to_N z)). unfold digits in *. rewrite Hs in *.
    destruct (digit_not_sign d Hd) as [Hm Hp].
    rewrite (proj2 (Ascii.eqb_neq _ _) Hm), (proj2 (Ascii.eqb_neq _ _) Hp), Hread.
    cbn [option_map]. rewrite Z2N.id by lia.
    by rewrite Hrange.
Qed.

Section Percent.

Lemma unhex_upperHex (n : N) : (n < 16)%N -> unhex (upperHex n) = Some n.
Proof.
  intros Hn. assert (n = N.of_nat (N.to_nat n)) as -> by lia.
  assert (N.to_nat n < 16)%nat as H by lia. revert H. generalize (N.to_nat n) as k.
  intros k H. do 16 (destruct k as [|k]; [done|]). lia.
Qed.

Lemma unhex_percent (c : ascii) :
  let n := N_of_ascii c in
  unhex (upperHex (n / 16)) = Some (n / 16)%N /\
  unhex (upperHex (n `mod` 16)) = Some (n `mod` 16)%N /\
  ascii_of_N (16 * (n / 16) + n `mod` 16) = c.
Proof.
  intros n. pose proof (N_ascii_bounded c) as Hc. fold n in Hc.
  split_and!.
  - apply unhex_upperHex. apply N.Div0.div_lt_upper_bound. lia.
  - apply unhex_upperHex, N.mod_lt. lia.
  - rewrite <- N.div_mod by lia. apply ascii_N_embedding.
Qed.

Lemma pathKeeps_not_percent (c : ascii) : pathKeeps c = true -> Ascii.eqb c "%" = false.
Proof. intros H. apply Ascii.eqb_neq. by intros ->. Qed.

(** What [PathEscape] writes, [PathUnescape] reads back. *)
Lemma pathUnescape_escape (s : string) : pathUnescape (pathEscape s) = Some s.
Proof.
  induction s as [|c s IH]; [done|]. cbn [pathEscape]. case_goal.
  - cbn [String.append pathUnescape]. by rewrite pathKeeps_not_percent, IH.
  - destruct (unhex_percent c) as (Ha & Hb & Hc). unfold percent.
    cbn [String.append pathUnescape]. rewrite Ascii.eqb_refl, Ha, Hb, IH, Hc. done.
Qed.

End Percent.
