(* ===== verification/GoTime.v ===== *)
(** * Go durations and times

    A [time.Duration] is an [int64] number of nanoseconds, a [time.Time] the
    nanoseconds since a fixed instant. *)

From S2P Require Import Prelude GoStrings.

Local Open Scope Z_scope.

Definition Second : Z := 1000000000.
Definition Minute : Z := 60 * Second.
Definition Hour : Z := 60 * Minute.

(** Two's complement [int64] arithmetic. *)
Definition wrap64 (z : Z) : Z := (z + 2 ^ 63) `mod` 2 ^ 64 - 2 ^ 63.

(** [Time.Sub]: the difference, saturated at the ends of [Duration]. *)
Definition timeSub (t u : Z) : Z := Z.max minInt64 (Z.min maxInt64 (t - u)).

(** [time.Since t] when the clock reads [now]. *)
Definition since (now t : Z) : Z := timeSub now t.

(** * Facts *)

Lemma wrap64_id (z : Z) : in_int64 z -> wrap64 z = z.
Proof.
  unfold in_int64, minInt64, maxInt64, wrap64. intros Hz. rewrite Z.mod_small; lia.
Qed.

Lemma wrap64_range (z : Z) : in_int64 (wrap64 z).
Proof.
  unfold in_int64, minInt64, maxInt64, wrap64.
  pose proof (Z.mod_pos_bound (z + 2 ^ 63) (2 ^ 64) ltac:(lia)). lia.
Qed.

(** A difference that fits is not saturated. *)
Lemma timeSub_exact (t u : Z) : in_int64 (t - u) -> timeSub t u = t - u.
Proof. unfold in_int64, timeSub. lia. Qed.

(** Comparing an elapsed time with a duration is not disturbed by saturation. *)
Lemma timeSub_lt (t u d : Z) : in_int64 d -> minInt64 < d -> timeSub t u < d <-> t - u < d.
Proof. unfold in_int64, timeSub. lia. Qed.

Lemma timeSub_gt (t u d : Z) : in_int64 d -> d < maxInt64 -> d < timeSub t u <-> d < t - u.
Proof. unfold in_int64, timeSub. lia. Qed.
