(* ===== verification/Base64.v ===== *)
(** * Base64

    The standard encoding of encoding/base64, which carries the Ignition config
    to the rescue system, and the decoder that reads it back there. *)

From Stdlib Require Import Ascii.
From S2P Require Import Prelude GoStrings.

Definition base64Char (n : N) : ascii :=
  if (n <? 26)%N then ascii_of_N (65 + n)
  else if (n <? 52)%N then ascii_of_N (71 + n)
  else if (n <? 62)%N then ascii_of_N (n - 4)
  else if (n =? 62)%N then "+"%char else "/"%char.

(** [EncodeToString]: three bytes make four characters of six bits; one or two
    left over are padded. *)
Fixpoint base64Encode (s : string) : string :=
  match s with
  | EmptyString => EmptyString
  | String a EmptyString =>
      let a := N_of_ascii a in
      String (base64Char (a / 4)) (String (base64Char ((a mod 4) * 16)) "==")
  | String a (String b EmptyString) =>
      let a := N_of_ascii a in let b := N_of_ascii b in
      String (base64Char (a / 4)) (String (base64Char ((a mod 4) * 16 + b / 16))
        (String (base64Char ((b mod 16) * 4)) "="))
  | String a (String b (String c s')) =>
      let a := N_of_ascii a in let b := N_of_ascii b in let c := N_of_ascii c in
      String (base64Char (a / 4)) (String (base64Char ((a mod 4) * 16 + b / 16))
        (String (base64Char ((b mod 16) * 4 + c / 64)) (String (base64Char (c mod 64))
          (base64Encode s'))))
  end.

Definition base64Value (c : ascii) : option N :=
  let n := N_of_ascii c in
  if (65 <=? n)%N && (n <=? 90)%N then Some (n - 65)%N
  else if (97 <=? n)%N && (n <=? 122)%N then Some (n - 71)%N
  else if (48 <=? n)%N && (n <=? 57)%N then Some (n + 4)%N
  else if (n =? 43)%N then Some 62%N
  else if (n =? 47)%N then Some 63%N
  else None.

(** The decoder that [base64 -d] is, on padded text without line breaks. *)
Fixpoint base64Decode (s : string) : option string :=
  match s with
  | EmptyString => Some EmptyString
  | String a (String b (String c (String d s'))) =>
      match base64Value a, base64Value b with
      | Some a, Some b =>
          let x := ascii_of_N (a * 4 + b / 16) in
          if Ascii.eqb c "=" then
            if Ascii.eqb d "=" && String.eqb s' "" then Some (String x EmptyString) else None
          else
            match base64Value c with
            | Some c =>
                let y := ascii_of_N ((b mod 16) * 16 + c / 4) in
                if Ascii.eqb d "=" then
                  if String.eqb s' "" then Some (String x (String y EmptyString)) else None
                else
                  match base64Value d, base64Decode s' with
                  | Some d, Some r =>
                      Some (String x (String y (String (ascii_of_N ((c mod 4) * 64 + d)) r)))
                  | _, _ => None
                  end
            | None => None
            end
      | _, _ => None
      end
  | _ => None
  end.

(** * Facts *)

Section Base64.
Local Open Scope N_scope.

Lemma base64Char_facts (n : N) :
  n < 64 -> base64Value (base64Char n) = Some n /\ Ascii.eqb (base64Char n) "=" = false.
Proof.
  intros Hn. assert (n = N.of_nat (N.to_nat n)) as -> by lia.
  assert (N.to_nat n < 64)%nat as H by lia. revert H. generalize (N.to_nat n) as k.
  intros k H. do 64 (destruct k as [|k]; [by vm_compute|]). lia.
Qed.

Ltac base64_bytes :=
  match goal with
  | |- context [base64Char ?n] =>
      let H := fresh in
      assert (n < 64) as H by (zify; Z.to_euclidean_division_equations; lia);
      let Hv := fresh in let He := fresh in
      destruct (base64Char_facts n H) as [Hv He];
      rewrite ?Hv, ?He; generalize dependent (base64Char n); intros ? _ _
  end.

Lemma ascii_of_N_eq (x : N) (a : ascii) : x = N_of_ascii a -> ascii_of_N x = a.
Proof. intros ->. apply ascii_N_embedding. Qed.

(** What the encoder writes, the decoder reads back. *)
Lemma base64Decode_encode (s : string) : base64Decode (base64Encode s) = Some s.
Proof.
  cut (forall n s, (strlen s <= n)%nat -> base64Decode (base64Encode s) = Some s).
  { intros H. by apply (H (strlen s)). }
  clear s. induction n as [|n IH]; intros s Hs; [by destruct s; [|cbn in Hs; lia]|].
  destruct s as [|a [|b [|c s]]]; [done|..].
  1: pose proof (N_ascii_bounded a).
  2: pose proof (N_ascii_bounded a); pose proof (N_ascii_bounded b).
  3: pose proof (N_ascii_bounded a); pose proof (N_ascii_bounded b); pose proof (N_ascii_bounded c).
  all: cbn [base64Encode base64Decode].
  3: rewrite IH by (cbn in Hs; lia).
  all: repeat base64_bytes; cbn [Ascii.eqb Bool.eqb String.eqb andb].
  all: repeat f_equal; apply ascii_of_N_eq; zify; Z.to_euclidean_division_equations; lia.
Qed.

(** The encoding holds no quote. *)
Lemma base64Encode_safe (s : string) : contains (base64Encode s) "'" = false.
Proof.
  cut (forall n s, (strlen s <= n)%nat -> contains (base64Encode s) "'" = false).
  { intros H. by apply (H (strlen s)). }
  clear s. induction n as [|n IH]; intros s Hs; [by destruct s; [|cbn in Hs; lia]|].
  assert (forall k r, k < 64 -> contains (String (base64Char k) r) "'" = contains r "'") as Hc.
  { intros k r Hk. cbn [contains String.prefix].
    destruct (ascii_dec "'" (base64Char k)) as [He|]; [|done].
    destruct (base64Char_facts k Hk) as [Hv _]. by rewrite <- He in Hv. }
  destruct s as [|a [|b [|c s]]]; [done|..].
  1: pose proof (N_ascii_bounded a).
  2: pose proof (N_ascii_bounded a); pose proof (N_ascii_bounded b).
  3: pose proof (N_ascii_bounded a); pose proof (N_ascii_bounded b); pose proof (N_ascii_bounded c).
  all: cbn [base64Encode].
  all: rewrite !Hc by (zify; Z.to_euclidean_division_equations; lia); try done.
  apply IH. cbn in Hs; lia.
Qed.
End Base64.
