(* ===== verification/Api.v ===== *)
(** * The API objects

    The custom resources of [api/v1alpha1] and the parts of the Cluster API,
    Kubernetes core and metadata types the controllers read or write.  Field
    names are the Go names behind a prefix that tells the structs apart; every
    Go [string] enumeration is an inductive type with a constructor for the
    values that are none of its constants.  The [Setter] instances give the
    notation [x <| field := v |>] for a Go assignment to a field. *)

From S2P Require Import Prelude GoStrings.

(** ** Enumerations *)

(** The state of a machine's provisioning. *)
Inductive ProvisioningState :=
| StateNone
| StateActivatingRescue
| StateInRescue
| StateInstalling
| StateBootingTalos
| StateApplyingConfig
| StateWaitingForBoot
| StateBootingFlatcar
| StateProvisioned
| StateDeleting
| StateError
| StateOther (s : string).

#[export] Instance ProvisioningState_eq_dec : EqDecision ProvisioningState.
Proof. solve_decision. Defined.

Definition stateString (x : ProvisioningState) : string :=
  match x with
  | StateNone => ""
  | StateActivatingRescue => "ActivatingRescue"
  | StateInRescue => "InRescue"
  | StateInstalling => "Installing"
  | StateBootingTalos => "BootingTalos"
  | StateApplyingConfig => "ApplyingConfig"
  | StateWaitingForBoot => "WaitingForBoot"
  | StateBootingFlatcar => "BootingFlatcar"
  | StateProvisioned => "Provisioned"
  | StateDeleting => "Deleting"
  | StateError => "Error"
  | StateOther s => s
  end.

(** The lifecycle state of a physical server. *)
Inductive HostState :=
| HostStateUnset
| HostStateAvailable
| HostStateClaimed
| HostStateProvisioned
| HostStateOther (s : string).

#[export] Instance HostState_eq_dec : EqDecision HostState.
Proof. solve_decision. Defined.

Definition hostStateString (x : HostState) : string :=
  match x with
  | HostStateUnset => ""
  | HostStateAvailable => "Available"
  | HostStateClaimed => "Claimed"
  | HostStateProvisioned => "Provisioned"
  | HostStateOther s => s
  end.

(** The operational role of a physical server. *)
Inductive HostLifecycleClass :=
| HostLifecycleClassUnset
| HostLifecycleClassCompute
| HostLifecycleClassControlPlane
| HostLifecycleClassStorage
| HostLifecycleClassOther (s : string).

#[export] Instance HostLifecycleClass_eq_dec : EqDecision HostLifecycleClass.
Proof. solve_decision. Defined.

Definition lifecycleString (x : HostLifecycleClass) : string :=
  match x with
  | HostLifecycleClassUnset => ""
  | HostLifecycleClassCompute => "compute"
  | HostLifecycleClassControlPlane => "control-plane"
  | HostLifecycleClassStorage => "storage"
  | HostLifecycleClassOther s => s
  end.

(** Whether the controller may wipe or reset a server. *)
Inductive DestructiveProvisioningPolicy :=
| DestructiveProvisioningPolicyUnset
| DestructiveProvisioningPolicyAlwaysCleanSlate
| DestructiveProvisioningPolicyNeverDestructiveByDefault
| DestructiveProvisioningPolicyRequiresExternalRelease
| DestructiveProvisioningPolicyOther (s : string).

#[export] Instance DestructiveProvisioningPolicy_eq_dec : EqDecision DestructiveProvisioningPolicy.
Proof. solve_decision. Defined.

Definition policyString (x : DestructiveProvisioningPolicy) : string :=
  match x with
  | DestructiveProvisioningPolicyUnset => ""
  | DestructiveProvisioningPolicyAlwaysCleanSlate => "AlwaysCleanSlate"
  | DestructiveProvisioningPolicyNeverDestructiveByDefault => "NeverDestructiveByDefault"
  | DestructiveProvisioningPolicyRequiresExternalRelease => "RequiresExternalRelease"
  | DestructiveProvisioningPolicyOther s => s
  end.

(** The phase of a remediation. *)
Inductive RemediationPhase :=
| RemediationPhaseUnset
| RemediationPhaseRunning
| RemediationPhaseWaiting
| RemediationPhaseDeleting
| RemediationPhaseOther (s : string).

#[export] Instance RemediationPhase_eq_dec : EqDecision RemediationPhase.
Proof. solve_decision. Defined.

Definition phaseString (x : RemediationPhase) : string :=
  match x with
  | RemediationPhaseUnset => ""
  | RemediationPhaseRunning => "Running"
  | RemediationPhaseWaiting => "Waiting"
  | RemediationPhaseDeleting => "Deleting"
  | RemediationPhaseOther s => s
  end.

(** The action a host release authorizes. *)
Inductive HostReleaseAction :=
| HostReleaseActionWipeAndReinstall
| HostReleaseActionOther (s : string).

#[export] Instance HostReleaseAction_eq_dec : EqDecision HostReleaseAction.
Proof. solve_decision. Defined.

Definition actionString (x : HostReleaseAction) : string :=
  match x with
  | HostReleaseActionWipeAndReinstall => "WipeAndReinstall"
  | HostReleaseActionOther s => s
  end.

(** ** Metadata, Kubernetes and Cluster API types *)

Record NamespacedName := MkNamespacedName {
  nn_Namespace : string;
  nn_Name : string
}.

#[export] Instance set_nn_Namespace : Setter nn_Namespace := fun v r => MkNamespacedName v (nn_Name r).
#[export] Instance set_nn_Name : Setter nn_Name := fun v r => MkNamespacedName (nn_Namespace r) v.

#[export] Instance NamespacedName_eq_dec : EqDecision NamespacedName.
Proof. solve_decision. Defined.

Record OwnerReference := MkOwnerReference {
  or_APIVersion : string;
  or_Kind : string;
  or_Name : string;
  or_UID : string
}.

#[export] Instance set_or_APIVersion : Setter or_APIVersion := fun v r => MkOwnerReference v (or_Kind r) (or_Name r) (or_UID r).
#[export] Instance set_or_Kind : Setter or_Kind := fun v r => MkOwnerReference (or_APIVersion r) v (or_Name r) (or_UID r).
#[export] Instance set_or_Name : Setter or_Name := fun v r => MkOwnerReference (or_APIVersion r) (or_Kind r) v (or_UID r).
#[export] Instance set_or_UID : Setter or_UID := fun v r => MkOwnerReference (or_APIVersion r) (or_Kind r) (or_Name r) v.

(** metav1.ObjectMeta. *)
Record ObjectMeta := MkObjectMeta {
  Name : string;
  Namespace : string;
  UID : string;
  Labels : gmap string string;
  Finalizers : list string;
  DeletionTimestamp : option Z;
  OwnerReferences : list OwnerReference
}.

#[export] Instance set_Name : Setter Name := fun v r => MkObjectMeta v (Namespace r) (UID r) (Labels r) (Finalizers r) (DeletionTimestamp r) (OwnerReferences r).
#[export] Instance set_Namespace : Setter Namespace := fun v r => MkObjectMeta (Name r) v (UID r) (Labels r) (Finalizers r) (DeletionTimestamp r) (OwnerReferences r).
#[export] Instance set_UID : Setter UID := fun v r => MkObjectMeta (Name r) (Namespace r) v (Labels r) (Finalizers r) (DeletionTimestamp r) (OwnerReferences r).
#[export] Instance set_Labels : Setter Labels := fun v r => MkObjectMeta (Name r) (Namespace r) (UID r) v (Finalizers r) (DeletionTimestamp r) (OwnerReferences r).
#[export] Instance set_Finalizers : Setter Finalizers := fun v r => MkObjectMeta (Name r) (Namespace r) (UID r) (Labels r) v (DeletionTimestamp r) (OwnerReferences r).
#[export] Instance set_DeletionTimestamp : Setter DeletionTimestamp := fun v r => MkObjectMeta (Name r) (Namespace r) (UID r) (Labels r) (Finalizers r) v (OwnerReferences r).
#[export] Instance set_OwnerReferences : Setter OwnerReferences := fun v r => MkObjectMeta (Name r) (Namespace r) (UID r) (Labels r) (Finalizers r) (DeletionTimestamp r) v.

(** clusterv1.Condition. *)
Record Condition := MkCondition {
  c_Type : string;
  c_Status : string;
  c_Severity : string;
  c_Reason : string;
  c_Message : string
}.

#[export] Instance set_c_Type : Setter c_Type := fun v r => MkCondition v (c_Status r) (c_Severity r) (c_Reason r) (c_Message r).
#[export] Instance set_c_Status : Setter c_Status := fun v r => MkCondition (c_Type r) v (c_Severity r) (c_Reason r) (c_Message r).
#[export] Instance set_c_Severity : Setter c_Severity := fun v r => MkCondition (c_Type r) (c_Status r) v (c_Reason r) (c_Message r).
#[export] Instance set_c_Reason : Setter c_Reason := fun v r => MkCondition (c_Type r) (c_Status r) (c_Severity r) v (c_Message r).
#[export] Instance set_c_Message : Setter c_Message := fun v r => MkCondition (c_Type r) (c_Status r) (c_Severity r) (c_Reason r) v.

(** clusterv1.MachineAddress. *)
Record MachineAddress := MkMachineAddress {
  ma_Type : string;
  ma_Address : string
}.

#[export] Instance set_ma_Type : Setter ma_Type := fun v r => MkMachineAddress v (ma_Address r).
#[export] Instance set_ma_Address : Setter ma_Address := fun v r => MkMachineAddress (ma_Type r) v.

(** metav1.LabelSelector: equality requirements, and (key, operator, values) expressions. *)
Record LabelSelector := MkLabelSelector {
  sel_MatchLabels : list (string * string);
  sel_MatchExpressions : list (string * string * list string)
}.

#[export] Instance set_sel_MatchLabels : Setter sel_MatchLabels := fun v r => MkLabelSelector v (sel_MatchExpressions r).
#[export] Instance set_sel_MatchExpressions : Setter sel_MatchExpressions := fun v r => MkLabelSelector (sel_MatchLabels r) v.

Record SecretReference := MkSecretReference {
  sr_Name : string;
  sr_Namespace : string
}.

#[export] Instance set_sr_Name : Setter sr_Name := fun v r => MkSecretReference v (sr_Namespace r).
#[export] Instance set_sr_Namespace : Setter sr_Namespace := fun v r => MkSecretReference (sr_Name r) v.

Record Secret := MkSecret {
  sec_Meta : ObjectMeta;
  sec_Data : gmap string string
}.

#[export] Instance set_sec_Meta : Setter sec_Meta := fun v r => MkSecret v (sec_Data r).
#[export] Instance set_sec_Data : Setter sec_Data := fun v r => MkSecret (sec_Meta r) v.

(** clusterv1.Machine: Spec.Bootstrap.DataSecretName, Spec.InfrastructureRef.Name, Status.NodeRef (its name) and Status.Conditions. *)
Record Machine := MkMachine {
  m_Meta : ObjectMeta;
  m_DataSecretName : option string;
  m_InfrastructureRefName : string;
  m_NodeRef : option string;
  m_Conditions : list Condition
}.

#[export] Instance set_m_Meta : Setter m_Meta := fun v r => MkMachine v (m_DataSecretName r) (m_InfrastructureRefName r) (m_NodeRef r) (m_Conditions r).
#[export] Instance set_m_DataSecretName : Setter m_DataSecretName := fun v r => MkMachine (m_Meta r) v (m_InfrastructureRefName r) (m_NodeRef r) (m_Conditions r).
#[export] Instance set_m_InfrastructureRefName : Setter m_InfrastructureRefName := fun v r => MkMachine (m_Meta r) (m_DataSecretName r) v (m_NodeRef r) (m_Conditions r).
#[export] Instance set_m_NodeRef : Setter m_NodeRef := fun v r => MkMachine (m_Meta r) (m_DataSecretName r) (m_InfrastructureRefName r) v (m_Conditions r).
#[export] Instance set_m_Conditions : Setter m_Conditions := fun v r => MkMachine (m_Meta r) (m_DataSecretName r) (m_InfrastructureRefName r) (m_NodeRef r) v.

(** clusterv1.Cluster. *)
Record Cluster := MkCluster {
  cl_Meta : ObjectMeta;
  cl_Paused : bool;
  cl_InfrastructureRef : option NamespacedName
}.

#[export] Instance set_cl_Meta : Setter cl_Meta := fun v r => MkCluster v (cl_Paused r) (cl_InfrastructureRef r).
#[export] Instance set_cl_Paused : Setter cl_Paused := fun v r => MkCluster (cl_Meta r) v (cl_InfrastructureRef r).
#[export] Instance set_cl_InfrastructureRef : Setter cl_InfrastructureRef := fun v r => MkCluster (cl_Meta r) (cl_Paused r) v.

(** ** HetznerRobotMachine *)

Definition MachineFinalizer : string := "hetznerrobotmachine.infrastructure.cluster.x-k8s.io".
Definition ReadyCondition : string := "Ready".

Definition OSTypeTalos : string := "talos".
Definition OSTypeFlatcar : string := "flatcar".

(** [ms_HostRef] is the name inside the LocalObjectReference. *)
Record HetznerRobotMachineSpec := MkHRMSpec {
  ms_ProviderID : option string;
  ms_HostRef : option string;
  ms_HostSelector : option LabelSelector;
  ms_OSType : string;
  ms_TalosSchematic : string;
  ms_TalosVersion : string;
  ms_FlatcarChannel : string;
  ms_InstallDisk : string;
  ms_CustomImageURL : string;
  ms_EphemeralSize : string
}.

#[export] Instance set_ms_ProviderID : Setter ms_ProviderID := fun v r => MkHRMSpec v (ms_HostRef r) (ms_HostSelector r) (ms_OSType r) (ms_TalosSchematic r) (ms_TalosVersion r) (ms_FlatcarChannel r) (ms_InstallDisk r) (ms_CustomImageURL r) (ms_EphemeralSize r).
#[export] Instance set_ms_HostRef : Setter ms_HostRef := fun v r => MkHRMSpec (ms_ProviderID r) v (ms_HostSelector r) (ms_OSType r) (ms_TalosSchematic r) (ms_TalosVersion r) (ms_FlatcarChannel r) (ms_InstallDisk r) (ms_CustomImageURL r) (ms_EphemeralSize r).
#[export] Instance set_ms_HostSelector : Setter ms_HostSelector := fun v r => MkHRMSpec (ms_ProviderID r) (ms_HostRef r) v (ms_OSType r) (ms_TalosSchematic r) (ms_TalosVersion r) (ms_FlatcarChannel r) (ms_InstallDisk r) (ms_CustomImageURL r) (ms_EphemeralSize r).
#[export] Instance set_ms_OSType : Setter ms_OSType := fun v r => MkHRMSpec (ms_ProviderID r) (ms_HostRef r) (ms_HostSelector r) v (ms_TalosSchematic r) (ms_TalosVersion r) (ms_FlatcarChannel r) (ms_InstallDisk r) (ms_CustomImageURL r) (ms_EphemeralSize r).
#[export] Instance set_ms_TalosSchematic : Setter ms_TalosSchematic := fun v r => MkHRMSpec (ms_ProviderID r) (ms_HostRef r) (ms_HostSelector r) (ms_OSType r) v (ms_TalosVersion r) (ms_FlatcarChannel r) (ms_InstallDisk r) (ms_CustomImageURL r) (ms_EphemeralSize r).
#[export] Instance set_ms_TalosVersion : Setter ms_TalosVersion := fun v r => MkHRMSpec (ms_ProviderID r) (ms_HostRef r) (ms_HostSelector r) (ms_OSType r) (ms_TalosSchematic r) v (ms_FlatcarChannel r) (ms_InstallDisk r) (ms_CustomImageURL r) (ms_EphemeralSize r).
#[export] Instance set_ms_FlatcarChannel : Setter ms_FlatcarChannel := fun v r => MkHRMSpec (ms_ProviderID r) (ms_HostRef r) (ms_HostSelector r) (ms_OSType r) (ms_TalosSchematic r) (ms_TalosVersion r) v (ms_InstallDisk r) (ms_CustomImageURL r) (ms_EphemeralSize r).
#[export] Instance set_ms_InstallDisk : Setter ms_InstallDisk := fun v r => MkHRMSpec (ms_ProviderID r) (ms_HostRef r) (ms_HostSelector r) (ms_OSType r) (ms_TalosSchematic r) (ms_TalosVersion r) (ms_FlatcarChannel r) v (ms_CustomImageURL r) (ms_EphemeralSize r).
#[export] Instance set_ms_CustomImageURL : Setter ms_CustomImageURL := fun v r => MkHRMSpec (ms_ProviderID r) (ms_HostRef r) (ms_HostSelector r) (ms_OSType r) (ms_TalosSchematic r) (ms_TalosVersion r) (ms_FlatcarChannel r) (ms_InstallDisk r) v (ms_EphemeralSize r).
#[export] Instance set_ms_EphemeralSize : Setter ms_EphemeralSize := fun v r => MkHRMSpec (ms_ProviderID r) (ms_HostRef r) (ms_HostSelector r) (ms_OSType r) (ms_TalosSchematic r) (ms_TalosVersion r) (ms_FlatcarChannel r) (ms_InstallDisk r) (ms_CustomImageURL r) v.

(** [mst_Initialization] is the Provisioned field of the initialization struct. *)
Record HetznerRobotMachineStatus := MkHRMStatus {
  mst_Ready : bool;
  mst_Initialization : option bool;
  mst_Addresses : list MachineAddress;
  mst_ProvisioningState : ProvisioningState;
  mst_HostRef : string;
  mst_PrimaryMAC : string;
  mst_GatewayIP : string;
  mst_ResolvedInstallDisk : string;
  mst_FailureReason : option string;
  mst_FailureMessage : option string;
  mst_ProvisionStarted : option Z;
  mst_RetryCount : Z;
  mst_LastRetryTimestamp : option Z;
  mst_LastResetTime : option Z;
  mst_Conditions : list Condition
}.

#[export] Instance set_mst_Ready : Setter mst_Ready := fun v r => MkHRMStatus v (mst_Initialization r) (mst_Addresses r) (mst_ProvisioningState r) (mst_HostRef r) (mst_PrimaryMAC r) (mst_GatewayIP r) (mst_ResolvedInstallDisk r) (mst_FailureReason r) (mst_FailureMessage r) (mst_ProvisionStarted r) (mst_RetryCount r) (mst_LastRetryTimestamp r) (mst_LastResetTime r) (mst_Conditions r).
#[export] Instance set_mst_Initialization : Setter mst_Initialization := fun v r => MkHRMStatus (mst_Ready r) v (mst_Addresses r) (mst_ProvisioningState r) (mst_HostRef r) (mst_PrimaryMAC r) (mst_GatewayIP r) (mst_ResolvedInstallDisk r) (mst_FailureReason r) (mst_FailureMessage r) (mst_ProvisionStarted r) (mst_RetryCount r) (mst_LastRetryTimestamp r) (mst_LastResetTime r) (mst_Conditions r).
#[export] Instance set_mst_Addresses : Setter mst_Addresses := fun v r => MkHRMStatus (mst_Ready r) (mst_Initialization r) v (mst_ProvisioningState r) (mst_HostRef r) (mst_PrimaryMAC r) (mst_GatewayIP r) (mst_ResolvedInstallDisk r) (mst_FailureReason r) (mst_FailureMessage r) (mst_ProvisionStarted r) (mst_RetryCount r) (mst_LastRetryTimestamp r) (mst_LastResetTime r) (mst_Conditions r).
#[export] Instance set_mst_ProvisioningState : Setter mst_ProvisioningState := fun v r => MkHRMStatus (mst_Ready r) (mst_Initialization r) (mst_Addresses r) v (mst_HostRef r) (mst_PrimaryMAC r) (mst_GatewayIP r) (mst_ResolvedInstallDisk r) (mst_FailureReason r) (mst_FailureMessage r) (mst_ProvisionStarted r) (mst_RetryCount r) (mst_LastRetryTimestamp r) (mst_LastResetTime r) (mst_Conditions r).
#[export] Instance set_mst_HostRef : Setter mst_HostRef := fun v r => MkHRMStatus (mst_Ready r) (mst_Initialization r) (mst_Addresses r) (mst_ProvisioningState r) v (mst_PrimaryMAC r) (mst_GatewayIP r) (mst_ResolvedInstallDisk r) (mst_FailureReason r) (mst_FailureMessage r) (mst_ProvisionStarted r) (mst_RetryCount r) (mst_LastRetryTimestamp r) (mst_LastResetTime r) (mst_Conditions r).
#[export] Instance set_mst_PrimaryMAC : Setter mst_PrimaryMAC := fun v r => MkHRMStatus (mst_Ready r) (mst_Initialization r) (mst_Addresses r) (mst_ProvisioningState r) (mst_HostRef r) v (mst_GatewayIP r) (mst_ResolvedInstallDisk r) (mst_FailureReason r) (mst_FailureMessage r) (mst_ProvisionStarted r) (mst_RetryCount r) (mst_LastRetryTimestamp r) (mst_LastResetTime r) (mst_Conditions r).
#[export] Instance set_mst_GatewayIP : Setter mst_GatewayIP := fun v r => MkHRMStatus (mst_Ready r) (mst_Initialization r) (mst_Addresses r) (mst_ProvisioningState r) (mst_HostRef r) (mst_PrimaryMAC r) v (mst_ResolvedInstallDisk r) (mst_FailureReason r) (mst_FailureMessage r) (mst_ProvisionStarted r) (mst_RetryCount r) (mst_LastRetryTimestamp r) (mst_LastResetTime r) (mst_Conditions r).
#[export] Instance set_mst_ResolvedInstallDisk : Setter mst_ResolvedInstallDisk := fun v r => MkHRMStatus (mst_Ready r) (mst_Initialization r) (mst_Addresses r) (mst_ProvisioningState r) (mst_HostRef r) (mst_PrimaryMAC r) (mst_GatewayIP r) v (mst_FailureReason r) (mst_FailureMessage r) (mst_ProvisionStarted r) (mst_RetryCount r) (mst_LastRetryTimestamp r) (mst_LastResetTime r) (mst_Conditions r).
#[export] Instance set_mst_FailureReason : Setter mst_FailureReason := fun v r => MkHRMStatus (mst_Ready r) (mst_Initialization r) (mst_Addresses r) (mst_ProvisioningState r) (mst_HostRef r) (mst_PrimaryMAC r) (mst_GatewayIP r) (mst_ResolvedInstallDisk r) v (mst_FailureMessage r) (mst_ProvisionStarted r) (mst_RetryCount r) (mst_LastRetryTimestamp r) (mst_LastResetTime r) (mst_Conditions r).
#[export] Instance set_mst_FailureMessage : Setter mst_FailureMessage := fun v r => MkHRMStatus (mst_Ready r) (mst_Initialization r) (mst_Addresses r) (mst_ProvisioningState r) (mst_HostRef r) (mst_PrimaryMAC r) (mst_GatewayIP r) (mst_ResolvedInstallDisk r) (mst_FailureReason r) v (mst_ProvisionStarted r) (mst_RetryCount r) (mst_LastRetryTimestamp r) (mst_LastResetTime r) (mst_Conditions r).
#[export] Instance set_mst_ProvisionStarted : Setter mst_ProvisionStarted := fun v r => MkHRMStatus (mst_Ready r) (mst_Initialization r) (mst_Addresses r) (mst_ProvisioningState r) (mst_HostRef r) (mst_PrimaryMAC r) (mst_GatewayIP r) (mst_ResolvedInstallDisk r) (mst_FailureReason r) (mst_FailureMessage r) v (mst_RetryCount r) (mst_LastRetryTimestamp r) (mst_LastResetTime r) (mst_Conditions r).
#[export] Instance set_mst_RetryCount : Setter mst_RetryCount := fun v r => MkHRMStatus (mst_Ready r) (mst_Initialization r) (mst_Addresses r) (mst_ProvisioningState r) (mst_HostRef r) (mst_PrimaryMAC r) (mst_GatewayIP r) (mst_ResolvedInstallDisk r) (mst_FailureReason r) (mst_FailureMessage r) (mst_ProvisionStarted r) v (mst_LastRetryTimestamp r) (mst_LastResetTime r) (mst_Conditions r).
#[export] Instance set_mst_LastRetryTimestamp : Setter mst_LastRetryTimestamp := fun v r => MkHRMStatus (mst_Ready r) (mst_Initialization r) (mst_Addresses r) (mst_ProvisioningState r) (mst_HostRef r) (mst_PrimaryMAC r) (mst_GatewayIP r) (mst_ResolvedInstallDisk r) (mst_FailureReason r) (mst_FailureMessage r) (mst_ProvisionStarted r) (mst_RetryCount r) v (mst_LastResetTime r) (mst_Conditions r).
#[export] Instance set_mst_LastResetTime : Setter mst_LastResetTime := fun v r => MkHRMStatus (mst_Ready r) (mst_Initialization r) (mst_Addresses r) (mst_ProvisioningState r) (mst_HostRef r) (mst_PrimaryMAC r) (mst_GatewayIP r) (mst_ResolvedInstallDisk r) (mst_FailureReason r) (mst_FailureMessage r) (mst_ProvisionStarted r) (mst_RetryCount r) (mst_LastRetryTimestamp r) v (mst_Conditions r).
#[export] Instance set_mst_Conditions : Setter mst_Conditions := fun v r => MkHRMStatus (mst_Ready r) (mst_Initialization r) (mst_Addresses r) (mst_ProvisioningState r) (mst_HostRef r) (mst_PrimaryMAC r) (mst_GatewayIP r) (mst_ResolvedInstallDisk r) (mst_FailureReason r) (mst_FailureMessage r) (mst_ProvisionStarted r) (mst_RetryCount r) (mst_LastRetryTimestamp r) (mst_LastResetTime r) v.

Record HetznerRobotMachine := MkHRM {
  hrm_Meta : ObjectMeta;
  hrm_Spec : HetznerRobotMachineSpec;
  hrm_Status : HetznerRobotMachineStatus
}.

#[export] Instance set_hrm_Meta : Setter hrm_Meta := fun v r => MkHRM v (hrm_Spec r) (hrm_Status r).
#[export] Instance set_hrm_Spec : Setter hrm_Spec := fun v r => MkHRM (hrm_Meta r) v (hrm_Status r).
#[export] Instance set_hrm_Status : Setter hrm_Status := fun v r => MkHRM (hrm_Meta r) (hrm_Spec r) v.

(** ** HetznerRobotHost *)

Definition HostFinalizer : string := "hetznerrobothost.infrastructure.cluster.x-k8s.io".

Record MachineReference := MkMachineReference {
  mr_Name : string;
  mr_Namespace : string
}.

#[export] Instance set_mr_Name : Setter mr_Name := fun v r => MkMachineReference v (mr_Namespace r).
#[export] Instance set_mr_Namespace : Setter mr_Namespace := fun v r => MkMachineReference (mr_Name r) v.

#[export] Instance MachineReference_eq_dec : EqDecision MachineReference.
Proof. solve_decision. Defined.

Record HostHardwareDetails := MkHostHardwareDetails {
  hd_PrimaryMAC : string;
  hd_GatewayIP : string;
  hd_NVMeDisks : list string;
  hd_CephDisks : list string;
  hd_ByIDPaths : gmap string string
}.

#[export] Instance set_hd_PrimaryMAC : Setter hd_PrimaryMAC := fun v r => MkHostHardwareDetails v (hd_GatewayIP r) (hd_NVMeDisks r) (hd_CephDisks r) (hd_ByIDPaths r).
#[export] Instance set_hd_GatewayIP : Setter hd_GatewayIP := fun v r => MkHostHardwareDetails (hd_PrimaryMAC r) v (hd_NVMeDisks r) (hd_CephDisks r) (hd_ByIDPaths r).
#[export] Instance set_hd_NVMeDisks : Setter hd_NVMeDisks := fun v r => MkHostHardwareDetails (hd_PrimaryMAC r) (hd_GatewayIP r) v (hd_CephDisks r) (hd_ByIDPaths r).
#[export] Instance set_hd_CephDisks : Setter hd_CephDisks := fun v r => MkHostHardwareDetails (hd_PrimaryMAC r) (hd_GatewayIP r) (hd_NVMeDisks r) v (hd_ByIDPaths r).
#[export] Instance set_hd_ByIDPaths : Setter hd_ByIDPaths := fun v r => MkHostHardwareDetails (hd_PrimaryMAC r) (hd_GatewayIP r) (hd_NVMeDisks r) (hd_CephDisks r) v.

Record HetznerRobotHostSpec := MkHRHSpec {
  hs_ServerID : Z;
  hs_ServerIP : string;
  hs_ServerIPv6Net : string;
  hs_InternalIP : string;
  hs_InstallDisk : string;
  hs_LifecycleClass : HostLifecycleClass;
  hs_MaintenanceMode : bool;
  hs_DestructiveProvisioningPolicy : DestructiveProvisioningPolicy
}.

#[export] Instance set_hs_ServerID : Setter hs_ServerID := fun v r => MkHRHSpec v (hs_ServerIP r) (hs_ServerIPv6Net r) (hs_InternalIP r) (hs_InstallDisk r) (hs_LifecycleClass r) (hs_MaintenanceMode r) (hs_DestructiveProvisioningPolicy r).
#[export] Instance set_hs_ServerIP : Setter hs_ServerIP := fun v r => MkHRHSpec (hs_ServerID r) v (hs_ServerIPv6Net r) (hs_InternalIP r) (hs_InstallDisk r) (hs_LifecycleClass r) (hs_MaintenanceMode r) (hs_DestructiveProvisioningPolicy r).
#[export] Instance set_hs_ServerIPv6Net : Setter hs_ServerIPv6Net := fun v r => MkHRHSpec (hs_ServerID r) (hs_ServerIP r) v (hs_InternalIP r) (hs_InstallDisk r) (hs_LifecycleClass r) (hs_MaintenanceMode r) (hs_DestructiveProvisioningPolicy r).
#[export] Instance set_hs_InternalIP : Setter hs_InternalIP := fun v r => MkHRHSpec (hs_ServerID r) (hs_ServerIP r) (hs_ServerIPv6Net r) v (hs_InstallDisk r) (hs_LifecycleClass r) (hs_MaintenanceMode r) (hs_DestructiveProvisioningPolicy r).
#[export] Instance set_hs_InstallDisk : Setter hs_InstallDisk := fun v r => MkHRHSpec (hs_ServerID r) (hs_ServerIP r) (hs_ServerIPv6Net r) (hs_InternalIP r) v (hs_LifecycleClass r) (hs_MaintenanceMode r) (hs_DestructiveProvisioningPolicy r).
#[export] Instance set_hs_LifecycleClass : Setter hs_LifecycleClass := fun v r => MkHRHSpec (hs_ServerID r) (hs_ServerIP r) (hs_ServerIPv6Net r) (hs_InternalIP r) (hs_InstallDisk r) v (hs_MaintenanceMode r) (hs_DestructiveProvisioningPolicy r).
#[export] Instance set_hs_MaintenanceMode : Setter hs_MaintenanceMode := fun v r => MkHRHSpec (hs_ServerID r) (hs_ServerIP r) (hs_ServerIPv6Net r) (hs_InternalIP r) (hs_InstallDisk r) (hs_LifecycleClass r) v (hs_DestructiveProvisioningPolicy r).
#[export] Instance set_hs_DestructiveProvisioningPolicy : Setter hs_DestructiveProvisioningPolicy := fun v r => MkHRHSpec (hs_ServerID r) (hs_ServerIP r) (hs_ServerIPv6Net r) (hs_InternalIP r) (hs_InstallDisk r) (hs_LifecycleClass r) (hs_MaintenanceMode r) v.

Record HetznerRobotHostStatus := MkHRHStatus {
  hst_State : HostState;
  hst_ConsumerRef : option MachineReference;
  hst_MachineRef : option MachineReference;
  hst_HardwareDetails : option HostHardwareDetails;
  hst_LastConsumerRef : option MachineReference;
  hst_DirtyReason : string;
  hst_ErrorMessage : string
}.

#[export] Instance set_hst_State : Setter hst_State := fun v r => MkHRHStatus v (hst_ConsumerRef r) (hst_MachineRef r) (hst_HardwareDetails r) (hst_LastConsumerRef r) (hst_DirtyReason r) (hst_ErrorMessage r).
#[export] Instance set_hst_ConsumerRef : Setter hst_ConsumerRef := fun v r => MkHRHStatus (hst_State r) v (hst_MachineRef r) (hst_HardwareDetails r) (hst_LastConsumerRef r) (hst_DirtyReason r) (hst_ErrorMessage r).
#[export] Instance set_hst_MachineRef : Setter hst_MachineRef := fun v r => MkHRHStatus (hst_State r) (hst_ConsumerRef r) v (hst_HardwareDetails r) (hst_LastConsumerRef r) (hst_DirtyReason r) (hst_ErrorMessage r).
#[export] Instance set_hst_HardwareDetails : Setter hst_HardwareDetails := fun v r => MkHRHStatus (hst_State r) (hst_ConsumerRef r) (hst_MachineRef r) v (hst_LastConsumerRef r) (hst_DirtyReason r) (hst_ErrorMessage r).
#[export] Instance set_hst_LastConsumerRef : Setter hst_LastConsumerRef := fun v r => MkHRHStatus (hst_State r) (hst_ConsumerRef r) (hst_MachineRef r) (hst_HardwareDetails r) v (hst_DirtyReason r) (hst_ErrorMessage r).
#[export] Instance set_hst_DirtyReason : Setter hst_DirtyReason := fun v r => MkHRHStatus (hst_State r) (hst_ConsumerRef r) (hst_MachineRef r) (hst_HardwareDetails r) (hst_LastConsumerRef r) v (hst_ErrorMessage r).
#[export] Instance set_hst_ErrorMessage : Setter hst_ErrorMessage := fun v r => MkHRHStatus (hst_State r) (hst_ConsumerRef r) (hst_MachineRef r) (hst_HardwareDetails r) (hst_LastConsumerRef r) (hst_DirtyReason r) v.

Record HetznerRobotHost := MkHRH {
  hrh_Meta : ObjectMeta;
  hrh_Spec : HetznerRobotHostSpec;
  hrh_Status : HetznerRobotHostStatus
}.

#[export] Instance set_hrh_Meta : Setter hrh_Meta := fun v r => MkHRH v (hrh_Spec r) (hrh_Status r).
#[export] Instance set_hrh_Spec : Setter hrh_Spec := fun v r => MkHRH (hrh_Meta r) v (hrh_Status r).
#[export] Instance set_hrh_Status : Setter hrh_Status := fun v r => MkHRH (hrh_Meta r) (hrh_Spec r) v.

(** ** HetznerRobotHostRelease *)

Record ReleasedMachineReference := MkReleasedMachineReference {
  rm_Name : string;
  rm_Namespace : string;
  rm_UID : string
}.

#[export] Instance set_rm_Name : Setter rm_Name := fun v r => MkReleasedMachineReference v (rm_Namespace r) (rm_UID r).
#[export] Instance set_rm_Namespace : Setter rm_Namespace := fun v r => MkReleasedMachineReference (rm_Name r) v (rm_UID r).
#[export] Instance set_rm_UID : Setter rm_UID := fun v r => MkReleasedMachineReference (rm_Name r) (rm_Namespace r) v.

Record HetznerRobotHostReleaseSpec := MkReleaseSpec {
  rl_HostRefName : string;
  rl_MachineRef : ReleasedMachineReference;
  rl_ApprovedAction : HostReleaseAction;
  rl_ExpiresAt : Z;
  rl_Reason : string
}.

#[export] Instance set_rl_HostRefName : Setter rl_HostRefName := fun v r => MkReleaseSpec v (rl_MachineRef r) (rl_ApprovedAction r) (rl_ExpiresAt r) (rl_Reason r).
#[export] Instance set_rl_MachineRef : Setter rl_MachineRef := fun v r => MkReleaseSpec (rl_HostRefName r) v (rl_ApprovedAction r) (rl_ExpiresAt r) (rl_Reason r).
#[export] Instance set_rl_ApprovedAction : Setter rl_ApprovedAction := fun v r => MkReleaseSpec (rl_HostRefName r) (rl_MachineRef r) v (rl_ExpiresAt r) (rl_Reason r).
#[export] Instance set_rl_ExpiresAt : Setter rl_ExpiresAt := fun v r => MkReleaseSpec (rl_HostRefName r) (rl_MachineRef r) (rl_ApprovedAction r) v (rl_Reason r).
#[export] Instance set_rl_Reason : Setter rl_Reason := fun v r => MkReleaseSpec (rl_HostRefName r) (rl_MachineRef r) (rl_ApprovedAction r) (rl_ExpiresAt r) v.

(** The status of a release is reserved for the external gate; no controller reads it. *)
Record HetznerRobotHostRelease := MkRelease {
  rel_Meta : ObjectMeta;
  rel_Spec : HetznerRobotHostReleaseSpec
}.

#[export] Instance set_rel_Meta : Setter rel_Meta := fun v r => MkRelease v (rel_Spec r).
#[export] Instance set_rel_Spec : Setter rel_Spec := fun v r => MkRelease (rel_Meta r) v.

Record HetznerRobotHostReleaseStatus := MkReleaseStatus {
  rls_Authorized : bool;
  rls_Reason : string;
  rls_LastObservedTime : option Z
}.

#[export] Instance set_rls_Authorized : Setter rls_Authorized := fun v r => MkReleaseStatus v (rls_Reason r) (rls_LastObservedTime r).
#[export] Instance set_rls_Reason : Setter rls_Reason := fun v r => MkReleaseStatus (rls_Authorized r) v (rls_LastObservedTime r).
#[export] Instance set_rls_LastObservedTime : Setter rls_LastObservedTime := fun v r => MkReleaseStatus (rls_Authorized r) (rls_Reason r) v.

(** ** HetznerRobotCluster *)

Definition ClusterFinalizer : string := "hetznerrobotcluster.infrastructure.cluster.x-k8s.io".
Definition ClusterReadyCondition : string := "Ready".

Record VLANConfig := MkVLANConfig {
  vl_ID : Z;
  vl_PrefixLength : Z
}.

#[export] Instance set_vl_ID : Setter vl_ID := fun v r => MkVLANConfig v (vl_PrefixLength r).
#[export] Instance set_vl_PrefixLength : Setter vl_PrefixLength := fun v r => MkVLANConfig (vl_ID r) v.

(** [cs_EndpointHost] and [cs_EndpointPort] are the two fields of ControlPlaneEndpoint. *)
Record HetznerRobotClusterSpec := MkHRCSpec {
  cs_EndpointHost : string;
  cs_EndpointPort : Z;
  cs_RobotSecretRef : SecretReference;
  cs_SSHSecretRef : SecretReference;
  cs_TalosFactoryBaseURL : string;
  cs_VLANConfig : option VLANConfig
}.

#[export] Instance set_cs_EndpointHost : Setter cs_EndpointHost := fun v r => MkHRCSpec v (cs_EndpointPort r) (cs_RobotSecretRef r) (cs_SSHSecretRef r) (cs_TalosFactoryBaseURL r) (cs_VLANConfig r).
#[export] Instance set_cs_EndpointPort : Setter cs_EndpointPort := fun v r => MkHRCSpec (cs_EndpointHost r) v (cs_RobotSecretRef r) (cs_SSHSecretRef r) (cs_TalosFactoryBaseURL r) (cs_VLANConfig r).
#[export] Instance set_cs_RobotSecretRef : Setter cs_RobotSecretRef := fun v r => MkHRCSpec (cs_EndpointHost r) (cs_EndpointPort r) v (cs_SSHSecretRef r) (cs_TalosFactoryBaseURL r) (cs_VLANConfig r).
#[export] Instance set_cs_SSHSecretRef : Setter cs_SSHSecretRef := fun v r => MkHRCSpec (cs_EndpointHost r) (cs_EndpointPort r) (cs_RobotSecretRef r) v (cs_TalosFactoryBaseURL r) (cs_VLANConfig r).
#[export] Instance set_cs_TalosFactoryBaseURL : Setter cs_TalosFactoryBaseURL := fun v r => MkHRCSpec (cs_EndpointHost r) (cs_EndpointPort r) (cs_RobotSecretRef r) (cs_SSHSecretRef r) v (cs_VLANConfig r).
#[export] Instance set_cs_VLANConfig : Setter cs_VLANConfig := fun v r => MkHRCSpec (cs_EndpointHost r) (cs_EndpointPort r) (cs_RobotSecretRef r) (cs_SSHSecretRef r) (cs_TalosFactoryBaseURL r) v.

Record HetznerRobotClusterStatus := MkHRCStatus {
  cst_Ready : bool;
  cst_Initialization : option bool;
  cst_Conditions : list Condition
}.

#[export] Instance set_cst_Ready : Setter cst_Ready := fun v r => MkHRCStatus v (cst_Initialization r) (cst_Conditions r).
#[export] Instance set_cst_Initialization : Setter cst_Initialization := fun v r => MkHRCStatus (cst_Ready r) v (cst_Conditions r).
#[export] Instance set_cst_Conditions : Setter cst_Conditions := fun v r => MkHRCStatus (cst_Ready r) (cst_Initialization r) v.

Record HetznerRobotCluster := MkHRC {
  hrc_Meta : ObjectMeta;
  hrc_Spec : HetznerRobotClusterSpec;
  hrc_Status : HetznerRobotClusterStatus
}.

#[export] Instance set_hrc_Meta : Setter hrc_Meta := fun v r => MkHRC v (hrc_Spec r) (hrc_Status r).
#[export] Instance set_hrc_Spec : Setter hrc_Spec := fun v r => MkHRC (hrc_Meta r) v (hrc_Status r).
#[export] Instance set_hrc_Status : Setter hrc_Status := fun v r => MkHRC (hrc_Meta r) (hrc_Spec r) v.

(** ** HetznerRobotRemediation *)

Record RemediationStrategy := MkStrategy {
  st_Type : string;
  st_RetryLimit : Z;
  st_Timeout : Z
}.

#[export] Instance set_st_Type : Setter st_Type := fun v r => MkStrategy v (st_RetryLimit r) (st_Timeout r).
#[export] Instance set_st_RetryLimit : Setter st_RetryLimit := fun v r => MkStrategy (st_Type r) v (st_Timeout r).
#[export] Instance set_st_Timeout : Setter st_Timeout := fun v r => MkStrategy (st_Type r) (st_RetryLimit r) v.

Record HetznerRobotRemediationStatus := MkRemediationStatus {
  rs_Phase : RemediationPhase;
  rs_RetryCount : Z;
  rs_LastRemediated : option Z
}.

#[export] Instance set_rs_Phase : Setter rs_Phase := fun v r => MkRemediationStatus v (rs_RetryCount r) (rs_LastRemediated r).
#[export] Instance set_rs_RetryCount : Setter rs_RetryCount := fun v r => MkRemediationStatus (rs_Phase r) v (rs_LastRemediated r).
#[export] Instance set_rs_LastRemediated : Setter rs_LastRemediated := fun v r => MkRemediationStatus (rs_Phase r) (rs_RetryCount r) v.

(** [hrr_Strategy] is Spec.Strategy. *)
Record HetznerRobotRemediation := MkRemediation {
  hrr_Meta : ObjectMeta;
  hrr_Strategy : RemediationStrategy;
  hrr_Status : HetznerRobotRemediationStatus
}.

#[export] Instance set_hrr_Meta : Setter hrr_Meta := fun v r => MkRemediation v (hrr_Strategy r) (hrr_Status r).
#[export] Instance set_hrr_Strategy : Setter hrr_Strategy := fun v r => MkRemediation (hrr_Meta r) v (hrr_Status r).
#[export] Instance set_hrr_Status : Setter hrr_Status := fun v r => MkRemediation (hrr_Meta r) (hrr_Strategy r) v.

(** ** Templates *)

Record HetznerRobotMachineTemplateResource := MkMachineTemplateResource {
  mtr_Meta : ObjectMeta;
  mtr_Spec : HetznerRobotMachineSpec
}.

#[export] Instance set_mtr_Meta : Setter mtr_Meta := fun v r => MkMachineTemplateResource v (mtr_Spec r).
#[export] Instance set_mtr_Spec : Setter mtr_Spec := fun v r => MkMachineTemplateResource (mtr_Meta r) v.

(** [mt_Template] is Spec.Template; the status is empty. *)
Record HetznerRobotMachineTemplate := MkMachineTemplate {
  mt_Meta : ObjectMeta;
  mt_Template : HetznerRobotMachineTemplateResource
}.

#[export] Instance set_mt_Meta : Setter mt_Meta := fun v r => MkMachineTemplate v (mt_Template r).
#[export] Instance set_mt_Template : Setter mt_Template := fun v r => MkMachineTemplate (mt_Meta r) v.

(** [rtr_Strategy] is Spec.Strategy. *)
Record HetznerRobotRemediationTemplateResource := MkRemediationTemplateResource {
  rtr_Meta : ObjectMeta;
  rtr_Strategy : RemediationStrategy
}.

#[export] Instance set_rtr_Meta : Setter rtr_Meta := fun v r => MkRemediationTemplateResource v (rtr_Strategy r).
#[export] Instance set_rtr_Strategy : Setter rtr_Strategy := fun v r => MkRemediationTemplateResource (rtr_Meta r) v.

(** [rt_Template] is Spec.Template. *)
Record HetznerRobotRemediationTemplate := MkRemediationTemplate {
  rt_Meta : ObjectMeta;
  rt_Template : HetznerRobotRemediationTemplateResource
}.

#[export] Instance set_rt_Meta : Setter rt_Meta := fun v r => MkRemediationTemplate v (rt_Template r).
#[export] Instance set_rt_Template : Setter rt_Template := fun v r => MkRemediationTemplate (rt_Meta r) v.

(** ** Shorthands for fields two levels deep *)

Abbreviation hrm_Name x := (Name (hrm_Meta x)).
Abbreviation hrm_Namespace x := (Namespace (hrm_Meta x)).
Abbreviation hrh_Name x := (Name (hrh_Meta x)).
Abbreviation hrh_Namespace x := (Namespace (hrh_Meta x)).
Abbreviation m_Name x := (Name (m_Meta x)).
Abbreviation m_Namespace x := (Namespace (m_Meta x)).
Abbreviation m_UID x := (UID (m_Meta x)).
Abbreviation provisioningState x := (mst_ProvisioningState (hrm_Status x)).
Abbreviation statusHostRef x := (mst_HostRef (hrm_Status x)).

Abbreviation set_mst f v x := (x <| hrm_Status := (hrm_Status x) <| f := v |> |>) (only parsing).
Abbreviation set_ms f v x := (x <| hrm_Spec := (hrm_Spec x) <| f := v |> |>) (only parsing).
Abbreviation set_hst f v x := (x <| hrh_Status := (hrh_Status x) <| f := v |> |>) (only parsing).
Abbreviation set_hs f v x := (x <| hrh_Spec := (hrh_Spec x) <| f := v |> |>) (only parsing).
Abbreviation set_rs f v x := (x <| hrr_Status := (hrr_Status x) <| f := v |> |>) (only parsing).
