(* ===== verification/DeepCopy.v ===== *)
(** * Deep copies of the API objects

    api/v1alpha1/zz_generated.deepcopy.go: every [DeepCopyInto], [DeepCopy] and
    [DeepCopyObject], on the memory of Heap.  The controllers take a deep copy
    of an object as the base of a patch and then assign to the object, so a
    copy that shared memory with its original would hide changes from the API
    server.

    A struct as it is in memory, with pointers, slices and maps as references,
    has a name ending in M; its value is the Api record of the same name.  The
    copy methods of Kubernetes and Cluster API structs are the class
    [K8sCopies], with their contract in [K8sCopiesLaws]: they share nothing.
    [DeepCopyInto] takes the struct [*in] and returns the struct it leaves in
    [*out]. *)

From S2P Require Import Prelude Heap GoStrings Api.

(** ** Third-party structs

    The metadata structs, label selectors and conditions in memory, and the
    cells their pointers lead to. *)
Class K8sTypes := {
  k8s_cell : Set;
  #[global] k8s_cell_eq_dec :: EqDecision k8s_cell;
  k8s_sem : k8s_cell -> Type;
  ObjectMetaM : Type;
  ListMetaM : Type;
  ListMeta : Type;
  LabelSelectorM : Type;
  ConditionM : Type
}.

Record TypeMeta := MkTypeMeta { tm_Kind : string; tm_APIVersion : string }.

(** ** Types of cells *)

Inductive gobase `{K8sTypes} : Set :=
| TString
| TTime
| TStringMap
| TLocalObjectReference
| TMachineAddress
| TCondition
| TLabelSelector
| THetznerRobotCluster
| THetznerRobotClusterList
| THetznerRobotClusterSpec
| THetznerRobotClusterInitialization
| THetznerRobotClusterStatus
| THetznerRobotMachine
| THetznerRobotMachineList
| THetznerRobotMachineSpec
| TInfrastructureMachineInitialization
| THetznerRobotMachineStatus
| THetznerRobotMachineTemplate
| THetznerRobotMachineTemplateList
| THetznerRobotMachineTemplateSpec
| THetznerRobotMachineTemplateResource
| THetznerRobotMachineTemplateStatus
| THetznerRobotHost
| THetznerRobotHostList
| THetznerRobotHostSpec
| THetznerRobotHostStatus
| THetznerRobotHostRelease
| THetznerRobotHostReleaseList
| THetznerRobotHostReleaseSpec
| THetznerRobotHostReleaseStatus
| THostHardwareDetails
| TMachineReference
| TReleasedMachineReference
| TVLANConfig
| THetznerRobotRemediation
| THetznerRobotRemediationList
| THetznerRobotRemediationSpec
| THetznerRobotRemediationStatus
| TRemediationStrategy
| THetznerRobotRemediationTemplate
| THetznerRobotRemediationTemplateList
| THetznerRobotRemediationTemplateSpec
| THetznerRobotRemediationTemplateResource
| TForeign (c : k8s_cell).

#[export] Instance gobase_eq_dec `{K8sTypes} : EqDecision gobase.
Proof. solve_decision. Defined.

(** ** The structs in memory *)


Record HetznerRobotClusterSpecM `{K8sTypes} := InClusterSpec {
  pcs_EndpointHost : string;
  pcs_EndpointPort : Z;
  pcs_RobotSecretRef : SecretReference;
  pcs_SSHSecretRef : SecretReference;
  pcs_TalosFactoryBaseURL : string;
  pcs_VLANConfig : ptr (Base TVLANConfig)
}.
Arguments InClusterSpec {_}.

#[export] Instance set_pcs_EndpointHost `{K8sTypes} : Setter pcs_EndpointHost := fun v r => InClusterSpec v (pcs_EndpointPort r) (pcs_RobotSecretRef r) (pcs_SSHSecretRef r) (pcs_TalosFactoryBaseURL r) (pcs_VLANConfig r).
#[export] Instance set_pcs_EndpointPort `{K8sTypes} : Setter pcs_EndpointPort := fun v r => InClusterSpec (pcs_EndpointHost r) v (pcs_RobotSecretRef r) (pcs_SSHSecretRef r) (pcs_TalosFactoryBaseURL r) (pcs_VLANConfig r).
#[export] Instance set_pcs_RobotSecretRef `{K8sTypes} : Setter pcs_RobotSecretRef := fun v r => InClusterSpec (pcs_EndpointHost r) (pcs_EndpointPort r) v (pcs_SSHSecretRef r) (pcs_TalosFactoryBaseURL r) (pcs_VLANConfig r).
#[export] Instance set_pcs_SSHSecretRef `{K8sTypes} : Setter pcs_SSHSecretRef := fun v r => InClusterSpec (pcs_EndpointHost r) (pcs_EndpointPort r) (pcs_RobotSecretRef r) v (pcs_TalosFactoryBaseURL r) (pcs_VLANConfig r).
#[export] Instance set_pcs_TalosFactoryBaseURL `{K8sTypes} : Setter pcs_TalosFactoryBaseURL := fun v r => InClusterSpec (pcs_EndpointHost r) (pcs_EndpointPort r) (pcs_RobotSecretRef r) (pcs_SSHSecretRef r) v (pcs_VLANConfig r).
#[export] Instance set_pcs_VLANConfig `{K8sTypes} : Setter pcs_VLANConfig := fun v r => InClusterSpec (pcs_EndpointHost r) (pcs_EndpointPort r) (pcs_RobotSecretRef r) (pcs_SSHSecretRef r) (pcs_TalosFactoryBaseURL r) v.

Record HetznerRobotClusterStatusM `{K8sTypes} := InClusterStatus {
  pcst_Ready : bool;
  pcst_Initialization : ptr (Base THetznerRobotClusterInitialization);
  pcst_Conditions : ptr (Slice (Base TCondition))
}.
Arguments InClusterStatus {_}.

#[export] Instance set_pcst_Ready `{K8sTypes} : Setter pcst_Ready := fun v r => InClusterStatus v (pcst_Initialization r) (pcst_Conditions r).
#[export] Instance set_pcst_Initialization `{K8sTypes} : Setter pcst_Initialization := fun v r => InClusterStatus (pcst_Ready r) v (pcst_Conditions r).
#[export] Instance set_pcst_Conditions `{K8sTypes} : Setter pcst_Conditions := fun v r => InClusterStatus (pcst_Ready r) (pcst_Initialization r) v.

Record HetznerRobotMachineSpecM `{K8sTypes} := InMachineSpec {
  pms_ProviderID : ptr (Base TString);
  pms_HostRef : ptr (Base TLocalObjectReference);
  pms_HostSelector : ptr (Base TLabelSelector);
  pms_OSType : string;
  pms_TalosSchematic : string;
  pms_TalosVersion : string;
  pms_FlatcarChannel : string;
  pms_InstallDisk : string;
  pms_CustomImageURL : string;
  pms_EphemeralSize : string
}.
Arguments InMachineSpec {_}.

#[export] Instance set_pms_ProviderID `{K8sTypes} : Setter pms_ProviderID := fun v r => InMachineSpec v (pms_HostRef r) (pms_HostSelector r) (pms_OSType r) (pms_TalosSchematic r) (pms_TalosVersion r) (pms_FlatcarChannel r) (pms_InstallDisk r) (pms_CustomImageURL r) (pms_EphemeralSize r).
#[export] Instance set_pms_HostRef `{K8sTypes} : Setter pms_HostRef := fun v r => InMachineSpec (pms_ProviderID r) v (pms_HostSelector r) (pms_OSType r) (pms_TalosSchematic r) (pms_TalosVersion r) (pms_FlatcarChannel r) (pms_InstallDisk r) (pms_CustomImageURL r) (pms_EphemeralSize r).
#[export] Instance set_pms_HostSelector `{K8sTypes} : Setter pms_HostSelector := fun v r => InMachineSpec (pms_ProviderID r) (pms_HostRef r) v (pms_OSType r) (pms_TalosSchematic r) (pms_TalosVersion r) (pms_FlatcarChannel r) (pms_InstallDisk r) (pms_CustomImageURL r) (pms_EphemeralSize r).
#[export] Instance set_pms_OSType `{K8sTypes} : Setter pms_OSType := fun v r => InMachineSpec (pms_ProviderID r) (pms_HostRef r) (pms_HostSelector r) v (pms_TalosSchematic r) (pms_TalosVersion r) (pms_FlatcarChannel r) (pms_InstallDisk r) (pms_CustomImageURL r) (pms_EphemeralSize r).
#[export] Instance set_pms_TalosSchematic `{K8sTypes} : Setter pms_TalosSchematic := fun v r => InMachineSpec (pms_ProviderID r) (pms_HostRef r) (pms_HostSelector r) (pms_OSType r) v (pms_TalosVersion r) (pms_FlatcarChannel r) (pms_InstallDisk r) (pms_CustomImageURL r) (pms_EphemeralSize r).
#[export] Instance set_pms_TalosVersion `{K8sTypes} : Setter pms_TalosVersion := fun v r => InMachineSpec (pms_ProviderID r) (pms_HostRef r) (pms_HostSelector r) (pms_OSType r) (pms_TalosSchematic r) v (pms_FlatcarChannel r) (pms_InstallDisk r) (pms_CustomImageURL r) (pms_EphemeralSize r).
#[export] Instance set_pms_FlatcarChannel `{K8sTypes} : Setter pms_FlatcarChannel := fun v r => InMachineSpec (pms_ProviderID r) (pms_HostRef r) (pms_HostSelector r) (pms_OSType r) (pms_TalosSchematic r) (pms_TalosVersion r) v (pms_InstallDisk r) (pms_CustomImageURL r) (pms_EphemeralSize r).
#[export] Instance set_pms_InstallDisk `{K8sTypes} : Setter pms_InstallDisk := fun v r => InMachineSpec (pms_ProviderID r) (pms_HostRef r) (pms_HostSelector r) (pms_OSType r) (pms_TalosSchematic r) (pms_TalosVersion r) (pms_FlatcarChannel r) v (pms_CustomImageURL r) (pms_EphemeralSize r).
#[export] Instance set_pms_CustomImageURL `{K8sTypes} : Setter pms_CustomImageURL := fun v r => InMachineSpec (pms_ProviderID r) (pms_HostRef r) (pms_HostSelector r) (pms_OSType r) (pms_TalosSchematic r) (pms_TalosVersion r) (pms_FlatcarChannel r) (pms_InstallDisk r) v (pms_EphemeralSize r).
#[export] Instance set_pms_EphemeralSize `{K8sTypes} : Setter pms_EphemeralSize := fun v r => InMachineSpec (pms_ProviderID r) (pms_HostRef r) (pms_HostSelector r) (pms_OSType r) (pms_TalosSchematic r) (pms_TalosVersion r) (pms_FlatcarChannel r) (pms_InstallDisk r) (pms_CustomImageURL r) v.

Record HetznerRobotMachineStatusM `{K8sTypes} := InMachineStatus {
  pmst_Ready : bool;
  pmst_Initialization : ptr (Base TInfrastructureMachineInitialization);
  pmst_Addresses : ptr (Slice (Base TMachineAddress));
  pmst_ProvisioningState : ProvisioningState;
  pmst_HostRef : string;
  pmst_PrimaryMAC : string;
  pmst_GatewayIP : string;
  pmst_ResolvedInstallDisk : string;
  pmst_FailureReason : ptr (Base TString);
  pmst_FailureMessage : ptr (Base TString);
  pmst_ProvisionStarted : ptr (Base TTime);
  pmst_RetryCount : Z;
  pmst_LastRetryTimestamp : ptr (Base TTime);
  pmst_LastResetTime : ptr (Base TTime);
  pmst_Conditions : ptr (Slice (Base TCondition))
}.
Arguments InMachineStatus {_}.

#[export] Instance set_pmst_Ready `{K8sTypes} : Setter pmst_Ready := fun v r => InMachineStatus v (pmst_Initialization r) (pmst_Addresses r) (pmst_ProvisioningState r) (pmst_HostRef r) (pmst_PrimaryMAC r) (pmst_GatewayIP r) (pmst_ResolvedInstallDisk r) (pmst_FailureReason r) (pmst_FailureMessage r) (pmst_ProvisionStarted r) (pmst_RetryCount r) (pmst_LastRetryTimestamp r) (pmst_LastResetTime r) (pmst_Conditions r).
#[export] Instance set_pmst_Initialization `{K8sTypes} : Setter pmst_Initialization := fun v r => InMachineStatus (pmst_Ready r) v (pmst_Addresses r) (pmst_ProvisioningState r) (pmst_HostRef r) (pmst_PrimaryMAC r) (pmst_GatewayIP r) (pmst_ResolvedInstallDisk r) (pmst_FailureReason r) (pmst_FailureMessage r) (pmst_ProvisionStarted r) (pmst_RetryCount r) (pmst_LastRetryTimestamp r) (pmst_LastResetTime r) (pmst_Conditions r).
#[export] Instance set_pmst_Addresses `{K8sTypes} : Setter pmst_Addresses := fun v r => InMachineStatus (pmst_Ready r) (pmst_Initialization r) v (pmst_ProvisioningState r) (pmst_HostRef r) (pmst_PrimaryMAC r) (pmst_GatewayIP r) (pmst_ResolvedInstallDisk r) (pmst_FailureReason r) (pmst_FailureMessage r) (pmst_ProvisionStarted r) (pmst_RetryCount r) (pmst_LastRetryTimestamp r) (pmst_LastResetTime r) (pmst_Conditions r).
#[export] Instance set_pmst_ProvisioningState `{K8sTypes} : Setter pmst_ProvisioningState := fun v r => InMachineStatus (pmst_Ready r) (pmst_Initialization r) (pmst_Addresses r) v (pmst_HostRef r) (pmst_PrimaryMAC r) (pmst_GatewayIP r) (pmst_ResolvedInstallDisk r) (pmst_FailureReason r) (pmst_FailureMessage r) (pmst_ProvisionStarted r) (pmst_RetryCount r) (pmst_LastRetryTimestamp r) (pmst_LastResetTime r) (pmst_Conditions r).
#[export] Instance set_pmst_HostRef `{K8sTypes} : Setter pmst_HostRef := fun v r => InMachineStatus (pmst_Ready r) (pmst_Initialization r) (pmst_Addresses r) (pmst_ProvisioningState r) v (pmst_PrimaryMAC r) (pmst_GatewayIP r) (pmst_ResolvedInstallDisk r) (pmst_FailureReason r) (pmst_FailureMessage r) (pmst_ProvisionStarted r) (pmst_RetryCount r) (pmst_LastRetryTimestamp r) (pmst_LastResetTime r) (pmst_Conditions r).
#[export] Instance set_pmst_PrimaryMAC `{K8sTypes} : Setter pmst_PrimaryMAC := fun v r => InMachineStatus (pmst_Ready r) (pmst_Initialization r) (pmst_Addresses r) (pmst_ProvisioningState r) (pmst_HostRef r) v (pmst_GatewayIP r) (pmst_ResolvedInstallDisk r) (pmst_FailureReason r) (pmst_FailureMessage r) (pmst_ProvisionStarted r) (pmst_RetryCount r) (pmst_LastRetryTimestamp r) (pmst_LastResetTime r) (pmst_Conditions r).
#[export] Instance set_pmst_GatewayIP `{K8sTypes} : Setter pmst_GatewayIP := fun v r => InMachineStatus (pmst_Ready r) (pmst_Initialization r) (pmst_Addresses r) (pmst_ProvisioningState r) (pmst_HostRef r) (pmst_PrimaryMAC r) v (pmst_ResolvedInstallDisk r) (pmst_FailureReason r) (pmst_FailureMessage r) (pmst_ProvisionStarted r) (pmst_RetryCount r) (pmst_LastRetryTimestamp r) (pmst_LastResetTime r) (pmst_Conditions r).
#[export] Instance set_pmst_ResolvedInstallDisk `{K8sTypes} : Setter pmst_ResolvedInstallDisk := fun v r => InMachineStatus (pmst_Ready r) (pmst_Initialization r) (pmst_Addresses r) (pmst_ProvisioningState r) (pmst_HostRef r) (pmst_PrimaryMAC r) (pmst_GatewayIP r) v (pmst_FailureReason r) (pmst_FailureMessage r) (pmst_ProvisionStarted r) (pmst_RetryCount r) (pmst_LastRetryTimestamp r) (pmst_LastResetTime r) (pmst_Conditions r).
#[export] Instance set_pmst_FailureReason `{K8sTypes} : Setter pmst_FailureReason := fun v r => InMachineStatus (pmst_Ready r) (pmst_Initialization r) (pmst_Addresses r) (pmst_ProvisioningState r) (pmst_HostRef r) (pmst_PrimaryMAC r) (pmst_GatewayIP r) (pmst_ResolvedInstallDisk r) v (pmst_FailureMessage r) (pmst_ProvisionStarted r) (pmst_RetryCount r) (pmst_LastRetryTimestamp r) (pmst_LastResetTime r) (pmst_Conditions r).
#[export] Instance set_pmst_FailureMessage `{K8sTypes} : Setter pmst_FailureMessage := fun v r => InMachineStatus (pmst_Ready r) (pmst_Initialization r) (pmst_Addresses r) (pmst_ProvisioningState r) (pmst_HostRef r) (pmst_PrimaryMAC r) (pmst_GatewayIP r) (pmst_ResolvedInstallDisk r) (pmst_FailureReason r) v (pmst_ProvisionStarted r) (pmst_RetryCount r) (pmst_LastRetryTimestamp r) (pmst_LastResetTime r) (pmst_Conditions r).
#[export] Instance set_pmst_ProvisionStarted `{K8sTypes} : Setter pmst_ProvisionStarted := fun v r => InMachineStatus (pmst_Ready r) (pmst_Initialization r) (pmst_Addresses r) (pmst_ProvisioningState r) (pmst_HostRef r) (pmst_PrimaryMAC r) (pmst_GatewayIP r) (pmst_ResolvedInstallDisk r) (pmst_FailureReason r) (pmst_FailureMessage r) v (pmst_RetryCount r) (pmst_LastRetryTimestamp r) (pmst_LastResetTime r) (pmst_Conditions r).
#[export] Instance set_pmst_RetryCount `{K8sTypes} : Setter pmst_RetryCount := fun v r => InMachineStatus (pmst_Ready r) (pmst_Initialization r) (pmst_Addresses r) (pmst_ProvisioningState r) (pmst_HostRef r) (pmst_PrimaryMAC r) (pmst_GatewayIP r) (pmst_ResolvedInstallDisk r) (pmst_FailureReason r) (pmst_FailureMessage r) (pmst_ProvisionStarted r) v (pmst_LastRetryTimestamp r) (pmst_LastResetTime r) (pmst_Conditions r).
#[export] Instance set_pmst_LastRetryTimestamp `{K8sTypes} : Setter pmst_LastRetryTimestamp := fun v r => InMachineStatus (pmst_Ready r) (pmst_Initialization r) (pmst_Addresses r) (pmst_ProvisioningState r) (pmst_HostRef r) (pmst_PrimaryMAC r) (pmst_GatewayIP r) (pmst_ResolvedInstallDisk r) (pmst_FailureReason r) (pmst_FailureMessage r) (pmst_ProvisionStarted r) (pmst_RetryCount r) v (pmst_LastResetTime r) (pmst_Conditions r).
#[export] Instance set_pmst_LastResetTime `{K8sTypes} : Setter pmst_LastResetTime := fun v r => InMachineStatus (pmst_Ready r) (pmst_Initialization r) (pmst_Addresses r) (pmst_ProvisioningState r) (pmst_HostRef r) (pmst_PrimaryMAC r) (pmst_GatewayIP r) (pmst_ResolvedInstallDisk r) (pmst_FailureReason r) (pmst_FailureMessage r) (pmst_ProvisionStarted r) (pmst_RetryCount r) (pmst_LastRetryTimestamp r) v (pmst_Conditions r).
#[export] Instance set_pmst_Conditions `{K8sTypes} : Setter pmst_Conditions := fun v r => InMachineStatus (pmst_Ready r) (pmst_Initialization r) (pmst_Addresses r) (pmst_ProvisioningState r) (pmst_HostRef r) (pmst_PrimaryMAC r) (pmst_GatewayIP r) (pmst_ResolvedInstallDisk r) (pmst_FailureReason r) (pmst_FailureMessage r) (pmst_ProvisionStarted r) (pmst_RetryCount r) (pmst_LastRetryTimestamp r) (pmst_LastResetTime r) v.

Record HostHardwareDetailsM `{K8sTypes} := InHardwareDetails {
  phd_PrimaryMAC : string;
  phd_GatewayIP : string;
  phd_NVMeDisks : ptr (Slice (Base TString));
  phd_CephDisks : ptr (Slice (Base TString));
  phd_ByIDPaths : ptr (Base TStringMap)
}.
Arguments InHardwareDetails {_}.

#[export] Instance set_phd_PrimaryMAC `{K8sTypes} : Setter phd_PrimaryMAC := fun v r => InHardwareDetails v (phd_GatewayIP r) (phd_NVMeDisks r) (phd_CephDisks r) (phd_ByIDPaths r).
#[export] Instance set_phd_GatewayIP `{K8sTypes} : Setter phd_GatewayIP := fun v r => InHardwareDetails (phd_PrimaryMAC r) v (phd_NVMeDisks r) (phd_CephDisks r) (phd_ByIDPaths r).
#[export] Instance set_phd_NVMeDisks `{K8sTypes} : Setter phd_NVMeDisks := fun v r => InHardwareDetails (phd_PrimaryMAC r) (phd_GatewayIP r) v (phd_CephDisks r) (phd_ByIDPaths r).
#[export] Instance set_phd_CephDisks `{K8sTypes} : Setter phd_CephDisks := fun v r => InHardwareDetails (phd_PrimaryMAC r) (phd_GatewayIP r) (phd_NVMeDisks r) v (phd_ByIDPaths r).
#[export] Instance set_phd_ByIDPaths `{K8sTypes} : Setter phd_ByIDPaths := fun v r => InHardwareDetails (phd_PrimaryMAC r) (phd_GatewayIP r) (phd_NVMeDisks r) (phd_CephDisks r) v.

Record HetznerRobotHostStatusM `{K8sTypes} := InHostStatus {
  phst_State : HostState;
  phst_ConsumerRef : ptr (Base TMachineReference);
  phst_MachineRef : ptr (Base TMachineReference);
  phst_HardwareDetails : ptr (Base THostHardwareDetails);
  phst_LastConsumerRef : ptr (Base TMachineReference);
  phst_DirtyReason : string;
  phst_ErrorMessage : string
}.
Arguments InHostStatus {_}.

#[export] Instance set_phst_State `{K8sTypes} : Setter phst_State := fun v r => InHostStatus v (phst_ConsumerRef r) (phst_MachineRef r) (phst_HardwareDetails r) (phst_LastConsumerRef r) (phst_DirtyReason r) (phst_ErrorMessage r).
#[export] Instance set_phst_ConsumerRef `{K8sTypes} : Setter phst_ConsumerRef := fun v r => InHostStatus (phst_State r) v (phst_MachineRef r) (phst_HardwareDetails r) (phst_LastConsumerRef r) (phst_DirtyReason r) (phst_ErrorMessage r).
#[export] Instance set_phst_MachineRef `{K8sTypes} : Setter phst_MachineRef := fun v r => InHostStatus (phst_State r) (phst_ConsumerRef r) v (phst_HardwareDetails r) (phst_LastConsumerRef r) (phst_DirtyReason r) (phst_ErrorMessage r).
#[export] Instance set_phst_HardwareDetails `{K8sTypes} : Setter phst_HardwareDetails := fun v r => InHostStatus (phst_State r) (phst_ConsumerRef r) (phst_MachineRef r) v (phst_LastConsumerRef r) (phst_DirtyReason r) (phst_ErrorMessage r).
#[export] Instance set_phst_LastConsumerRef `{K8sTypes} : Setter phst_LastConsumerRef := fun v r => InHostStatus (phst_State r) (phst_ConsumerRef r) (phst_MachineRef r) (phst_HardwareDetails r) v (phst_DirtyReason r) (phst_ErrorMessage r).
#[export] Instance set_phst_DirtyReason `{K8sTypes} : Setter phst_DirtyReason := fun v r => InHostStatus (phst_State r) (phst_ConsumerRef r) (phst_MachineRef r) (phst_HardwareDetails r) (phst_LastConsumerRef r) v (phst_ErrorMessage r).
#[export] Instance set_phst_ErrorMessage `{K8sTypes} : Setter phst_ErrorMessage := fun v r => InHostStatus (phst_State r) (phst_ConsumerRef r) (phst_MachineRef r) (phst_HardwareDetails r) (phst_LastConsumerRef r) (phst_DirtyReason r) v.

Record HetznerRobotHostReleaseStatusM `{K8sTypes} := InReleaseStatus {
  prst_Authorized : bool;
  prst_Reason : string;
  prst_LastObservedTime : ptr (Base TTime)
}.
Arguments InReleaseStatus {_}.

#[export] Instance set_prst_Authorized `{K8sTypes} : Setter prst_Authorized := fun v r => InReleaseStatus v (prst_Reason r) (prst_LastObservedTime r).
#[export] Instance set_prst_Reason `{K8sTypes} : Setter prst_Reason := fun v r => InReleaseStatus (prst_Authorized r) v (prst_LastObservedTime r).
#[export] Instance set_prst_LastObservedTime `{K8sTypes} : Setter prst_LastObservedTime := fun v r => InReleaseStatus (prst_Authorized r) (prst_Reason r) v.

Record HetznerRobotRemediationStatusM `{K8sTypes} := InRemediationStatus {
  prs_Phase : RemediationPhase;
  prs_RetryCount : Z;
  prs_LastRemediated : ptr (Base TTime)
}.
Arguments InRemediationStatus {_}.

#[export] Instance set_prs_Phase `{K8sTypes} : Setter prs_Phase := fun v r => InRemediationStatus v (prs_RetryCount r) (prs_LastRemediated r).
#[export] Instance set_prs_RetryCount `{K8sTypes} : Setter prs_RetryCount := fun v r => InRemediationStatus (prs_Phase r) v (prs_LastRemediated r).
#[export] Instance set_prs_LastRemediated `{K8sTypes} : Setter prs_LastRemediated := fun v r => InRemediationStatus (prs_Phase r) (prs_RetryCount r) v.

Record HetznerRobotMachineTemplateResourceM `{K8sTypes} := InMachineTemplateResource {
  pmtr_Meta : ObjectMetaM;
  pmtr_Spec : HetznerRobotMachineSpecM
}.
Arguments InMachineTemplateResource {_}.

#[export] Instance set_pmtr_Meta `{K8sTypes} : Setter pmtr_Meta := fun v r => InMachineTemplateResource v (pmtr_Spec r).
#[export] Instance set_pmtr_Spec `{K8sTypes} : Setter pmtr_Spec := fun v r => InMachineTemplateResource (pmtr_Meta r) v.

Record HetznerRobotRemediationTemplateResourceM `{K8sTypes} := InRemediationTemplateResource {
  prtr_Meta : ObjectMetaM;
  prtr_Spec : RemediationStrategy
}.
Arguments InRemediationTemplateResource {_}.

#[export] Instance set_prtr_Meta `{K8sTypes} : Setter prtr_Meta := fun v r => InRemediationTemplateResource v (prtr_Spec r).
#[export] Instance set_prtr_Spec `{K8sTypes} : Setter prtr_Spec := fun v r => InRemediationTemplateResource (prtr_Meta r) v.

(** The four parts of an object; a [HetznerRobotRemediationTemplate] has no
    status. *)
Record Object `{K8sTypes} (Spec Status : Type) := MkObject {
  o_TypeMeta : TypeMeta;
  o_Meta : ObjectMetaM;
  o_Spec : Spec;
  o_Status : Status
}.
Arguments MkObject {_ Spec Status}.
Arguments o_TypeMeta {_ Spec Status}.
Arguments o_Meta {_ Spec Status}.
Arguments o_Spec {_ Spec Status}.
Arguments o_Status {_ Spec Status}.

#[export] Instance set_o_TypeMeta `{K8sTypes} {S T} : Setter (@o_TypeMeta _ S T) := fun v r => MkObject v (o_Meta r) (o_Spec r) (o_Status r).
#[export] Instance set_o_Meta `{K8sTypes} {S T} : Setter (@o_Meta _ S T) := fun v r => MkObject (o_TypeMeta r) v (o_Spec r) (o_Status r).
#[export] Instance set_o_Spec `{K8sTypes} {S T} : Setter (@o_Spec _ S T) := fun v r => MkObject (o_TypeMeta r) (o_Meta r) v (o_Status r).
#[export] Instance set_o_Status `{K8sTypes} {S T} : Setter (@o_Status _ S T) := fun v r => MkObject (o_TypeMeta r) (o_Meta r) (o_Spec r) v.

(** A list of objects, with its items in memory. *)
Record ObjectList `{K8sTypes} (t : gobase) := MkObjectList {
  l_TypeMeta : TypeMeta;
  l_Meta : ListMetaM;
  l_Items : ptr (Slice (Base t))
}.
Arguments MkObjectList {_ t}.
Arguments l_TypeMeta {_ t}.
Arguments l_Meta {_ t}.
Arguments l_Items {_ t}.

#[export] Instance set_l_TypeMeta `{K8sTypes} {t} : Setter (@l_TypeMeta _ t) := fun v r => MkObjectList v (l_Meta r) (l_Items r).
#[export] Instance set_l_Meta `{K8sTypes} {t} : Setter (@l_Meta _ t) := fun v r => MkObjectList (l_TypeMeta r) v (l_Items r).
#[export] Instance set_l_Items `{K8sTypes} {t} : Setter (@l_Items _ t) := fun v r => MkObjectList (l_TypeMeta r) (l_Meta r) v.

(** The spec of a template wraps its one field. *)
Definition HetznerRobotClusterM `{K8sTypes} := Object HetznerRobotClusterSpecM HetznerRobotClusterStatusM.
Definition HetznerRobotMachineM `{K8sTypes} := Object HetznerRobotMachineSpecM HetznerRobotMachineStatusM.
Definition HetznerRobotMachineTemplateM `{K8sTypes} := Object HetznerRobotMachineTemplateResourceM unit.
Definition HetznerRobotHostM `{K8sTypes} := Object HetznerRobotHostSpec HetznerRobotHostStatusM.
Definition HetznerRobotHostReleaseM `{K8sTypes} := Object HetznerRobotHostReleaseSpec HetznerRobotHostReleaseStatusM.
Definition HetznerRobotRemediationM `{K8sTypes} := Object RemediationStrategy HetznerRobotRemediationStatusM.
Definition HetznerRobotRemediationTemplateM `{K8sTypes} := Object HetznerRobotRemediationTemplateResourceM unit.


(** What each cell holds. *)
Definition gosem `{K8sTypes} (b : gobase) : Type :=
  match b with
  | TString => string
  | TTime => Z
  | TStringMap => gmap string string
  | TLocalObjectReference => string
  | TMachineAddress => MachineAddress
  | TCondition => ConditionM
  | TLabelSelector => LabelSelectorM
  | THetznerRobotCluster => HetznerRobotClusterM
  | THetznerRobotClusterList => ObjectList THetznerRobotCluster
  | THetznerRobotClusterSpec => HetznerRobotClusterSpecM
  | THetznerRobotClusterInitialization => bool
  | THetznerRobotClusterStatus => HetznerRobotClusterStatusM
  | THetznerRobotMachine => HetznerRobotMachineM
  | THetznerRobotMachineList => ObjectList THetznerRobotMachine
  | THetznerRobotMachineSpec => HetznerRobotMachineSpecM
  | TInfrastructureMachineInitialization => bool
  | THetznerRobotMachineStatus => HetznerRobotMachineStatusM
  | THetznerRobotMachineTemplate => HetznerRobotMachineTemplateM
  | THetznerRobotMachineTemplateList => ObjectList THetznerRobotMachineTemplate
  | THetznerRobotMachineTemplateSpec => HetznerRobotMachineTemplateResourceM
  | THetznerRobotMachineTemplateResource => HetznerRobotMachineTemplateResourceM
  | THetznerRobotMachineTemplateStatus => unit
  | THetznerRobotHost => HetznerRobotHostM
  | THetznerRobotHostList => ObjectList THetznerRobotHost
  | THetznerRobotHostSpec => HetznerRobotHostSpec
  | THetznerRobotHostStatus => HetznerRobotHostStatusM
  | THetznerRobotHostRelease => HetznerRobotHostReleaseM
  | THetznerRobotHostReleaseList => ObjectList THetznerRobotHostRelease
  | THetznerRobotHostReleaseSpec => HetznerRobotHostReleaseSpec
  | THetznerRobotHostReleaseStatus => HetznerRobotHostReleaseStatusM
  | THostHardwareDetails => HostHardwareDetailsM
  | TMachineReference => MachineReference
  | TReleasedMachineReference => ReleasedMachineReference
  | TVLANConfig => VLANConfig
  | THetznerRobotRemediation => HetznerRobotRemediationM
  | THetznerRobotRemediationList => ObjectList THetznerRobotRemediation
  | THetznerRobotRemediationSpec => RemediationStrategy
  | THetznerRobotRemediationStatus => HetznerRobotRemediationStatusM
  | TRemediationStrategy => RemediationStrategy
  | THetznerRobotRemediationTemplate => HetznerRobotRemediationTemplateM
  | THetznerRobotRemediationTemplateList => ObjectList THetznerRobotRemediationTemplate
  | THetznerRobotRemediationTemplateSpec => HetznerRobotRemediationTemplateResourceM
  | THetznerRobotRemediationTemplateResource => HetznerRobotRemediationTemplateResourceM
  | TForeign c => k8s_sem c
  end.

#[export] Instance goCells `{K8sTypes} : Cells := {| base := gobase; base_sem := gosem |}.

(** The copy methods of the third-party structs, and their values. *)
Class K8sCopies `{K8sTypes} := {
  ObjectMeta_value : ObjectMetaM -> rd ObjectMeta;
  ObjectMeta_DeepCopyInto : ObjectMetaM -> M ObjectMetaM;
  ListMeta_value : ListMetaM -> rd ListMeta;
  ListMeta_DeepCopyInto : ListMetaM -> M ListMetaM;
  LabelSelector_value : LabelSelectorM -> rd LabelSelector;
  LabelSelector_DeepCopyInto : LabelSelectorM -> M LabelSelectorM;
  Condition_value : ConditionM -> rd Condition;
  Condition_DeepCopyInto : ConditionM -> M ConditionM;
  Time_DeepCopy : ptr (Base TTime) -> M (ptr (Base TTime))
}.

Class K8sCopiesLaws `{K8sCopies} : Prop := {
  ObjectMeta_copies : copies unshared ObjectMeta_value ObjectMeta_DeepCopyInto;
  ListMeta_copies : copies unshared ListMeta_value ListMeta_DeepCopyInto;
  LabelSelector_copies : copies unshared LabelSelector_value LabelSelector_DeepCopyInto;
  Condition_copies : copies unshared Condition_value Condition_DeepCopyInto;
  Time_copies : copies unshared (readPtr (Base TTime) Done) Time_DeepCopy
}.

(** ** The copy methods *)

Section copies.
Context `{K8sCopies}.

(** [make(map[string]string)] filled in a range over the original. *)
Definition copyMap (m : gmap string string) : M (gmap string string) :=
  mret (list_to_map (map_to_list m)).

(** [if in == nil { return nil }; out := new(T); in.DeepCopyInto(out); return out]. *)
Definition deepCopy (t : gobase) (into : gosem t -> M (gosem t)) : ptr (Base t) -> M (ptr (Base t)) :=
  copyPtr (Base t) into.

(** [if c := in.DeepCopy(); c != nil { return c }; return nil]: an interface
    holding the pointer, or the nil interface. *)
Definition deepCopyObject (t : gobase) (copy : ptr (Base t) -> M (ptr (Base t))) (p : ptr (Base t))
    : M (option (gobase * positive)) :=
  c ← copy p;
  match c with
  | Some l => mret (Some (t, l))
  | None => mret None
  end.

(** The body every list type has. *)
Definition listDeepCopyInto (t : gobase) (into : gosem t -> M (gosem t)) (x : ObjectList t) : M (ObjectList t) :=
  let out := x in
  meta ← ListMeta_DeepCopyInto (l_Meta x);
  items ← copySlice (Base t) into (l_Items x);
  mret (out <| l_TypeMeta := l_TypeMeta x |> <| l_Meta := meta |> <| l_Items := items |>).

(** *** Clusters *)

Definition VLANConfig_DeepCopyInto (x : VLANConfig) : M VLANConfig :=
  mret x.

Definition VLANConfig_DeepCopy := deepCopy TVLANConfig VLANConfig_DeepCopyInto.

Definition HetznerRobotClusterSpec_DeepCopyInto (x : HetznerRobotClusterSpecM) : M HetznerRobotClusterSpecM :=
  let out := x in
  vlan ← copyPtr (Base TVLANConfig) mret (pcs_VLANConfig x);
  mret (out <| pcs_RobotSecretRef := pcs_RobotSecretRef x |> <| pcs_SSHSecretRef := pcs_SSHSecretRef x |> <| pcs_VLANConfig := vlan |>).

Definition HetznerRobotClusterSpec_DeepCopy := deepCopy THetznerRobotClusterSpec HetznerRobotClusterSpec_DeepCopyInto.

Definition HetznerRobotClusterInitialization_DeepCopyInto (x : bool) : M bool :=
  mret x.

Definition HetznerRobotClusterInitialization_DeepCopy := deepCopy THetznerRobotClusterInitialization HetznerRobotClusterInitialization_DeepCopyInto.

Definition HetznerRobotClusterStatus_DeepCopyInto (x : HetznerRobotClusterStatusM) : M HetznerRobotClusterStatusM :=
  let out := x in
  init ← copyPtr (Base THetznerRobotClusterInitialization) mret (pcst_Initialization x);
  conditions ← copySlice (Base TCondition) Condition_DeepCopyInto (pcst_Conditions x);
  mret (out <| pcst_Initialization := init |> <| pcst_Conditions := conditions |>).

Definition HetznerRobotClusterStatus_DeepCopy := deepCopy THetznerRobotClusterStatus HetznerRobotClusterStatus_DeepCopyInto.

Definition HetznerRobotCluster_DeepCopyInto (x : HetznerRobotClusterM) : M HetznerRobotClusterM :=
  let out := x in
  meta ← ObjectMeta_DeepCopyInto (o_Meta x);
  spec ← HetznerRobotClusterSpec_DeepCopyInto (o_Spec x);
  status ← HetznerRobotClusterStatus_DeepCopyInto (o_Status x);
  mret (out <| o_TypeMeta := o_TypeMeta x |> <| o_Meta := meta |> <| o_Spec := spec |> <| o_Status := status |>).

Definition HetznerRobotCluster_DeepCopy := deepCopy THetznerRobotCluster HetznerRobotCluster_DeepCopyInto.

Definition HetznerRobotCluster_DeepCopyObject := deepCopyObject THetznerRobotCluster HetznerRobotCluster_DeepCopy.

Definition HetznerRobotClusterList_DeepCopyInto : ObjectList THetznerRobotCluster -> M (ObjectList THetznerRobotCluster) :=
  listDeepCopyInto THetznerRobotCluster HetznerRobotCluster_DeepCopyInto.

Definition HetznerRobotClusterList_DeepCopy := deepCopy THetznerRobotClusterList HetznerRobotClusterList_DeepCopyInto.

Definition HetznerRobotClusterList_DeepCopyObject := deepCopyObject THetznerRobotClusterList HetznerRobotClusterList_DeepCopy.

(** *** Machines *)

Definition HetznerRobotMachineSpec_DeepCopyInto (x : HetznerRobotMachineSpecM) : M HetznerRobotMachineSpecM :=
  let out := x in
  providerID ← copyPtr (Base TString) mret (pms_ProviderID x);
  hostRef ← copyPtr (Base TLocalObjectReference) mret (pms_HostRef x);
  hostSelector ← copyPtr (Base TLabelSelector) LabelSelector_DeepCopyInto (pms_HostSelector x);
  mret (out <| pms_ProviderID := providerID |> <| pms_HostRef := hostRef |> <| pms_HostSelector := hostSelector |>).

Definition HetznerRobotMachineSpec_DeepCopy := deepCopy THetznerRobotMachineSpec HetznerRobotMachineSpec_DeepCopyInto.

Definition InfrastructureMachineInitialization_DeepCopyInto (x : bool) : M bool :=
  mret x.

Definition InfrastructureMachineInitialization_DeepCopy := deepCopy TInfrastructureMachineInitialization InfrastructureMachineInitialization_DeepCopyInto.

(** [ProvisionStarted] and [LastResetTime] keep the pointers of the original. *)
Definition HetznerRobotMachineStatus_DeepCopyInto (x : HetznerRobotMachineStatusM) : M HetznerRobotMachineStatusM :=
  let out := x in
  init ← copyPtr (Base TInfrastructureMachineInitialization) mret (pmst_Initialization x);
  addresses ← copySlice (Base TMachineAddress) mret (pmst_Addresses x);
  reason ← copyPtr (Base TString) mret (pmst_FailureReason x);
  message ← copyPtr (Base TString) mret (pmst_FailureMessage x);
  lastRetry ← Time_DeepCopy (pmst_LastRetryTimestamp x);
  conditions ← copySlice (Base TCondition) Condition_DeepCopyInto (pmst_Conditions x);
  mret (out <| pmst_Initialization := init |> <| pmst_Addresses := addresses |> <| pmst_FailureReason := reason |> <| pmst_FailureMessage := message |> <| pmst_LastRetryTimestamp := lastRetry |> <| pmst_Conditions := conditions |>).

Definition HetznerRobotMachineStatus_DeepCopy := deepCopy THetznerRobotMachineStatus HetznerRobotMachineStatus_DeepCopyInto.

Definition HetznerRobotMachine_DeepCopyInto (x : HetznerRobotMachineM) : M HetznerRobotMachineM :=
  let out := x in
  meta ← ObjectMeta_DeepCopyInto (o_Meta x);
  spec ← HetznerRobotMachineSpec_DeepCopyInto (o_Spec x);
  status ← HetznerRobotMachineStatus_DeepCopyInto (o_Status x);
  mret (out <| o_TypeMeta := o_TypeMeta x |> <| o_Meta := meta |> <| o_Spec := spec |> <| o_Status := status |>).

Definition HetznerRobotMachine_DeepCopy := deepCopy THetznerRobotMachine HetznerRobotMachine_DeepCopyInto.

Definition HetznerRobotMachine_DeepCopyObject := deepCopyObject THetznerRobotMachine HetznerRobotMachine_DeepCopy.

Definition HetznerRobotMachineList_DeepCopyInto : ObjectList THetznerRobotMachine -> M (ObjectList THetznerRobotMachine) :=
  listDeepCopyInto THetznerRobotMachine HetznerRobotMachine_DeepCopyInto.

Definition HetznerRobotMachineList_DeepCopy := deepCopy THetznerRobotMachineList HetznerRobotMachineList_DeepCopyInto.

Definition HetznerRobotMachineList_DeepCopyObject := deepCopyObject THetznerRobotMachineList HetznerRobotMachineList_DeepCopy.

(** *** Machine templates *)

Definition HetznerRobotMachineTemplateResource_DeepCopyInto (x : HetznerRobotMachineTemplateResourceM) : M HetznerRobotMachineTemplateResourceM :=
  let out := x in
  meta ← ObjectMeta_DeepCopyInto (pmtr_Meta x);
  spec ← HetznerRobotMachineSpec_DeepCopyInto (pmtr_Spec x);
  mret (out <| pmtr_Meta := meta |> <| pmtr_Spec := spec |>).

Definition HetznerRobotMachineTemplateResource_DeepCopy := deepCopy THetznerRobotMachineTemplateResource HetznerRobotMachineTemplateResource_DeepCopyInto.

Definition HetznerRobotMachineTemplateSpec_DeepCopyInto (x : HetznerRobotMachineTemplateResourceM) : M HetznerRobotMachineTemplateResourceM :=
  HetznerRobotMachineTemplateResource_DeepCopyInto x.

Definition HetznerRobotMachineTemplateSpec_DeepCopy := deepCopy THetznerRobotMachineTemplateSpec HetznerRobotMachineTemplateSpec_DeepCopyInto.

Definition HetznerRobotMachineTemplateStatus_DeepCopyInto (x : unit) : M unit :=
  mret x.

Definition HetznerRobotMachineTemplateStatus_DeepCopy := deepCopy THetznerRobotMachineTemplateStatus HetznerRobotMachineTemplateStatus_DeepCopyInto.

Definition HetznerRobotMachineTemplate_DeepCopyInto (x : HetznerRobotMachineTemplateM) : M HetznerRobotMachineTemplateM :=
  let out := x in
  meta ← ObjectMeta_DeepCopyInto (o_Meta x);
  spec ← HetznerRobotMachineTemplateSpec_DeepCopyInto (o_Spec x);
  status ← HetznerRobotMachineTemplateStatus_DeepCopyInto (o_Status x);
  mret (out <| o_TypeMeta := o_TypeMeta x |> <| o_Meta := meta |> <| o_Spec := spec |> <| o_Status := status |>).

Definition HetznerRobotMachineTemplate_DeepCopy := deepCopy THetznerRobotMachineTemplate HetznerRobotMachineTemplate_DeepCopyInto.

Definition HetznerRobotMachineTemplate_DeepCopyObject := deepCopyObject THetznerRobotMachineTemplate HetznerRobotMachineTemplate_DeepCopy.

Definition HetznerRobotMachineTemplateList_DeepCopyInto : ObjectList THetznerRobotMachineTemplate -> M (ObjectList THetznerRobotMachineTemplate) :=
  listDeepCopyInto THetznerRobotMachineTemplate HetznerRobotMachineTemplate_DeepCopyInto.

Definition HetznerRobotMachineTemplateList_DeepCopy := deepCopy THetznerRobotMachineTemplateList HetznerRobotMachineTemplateList_DeepCopyInto.

Definition HetznerRobotMachineTemplateList_DeepCopyObject := deepCopyObject THetznerRobotMachineTemplateList HetznerRobotMachineTemplateList_DeepCopy.

(** *** Hosts *)

Definition HetznerRobotHostSpec_DeepCopyInto (x : HetznerRobotHostSpec) : M HetznerRobotHostSpec :=
  mret x.

Definition HetznerRobotHostSpec_DeepCopy := deepCopy THetznerRobotHostSpec HetznerRobotHostSpec_DeepCopyInto.

Definition MachineReference_DeepCopyInto (x : MachineReference) : M MachineReference :=
  mret x.

Definition MachineReference_DeepCopy := deepCopy TMachineReference MachineReference_DeepCopyInto.

Definition HostHardwareDetails_DeepCopyInto (x : HostHardwareDetailsM) : M HostHardwareDetailsM :=
  let out := x in
  nvme ← copySlice (Base TString) mret (phd_NVMeDisks x);
  ceph ← copySlice (Base TString) mret (phd_CephDisks x);
  paths ← copyPtr (Base TStringMap) copyMap (phd_ByIDPaths x);
  mret (out <| phd_NVMeDisks := nvme |> <| phd_CephDisks := ceph |> <| phd_ByIDPaths := paths |>).

Definition HostHardwareDetails_DeepCopy := deepCopy THostHardwareDetails HostHardwareDetails_DeepCopyInto.

Definition HetznerRobotHostStatus_DeepCopyInto (x : HetznerRobotHostStatusM) : M HetznerRobotHostStatusM :=
  let out := x in
  consumer ← copyPtr (Base TMachineReference) mret (phst_ConsumerRef x);
  machine ← copyPtr (Base TMachineReference) mret (phst_MachineRef x);
  hardware ← copyPtr (Base THostHardwareDetails) HostHardwareDetails_DeepCopyInto (phst_HardwareDetails x);
  last ← copyPtr (Base TMachineReference) mret (phst_LastConsumerRef x);
  mret (out <| phst_ConsumerRef := consumer |> <| phst_MachineRef := machine |> <| phst_HardwareDetails := hardware |> <| phst_LastConsumerRef := last |>).

Definition HetznerRobotHostStatus_DeepCopy := deepCopy THetznerRobotHostStatus HetznerRobotHostStatus_DeepCopyInto.

Definition HetznerRobotHost_DeepCopyInto (x : HetznerRobotHostM) : M HetznerRobotHostM :=
  let out := x in
  meta ← ObjectMeta_DeepCopyInto (o_Meta x);
  status ← HetznerRobotHostStatus_DeepCopyInto (o_Status x);
  mret (out <| o_TypeMeta := o_TypeMeta x |> <| o_Meta := meta |> <| o_Spec := o_Spec x |> <| o_Status := status |>).

Definition HetznerRobotHost_DeepCopy := deepCopy THetznerRobotHost HetznerRobotHost_DeepCopyInto.

Definition HetznerRobotHost_DeepCopyObject := deepCopyObject THetznerRobotHost HetznerRobotHost_DeepCopy.

Definition HetznerRobotHostList_DeepCopyInto : ObjectList THetznerRobotHost -> M (ObjectList THetznerRobotHost) :=
  listDeepCopyInto THetznerRobotHost HetznerRobotHost_DeepCopyInto.

Definition HetznerRobotHostList_DeepCopy := deepCopy THetznerRobotHostList HetznerRobotHostList_DeepCopyInto.

Definition HetznerRobotHostList_DeepCopyObject := deepCopyObject THetznerRobotHostList HetznerRobotHostList_DeepCopy.

(** *** Host releases *)

Definition ReleasedMachineReference_DeepCopyInto (x : ReleasedMachineReference) : M ReleasedMachineReference :=
  mret x.

Definition ReleasedMachineReference_DeepCopy := deepCopy TReleasedMachineReference ReleasedMachineReference_DeepCopyInto.

Definition HetznerRobotHostReleaseSpec_DeepCopyInto (x : HetznerRobotHostReleaseSpec) : M HetznerRobotHostReleaseSpec :=
  mret (x <| rl_HostRefName := rl_HostRefName x |> <| rl_ExpiresAt := rl_ExpiresAt x |>).

Definition HetznerRobotHostReleaseSpec_DeepCopy := deepCopy THetznerRobotHostReleaseSpec HetznerRobotHostReleaseSpec_DeepCopyInto.

Definition HetznerRobotHostReleaseStatus_DeepCopyInto (x : HetznerRobotHostReleaseStatusM) : M HetznerRobotHostReleaseStatusM :=
  let out := x in
  observed ← Time_DeepCopy (prst_LastObservedTime x);
  mret (out <| prst_LastObservedTime := observed |>).

Definition HetznerRobotHostReleaseStatus_DeepCopy := deepCopy THetznerRobotHostReleaseStatus HetznerRobotHostReleaseStatus_DeepCopyInto.

Definition HetznerRobotHostRelease_DeepCopyInto (x : HetznerRobotHostReleaseM) : M HetznerRobotHostReleaseM :=
  let out := x in
  meta ← ObjectMeta_DeepCopyInto (o_Meta x);
  spec ← HetznerRobotHostReleaseSpec_DeepCopyInto (o_Spec x);
  status ← HetznerRobotHostReleaseStatus_DeepCopyInto (o_Status x);
  mret (out <| o_TypeMeta := o_TypeMeta x |> <| o_Meta := meta |> <| o_Spec := spec |> <| o_Status := status |>).

Definition HetznerRobotHostRelease_DeepCopy := deepCopy THetznerRobotHostRelease HetznerRobotHostRelease_DeepCopyInto.

Definition HetznerRobotHostRelease_DeepCopyObject := deepCopyObject THetznerRobotHostRelease HetznerRobotHostRelease_DeepCopy.

Definition HetznerRobotHostReleaseList_DeepCopyInto : ObjectList THetznerRobotHostRelease -> M (ObjectList THetznerRobotHostRelease) :=
  listDeepCopyInto THetznerRobotHostRelease HetznerRobotHostRelease_DeepCopyInto.

Definition HetznerRobotHostReleaseList_DeepCopy := deepCopy THetznerRobotHostReleaseList HetznerRobotHostReleaseList_DeepCopyInto.

Definition HetznerRobotHostReleaseList_DeepCopyObject := deepCopyObject THetznerRobotHostReleaseList HetznerRobotHostReleaseList_DeepCopy.

(** *** Remediations *)

Definition RemediationStrategy_DeepCopyInto (x : RemediationStrategy) : M RemediationStrategy :=
  mret x.

Definition RemediationStrategy_DeepCopy := deepCopy TRemediationStrategy RemediationStrategy_DeepCopyInto.

Definition HetznerRobotRemediationSpec_DeepCopyInto (x : RemediationStrategy) : M RemediationStrategy :=
  mret x.

Definition HetznerRobotRemediationSpec_DeepCopy := deepCopy THetznerRobotRemediationSpec HetznerRobotRemediationSpec_DeepCopyInto.

Definition HetznerRobotRemediationStatus_DeepCopyInto (x : HetznerRobotRemediationStatusM) : M HetznerRobotRemediationStatusM :=
  let out := x in
  last ← Time_DeepCopy (prs_LastRemediated x);
  mret (out <| prs_LastRemediated := last |>).

Definition HetznerRobotRemediationStatus_DeepCopy := deepCopy THetznerRobotRemediationStatus HetznerRobotRemediationStatus_DeepCopyInto.

Definition HetznerRobotRemediation_DeepCopyInto (x : HetznerRobotRemediationM) : M HetznerRobotRemediationM :=
  let out := x in
  meta ← ObjectMeta_DeepCopyInto (o_Meta x);
  status ← HetznerRobotRemediationStatus_DeepCopyInto (o_Status x);
  mret (out <| o_TypeMeta := o_TypeMeta x |> <| o_Meta := meta |> <| o_Spec := o_Spec x |> <| o_Status := status |>).

Definition HetznerRobotRemediation_DeepCopy := deepCopy THetznerRobotRemediation HetznerRobotRemediation_DeepCopyInto.

Definition HetznerRobotRemediation_DeepCopyObject := deepCopyObject THetznerRobotRemediation HetznerRobotRemediation_DeepCopy.

Definition HetznerRobotRemediationList_DeepCopyInto : ObjectList THetznerRobotRemediation -> M (ObjectList THetznerRobotRemediation) :=
  listDeepCopyInto THetznerRobotRemediation HetznerRobotRemediation_DeepCopyInto.

Definition HetznerRobotRemediationList_DeepCopy := deepCopy THetznerRobotRemediationList HetznerRobotRemediationList_DeepCopyInto.

Definition HetznerRobotRemediationList_DeepCopyObject := deepCopyObject THetznerRobotRemediationList HetznerRobotRemediationList_DeepCopy.

Definition HetznerRobotRemediationTemplateResource_DeepCopyInto (x : HetznerRobotRemediationTemplateResourceM) : M HetznerRobotRemediationTemplateResourceM :=
  let out := x in
  meta ← ObjectMeta_DeepCopyInto (prtr_Meta x);
  mret (out <| prtr_Meta := meta |> <| prtr_Spec := prtr_Spec x |>).

Definition HetznerRobotRemediationTemplateResource_DeepCopy := deepCopy THetznerRobotRemediationTemplateResource HetznerRobotRemediationTemplateResource_DeepCopyInto.

Definition HetznerRobotRemediationTemplateSpec_DeepCopyInto (x : HetznerRobotRemediationTemplateResourceM) : M HetznerRobotRemediationTemplateResourceM :=
  HetznerRobotRemediationTemplateResource_DeepCopyInto x.

Definition HetznerRobotRemediationTemplateSpec_DeepCopy := deepCopy THetznerRobotRemediationTemplateSpec HetznerRobotRemediationTemplateSpec_DeepCopyInto.

Definition HetznerRobotRemediationTemplate_DeepCopyInto (x : HetznerRobotRemediationTemplateM) : M HetznerRobotRemediationTemplateM :=
  let out := x in
  meta ← ObjectMeta_DeepCopyInto (o_Meta x);
  mret (out <| o_TypeMeta := o_TypeMeta x |> <| o_Meta := meta |> <| o_Spec := o_Spec x |>).

Definition HetznerRobotRemediationTemplate_DeepCopy := deepCopy THetznerRobotRemediationTemplate HetznerRobotRemediationTemplate_DeepCopyInto.

Definition HetznerRobotRemediationTemplate_DeepCopyObject := deepCopyObject THetznerRobotRemediationTemplate HetznerRobotRemediationTemplate_DeepCopy.

Definition HetznerRobotRemediationTemplateList_DeepCopyInto : ObjectList THetznerRobotRemediationTemplate -> M (ObjectList THetznerRobotRemediationTemplate) :=
  listDeepCopyInto THetznerRobotRemediationTemplate HetznerRobotRemediationTemplate_DeepCopyInto.

Definition HetznerRobotRemediationTemplateList_DeepCopy := deepCopy THetznerRobotRemediationTemplateList HetznerRobotRemediationTemplateList_DeepCopyInto.

Definition HetznerRobotRemediationTemplateList_DeepCopyObject := deepCopyObject THetznerRobotRemediationTemplateList HetznerRobotRemediationTemplateList_DeepCopy.

(** ** The values of structs in memory *)

Definition readMap (p : ptr (Base TStringMap)) : rd (gmap string string) :=
  m ← readPtr (Base TStringMap) Done p; mret (default ∅ m).

Definition HetznerRobotClusterSpec_value (x : HetznerRobotClusterSpecM) : rd HetznerRobotClusterSpec :=
  vlan ← readPtr (Base TVLANConfig) Done (pcs_VLANConfig x);
  mret (MkHRCSpec (pcs_EndpointHost x) (pcs_EndpointPort x) (pcs_RobotSecretRef x) (pcs_SSHSecretRef x)
          (pcs_TalosFactoryBaseURL x) vlan).

Definition HetznerRobotClusterStatus_value (x : HetznerRobotClusterStatusM) : rd HetznerRobotClusterStatus :=
  init ← readPtr (Base THetznerRobotClusterInitialization) Done (pcst_Initialization x);
  conditions ← readSlice (Base TCondition) Condition_value (pcst_Conditions x);
  mret (MkHRCStatus (pcst_Ready x) init conditions).

Definition HetznerRobotCluster_value (x : HetznerRobotClusterM) : rd (TypeMeta * HetznerRobotCluster) :=
  meta ← ObjectMeta_value (o_Meta x);
  spec ← HetznerRobotClusterSpec_value (o_Spec x);
  status ← HetznerRobotClusterStatus_value (o_Status x);
  mret (o_TypeMeta x, MkHRC meta spec status).

Definition HetznerRobotMachineSpec_value (x : HetznerRobotMachineSpecM) : rd HetznerRobotMachineSpec :=
  providerID ← readPtr (Base TString) Done (pms_ProviderID x);
  hostRef ← readPtr (Base TLocalObjectReference) Done (pms_HostRef x);
  hostSelector ← readPtr (Base TLabelSelector) LabelSelector_value (pms_HostSelector x);
  mret (MkHRMSpec providerID hostRef hostSelector (pms_OSType x) (pms_TalosSchematic x) (pms_TalosVersion x)
          (pms_FlatcarChannel x) (pms_InstallDisk x) (pms_CustomImageURL x) (pms_EphemeralSize x)).

Definition HetznerRobotMachineStatus_value (x : HetznerRobotMachineStatusM) : rd HetznerRobotMachineStatus :=
  init ← readPtr (Base TInfrastructureMachineInitialization) Done (pmst_Initialization x);
  addresses ← readSlice (Base TMachineAddress) Done (pmst_Addresses x);
  reason ← readPtr (Base TString) Done (pmst_FailureReason x);
  message ← readPtr (Base TString) Done (pmst_FailureMessage x);
  started ← readPtr (Base TTime) Done (pmst_ProvisionStarted x);
  lastRetry ← readPtr (Base TTime) Done (pmst_LastRetryTimestamp x);
  lastReset ← readPtr (Base TTime) Done (pmst_LastResetTime x);
  conditions ← readSlice (Base TCondition) Condition_value (pmst_Conditions x);
  mret (MkHRMStatus (pmst_Ready x) init addresses (pmst_ProvisioningState x) (pmst_HostRef x) (pmst_PrimaryMAC x)
          (pmst_GatewayIP x) (pmst_ResolvedInstallDisk x) reason message started (pmst_RetryCount x) lastRetry
          lastReset conditions).

Definition HetznerRobotMachine_value (x : HetznerRobotMachineM) : rd (TypeMeta * HetznerRobotMachine) :=
  meta ← ObjectMeta_value (o_Meta x);
  spec ← HetznerRobotMachineSpec_value (o_Spec x);
  status ← HetznerRobotMachineStatus_value (o_Status x);
  mret (o_TypeMeta x, MkHRM meta spec status).

Definition HetznerRobotMachineTemplateResource_value (x : HetznerRobotMachineTemplateResourceM)
    : rd HetznerRobotMachineTemplateResource :=
  meta ← ObjectMeta_value (pmtr_Meta x);
  spec ← HetznerRobotMachineSpec_value (pmtr_Spec x);
  mret (MkMachineTemplateResource meta spec).

Definition HetznerRobotMachineTemplate_value (x : HetznerRobotMachineTemplateM)
    : rd (TypeMeta * HetznerRobotMachineTemplate) :=
  meta ← ObjectMeta_value (o_Meta x);
  spec ← HetznerRobotMachineTemplateResource_value (o_Spec x);
  mret (o_TypeMeta x, MkMachineTemplate meta spec).

Definition HostHardwareDetails_value (x : HostHardwareDetailsM) : rd HostHardwareDetails :=
  nvme ← readSlice (Base TString) Done (phd_NVMeDisks x);
  ceph ← readSlice (Base TString) Done (phd_CephDisks x);
  paths ← readMap (phd_ByIDPaths x);
  mret (MkHostHardwareDetails (phd_PrimaryMAC x) (phd_GatewayIP x) nvme ceph paths).

Definition HetznerRobotHostStatus_value (x : HetznerRobotHostStatusM) : rd HetznerRobotHostStatus :=
  consumer ← readPtr (Base TMachineReference) Done (phst_ConsumerRef x);
  machine ← readPtr (Base TMachineReference) Done (phst_MachineRef x);
  hardware ← readPtr (Base THostHardwareDetails) HostHardwareDetails_value (phst_HardwareDetails x);
  last ← readPtr (Base TMachineReference) Done (phst_LastConsumerRef x);
  mret (MkHRHStatus (phst_State x) consumer machine hardware last (phst_DirtyReason x) (phst_ErrorMessage x)).

Definition HetznerRobotHost_value (x : HetznerRobotHostM) : rd (TypeMeta * HetznerRobotHost) :=
  meta ← ObjectMeta_value (o_Meta x);
  status ← HetznerRobotHostStatus_value (o_Status x);
  mret (o_TypeMeta x, MkHRH meta (o_Spec x) status).

Definition HetznerRobotHostReleaseStatus_value (x : HetznerRobotHostReleaseStatusM)
    : rd HetznerRobotHostReleaseStatus :=
  observed ← readPtr (Base TTime) Done (prst_LastObservedTime x);
  mret (MkReleaseStatus (prst_Authorized x) (prst_Reason x) observed).

Definition HetznerRobotHostRelease_value (x : HetznerRobotHostReleaseM)
    : rd (TypeMeta * HetznerRobotHostRelease * HetznerRobotHostReleaseStatus) :=
  meta ← ObjectMeta_value (o_Meta x);
  status ← HetznerRobotHostReleaseStatus_value (o_Status x);
  mret (o_TypeMeta x, MkRelease meta (o_Spec x), status).

Definition HetznerRobotRemediationStatus_value (x : HetznerRobotRemediationStatusM)
    : rd HetznerRobotRemediationStatus :=
  last ← readPtr (Base TTime) Done (prs_LastRemediated x);
  mret (MkRemediationStatus (prs_Phase x) (prs_RetryCount x) last).

Definition HetznerRobotRemediation_value (x : HetznerRobotRemediationM) : rd (TypeMeta * HetznerRobotRemediation) :=
  meta ← ObjectMeta_value (o_Meta x);
  status ← HetznerRobotRemediationStatus_value (o_Status x);
  mret (o_TypeMeta x, MkRemediation meta (o_Spec x) status).

Definition HetznerRobotRemediationTemplateResource_value (x : HetznerRobotRemediationTemplateResourceM)
    : rd HetznerRobotRemediationTemplateResource :=
  meta ← ObjectMeta_value (prtr_Meta x);
  mret (MkRemediationTemplateResource meta (prtr_Spec x)).

Definition HetznerRobotRemediationTemplate_value (x : HetznerRobotRemediationTemplateM)
    : rd (TypeMeta * HetznerRobotRemediationTemplate) :=
  meta ← ObjectMeta_value (o_Meta x);
  spec ← HetznerRobotRemediationTemplateResource_value (o_Spec x);
  mret (o_TypeMeta x, MkRemediationTemplate meta spec).

Definition list_value {V} (t : gobase) (value : gosem t -> rd V) (x : ObjectList t) : rd (TypeMeta * ListMeta * list V) :=
  meta ← ListMeta_value (l_Meta x);
  items ← readSlice (Base t) value (l_Items x);
  mret (l_TypeMeta x, meta, items).

End copies.
