(* ===== verification/DeepCopyFacts.v ===== *)
(** * Deep copies share nothing, with two exceptions

    For every struct of [api/v1alpha1]: its [DeepCopyInto] succeeds and leaves
    a struct of the same value in memory of its own.  Two methods fall short of
    that: the one of a machine status keeps the pointers [ProvisionStarted] and
    [LastResetTime], the one of a remediation template the references in the
    metadata of its template.  The theorems say exactly which cells are
    shared, and that nothing written elsewhere shows in a copy. *)

From S2P Require Import Prelude Heap GoStrings Api DeepCopy.

Create HintDb copies.
#[export] Hint Resolve copies_plain copies_ptr_unshared copies_slice_unshared : copies.
#[export] Hint Resolve ObjectMeta_copies ListMeta_copies LabelSelector_copies Condition_copies Time_copies : copies.

(** A later heap of the chain of copies in the context. *)
Ltac heap_le := repeat first [reflexivity | eassumption | etransitivity; [|eassumption]].

(** Copies the next field, the one read by the hypothesis about it. *)
Ltac copy_step S :=
  lazymatch goal with
  | Hr : run (?ld ?p) _ = Some _ |- wpm (?into ?p ≫= _) _ _ =>
      apply wpm_bind; eapply (wpm_copies S _ ld into p);
        [solve [eauto with copies] | exact Hr | heap_le | first [done | apply empty_subseteq] | intros ? ? ? ?]
  | |- wpm (mret _) _ _ => apply wpm_ret
  | |- wpm (_ ≫= _) _ _ => apply wpm_bind, wpm_ret
  end.

(** Reads the copied struct back, field by field. *)
Ltac read_back :=
  repeat first
    [ apply copied_ret
    | apply copied_done
    | eapply copied_mono; [eassumption | heap_le]
    | eapply copied_kept; [eassumption | heap_le | solve [eauto with copies]]
    | eapply copied_bind ].

(** A struct whose fields are copied one after the other; [ld] and [into] are its
    reader and its copy method. *)
Tactic Notation "copy_struct" reference(ld) reference(into) :=
  intros x h v F Hr; unfold ld in Hr |- *; unfold into; run_inv Hr;
  lazymatch goal with
  | |- wpm _ _ (fun _ _ => copied ?S _ _ _ _) => repeat copy_step S; cbn; read_back
  end.

Section facts.
Context `{K8sCopiesLaws}.

Lemma copyMap_copies : copies unshared (fun m => Done m) copyMap.
Proof.
  intros m h v F Hr. unfold copyMap. rewrite list_to_map_to_list.
  exact (copies_plain m h v F Hr).
Qed.
Hint Resolve copyMap_copies : copies.

Lemma readMap_copies : copies unshared readMap (copyPtr (Base TStringMap) copyMap).
Proof. apply copies_fmap. auto with copies. Qed.
Hint Resolve readMap_copies : copies.

(** *** The structs that share nothing *)

Lemma HetznerRobotClusterSpec_copies : copies unshared HetznerRobotClusterSpec_value HetznerRobotClusterSpec_DeepCopyInto.
Proof. copy_struct HetznerRobotClusterSpec_value HetznerRobotClusterSpec_DeepCopyInto. Qed.

Lemma HetznerRobotClusterStatus_copies :
  copies unshared HetznerRobotClusterStatus_value HetznerRobotClusterStatus_DeepCopyInto.
Proof. copy_struct HetznerRobotClusterStatus_value HetznerRobotClusterStatus_DeepCopyInto. Qed.
Hint Resolve HetznerRobotClusterSpec_copies HetznerRobotClusterStatus_copies : copies.

Lemma HetznerRobotCluster_copies : copies unshared HetznerRobotCluster_value HetznerRobotCluster_DeepCopyInto.
Proof. copy_struct HetznerRobotCluster_value HetznerRobotCluster_DeepCopyInto. Qed.

Lemma HetznerRobotMachineSpec_copies : copies unshared HetznerRobotMachineSpec_value HetznerRobotMachineSpec_DeepCopyInto.
Proof. copy_struct HetznerRobotMachineSpec_value HetznerRobotMachineSpec_DeepCopyInto. Qed.
Hint Resolve HetznerRobotMachineSpec_copies : copies.

Lemma HetznerRobotMachineTemplateResource_copies :
  copies unshared HetznerRobotMachineTemplateResource_value HetznerRobotMachineTemplateResource_DeepCopyInto.
Proof. copy_struct HetznerRobotMachineTemplateResource_value HetznerRobotMachineTemplateResource_DeepCopyInto. Qed.

Lemma HetznerRobotMachineTemplateSpec_copies :
  copies unshared HetznerRobotMachineTemplateResource_value HetznerRobotMachineTemplateSpec_DeepCopyInto.
Proof. exact HetznerRobotMachineTemplateResource_copies. Qed.
Hint Resolve HetznerRobotMachineTemplateSpec_copies : copies.

Lemma HetznerRobotMachineTemplate_copies :
  copies unshared HetznerRobotMachineTemplate_value HetznerRobotMachineTemplate_DeepCopyInto.
Proof. copy_struct HetznerRobotMachineTemplate_value HetznerRobotMachineTemplate_DeepCopyInto. Qed.

Lemma HostHardwareDetails_copies : copies unshared HostHardwareDetails_value HostHardwareDetails_DeepCopyInto.
Proof. copy_struct HostHardwareDetails_value HostHardwareDetails_DeepCopyInto. Qed.
Hint Resolve HostHardwareDetails_copies : copies.

Lemma HetznerRobotHostStatus_copies : copies unshared HetznerRobotHostStatus_value HetznerRobotHostStatus_DeepCopyInto.
Proof. copy_struct HetznerRobotHostStatus_value HetznerRobotHostStatus_DeepCopyInto. Qed.
Hint Resolve HetznerRobotHostStatus_copies : copies.

Lemma HetznerRobotHost_copies : copies unshared HetznerRobotHost_value HetznerRobotHost_DeepCopyInto.
Proof. copy_struct HetznerRobotHost_value HetznerRobotHost_DeepCopyInto. Qed.

Lemma HetznerRobotHostReleaseStatus_copies :
  copies unshared HetznerRobotHostReleaseStatus_value HetznerRobotHostReleaseStatus_DeepCopyInto.
Proof. copy_struct HetznerRobotHostReleaseStatus_value HetznerRobotHostReleaseStatus_DeepCopyInto. Qed.
Hint Resolve HetznerRobotHostReleaseStatus_copies : copies.

Lemma HetznerRobotHostReleaseSpec_copy_eq x : HetznerRobotHostReleaseSpec_DeepCopyInto x = mret x.
Proof. by destruct x. Qed.

Lemma HetznerRobotHostRelease_copies : copies unshared HetznerRobotHostRelease_value HetznerRobotHostRelease_DeepCopyInto.
Proof.
  intros x. unfold HetznerRobotHostRelease_DeepCopyInto. rewrite HetznerRobotHostReleaseSpec_copy_eq. revert x.
  copy_struct HetznerRobotHostRelease_value HetznerRobotHostRelease_DeepCopyInto.
Qed.

Lemma HetznerRobotRemediationStatus_copies :
  copies unshared HetznerRobotRemediationStatus_value HetznerRobotRemediationStatus_DeepCopyInto.
Proof. copy_struct HetznerRobotRemediationStatus_value HetznerRobotRemediationStatus_DeepCopyInto. Qed.
Hint Resolve HetznerRobotRemediationStatus_copies : copies.

Lemma HetznerRobotRemediation_copies : copies unshared HetznerRobotRemediation_value HetznerRobotRemediation_DeepCopyInto.
Proof. copy_struct HetznerRobotRemediation_value HetznerRobotRemediation_DeepCopyInto. Qed.

Lemma HetznerRobotRemediationTemplateResource_copies :
  copies unshared HetznerRobotRemediationTemplateResource_value HetznerRobotRemediationTemplateResource_DeepCopyInto.
Proof. copy_struct HetznerRobotRemediationTemplateResource_value HetznerRobotRemediationTemplateResource_DeepCopyInto. Qed.

(** *** The structs that share *)

(** The cells of the two times a machine status does not copy. *)
Definition timesShared (x : HetznerRobotMachineStatusM) : gset positive :=
  cellOf (pmst_ProvisionStarted x) ∪ cellOf (pmst_LastResetTime x).

Lemma started_shared x h v F :
  run (readPtr (Base TTime) Done (pmst_ProvisionStarted x)) h = Some (v, F) -> F ⊆ timesShared x.
Proof. intros Hr%run_ptr_plain. unfold timesShared. set_solver+ Hr. Qed.

Lemma lastReset_shared x h v F :
  run (readPtr (Base TTime) Done (pmst_LastResetTime x)) h = Some (v, F) -> F ⊆ timesShared x.
Proof. intros Hr%run_ptr_plain. unfold timesShared. set_solver+ Hr. Qed.
Hint Resolve started_shared lastReset_shared : copies.

Lemma HetznerRobotMachineStatus_copies :
  copies (fun _ => timesShared) HetznerRobotMachineStatus_value HetznerRobotMachineStatus_DeepCopyInto.
Proof. copy_struct HetznerRobotMachineStatus_value HetznerRobotMachineStatus_DeepCopyInto. Qed.
Hint Resolve HetznerRobotMachineStatus_copies : copies.

Definition machineShared (h : gmap positive cell) (x : HetznerRobotMachineM) : gset positive :=
  timesShared (o_Status x).

Lemma HetznerRobotMachine_copies : copies machineShared HetznerRobotMachine_value HetznerRobotMachine_DeepCopyInto.
Proof. copy_struct HetznerRobotMachine_value HetznerRobotMachine_DeepCopyInto. Qed.

(** The cells of the metadata of a remediation template's template. *)
Definition templateShared (h : gmap positive cell) (x : HetznerRobotRemediationTemplateM) : gset positive :=
  footprint (HetznerRobotRemediationTemplateResource_value (o_Spec x)) h.

Lemma template_shared x h v F :
  run (HetznerRobotRemediationTemplateResource_value (o_Spec x)) h = Some (v, F) -> F ⊆ templateShared h x.
Proof. intros Hr. unfold templateShared, footprint. by rewrite Hr. Qed.
Hint Resolve template_shared : copies.

Lemma templateShared_stable : stable templateShared HetznerRobotRemediationTemplate_value.
Proof.
  intros h h' x v F Hr Hh. unfold HetznerRobotRemediationTemplate_value in Hr. run_inv Hr.
  unfold templateShared, footprint. by rewrite (run_mono _ _ _ _ _ Hrun0 Hh), Hrun0.
Qed.

Lemma HetznerRobotRemediationTemplate_copies :
  copies templateShared HetznerRobotRemediationTemplate_value HetznerRobotRemediationTemplate_DeepCopyInto.
Proof. copy_struct HetznerRobotRemediationTemplate_value HetznerRobotRemediationTemplate_DeepCopyInto. Qed.

(** *** Lists *)

Definition itemsShared (t : gobase) (sh : gmap positive cell -> gosem t -> gset positive)
    (h : gmap positive cell) (x : ObjectList t) : gset positive :=
  sharedAt (t:=Slice (Base t)) (sharedList sh) h (l_Items x).

Lemma list_copies {V} t sh (ld : gosem t -> rd V) into :
  stable sh ld -> copies sh ld into -> copies (itemsShared t sh) (list_value t ld) (listDeepCopyInto t into).
Proof.
  intros Hs Hc x h v F Hr. unfold list_value in Hr |- *; unfold listDeepCopyInto; run_inv Hr.
  apply wpm_bind. eapply (wpm_copies (itemsShared t sh h x)); [apply ListMeta_copies|exact Hrun|done|apply empty_subseteq|].
  intros meta h1 Hh1 Hmeta. apply wpm_bind.
  eapply (wpm_copies (itemsShared t sh h x)); [exact (copies_slice (Base t) sh ld into Hs Hc)|exact Hrun0|done| |].
  - exact (stable_slice (Base t) sh ld Hs _ _ _ _ _ Hrun0 Hh1).
  - intros items h2 Hh2 Hitems. apply wpm_ret. cbn. read_back.
Qed.

Lemma list_copies_unshared {V} t (ld : gosem t -> rd V) into :
  copies unshared ld into -> copies unshared (list_value t ld) (listDeepCopyInto t into).
Proof.
  intros Hc. eapply copies_ext; [exact (list_copies t unshared ld into (stable_const _ ld) Hc)|].
  intros h x. unfold itemsShared, sharedAt. destruct (l_Items x) as [l|]; [|done].
  case_match; [apply sharedList_unshared|done].
Qed.

Lemma status_keeps_times x y h h' :
  HetznerRobotMachineStatus_DeepCopyInto x h = Some (y, h') ->
  pmst_ProvisionStarted y = pmst_ProvisionStarted x /\ pmst_LastResetTime y = pmst_LastResetTime x.
Proof. intros Hy. unfold HetznerRobotMachineStatus_DeepCopyInto in Hy. steps_inv Hy. by injection Hy as <- _. Qed.

Lemma machine_keeps_times x y h h' :
  HetznerRobotMachine_DeepCopyInto x h = Some (y, h') ->
  pmst_ProvisionStarted (o_Status y) = pmst_ProvisionStarted (o_Status x) /\
  pmst_LastResetTime (o_Status y) = pmst_LastResetTime (o_Status x).
Proof.
  intros Hy. unfold HetznerRobotMachine_DeepCopyInto in Hy. steps_inv Hy. injection Hy as <- _.
  by eapply status_keeps_times.
Qed.

Lemma template_keeps_spec x y h h' :
  HetznerRobotRemediationTemplate_DeepCopyInto x h = Some (y, h') -> o_Spec y = o_Spec x.
Proof. intros Hy. unfold HetznerRobotRemediationTemplate_DeepCopyInto in Hy. steps_inv Hy. by injection Hy as <- _. Qed.

(** *** The methods *)

(** [DeepCopy] copies through a pointer. *)
Lemma deepCopy_isolated {V} t sh (ld : gosem t -> rd V) into :
  copies sh ld into -> isolated (sharedAt (t:=Base t) sh) (readPtr (Base t) ld) (deepCopy t into).
Proof. intros Hc. apply copies_isolated. exact (copies_ptr (Base t) sh ld into Hc). Qed.

Lemma deepCopy_isolated_unshared {V} t (ld : gosem t -> rd V) into :
  copies unshared ld into -> isolated unshared (readPtr (Base t) ld) (deepCopy t into).
Proof. intros Hc. apply copies_isolated. exact (copies_ptr_unshared (Base t) ld into Hc). Qed.

(** [DeepCopyObject] returns the copy in an interface, and the nil interface
    exactly for nil. *)
Lemma deepCopyObject_exact t copy (p q : ptr (Base t)) h h' :
  copy p h = Some (q, h') -> deepCopyObject t copy p h = Some ((fun l => (t, l)) <$> q, h').
Proof. intros Hq. unfold deepCopyObject, mbind, M_bind. rewrite Hq. by destruct q. Qed.

(** C33: the deep copy of a cluster, machine template, host, host release or
    remediation, or of a list of them, reads the same as the original and
    occupies memory of its own: nothing that is written later to any cell that
    existed before, through the original or otherwise, shows in the copy. *)
Theorem deep_copies_isolated :
  isolated unshared (readPtr (Base THetznerRobotCluster) HetznerRobotCluster_value) HetznerRobotCluster_DeepCopy /\
  isolated unshared (readPtr (Base THetznerRobotClusterList) (list_value THetznerRobotCluster HetznerRobotCluster_value)) HetznerRobotClusterList_DeepCopy /\
  isolated unshared (readPtr (Base THetznerRobotMachineTemplate) HetznerRobotMachineTemplate_value) HetznerRobotMachineTemplate_DeepCopy /\
  isolated unshared (readPtr (Base THetznerRobotMachineTemplateList) (list_value THetznerRobotMachineTemplate HetznerRobotMachineTemplate_value)) HetznerRobotMachineTemplateList_DeepCopy /\
  isolated unshared (readPtr (Base THetznerRobotHost) HetznerRobotHost_value) HetznerRobotHost_DeepCopy /\
  isolated unshared (readPtr (Base THetznerRobotHostList) (list_value THetznerRobotHost HetznerRobotHost_value)) HetznerRobotHostList_DeepCopy /\
  isolated unshared (readPtr (Base THetznerRobotHostRelease) HetznerRobotHostRelease_value) HetznerRobotHostRelease_DeepCopy /\
  isolated unshared (readPtr (Base THetznerRobotHostReleaseList) (list_value THetznerRobotHostRelease HetznerRobotHostRelease_value)) HetznerRobotHostReleaseList_DeepCopy /\
  isolated unshared (readPtr (Base THetznerRobotRemediation) HetznerRobotRemediation_value) HetznerRobotRemediation_DeepCopy /\
  isolated unshared (readPtr (Base THetznerRobotRemediationList) (list_value THetznerRobotRemediation HetznerRobotRemediation_value)) HetznerRobotRemediationList_DeepCopy.
Proof.
  split_and!; apply deepCopy_isolated_unshared; try apply list_copies_unshared.
  - exact HetznerRobotCluster_copies.
  - exact HetznerRobotCluster_copies.
  - exact HetznerRobotMachineTemplate_copies.
  - exact HetznerRobotMachineTemplate_copies.
  - exact HetznerRobotHost_copies.
  - exact HetznerRobotHost_copies.
  - exact HetznerRobotHostRelease_copies.
  - exact HetznerRobotHostRelease_copies.
  - exact HetznerRobotRemediation_copies.
  - exact HetznerRobotRemediation_copies.
Qed.

(** C34: the deep copies of machines and remediation templates, and of lists of
    them, read the same as the original, and share with it exactly what the
    methods leave out: the cells of [ProvisionStarted] and [LastResetTime] of a
    machine, the memory of the metadata of a remediation template's template. *)
Theorem deep_copies_sharing :
  isolated (sharedAt (t:=Base THetznerRobotMachine) machineShared) (readPtr (Base THetznerRobotMachine) HetznerRobotMachine_value) HetznerRobotMachine_DeepCopy /\
  isolated (sharedAt (t:=Base THetznerRobotMachineList) (itemsShared THetznerRobotMachine machineShared)) (readPtr (Base THetznerRobotMachineList) (list_value THetznerRobotMachine HetznerRobotMachine_value))
    HetznerRobotMachineList_DeepCopy /\
  isolated (sharedAt (t:=Base THetznerRobotRemediationTemplate) templateShared) (readPtr (Base THetznerRobotRemediationTemplate) HetznerRobotRemediationTemplate_value)
    HetznerRobotRemediationTemplate_DeepCopy /\
  isolated (sharedAt (t:=Base THetznerRobotRemediationTemplateList) (itemsShared THetznerRobotRemediationTemplate templateShared))
    (readPtr (Base THetznerRobotRemediationTemplateList) (list_value THetznerRobotRemediationTemplate HetznerRobotRemediationTemplate_value))
    HetznerRobotRemediationTemplateList_DeepCopy /\
  (forall x y h h', HetznerRobotMachine_DeepCopyInto x h = Some (y, h') ->
     pmst_ProvisionStarted (o_Status y) = pmst_ProvisionStarted (o_Status x) /\
     pmst_LastResetTime (o_Status y) = pmst_LastResetTime (o_Status x)) /\
  (forall x y h h', HetznerRobotRemediationTemplate_DeepCopyInto x h = Some (y, h') -> o_Spec y = o_Spec x).
Proof.
  split_and!; [apply deepCopy_isolated..| |].
  - exact HetznerRobotMachine_copies.
  - exact (list_copies THetznerRobotMachine _ _ _ (stable_const _ _) HetznerRobotMachine_copies).
  - exact HetznerRobotRemediationTemplate_copies.
  - exact (list_copies THetznerRobotRemediationTemplate _ _ _ templateShared_stable HetznerRobotRemediationTemplate_copies).
  - exact machine_keeps_times.
  - exact template_keeps_spec.
Qed.

End facts.

(** ** A concrete memory *)

(** Object metadata whose labels are a map in memory; the other third-party
    structs hold no references. *)
#[export] Instance demoTypes : K8sTypes := {|
  k8s_cell := Empty_set; k8s_sem := fun _ => unit;
  ObjectMetaM := ObjectMeta * option positive;
  ListMetaM := string; ListMeta := string; LabelSelectorM := LabelSelector; ConditionM := Condition
|}.

Definition demoMeta_value (x : ObjectMetaM) : rd ObjectMeta :=
  labels ← readMap x.2; mret (x.1 <| Labels := labels |>).

Definition demoMeta_DeepCopyInto (x : ObjectMetaM) : M ObjectMetaM :=
  labels ← copyPtr (Base TStringMap) copyMap x.2; mret (x.1, labels).

#[export] Instance demoCopies : K8sCopies := {|
  ObjectMeta_value := demoMeta_value; ObjectMeta_DeepCopyInto := demoMeta_DeepCopyInto;
  ListMeta_value := Done; ListMeta_DeepCopyInto := mret;
  LabelSelector_value := Done; LabelSelector_DeepCopyInto := mret;
  Condition_value := Done; Condition_DeepCopyInto := mret;
  Time_DeepCopy := copyPtr (Base TTime) mret
|}.

#[export] Instance demoCopiesLaws : K8sCopiesLaws.
Proof.
  split; try exact copies_plain.
  - intros x h v F Hr. unfold ObjectMeta_value, demoCopies, demoMeta_value in Hr. run_inv Hr.
    cbn [ObjectMeta_DeepCopyInto demoCopies]. unfold demoMeta_DeepCopyInto. apply wpm_bind.
    eapply (wpm_copies ∅ _ readMap); [apply readMap_copies|exact Hrun|done|done|]. intros p h1 Hh1 Hp.
    apply wpm_ret. cbn. unfold demoMeta_value. read_back.
  - apply copies_ptr_unshared, copies_plain.
Qed.

Definition demoMeta (labels : option positive) : ObjectMetaM :=
  (MkObjectMeta "m" "prod" "u" ∅ [] None [], labels).

Definition demoMachine : HetznerRobotMachineM :=
  MkObject (MkTypeMeta "HetznerRobotMachine" "v1alpha1") (demoMeta (Some 2%positive))
    (InMachineSpec (Some 3%positive) None None "talos" "" "" "" "" "" "")
    (InMachineStatus false None (Some 5%positive) StateInRescue "host-1" "" "" "" None None (Some 4%positive) 1 None None None).

Definition demoHost : HetznerRobotHostM :=
  MkObject (MkTypeMeta "HetznerRobotHost" "v1alpha1") (demoMeta (Some 2%positive))
    (MkHRHSpec 4711 "" "" "" "" HostLifecycleClassCompute false DestructiveProvisioningPolicyAlwaysCleanSlate)
    (InHostStatus HostStateClaimed (Some 6%positive) None None None "" "").

(** A host at cell 1 and a machine at cell 7, with the same labels map. *)
Definition demoHeap : gmap positive cell :=
  <[1%positive := Cell (Base THetznerRobotHost) demoHost]>
  (<[2%positive := Cell (Base TStringMap) {["pool" := "a"]}]>
  (<[3%positive := Cell (Base TString) "hetzner-robot://4711"]>
  (<[4%positive := Cell (Base TTime) 1000%Z]>
  (<[5%positive := Cell (Slice (Base TMachineAddress)) [MkMachineAddress "InternalIP" "10.0.0.5"]]>
  (<[6%positive := Cell (Base TMachineReference) (MkMachineReference "m" "prod")]>
  (<[7%positive := Cell (Base THetznerRobotMachine) demoMachine]> ∅)))))).

Definition demoHostValue : HetznerRobotHost :=
  MkHRH (MkObjectMeta "m" "prod" "u" {["pool" := "a"]} [] None [])
    (MkHRHSpec 4711 "" "" "" "" HostLifecycleClassCompute false DestructiveProvisioningPolicyAlwaysCleanSlate)
    (MkHRHStatus HostStateClaimed (Some (MkMachineReference "m" "prod")) None None None "" "").

Definition demoMachineValue : HetznerRobotMachine :=
  MkHRM (MkObjectMeta "m" "prod" "u" {["pool" := "a"]} [] None [])
    (MkHRMSpec (Some "hetzner-robot://4711") None None "talos" "" "" "" "" "" "")
    (MkHRMStatus false None [MkMachineAddress "InternalIP" "10.0.0.5"] StateInRescue "host-1" "" "" "" None None
       (Some 1000%Z) 1 None None []).

Definition hostAt : ptr (Base THetznerRobotHost) -> rd (option (TypeMeta * HetznerRobotHost)) :=
  readPtr (Base THetznerRobotHost) HetznerRobotHost_value.

Definition machineAt : ptr (Base THetznerRobotMachine) -> rd (option (TypeMeta * HetznerRobotMachine)) :=
  readPtr (Base THetznerRobotMachine) HetznerRobotMachine_value.

Lemma demoHost_reads : exists F,
  run (hostAt (Some 1%positive)) demoHeap = Some (Some (MkTypeMeta "HetznerRobotHost" "v1alpha1", demoHostValue), F).
Proof. eexists. vm_compute. reflexivity. Qed.

Lemma demoMachine_reads : exists F,
  run (machineAt (Some 7%positive)) demoHeap =
  Some (Some (MkTypeMeta "HetznerRobotMachine" "v1alpha1", demoMachineValue), F).
Proof. eexists. vm_compute. reflexivity. Qed.

(** The copy of a host is untouched by a write to any older cell. *)
Lemma deep_copies_isolated_witness :
  exists q h', HetznerRobotHost_DeepCopy (Some 1%positive) demoHeap = Some (q, h') /\
    forall l c, l ∈ dom demoHeap -> exists F,
      run (hostAt q) (<[l := c]> h') = Some (Some (MkTypeMeta "HetznerRobotHost" "v1alpha1", demoHostValue), F).
Proof.
  destruct deep_copies_isolated as (_ & _ & _ & _ & Hhost & _).
  destruct demoHost_reads as [F0 HF0].
  destruct (Hhost (Some 1%positive) demoHeap _ _ HF0) as (q & h' & Hq & _ & _ & Hlater).
  exists q, h'. split; [exact Hq|]. intros l c Hl.
  destruct (Hlater (<[l := c]> h')) as (F & HF & _); [|exists F; exact HF].
  intros l' [Hl'|Hl']; [|by apply not_elem_of_empty in Hl']. apply lookup_insert_ne. congruence.
Defined.

(** The copy of a machine is untouched by a write to an older cell that is not
    one of its two times. *)
Lemma deep_copies_sharing_witness :
  exists q h', HetznerRobotMachine_DeepCopy (Some 7%positive) demoHeap = Some (q, h') /\
    forall l c, l ∈ dom demoHeap -> l <> 4%positive -> exists F,
      run (machineAt q) (<[l := c]> h') = Some (Some (MkTypeMeta "HetznerRobotMachine" "v1alpha1", demoMachineValue), F).
Proof.
  destruct deep_copies_sharing as (Hm & _).
  destruct demoMachine_reads as [F0 HF0].
  destruct (Hm (Some 7%positive) demoHeap _ _ HF0) as (q & h' & Hq & _ & _ & Hlater).
  exists q, h'. split; [exact Hq|]. intros l c Hl Hne.
  destruct (Hlater (<[l := c]> h')) as (F & HF & _); [|exists F; exact HF].
  intros l' [Hl'|Hl']; apply lookup_insert_ne; [congruence|].
  intros ->. apply Hne.
  assert (Hsh : sharedAt (t:=Base THetznerRobotMachine) machineShared demoHeap (Some 7%positive) = {[4%positive]})
    by (vm_compute; reflexivity).
  rewrite Hsh in Hl'. by apply elem_of_singleton in Hl'.
Defined.

(** A write through the original's [ProvisionStarted] shows in the copy. *)
Lemma started_write_shows :
  match HetznerRobotMachine_DeepCopy (Some 7%positive) demoHeap with
  | Some (q, h') =>
      match run (machineAt q) (<[4%positive := Cell (Base TTime) 99%Z]> h') with
      | Some (Some v, _) => mst_ProvisionStarted (hrm_Status (snd v))
      | _ => None
      end
  | None => None
  end = Some 99%Z.
Proof. vm_compute. reflexivity. Qed.
