(* ===== verification/Effects.v ===== *)
(** * Programs with effects

    The controllers talk to the Kubernetes API server, to the Hetzner Robot
    web service over HTTP, to servers over TCP, SSH and gRPC, and to the
    clock.  A Go function that does so is a [prog]: a tree of the calls it
    makes, each with a continuation for every answer.  [exec] is the relation
    between a program, the history of calls and answers, and its result;
    [wp] computes what must hold of a program for every answer of its
    environment, with a guard that each call must meet at the history it is
    made in.  Histories are kept newest first. *)

From S2P Require Import Prelude GoStrings GoTime Api.

(** ** The calls *)

(** The kinds of objects read or written through the Kubernetes client. *)
Inductive Kind := KMachine | KHost | KRelease | KCluster | KRemediation | KSecret.

#[export] Instance Kind_eq_dec : EqDecision Kind.
Proof. solve_decision. Defined.

Definition Obj (k : Kind) : Set :=
  match k with
  | KMachine => HetznerRobotMachine
  | KHost => HetznerRobotHost
  | KRelease => HetznerRobotHostRelease
  | KCluster => HetznerRobotCluster
  | KRemediation => HetznerRobotRemediation
  | KSecret => Secret
  end.

Record HttpRequest := MkHttpRequest {
  rq_Method : string;
  rq_URL : string;
  rq_User : string;
  rq_Password : string;
  rq_ContentType : option string;
  rq_Body : string
}.

(** A response, with what [io.ReadAll] of its body returns: the bytes read and
    an error. *)
Record HttpResponse := MkHttpResponse {
  rsp_StatusCode : Z;
  rsp_Body : string;
  rsp_BodyErr : option error
}.

Inductive ApplyMode := ApplyAuto.
Inductive ResetMode := ResetSystemDisk.

(** One call, indexed by the type of its answer.  [option error] is an [error]
    result; [None] is nil. *)
Inductive Eff : Set -> Type :=
(** [time.Now] *)
| ENow : Eff Z
(** the Kubernetes client: [Get], [List] (in a namespace, with a selector),
    [patch.NewHelper], [Helper.Patch] *)
| EGet (k : Kind) (key : NamespacedName) : Eff (res (Obj k))
| EList (k : Kind) (ns : string) (sel : option LabelSelector) : Eff (res (list (Obj k)))
| ENewPatchHelper (k : Kind) (o : Obj k) : Eff (option error)
| EPatch (k : Kind) (before after : Obj k) : Eff (option error)
(** Cluster API utilities that read the API server *)
| EOwnerMachine (m : ObjectMeta) : Eff (res (option Machine))
| EClusterFromMetadata (m : ObjectMeta) : Eff (res (option Cluster))
| EOwnerCluster (m : ObjectMeta) : Eff (res (option Cluster))
(** [http.Client.Do] *)
| EHttp (rq : HttpRequest) : Eff (res HttpResponse)
(** [net.DialTimeout], the SSH handshake, sessions and commands *)
| ETcpDial (addr : string) (timeout : Z) : Eff (option error)
| ESshHandshake (addr user key : string) (timeout : Z) : Eff (option error)
| ESshNewSession (addr user : string) : Eff (option error)
| ESshExec (addr user cmd : string) : Eff (string * option error)
(** the Talos machine service *)
| EGrpcDial (addr : string) : Eff (option error)
| EGrpcApplyConfiguration (addr data : string) (mode : option ApplyMode) : Eff (option error)
| EGrpcReset (addr : string) (graceful reboot : bool) (mode : ResetMode) : Eff (option error)
| EGrpcBootstrap (addr : string) : Eff (option error).

(** ** Programs *)

Inductive prog (A : Type) : Type :=
| Ret (a : A)
| Vis {X : Set} (e : Eff X) (k : X -> prog A).
Arguments Ret {A} a.
Arguments Vis {A X} e k.

Fixpoint prog_bind {A B} (f : A -> prog B) (p : prog A) : prog B :=
  match p with
  | Ret a => f a
  | Vis e k => Vis e (fun x => prog_bind f (k x))
  end.

#[export] Instance prog_mret : MRet prog := @Ret.
#[export] Instance prog_mbind : MBind prog := @prog_bind.

Definition trigger {X : Set} (e : Eff X) : prog X := Vis e Ret.

(** ** Executions *)

(** A call and its answer. *)
Record event := Ev { ev_type : Set; ev_eff : Eff ev_type; ev_resp : ev_type }.
Arguments Ev {ev_type} ev_eff ev_resp.

Abbreviation hist := (list event).

Inductive exec {A} : prog A -> hist -> hist -> A -> Prop :=
| exec_ret a h : exec (Ret a) h h a
| exec_vis (X : Set) (e : Eff X) k x h h' a :
    exec (k x) (Ev e x :: h) h' a -> exec (Vis e k) h h' a.

(** A guard says which calls may be made at a history. *)
Definition guard := hist -> forall X : Set, Eff X -> Prop.

Fixpoint guarded (G : guard) (h : hist) : Prop :=
  match h with
  | [] => True
  | ev :: h' => G h' (ev_type ev) (ev_eff ev) /\ guarded G h'
  end.

Fixpoint wp {A} (G : guard) (p : prog A) (Q : A -> hist -> Prop) (h : hist) : Prop :=
  match p with
  | Ret a => Q a h
  | @Vis _ X e k => G h X e /\ forall x, wp G (k x) Q (Ev e x :: h)
  end.

(** Running a program against an environment that answers from the history. *)
Definition oracle := hist -> forall X : Set, Eff X -> X.

Fixpoint run_oracle {A} (o : oracle) (p : prog A) (h : hist) : hist * A :=
  match p with
  | Ret a => (h, a)
  | @Vis _ X e k => let x := o h X e in run_oracle o (k x) (Ev e x :: h)
  end.

(** Running a program against a state machine. *)
Definition handler (W : Type) := forall X : Set, Eff X -> W -> X * W.

Fixpoint run {W A} (hd : handler W) (p : prog A) (w : W) : A * W :=
  match p with
  | Ret a => (a, w)
  | @Vis _ X e k => let '(x, w') := hd X e w in run hd (k x) w'
  end.

(** ** Classes of calls *)

(** Calls that only read the cluster or the clock. *)
Definition isRead (X : Set) (e : Eff X) : Prop :=
  match e with
  | ENow | EGet _ _ | EList _ _ _ | ENewPatchHelper _ _ | EOwnerMachine _
  | EClusterFromMetadata _ | EOwnerCluster _ => True
  | _ => False
  end.

(** * Facts *)

Lemma exec_run_oracle {A} (o : oracle) (p : prog A) (h : hist) :
  exec p h (run_oracle o p h).1 (run_oracle o p h).2.
Proof.
  revert h; induction p as [a|X e k IH]; intros h; cbn; [constructor|].
  econstructor. apply IH.
Qed.

Lemma run_oracle_answers {A} (o : oracle) (p : prog A) (h : hist) (ev : event) :
  ev ∈ (run_oracle o p h).1 -> ev ∈ h \/ exists h', ev_resp ev = o h' _ (ev_eff ev).
Proof.
  revert h; induction p as [a|Y f k IH]; intros h; cbn; [by left|].
  intros [Hin|?]%IH; [|by right]. apply elem_of_cons in Hin as [->|?]; [|by left].
  right. by exists h.
Qed.

(** What [wp] promises holds of every execution. *)
Lemma wp_sound {A} (G : guard) (p : prog A) (Q : A -> hist -> Prop) h h' a :
  wp G p Q h -> guarded G h -> exec p h h' a -> Q a h' /\ guarded G h'.
Proof.
  intros Hwp Hg He. induction He as [a h|X e k x h h' a He IH]; cbn in Hwp; [done|].
  destruct Hwp as [HG Hk]. apply IH; [apply Hk|]. cbn. done.
Qed.

(** The guard that allows every call. *)
Definition any : guard := fun _ _ _ => True.

#[export] Hint Extern 0 (any _ _ _) => exact I : core.

Lemma guarded_any h : guarded any h.
Proof. by induction h. Qed.

Lemma exec_wp {A} (p : prog A) (Q : A -> hist -> Prop) h h' a :
  exec p h h' a -> wp any p Q h -> Q a h'.
Proof. intros He Hwp. exact (proj1 (wp_sound _ _ _ _ _ _ Hwp (guarded_any h) He)). Qed.

(** From a goal about one execution to the [wp] of its program. *)
Ltac by_exec H :=
  lazymatch type of H with
  | exec _ _ ?h' ?a => pattern a, h'; refine (exec_wp _ _ _ _ _ H _); clear H
  end.

(** ** Rules *)

Section Rules.
Context {A : Type} (G : guard).
Implicit Types (h : hist) (Q : A -> hist -> Prop).

Lemma wp_bind {B} (p : prog B) (f : B -> prog A) Q h :
  wp G p (fun b h' => wp G (f b) Q h') h -> wp G (p ≫= f) Q h.
Proof.
  revert h; induction p as [b|X e k IH]; intros h; cbn; [done|].
  intros [HG Hk]. split; [done|]. intros x. apply IH, Hk.
Qed.

Lemma wp_bind_inv {B} (p : prog B) (f : B -> prog A) Q h :
  wp G (p ≫= f) Q h -> wp G p (fun b h' => wp G (f b) Q h') h.
Proof.
  revert h; induction p as [b|X e k IH]; intros h; cbn; [done|].
  intros [HG Hk]. split; [done|]. intros x. apply IH, Hk.
Qed.

Lemma wp_ret (a : A) Q h : Q a h -> wp G (Ret a) Q h.
Proof. done. Qed.

Lemma wp_mono (p : prog A) Q Q' h :
  (forall a h', Q a h' -> Q' a h') -> wp G p Q h -> wp G p Q' h.
Proof.
  intros HQ. revert h; induction p as [a|X e k IH]; intros h; cbn; [apply HQ|].
  intros [HG Hk]. split; [done|]. intros x. apply IH, Hk.
Qed.

End Rules.

(** What is known of the result, beside the execution that it ends. *)
Lemma wp_with_exec {A} (G : guard) (p : prog A) (Q : A -> hist -> Prop) h :
  wp G p Q h -> wp G p (fun a h' => Q a h' /\ exec p h h' a) h.
Proof.
  revert h. induction p as [a|X e k IH]; intros h; cbn.
  - intros HQ. split; [done|constructor].
  - intros [HG Hk]. split; [done|]. intros x. specialize (IH x _ (Hk x)). revert IH. apply wp_mono.
    intros a h' [HQ He]. split; [done|]. by econstructor.
Qed.

Lemma wp_trigger (G : guard) {X : Set} (e : Eff X) (Q : X -> hist -> Prop) h :
  G h X e -> (forall x, Q x (Ev e x :: h)) -> wp G (trigger e) Q h.
Proof. done. Qed.

(** A program's history only grows. *)
Definition extends (h' h : hist) : Prop := exists t, h' = t ++ h.

#[export] Instance extends_preorder : PreOrder extends.
Proof.
  split.
  - intros h. by exists [].
  - intros h1 h2 h3 [t1 ->] [t2 ->]. exists (t1 ++ t2). by rewrite <- app_assoc.
Qed.

Lemma extends_cons ev h : extends (ev :: h) h.
Proof. by exists [ev]. Qed.

Lemma extends_cons_trans ev h' h : extends h' h -> extends (ev :: h') h.
Proof. intros [t ->]. by exists (ev :: t). Qed.

Ltac extends_tac :=
  first [ reflexivity | assumption | apply extends_cons_trans; extends_tac ].

Lemma extends_elem ev h' h : extends h' h -> ev ∈ h -> ev ∈ h'.
Proof. intros [t ->] Hin. apply elem_of_app. by right. Qed.

Lemma wp_extends {A} (G : guard) (p : prog A) (Q : A -> hist -> Prop) h :
  wp G p Q h -> wp G p (fun a h' => Q a h' /\ extends h' h) h.
Proof.
  cut (forall h0, extends h h0 -> wp G p Q h -> wp G p (fun a h' => Q a h' /\ extends h' h0) h).
  { intros H Hwp. by apply H. }
  revert h; induction p as [a|X e k IH]; intros h h0 Hext; cbn; [done|].
  intros [HG Hk]. split; [done|]. intros x. apply IH; [by apply extends_cons_trans|apply Hk].
Qed.

(** A guard needs to be met only at histories that extend the first one. *)
Lemma wp_guard_extends {A} (G : guard) (p : prog A) (Q : A -> hist -> Prop) h :
  wp (fun h' X e => extends h' h -> G h' X e) p Q h -> wp G p Q h.
Proof.
  cut (forall h1, extends h1 h -> wp (fun h' X e => extends h' h -> G h' X e) p Q h1 -> wp G p Q h1).
  { intros H. by apply H. }
  induction p as [a|X e k IH]; intros h1 He; cbn; [done|].
  intros [HG Hk]. split; [by apply HG|]. intros x. apply IH; [by apply extends_cons_trans|done].
Qed.

(** Whatever a program does, its history extends the one it started with. *)
Lemma wp_any {A} (p : prog A) (Q : A -> hist -> Prop) h :
  (forall a h', extends h' h -> Q a h') -> wp any p Q h.
Proof.
  intros HQ. cut (forall h', extends h' h -> wp any p Q h'); [intros H; by apply H|].
  induction p as [a|X e k IH]; intros h' He; cbn; [by apply HQ|]. split; [done|].
  intros x. by apply IH, extends_cons_trans.
Qed.

(** A guard that only looks at the call, and programs whose calls all meet
    it. *)
Definition static (P : forall X : Set, Eff X -> Prop) : guard := fun _ X e => P X e.

Fixpoint emits {A} (P : forall X : Set, Eff X -> Prop) (p : prog A) : Prop :=
  match p with
  | Ret _ => True
  | @Vis _ X e k => P X e /\ forall x, emits P (k x)
  end.

Lemma emits_bind {A B} P (p : prog A) (f : A -> prog B) :
  emits P p -> (forall a, emits P (f a)) -> emits P (p ≫= f).
Proof. intros Hp Hf. induction p as [a|X e k IH]; cbn; [apply Hf|]. naive_solver. Qed.

Lemma emits_trigger P (X : Set) (e : Eff X) : P X e -> emits P (trigger e).
Proof. done. Qed.

(** A program all of whose calls meet [P] meets any guard that [P] implies
    from the history it starts in on. *)
Lemma emits_wp {A} P (G : guard) (p : prog A) (Q : A -> hist -> Prop) h :
  emits P p ->
  (forall h' X e, extends h' h -> P X e -> G h' X e) ->
  (forall a h', extends h' h -> Q a h') ->
  wp G p Q h.
Proof.
  intros Hp HG HQ.
  cut (forall h', extends h' h -> wp G p Q h'); [intros H; by apply H|].
  induction p as [a|X e k IH]; intros h' Hext; cbn in *; [by apply HQ|].
  destruct Hp as [HP Hk]. split; [by apply HG|].
  intros x. apply IH; [apply Hk|by apply extends_cons_trans].
Qed.

Lemma guarded_static (P P' : forall X : Set, Eff X -> Prop) h :
  (forall X e, P X e -> P' X e) -> guarded (static P) h -> guarded (static P') h.
Proof. intros HP. induction h as [|[X e x] h IH]; cbn; [done|]. intros [He Hh]. split; [by apply HP|by apply IH]. Qed.

(** A program that meets a guard that only looks at the call. *)
Lemma emits_of_wp {A} P (p : prog A) Q h : wp (static P) p Q h -> emits P p.
Proof.
  revert h; induction p as [a|X e k IH]; intros h; cbn; [done|]. intros [He Hk]. split; [done|].
  intros x. by eapply IH.
Qed.

(** ** Proof steps *)

Create HintDb guards.

(** One step of a [wp] goal: sequencing, a call, a result, a branch. *)
Ltac wp_step :=
  lazymatch goal with
  | |- wp _ (_ ≫= _) _ _ => apply wp_bind
  | |- wp _ (trigger _) _ _ => apply wp_trigger; [|intros ?]
  | |- wp _ (Ret _) _ _ => apply wp_ret
  | |- wp _ (match ?x with _ => _ end) _ _ => destruct x eqn:?
  | |- wp _ (let _ := _ in _) _ _ => cbv zeta
  end.

Ltac emits_step :=
  lazymatch goal with
  | |- emits _ (_ ≫= _) => apply emits_bind; [|intros ?]
  | |- emits _ (trigger _) => apply emits_trigger
  | |- emits _ (Ret _) => exact I
  | |- emits _ (match ?x with _ => _ end) => destruct x eqn:?
  | |- emits _ (let _ := _ in _) => cbv zeta
  end.

(** ** Writes *)

Definition castObj {k k' : Kind} (H : k = k') (o : Obj k) : Obj k' := eq_rect k Obj o k' H.

(** The write of an object of a kind an event is, if it is one: the object read,
    the object written, and the answer. *)
Definition patchOf (k : Kind) (ev : event) : option (Obj k * Obj k * option error) :=
  match ev with
  | Ev e x =>
      match e in Eff X return X -> option (Obj k * Obj k * option error) with
      | EPatch k' before after => fun x =>
          match decide (k' = k) with
          | left H => Some (castObj H before, castObj H after, x)
          | right _ => None
          end
      | _ => fun _ => None
      end x
  end.

(** The writes of a history, newest first. *)
Definition patches (k : Kind) (h : hist) : list (Obj k * Obj k * option error) := omap (patchOf k) h.

Lemma patches_cons k ev h :
  patches k (ev :: h) = match patchOf k ev with Some p => p :: patches k h | None => patches k h end.
Proof. done. Qed.

(** Every write of the kind relates what was read and what is written by [P];
    writes of other kinds are not looked at. *)
Definition patchesOnly (k : Kind) (P : Obj k -> Obj k -> Prop) (X : Set) (e : Eff X) : Prop :=
  match e with
  | EPatch k' before after =>
      match decide (k' = k) with
      | left H => P (castObj H before) (castObj H after)
      | right _ => True
      end
  | _ => True
  end.

Lemma guarded_patches (k : Kind) (P : Obj k -> Obj k -> Prop) h :
  guarded (static (patchesOnly k P)) h -> Forall (fun p => P p.1.1 p.1.2) (patches k h).
Proof.
  induction h as [|[X e x] h IH]; cbn [guarded]; [constructor|]. intros [He Hh]. specialize (IH Hh).
  unfold patches. cbn [omap list_omap]. destruct (patchOf k (Ev e x)) as [p|] eqn:Hp; [|done].
  constructor; [|done]. destruct e; cbn in Hp; try done. unfold static in He. cbn in He.
  destruct (decide _) as [H|]; by simplify_eq/=.
Qed.

(** What says whose a host is: its state and its two references. *)
Definition claimOf (h : HetznerRobotHost) : HostState * option MachineReference * option MachineReference :=
  (hst_State (hrh_Status h), hst_ConsumerRef (hrh_Status h), hst_MachineRef (hrh_Status h)).

(** A write of a host that changes neither that nor its finalizers. *)
Definition quietWrite (b a : HetznerRobotHost) : Prop :=
  claimOf a = claimOf b /\ Finalizers (hrh_Meta a) = Finalizers (hrh_Meta b).

(** A call that writes no machine, and of a host nothing that says whose it is. *)
Definition quiet (X : Set) (e : Eff X) : Prop :=
  match e with
  | EPatch k before after =>
      match k return Obj k -> Obj k -> Prop with
      | KHost => quietWrite
      | KMachine => fun _ _ => False
      | _ => fun _ _ => True
      end before after
  | _ => True
  end.

Lemma read_quiet X e : isRead X e -> quiet X e.
Proof. by destruct e. Qed.

Lemma quiet_noMachine X e : quiet X e -> match e with EPatch k _ _ => k <> KMachine | _ => True end.
Proof. destruct e as [| | | |[]| | | | | | | | | | | |]; done. Qed.

(** An execution from the empty history under a guard its program meets. *)
Lemma exec_guarded {A} (G : guard) (p : prog A) (Q : A -> hist -> Prop) h' a :
  exec p [] h' a -> wp G p Q [] -> Q a h' /\ guarded G h'.
Proof. intros He Hwp. exact (wp_sound G p Q [] h' a Hwp I He). Qed.

(** Runs every step of a [wp] goal whose functions are unfolded; the calls'
    guards are left to [done]. *)
Ltac wp_run :=
  repeat first
    [ progress cbv zeta
    | lazymatch goal with
      | |- wp _ (_ ≫= _) _ _ => apply wp_bind
      | |- wp _ (trigger _) _ _ => apply wp_trigger; [try done|intros ?]
      | |- wp _ (Ret _) _ _ => apply wp_ret
      | |- wp _ (match ?x with _ => _ end) _ _ => destruct x eqn:?
      end ].

Lemma patchOf_read (k : Kind) {X : Set} (e : Eff X) (x : X) : isRead X e -> patchOf k (Ev e x) = None.
Proof. by destruct e. Qed.

(** A program that only reads: the writes of the history stay as they were. *)
Lemma wp_reads {A} (G : guard) (p : prog A) (Q : A -> hist -> Prop) h :
  emits isRead p ->
  (forall h' X e, extends h' h -> isRead X e -> G h' X e) ->
  (forall a h', extends h' h -> (forall k, patches k h' = patches k h) -> Q a h') ->
  wp G p Q h.
Proof.
  intros Hp HG HQ.
  cut (forall h', extends h' h -> (forall k, patches k h' = patches k h) -> wp G p Q h').
  { intros H. by apply H. }
  induction p as [a|X e k IH]; intros h' He Hh; cbn in Hp |- *; [by apply HQ|].
  destruct Hp as [Hr Hk]. split; [by apply HG|]. intros x. apply IH; [done|by apply extends_cons_trans|].
  intros k'. by rewrite patches_cons, patchOf_read.
Qed.

(** A program that writes no object of a kind leaves the writes of that kind as
    they were. *)
Definition noPatch (k : Kind) (X : Set) (e : Eff X) : Prop :=
  match e with EPatch k' _ _ => k' <> k | _ => True end.

Lemma wp_noPatch {A} (k : Kind) (G : guard) (p : prog A) (Q : A -> hist -> Prop) h :
  wp (fun h X e => G h X e /\ noPatch k X e) p Q h ->
  wp G p (fun a h' => Q a h' /\ patches k h' = patches k h /\ extends h' h) h.
Proof.
  cut (forall h', extends h' h -> patches k h' = patches k h ->
    wp (fun h X e => G h X e /\ noPatch k X e) p Q h' ->
    wp G p (fun a h' => Q a h' /\ patches k h' = patches k h /\ extends h' h) h').
  { intros H. by apply H. }
  induction p as [a|X e f IH]; intros h' He Hp; cbn; [done|]. intros [[HG Hn] Hk]. split; [done|].
  intros x. apply IH; [by apply extends_cons_trans| |apply Hk].
  rewrite patches_cons. destruct e; try done. cbn. by destruct (decide _).
Qed.

(** The history grew by calls of one class only. *)
Definition onlyCalls (P : forall X : Set, Eff X -> Prop) (h' h : hist) : Prop :=
  exists t, h' = t ++ h /\ Forall (fun ev => P (ev_type ev) (ev_eff ev)) t.

Definition onlyReads : hist -> hist -> Prop := onlyCalls isRead.

Definition readEvent (ev : event) : Prop := isRead (ev_type ev) (ev_eff ev).

#[export] Instance onlyCalls_preorder P : PreOrder (onlyCalls P).
Proof.
  split.
  - intros h. by exists [].
  - intros h1 h2 h3 (t1 & -> & H1) (t2 & -> & H2). exists (t1 ++ t2).
    rewrite <- app_assoc. split; [done|]. by apply Forall_app.
Qed.

#[export] Instance onlyReads_preorder : PreOrder onlyReads := onlyCalls_preorder isRead.

Lemma onlyCalls_extends P h' h : onlyCalls P h' h -> extends h' h.
Proof. intros (t & -> & _). by exists t. Qed.

Lemma onlyReads_extends h' h : onlyReads h' h -> extends h' h.
Proof. apply onlyCalls_extends. Qed.

Lemma onlyCalls_cons (P : forall X : Set, Eff X -> Prop) {X : Set} (e : Eff X) (x : X) h' h :
  P X e -> onlyCalls P h' h -> onlyCalls P (Ev e x :: h') h.
Proof. intros He (t & -> & Ht). exists (Ev e x :: t). split; [done|]. by constructor. Qed.

Lemma onlyReads_cons {X : Set} (e : Eff X) (x : X) h' h :
  isRead X e -> onlyReads h' h -> onlyReads (Ev e x :: h') h.
Proof. apply onlyCalls_cons. Qed.

Lemma wp_onlyCalls {A} P (G : guard) (p : prog A) (Q : A -> hist -> Prop) h :
  emits P p ->
  (forall h' X e, onlyCalls P h' h -> P X e -> G h' X e) ->
  (forall a h', onlyCalls P h' h -> Q a h') ->
  wp G p Q h.
Proof.
  intros Hp HG HQ. cut (forall h', onlyCalls P h' h -> wp G p Q h'); [intros H; by apply H|].
  induction p as [a|X e k IH]; intros h' He; cbn in Hp |- *; [by apply HQ|].
  destruct Hp as [Hr Hk]. split; [by apply HG|].
  intros x. apply IH; [done|by apply onlyCalls_cons].
Qed.

(** The class of the calls a program makes, from a guard it meets. *)
Lemma wp_calls {A} P (G : guard) (p : prog A) (Q : A -> hist -> Prop) h :
  wp (fun h X e => G h X e /\ P X e) p Q h ->
  wp G p (fun a h' => Q a h' /\ onlyCalls P h' h) h.
Proof.
  cut (forall h', onlyCalls P h' h -> wp (fun h X e => G h X e /\ P X e) p Q h' ->
    wp G p (fun a h' => Q a h' /\ onlyCalls P h' h) h'); [intros H; by apply H|].
  induction p as [a|X e f IH]; intros h' He; cbn; [done|]. intros [[HG Hn] Hk]. split; [done|].
  intros x. apply IH; [by apply onlyCalls_cons|apply Hk].
Qed.

(** The number of the events of a history that pass a test. *)
Definition count (f : event -> bool) (h : hist) : nat := length (List.filter f h).

Lemma count_onlyCalls P (f : event -> bool) h' h :
  (forall ev, P (ev_type ev) (ev_eff ev) -> f ev = false) -> onlyCalls P h' h -> count f h' = count f h.
Proof.
  intros Hf (t & -> & Ht). unfold count. rewrite List.filter_app, length_app.
  induction Ht as [|ev t Hev _ IH]; [done|]. cbn. by rewrite Hf.
Qed.

(** ** Calls and results together

    [yields P p R]: every call [p] may make is in [P], and every result it may
    return is in [R], whatever the answers. *)
Fixpoint yields {A} (P : forall X : Set, Eff X -> Prop) (p : prog A) (R : A -> Prop) : Prop :=
  match p with
  | Ret a => R a
  | @Vis _ X e k => P X e /\ forall x, yields P (k x) R
  end.

Section Yields.
Context {A : Type} (P : forall X : Set, Eff X -> Prop).
Implicit Types (R : A -> Prop).

Lemma yields_ret (a : A) R : R a -> yields P (Ret a) R.
Proof. done. Qed.

Lemma yields_bind {B} (p : prog B) (f : B -> prog A) (S : B -> Prop) R :
  yields P p S -> (forall b, S b -> yields P (f b) R) -> yields P (p ≫= f) R.
Proof. intros Hp Hf. induction p as [b|X e k IH]; cbn in *; [by apply Hf|]. naive_solver. Qed.

Lemma yields_call {X : Set} (e : Eff X) (f : X -> prog A) R :
  P X e -> (forall x, yields P (f x) R) -> yields P (trigger e ≫= f) R.
Proof. done. Qed.

Lemma yields_emits {B} (p : prog B) (f : B -> prog A) R :
  emits P p -> (forall b, yields P (f b) R) -> yields P (p ≫= f) R.
Proof. intros Hp Hf. induction p as [b|X e k IH]; cbn in *; [by apply Hf|]. naive_solver. Qed.

Lemma yields_wp (G : guard) (p : prog A) R (Q : A -> hist -> Prop) h :
  yields P p R ->
  (forall h' X e, extends h' h -> P X e -> G h' X e) ->
  (forall a h', extends h' h -> R a -> Q a h') ->
  wp G p Q h.
Proof.
  intros Hp HG HQ. cut (forall h', extends h' h -> wp G p Q h'); [intros H; by apply H|].
  induction p as [a|X e k IH]; intros h' He; cbn in *; [by apply HQ|].
  destruct Hp as [HP Hk]. split; [by apply HG|].
  intros x. apply IH; [apply Hk|by apply extends_cons_trans].
Qed.

Lemma yields_exec (p : prog A) R h h' a : exec p h h' a -> yields P p R -> R a.
Proof. intros He. induction He; cbn; naive_solver. Qed.
End Yields.

Lemma yields_mono {A} (P P' : forall X : Set, Eff X -> Prop) (p : prog A) (R R' : A -> Prop) :
  (forall X e, P X e -> P' X e) -> (forall a, R a -> R' a) -> yields P p R -> yields P' p R'.
Proof. intros HP HR. induction p as [a|X e k IH]; cbn; naive_solver. Qed.

Lemma emits_yields {A} (P : forall X : Set, Eff X -> Prop) (p : prog A) : emits P p <-> yields P p (fun _ => True).
Proof. induction p as [a|X e k IH]; cbn; [done|]. naive_solver. Qed.

(** A part whose results matter, in a program of which only the calls do. *)
Lemma emits_after {A B} (P : forall X : Set, Eff X -> Prop) (p : prog A) (R : A -> Prop) (f : A -> prog B) :
  yields P p R -> (forall a, R a -> emits P (f a)) -> emits P (p ≫= f).
Proof. intros Hp Hf. induction p as [a|X e k IH]; cbn in *; naive_solver. Qed.

Lemma emits_mono {A} (P P' : forall X : Set, Eff X -> Prop) (p : prog A) :
  (forall X e, P X e -> P' X e) -> emits P p -> emits P' p.
Proof. intros HP. induction p as [a|X e k IH]; cbn; [done|]. intros [He Hk]. eauto. Qed.
