(* ===== verification/Answers.v ===== *)
(** * Runs whose answers are known

    What becomes of a program when its calls are answered well: [awp R p Q] says
    that every result [p] may return is in [Q] when all answers are those [R]
    allows, and [known R p Q h] says the same of the result and the
    history.  Progress and RemediationLife prove with them that the controllers
    get somewhere. *)

From S2P Require Import Prelude Effects.

(** Which answers each call may get. *)
Definition answers := forall X : Set, Eff X -> X -> Prop.

Fixpoint awp {A} (R : answers) (p : prog A) (Q : A -> Prop) : Prop :=
  match p with
  | Ret a => Q a
  | @Vis _ X e k => forall x, R X e x -> awp R (k x) Q
  end.

Fixpoint known {A} (R : answers) (p : prog A) (Q : A -> hist -> Prop) (h : hist) : Prop :=
  match p with
  | Ret a => Q a h
  | @Vis _ X e k => forall x, R X e x -> known R (k x) Q (Ev e x :: h)
  end.

Definition answeredBy (R : answers) (h : hist) : Prop :=
  Forall (fun ev => R (ev_type ev) (ev_eff ev) (ev_resp ev)) h.

(** * Facts *)

Lemma exec_extends {A} (p : prog A) h h' a : exec p h h' a -> extends h' h.
Proof. induction 1 as [|X e k x h h' a _ IH]; [done|]. transitivity (Ev e x :: h); [done|apply extends_cons]. Qed.

Lemma answered_first {A} (R : answers) (p : prog A) (X : Set) (e : Eff X) x h h' a :
  exec p (Ev e x :: h) h' a -> answeredBy R h' -> R X e x.
Proof.
  intros He HR. unfold answeredBy in HR. rewrite Forall_forall in HR. apply (HR (Ev e x)), list_elem_of_In.
  eapply extends_elem; [by eapply exec_extends|constructor].
Qed.

Lemma awp_exec {A} (R : answers) (p : prog A) (Q : A -> Prop) h h' a :
  exec p h h' a -> answeredBy R h' -> awp R p Q -> Q a.
Proof.
  intros He HR. induction He as [|X e k x h h' a He IH]; cbn; [done|]. intros Hp. apply IH; [done|].
  apply Hp. by eapply answered_first.
Qed.

Lemma awp_bind {A B} (R : answers) (p : prog A) (f : A -> prog B) (Q : B -> Prop) :
  awp R p (fun a => awp R (f a) Q) -> awp R (p ≫= f) Q.
Proof. induction p as [a|X e k IH]; cbn; [done|]. auto. Qed.

Lemma awp_ret {A} (R : answers) (a : A) (Q : A -> Prop) : Q a -> awp R (Ret a) Q.
Proof. done. Qed.

Lemma awp_call {X : Set} {B} (R : answers) (e : Eff X) (f : X -> prog B) (Q : B -> Prop) :
  (forall x, R X e x -> awp R (f x) Q) -> awp R (trigger e ≫= f) Q.
Proof. done. Qed.

Lemma awp_mono {A} (R : answers) (p : prog A) (P Q : A -> Prop) :
  awp R p P -> (forall a, P a -> Q a) -> awp R p Q.
Proof. intros Hp HQ. induction p as [a|X e k IH]; cbn in *; auto. Qed.

(** A program whose result does not matter. *)
Lemma awp_ignore {A B} (R : answers) (p : prog A) (f : A -> prog B) (Q : B -> Prop) :
  (forall a, awp R (f a) Q) -> awp R (p ≫= f) Q.
Proof. intros Hf. induction p as [a|X e k IH]; cbn; auto. Qed.

(** The same rules for [known]. *)
Lemma known_exec {A} (R : answers) (p : prog A) (Q : A -> hist -> Prop) h h' a :
  exec p h h' a -> answeredBy R h' -> known R p Q h -> Q a h'.
Proof.
  intros He HR. induction He as [|X e k x h h' a He IH]; cbn; [done|]. intros Hp. apply IH; [done|].
  apply Hp. by eapply answered_first.
Qed.

Lemma known_bind {A B} (R : answers) (p : prog A) (f : A -> prog B) (Q : B -> hist -> Prop) h :
  known R p (fun a h' => known R (f a) Q h') h -> known R (p ≫= f) Q h.
Proof. revert h. induction p as [a|X e k IH]; intros h; cbn; [done|]. auto. Qed.

Lemma known_ret {A} (R : answers) (a : A) (Q : A -> hist -> Prop) h : Q a h -> known R (Ret a) Q h.
Proof. done. Qed.

Lemma known_call {X : Set} {B} (R : answers) (e : Eff X) (f : X -> prog B) (Q : B -> hist -> Prop) h :
  (forall x, R X e x -> known R (f x) Q (Ev e x :: h)) -> known R (trigger e ≫= f) Q h.
Proof. done. Qed.

Lemma known_mono {A} (R : answers) (p : prog A) (P Q : A -> hist -> Prop) h :
  known R p P h -> (forall a h', P a h' -> Q a h') -> known R p Q h.
Proof. intros Hp HQ. revert h Hp. induction p as [a|X e k IH]; intros h; cbn; auto. Qed.
