(* ===== verification/Store.v ===== *)
(** * The API server as a store

    Hosts and machines as the API server keeps them, and programs that run
    against them: [srun rd R] is an execution whose reads are answered as [rd]
    says and whose writes change the store, with steps of [R] by others between
    its calls; [swp] is the weakest precondition of such runs when the reads are
    [upToDate].  A write is the
    merge patch of the patch helper: fields that differ between the object read
    and the object written replace those of the stored object.  The helper
    sends metadata and spec in one request and the status in another, so a
    write that reports an error may have been applied in part.  All other calls
    are answered in any way. *)

From S2P Require Import Prelude GoStrings GoTime Api Effects.

#[export] Instance OwnerReference_eq_dec : EqDecision OwnerReference.
Proof. solve_decision. Defined.
#[export] Instance ObjectMeta_eq_dec : EqDecision ObjectMeta.
Proof. solve_decision. Defined.
#[export] Instance LabelSelector_eq_dec : EqDecision LabelSelector.
Proof. solve_decision. Defined.
#[export] Instance MachineAddress_eq_dec : EqDecision MachineAddress.
Proof. solve_decision. Defined.
#[export] Instance Condition_eq_dec : EqDecision Condition.
Proof. solve_decision. Defined.
#[export] Instance HostHardwareDetails_eq_dec : EqDecision HostHardwareDetails.
Proof. solve_decision. Defined.

(** ** The store *)

(** Namespace and name. *)
Abbreviation okey := (string * string)%type.

Definition keyOf (m : ObjectMeta) : okey := (Namespace m, Name m).
Definition nnKey (n : NamespacedName) : okey := (nn_Namespace n, nn_Name n).

Record Sys := MkSys {
  sy_hosts : gmap okey HetznerRobotHost;
  sy_machines : gmap okey HetznerRobotMachine
}.

#[export] Instance set_sy_hosts : Setter sy_hosts := fun v r => MkSys v (sy_machines r).
#[export] Instance set_sy_machines : Setter sy_machines := fun v r => MkSys (sy_hosts r) v.

(** ** Merge patches *)

Definition mergeField {A} `{EqDecision A} (apply : bool) (cur before after : A) : A :=
  if apply then if decide (before = after) then cur else after else cur.

(** The name, namespace, uid and deletion time are the API server's.  No
    controller changes labels, so they are merged as one field. *)
Definition mergeMeta (apply : bool) (cur b a : ObjectMeta) : ObjectMeta :=
  MkObjectMeta (Name cur) (Namespace cur) (UID cur)
    (mergeField apply (Labels cur) (Labels b) (Labels a))
    (mergeField apply (Finalizers cur) (Finalizers b) (Finalizers a))
    (DeletionTimestamp cur)
    (mergeField apply (OwnerReferences cur) (OwnerReferences b) (OwnerReferences a)).

Definition mergeHost (main status : bool) (cur b a : HetznerRobotHost) : HetznerRobotHost :=
  let spec {T} `{EqDecision T} (f : HetznerRobotHostSpec -> T) :=
    mergeField main (f (hrh_Spec cur)) (f (hrh_Spec b)) (f (hrh_Spec a)) in
  let stat {T} `{EqDecision T} (f : HetznerRobotHostStatus -> T) :=
    mergeField status (f (hrh_Status cur)) (f (hrh_Status b)) (f (hrh_Status a)) in
  MkHRH (mergeMeta main (hrh_Meta cur) (hrh_Meta b) (hrh_Meta a))
    (MkHRHSpec (spec hs_ServerID) (spec hs_ServerIP) (spec hs_ServerIPv6Net) (spec hs_InternalIP)
       (spec hs_InstallDisk) (spec hs_LifecycleClass) (spec hs_MaintenanceMode)
       (spec hs_DestructiveProvisioningPolicy))
    (MkHRHStatus (stat hst_State) (stat hst_ConsumerRef) (stat hst_MachineRef) (stat hst_HardwareDetails)
       (stat hst_LastConsumerRef) (stat hst_DirtyReason) (stat hst_ErrorMessage)).

Definition mergeMachine (main status : bool) (cur b a : HetznerRobotMachine) : HetznerRobotMachine :=
  let spec {T} `{EqDecision T} (f : HetznerRobotMachineSpec -> T) :=
    mergeField main (f (hrm_Spec cur)) (f (hrm_Spec b)) (f (hrm_Spec a)) in
  let stat {T} `{EqDecision T} (f : HetznerRobotMachineStatus -> T) :=
    mergeField status (f (hrm_Status cur)) (f (hrm_Status b)) (f (hrm_Status a)) in
  MkHRM (mergeMeta main (hrm_Meta cur) (hrm_Meta b) (hrm_Meta a))
    (MkHRMSpec (spec ms_ProviderID) (spec ms_HostRef) (spec ms_HostSelector) (spec ms_OSType)
       (spec ms_TalosSchematic) (spec ms_TalosVersion) (spec ms_FlatcarChannel) (spec ms_InstallDisk)
       (spec ms_CustomImageURL) (spec ms_EphemeralSize))
    (MkHRMStatus (stat mst_Ready) (stat mst_Initialization) (stat mst_Addresses) (stat mst_ProvisioningState)
       (stat mst_HostRef) (stat mst_PrimaryMAC) (stat mst_GatewayIP) (stat mst_ResolvedInstallDisk)
       (stat mst_FailureReason) (stat mst_FailureMessage) (stat mst_ProvisionStarted) (stat mst_RetryCount)
       (stat mst_LastRetryTimestamp) (stat mst_LastResetTime) (stat mst_Conditions)).

(** An object under deletion is removed when its last finalizer goes. *)
Definition removed (cur new : ObjectMeta) : bool :=
  bool_decide (DeletionTimestamp new <> None) && bool_decide (Finalizers new = []) &&
  negb (bool_decide (Finalizers cur = [])).

Definition put {A} (meta : A -> ObjectMeta) (key : okey) (cur new : A) (objs : gmap okey A) : gmap okey A :=
  if removed (meta cur) (meta new) then delete key objs else <[key := new]> objs.

(** ** The calls on the store *)

(** The client reads from a cache.  What a read may lag behind in: everything
    but what says whose a host is (its state and references), which host a
    machine records, whether it has the controller's finalizer, and whether the
    object exists; a machine may have been put under deletion since. *)
Definition seenHost (h cur : HetznerRobotHost) : Prop :=
  keyOf (hrh_Meta h) = keyOf (hrh_Meta cur) /\ claimOf h = claimOf cur.

(** The machine has the controller's finalizer, without which it may go at any
    time. *)
Definition held (m : HetznerRobotMachine) : Prop := MachineFinalizer ∈ Finalizers (hrm_Meta m).

#[export] Instance held_dec m : Decision (held m).
Proof. unfold held. apply _. Defined.

Definition seenMachine (m cur : HetznerRobotMachine) : Prop :=
  keyOf (hrm_Meta m) = keyOf (hrm_Meta cur) /\ statusHostRef m = statusHostRef cur /\ (held m <-> held cur) /\
  (DeletionTimestamp (hrm_Meta m) <> None -> DeletionTimestamp (hrm_Meta cur) <> None).

Definition found {A} (seen : A -> A -> Prop) (objs : gmap okey A) (k : okey) (r : res A) : Prop :=
  match r with
  | Ok a => exists cur, objs !! k = Some cur /\ seen a cur
  | Err err => err_notfound err = true -> objs !! k = None
  end.

(** What a call may answer when the cache is up to date in that. *)
Definition answered (s : Sys) {X : Set} (e : Eff X) : X -> Prop :=
  match e in Eff X return X -> Prop with
  | EGet k key =>
      match k return res (Obj k) -> Prop with
      | KHost => found seenHost (sy_hosts s) (nnKey key)
      | KMachine => found seenMachine (sy_machines s) (nnKey key)
      | _ => fun _ => True
      end
  | EList k ns _ =>
      match k return res (list (Obj k)) -> Prop with
      | KHost => fun r =>
          match r with
          | Ok items => Forall (fun h => Namespace (hrh_Meta h) = ns /\ found seenHost (sy_hosts s) (keyOf (hrh_Meta h)) (Ok h)) items
          | Err _ => True
          end
      | _ => fun _ => True
      end
  | _ => fun _ => True
  end.

(** The patch of an object: rejected when the object is gone; otherwise the
    main part and the status are applied, both of them when no error is
    returned. *)
Definition patched {A} (meta : A -> ObjectMeta) (merge : bool -> bool -> A -> A -> A -> A)
    (objs : gmap okey A) (b a : A) (e : option error) (objs' : gmap okey A) : Prop :=
  match objs !! keyOf (meta b) with
  | None => e <> None /\ objs' = objs
  | Some cur =>
      exists main status : bool, (e = None -> main = true /\ status = true) /\
        objs' = put meta (keyOf (meta b)) cur (merge main status cur b a) objs
  end.

(** What a call does to the store. *)
Definition effect (s : Sys) {X : Set} (e : Eff X) : X -> Sys -> Prop :=
  match e in Eff X return X -> Sys -> Prop with
  | EPatch k before after =>
      match k return Obj k -> Obj k -> option error -> Sys -> Prop with
      | KHost => fun b a x s' => exists hosts,
          patched hrh_Meta mergeHost (sy_hosts s) b a x hosts /\ s' = s <| sy_hosts := hosts |>
      | KMachine => fun b a x s' => exists machines,
          patched hrm_Meta mergeMachine (sy_machines s) b a x machines /\ s' = s <| sy_machines := machines |>
      | _ => fun _ _ _ s' => s' = s
      end before after
  | _ => fun _ s' => s' = s
  end.

(** ** Runs

    [srun rd R] is a run of a program in which others take the steps of [R]
    between its calls. *)

(** The answers that the calls of a controller get when the store is in a state. *)
Definition reads := Sys -> forall X : Set, Eff X -> X -> Prop.

Definition upToDate (rd : reads) : Prop := forall s X e x, rd s X e x -> answered s e x.

Inductive srun (rd : reads) (R : Sys -> Sys -> Prop) {A} : prog A -> Sys -> A -> Sys -> Prop :=
| srun_ret a s : srun rd R (Ret a) s a s
| srun_vis (X : Set) (e : Eff X) k x s s0 s1 s2 a :
    rtc R s s0 -> rd s0 X e x -> effect s0 e x s1 -> srun rd R (k x) s1 a s2 -> srun rd R (Vis e k) s a s2.

(** Nobody else writes. *)
Definition alone (s s' : Sys) : Prop := False.

(** What holds after a run, when [R] is what others may have done to the store
    by the next call. *)
Fixpoint swp (R : Sys -> Sys -> Prop) {A} (p : prog A) (Q : A -> Sys -> Prop) (s : Sys) : Prop :=
  match p with
  | Ret a => Q a s
  | @Vis _ X e k => forall s0 x s1, R s s0 -> answered s0 e x -> effect s0 e x s1 -> swp R (k x) Q s1
  end.

Lemma swp_sound {A} rd (S R : Sys -> Sys -> Prop) (p : prog A) (Q : A -> Sys -> Prop) s a s' :
  upToDate rd -> (forall s1 s2, rtc S s1 s2 -> R s1 s2) -> srun rd S p s a s' -> swp R p Q s -> Q a s'.
Proof. intros Hrd HR Hr. induction Hr; cbn; [done|]. eauto. Qed.

Lemma rtc_alone s s' : rtc alone s s' -> s = s'.
Proof. intros Hr. induction Hr; [done|]. by destruct H. Qed.

(** A call that is no write. *)
Definition noWrite (X : Set) (e : Eff X) : Prop := match e with EPatch _ _ _ => False | _ => True end.

Section Swp.
Context (R : Sys -> Sys -> Prop) `{!PreOrder R}.

Lemma swp_ret {A} (a : A) (Q : A -> Sys -> Prop) s : Q a s -> swp R (Ret a) Q s.
Proof using. done. Qed.

Lemma swp_bind {A B} (p : prog A) (f : A -> prog B) Q s :
  swp R p (fun a s' => swp R (f a) Q s') s -> swp R (p ≫= f) Q s.
Proof using. revert s. induction p as [a|X e k IH]; intros s; cbn; [done|]. intros Hk s0 x s1 Hr Ha He. by eapply IH, Hk. Qed.

Lemma swp_mono {A} (p : prog A) (Q Q' : A -> Sys -> Prop) s :
  (forall a s', Q a s' -> Q' a s') -> swp R p Q s -> swp R p Q' s.
Proof using.
  intros HQ. revert s. induction p as [a|X e k IH]; intros s; cbn; [apply HQ|].
  intros Hk s0 x s1 Hr Ha He. by eapply IH, Hk.
Qed.

Lemma swp_call {X : Set} {B} (e : Eff X) (f : X -> prog B) Q s :
  noWrite X e -> (forall x s0, R s s0 -> answered s0 e x -> swp R (f x) Q s0) -> swp R (trigger e ≫= f) Q s.
Proof using. intros He Hf s0 x s1 Hr Ha Hs. destruct e; cbn in *; subst; eauto; done. Qed.

(** A program without writes, with what is known of its results. *)
Lemma swp_yields {A} (P : forall X : Set, Eff X -> Prop) (p : prog A) (T : A -> Prop) Q s :
  (forall X e, P X e -> noWrite X e) -> yields P p T -> (forall a s', R s s' -> T a -> Q a s') -> swp R p Q s.
Proof using PreOrder0.
  intros HP Hp HQ. cut (forall s1, R s s1 -> swp R p Q s1); [intros Hs; by apply Hs|].
  induction p as [a|X e k IH]; intros s1 H1; cbn in *; [auto|]. destruct Hp as [He Hk].
  intros s2 x s3 H2 _ Hs. apply HP in He.
  assert (s3 = s2) as -> by (destruct e; cbn in *; done). apply IH; [apply Hk|]. by transitivity s1.
Qed.

(** A program that only reads, or only talks to servers. *)
Lemma swp_noWrite {A} (p : prog A) Q s : emits noWrite p -> (forall a s', R s s' -> Q a s') -> swp R p Q s.
Proof using PreOrder0.
  intros Hp HQ. apply (swp_yields noWrite p (fun _ => True)); [done| |auto].
  clear HQ. induction p as [a|X e k IH]; cbn in *; naive_solver.
Qed.
End Swp.

(** ** Writes of an object as it is stored *)

Lemma mergeField_fresh {A} `{EqDecision A} ap (b a : A) : mergeField ap b b a = if ap then a else b.
Proof. unfold mergeField. destruct ap; [|done]. by case_decide. Qed.

Lemma mergeField_same {A} `{EqDecision A} ap (cur b : A) : mergeField ap cur b b = cur.
Proof. unfold mergeField. destruct ap; [|done]. by case_decide. Qed.

Lemma mergeMeta_key ap cur b a : keyOf (mergeMeta ap cur b a) = keyOf cur.
Proof. done. Qed.

Lemma removed_same cur new : Finalizers new = Finalizers cur -> removed cur new = false.
Proof. unfold removed. intros ->. repeat case_bool_decide; done. Qed.

Lemma removed_alive cur new : DeletionTimestamp new = None -> removed cur new = false.
Proof. unfold removed. intros ->. by rewrite bool_decide_eq_false_2 by auto. Qed.

Lemma mergeField_in {A} `{EqDecision A} ap (cur b a : A) : mergeField ap cur b a = cur \/ mergeField ap cur b a = a.
Proof. unfold mergeField. destruct ap; [|by left]. case_decide; auto. Qed.

Lemma mergeField_changed {A} `{EqDecision A} (cur b a : A) : a <> b -> mergeField true cur b a = a.
Proof. intros Hne. unfold mergeField. by rewrite decide_False by congruence. Qed.

Lemma mergeHost_none main cur b a : claimOf (mergeHost main false cur b a) = claimOf cur.
Proof. done. Qed.

Lemma mergeHost_claim main cur b a : claimOf cur = claimOf b -> claimOf (mergeHost main true cur b a) = claimOf a.
Proof. unfold claimOf. intros [= H1 H2 H3]. cbn -[mergeField]. by rewrite H1, H2, H3, !mergeField_fresh. Qed.

Lemma mergeHost_quiet main status cur b a : claimOf a = claimOf b -> claimOf (mergeHost main status cur b a) = claimOf cur.
Proof. unfold claimOf. intros [= H1 H2 H3]. cbn. by rewrite H1, H2, H3, !mergeField_same. Qed.

(** ** Programs that leave ownership alone *)

(** The machines, and the hosts but for what a quiet write changes. *)
Definition sameClaims (s s' : Sys) : Prop :=
  sy_machines s' = sy_machines s /\
  forall k, match sy_hosts s !! k, sy_hosts s' !! k with
            | Some h, Some h' => keyOf (hrh_Meta h') = keyOf (hrh_Meta h) /\ claimOf h' = claimOf h
            | None, None => True
            | _, _ => False
            end.

#[export] Instance sameClaims_preorder : PreOrder sameClaims.
Proof.
  split.
  - intros s. split; [done|]. intros k. by destruct (sy_hosts s !! k).
  - intros s1 s2 s3 [M1 H1] [M2 H2]. split; [congruence|]. intros k. specialize (H1 k). specialize (H2 k).
    destruct (sy_hosts s1 !! k), (sy_hosts s2 !! k), (sy_hosts s3 !! k); try done.
    destruct H1, H2. split; congruence.
Qed.

Lemma quiet_effect s (X : Set) (e : Eff X) x s' : quiet X e -> effect s e x s' -> sameClaims s s'.
Proof.
  destruct e as [| | | |k b a| | | | | | | | | | | |]; cbn; try (intros _ ->; reflexivity).
  destruct k; cbn; try (intros _ ->; reflexivity); [done|].
  intros [Hc Hf] (hosts & Hp & ->). unfold patched in Hp.
  destruct (sy_hosts s !! keyOf (hrh_Meta b)) as [cur|] eqn:Hcur; [|destruct Hp as [_ ->]; by destruct s].
  destruct Hp as (main & status & _ & ->). split; [done|]. intros k. cbn. unfold put.
  rewrite removed_same by (cbn; by rewrite Hf, mergeField_same).
  destruct (decide (k = keyOf (hrh_Meta b))) as [->|Hk].
  - rewrite Hcur, lookup_insert_eq. split; [done|]. by apply mergeHost_quiet.
  - rewrite lookup_insert_ne by done. by destruct (sy_hosts s !! k).
Qed.

(** A program of quiet calls, with what is known of its results. *)
Lemma swp_quiet (R : Sys -> Sys -> Prop) `{!PreOrder R} {A} (T : A -> Prop) (p : prog A) Q s h :
  (forall s1 s2, sameClaims s1 s2 -> R s1 s2) -> emits quiet p -> wp any p (fun a _ => T a) h ->
  (forall a s', R s s' -> T a -> Q a s') -> swp R p Q s.
Proof.
  intros HR Hp Hw HQ. cut (forall s1, R s s1 -> swp R p Q s1); [intros Hs; by apply Hs|].
  revert h Hw. induction p as [a|X e k IH]; intros h Hw s1 Hs; cbn in *; [auto|].
  intros s2 x s3 H2 _ He. destruct Hp as [Hq Hk]. eapply IH; [apply Hk|apply Hw|].
  transitivity s1; [done|]. transitivity s2; [done|]. by eapply HR, quiet_effect.
Qed.

(** ** The store as a function

    A server that finds what is stored, applies every write to an object it
    has, and leaves all other calls to [o]. *)
Section Serve.
Context (o : forall X : Set, Eff X -> X).

Definition lookupObj {A} (objs : gmap okey A) (k : okey) : res A :=
  match objs !! k with Some a => Ok a | None => Err (MkError "not found" true) end.

Definition patchObj {A} (meta : A -> ObjectMeta) (merge : bool -> bool -> A -> A -> A -> A)
    (objs : gmap okey A) (b a : A) : gmap okey A :=
  match objs !! keyOf (meta b) with
  | Some cur => put meta (keyOf (meta b)) cur (merge true true cur b a) objs
  | None => objs
  end.

Definition patchAnswer {A} (meta : A -> ObjectMeta) (objs : gmap okey A) (b : A) : option error :=
  if decide (objs !! keyOf (meta b) = None) then Some (MkError "not found" true) else None.

(** The hosts of a namespace, whatever their labels. *)
Definition hostsIn (s : Sys) (ns : string) : list HetznerRobotHost :=
  map snd (filter (fun kh : okey * HetznerRobotHost => keyOf (hrh_Meta kh.2) = kh.1 /\ kh.1.1 = ns)
             (map_to_list (sy_hosts s))).

Definition serve {X : Set} (s : Sys) (e : Eff X) : X * Sys :=
  match e in Eff X return X * Sys with
  | EGet k key =>
      match k return res (Obj k) * Sys with
      | KHost => (lookupObj (sy_hosts s) (nnKey key), s)
      | KMachine => (lookupObj (sy_machines s) (nnKey key), s)
      | k => (o _ (EGet k key), s)
      end
  | EList k ns sel =>
      match k return res (list (Obj k)) * Sys with
      | KHost => (Ok (hostsIn s ns), s)
      | k => (o _ (EList k ns sel), s)
      end
  | EPatch k b a =>
      match k return Obj k -> Obj k -> option error * Sys with
      | KHost => fun b a =>
          (patchAnswer hrh_Meta (sy_hosts s) b, s <| sy_hosts := patchObj hrh_Meta mergeHost (sy_hosts s) b a |>)
      | KMachine => fun b a =>
          (patchAnswer hrm_Meta (sy_machines s) b,
           s <| sy_machines := patchObj hrm_Meta mergeMachine (sy_machines s) b a |>)
      | k => fun b a => (o _ (EPatch k b a), s)
      end b a
  | e => (o _ e, s)
  end.

Fixpoint serveAll {A} (p : prog A) (s : Sys) : A * Sys :=
  match p with
  | Ret a => (a, s)
  | Vis e k => serveAll (k (serve s e).1) (serve s e).2
  end.

(** Its answers. *)
Definition served : reads := fun s X e x => x = (serve s e).1.

Lemma lookupObj_found {A} (seen : A -> A -> Prop) (objs : gmap okey A) k :
  (forall a, seen a a) -> found seen objs k (lookupObj objs k).
Proof. intros Hs. unfold lookupObj, found. destruct (objs !! k) as [a|] eqn:He; [by exists a|done]. Qed.

Lemma seenMachine_refl m : seenMachine m m.
Proof. by unfold seenMachine. Qed.

Lemma patchObj_patched {A} (meta : A -> ObjectMeta) (merge : bool -> bool -> A -> A -> A -> A)
    (objs : gmap okey A) b a :
  patched meta merge objs b a (patchAnswer meta objs b) (patchObj meta merge objs b a).
Proof.
  unfold patched, patchAnswer, patchObj. destruct (objs !! keyOf (meta b)); case_decide; try done.
  by exists true, true.
Qed.

(** It answers and writes as the store does. *)
Lemma serve_effect {X : Set} s (e : Eff X) : effect s e (serve s e).1 (serve s e).2.
Proof.
  destruct e as [|k key|k ns sel| |k b a| | | | | | | | | | | |]; cbn; try done; destruct k; cbn; try done;
    (eexists; split; [apply patchObj_patched|done]).
Qed.

Lemma served_upToDate : upToDate served.
Proof.
  intros s X e x ->. destruct e as [|k key|k ns sel| |k b a| | | | | | | | | | | |]; cbn; try done; destruct k; cbn; try done.
  - by apply lookupObj_found, seenMachine_refl.
  - by apply lookupObj_found.
  - unfold hostsIn. rewrite List.Forall_map, List.Forall_forall. intros [k h].
    rewrite <- list_elem_of_In, list_elem_of_filter, elem_of_map_to_list. cbn. intros [[<- <-] Hl].
    split; [done|]. by exists h.
Qed.

Lemma serveAll_run {A} R (p : prog A) s : srun served R p s (serveAll p s).1 (serveAll p s).2.
Proof.
  revert s. induction p as [a|X e k IH]; intros s; cbn; [constructor|].
  econstructor; [apply rtc_refl|done|apply serve_effect|]. by apply IH.
Qed.
End Serve.
