(* ===== verification/Codec.v ===== *)
(** * Untyped values and a text form of them

    What [interface{}] holds after decoding YAML or JSON, and a small text
    format with a verified decoder.  The format is not YAML: it stands for the
    third-party encoders wherever a theorem about their documented round trip is
    applied to concrete inputs. *)

From Stdlib Require Import Ascii.
From S2P Require Import Prelude GoStrings.

#[local] Set Warnings "-register-all".

(** ** Untyped values

    What [interface{}] holds after decoding YAML or JSON.  [VFloat] is a
    number that is no integer, as its text; [VOther] is any other dynamic
    type.  A Go map is a finite map, its iteration order is not observable. *)
Inductive value :=
| VNil
| VBool (b : bool)
| VNum (n : Z)
| VFloat (text : string)
| VString (s : string)
| VList (l : list value)
| VMap (m : gmap string value)
| VOther (descr : string).

Abbreviation object := (gmap string value).

(** Values every YAML and JSON library writes and reads back unchanged, also
    when the white space around the output is cut off: nil, booleans, integers
    of 64 bits, text of printable ASCII characters, and lists and maps of
    those. *)
Definition printable (c : ascii) : bool := (32 <=? N_of_ascii c)%N && (N_of_ascii c <=? 126)%N.

Fixpoint oneLine (s : string) : bool :=
  match s with EmptyString => true | String c s => printable c && oneLine s end.

Fixpoint plain (v : value) : bool :=
  match v with
  | VNil | VBool _ => true
  | VNum n => (minInt64 <=? n)%Z && (n <=? maxInt64)%Z
  | VString s => oneLine s
  | VList l => forallb plain l
  | VMap m => map_fold (fun k v b => oneLine k && plain v && b) true m
  | VFloat _ | VOther _ => false
  end.

(** ** Encoding *)

Definition tick : ascii := "'".

(** Every character behind a tick, up to a semicolon. *)
Fixpoint encodeText (s : string) : string :=
  match s with
  | EmptyString => ";"
  | String c s => String tick (String c (encodeText s))
  end.

Fixpoint encode (v : value) : string :=
  match v with
  | VNil => "n"
  | VBool true => "t"
  | VBool false => "f"
  | VNum n => "i" +:+ encodeText (itoa n)
  | VFloat s => "r" +:+ encodeText s
  | VString s => "s" +:+ encodeText s
  | VOther s => "o" +:+ encodeText s
  | VList l => "[" +:+ foldr (fun v acc => encode v +:+ acc) "]" l
  | VMap m => "{" +:+ map_fold (fun k v acc => encodeText k +:+ (encode v +:+ acc)) "}" m
  end.

(** ** Decoding *)

Fixpoint decodeText (s : string) : option (string * string) :=
  match s with
  | String ";" rest => Some (EmptyString, rest)
  | String _ (String c rest) => '(t, rest) ← decodeText rest; Some (String c t, rest)
  | _ => None
  end.

Fixpoint decodeValue (fuel : nat) (s : string) : option (value * string) :=
  match fuel with
  | O => None
  | S fuel =>
      match s with
      | String "n" rest => Some (VNil, rest)
      | String "t" rest => Some (VBool true, rest)
      | String "f" rest => Some (VBool false, rest)
      | String "i" rest => '(t, rest) ← decodeText rest; n ← atoi t; Some (VNum n, rest)
      | String "r" rest => '(t, rest) ← decodeText rest; Some (VFloat t, rest)
      | String "s" rest => '(t, rest) ← decodeText rest; Some (VString t, rest)
      | String "o" rest => '(t, rest) ← decodeText rest; Some (VOther t, rest)
      | String "[" rest => '(l, rest) ← decodeList fuel rest; Some (VList l, rest)
      | String "{" rest => '(l, rest) ← decodePairs fuel rest; Some (VMap (list_to_map l), rest)
      | _ => None
      end
  end
with decodeList (fuel : nat) (s : string) : option (list value * string) :=
  match fuel with
  | O => None
  | S fuel =>
      match s with
      | String "]" rest => Some ([], rest)
      | _ =>
          '(v, rest) ← decodeValue fuel s;
          '(l, rest) ← decodeList fuel rest;
          Some (v :: l, rest)
      end
  end
with decodePairs (fuel : nat) (s : string) : option (list (string * value) * string) :=
  match fuel with
  | O => None
  | S fuel =>
      match s with
      | String "}" rest => Some ([], rest)
      | _ =>
          '(k, rest) ← decodeText s;
          '(v, rest) ← decodeValue fuel rest;
          '(l, rest) ← decodePairs fuel rest;
          Some ((k, v) :: l, rest)
      end
  end.

(** The text is as long as the recursion is deep. *)
Definition decode (s : string) : option value :=
  match decodeValue (S (strlen s)) s with Some (v, EmptyString) => Some v | _ => None end.

(** * Facts *)

Lemma encode_map m :
  encode (VMap m) =
    "{" +:+ foldr (fun kv acc => encodeText kv.1 +:+ (encode kv.2 +:+ acc)) "}" (map_to_list m).
Proof.
  cbn [encode]. f_equal. rewrite map_fold_foldr. generalize (map_to_list m). intros l.
  induction l as [|[k v] l IH]; [done|]. cbn. by rewrite IH.
Qed.

Lemma plain_map m :
  plain (VMap m) = forallb (fun kv => oneLine kv.1 && plain kv.2) (map_to_list m).
Proof.
  cbn [plain]. rewrite map_fold_foldr. generalize (map_to_list m). intros l.
  induction l as [|[k v] l IH]; [done|]. cbn. by rewrite IH.
Qed.

Lemma decodeText_encode t rest : decodeText (encodeText t +:+ rest) = Some (t, rest).
Proof.
  induction t as [|c t IH]; [done|].
  change (encodeText (String c t) +:+ rest) with (String tick (String c (encodeText t +:+ rest))).
  cbn [decodeText]. by rewrite IH.
Qed.

(** The first character of a value's text says what it is. *)
Lemma encode_first v : exists c s, encode v = String c s /\ c <> "]"%char.
Proof. destruct v as [|[]| | | | | |]; cbn; eexists _, _; (split; [reflexivity|done]). Qed.

Lemma encodeText_first t : exists c s, encodeText t = String c s /\ c <> "}"%char.
Proof. destruct t; cbn; eexists _, _; (split; [reflexivity|done]). Qed.

Lemma encode_nonempty v : (1 <= strlen (encode v))%nat.
Proof. destruct (encode_first v) as (c & s & -> & _). cbn. lia. Qed.

Lemma encodeText_nonempty t : (1 <= strlen (encodeText t))%nat.
Proof. destruct (encodeText_first t) as (c & s & -> & _). cbn. lia. Qed.

Lemma foldr_nonempty {A} (f : A -> string -> string) c (l : list A) :
  (forall a s, (strlen s <= strlen (f a s))%nat) -> (1 <= strlen (foldr f (String c "") l))%nat.
Proof. intros Hf. induction l as [|a l IH]; cbn; [lia|]. etrans; [exact IH|apply Hf]. Qed.

Lemma items_nonempty l : (1 <= strlen (foldr (fun v acc => encode v +:+ acc) "]" l))%nat.
Proof. apply foldr_nonempty. intros v s. rewrite strlen_app. lia. Qed.

Lemma pairs_nonempty l :
  (1 <= strlen (foldr (fun kv acc => encodeText kv.1 +:+ (encode kv.2 +:+ acc)) "}" l))%nat.
Proof. apply foldr_nonempty. intros [k v] s. rewrite !strlen_app. lia. Qed.

(** One step of the two loops, on text that does not end them. *)
Lemma decodeList_step fuel c s :
  c <> "]"%char -> decodeList (S fuel) (String c s) =
    ('(v, rest) ← decodeValue fuel (String c s);
     '(l, rest) ← decodeList fuel rest;
     Some (v :: l, rest)).
Proof. intros Hc. destruct c as [[] [] [] [] [] [] [] []]; try done. Qed.

Lemma decodePairs_step fuel c s :
  c <> "}"%char -> decodePairs (S fuel) (String c s) =
    ('(k, rest) ← decodeText (String c s);
     '(v, rest) ← decodeValue fuel rest;
     '(l, rest) ← decodePairs fuel rest;
     Some ((k, v) :: l, rest)).
Proof. intros Hc. destruct c as [[] [] [] [] [] [] [] []]; try done. Qed.

(** Decoding reads one value and leaves what follows it. *)
Lemma decode_prefix (fuel : nat) :
  (forall v rest, plain v = true -> (strlen (encode v) <= fuel)%nat ->
     decodeValue fuel (encode v +:+ rest) = Some (v, rest)) /\
  (forall l rest, forallb plain l = true ->
     (strlen (foldr (fun v acc => encode v +:+ acc) "]" l) <= fuel)%nat ->
     decodeList fuel (foldr (fun v acc => encode v +:+ acc) "]" l +:+ rest) = Some (l, rest)) /\
  (forall l rest, forallb (fun kv => oneLine kv.1 && plain kv.2) l = true ->
     (strlen (foldr (fun kv acc => encodeText kv.1 +:+ (encode kv.2 +:+ acc)) "}" l) <= fuel)%nat ->
     decodePairs fuel (foldr (fun kv acc => encodeText kv.1 +:+ (encode kv.2 +:+ acc)) "}" l +:+ rest)
       = Some (l, rest)).
Proof.
  induction fuel as [|fuel (IHv & IHl & IHp)].
  - split; [|split].
    + intros v rest _ Hf. pose proof (encode_nonempty v). lia.
    + intros [|v l] rest _ Hf; cbn in Hf; [lia|]. rewrite strlen_app in Hf. pose proof (encode_nonempty v). lia.
    + intros [|[k v] l] rest _ Hf; cbn in Hf; [lia|]. rewrite strlen_app in Hf. pose proof (encodeText_nonempty k). lia.
  - split; [|split].
    + intros v rest Hp Hf. destruct v as [|[]|n| |s|l|m|]; try done.
      * apply andb_true_iff in Hp as [Hlo Hhi]. change (encode (VNum n) +:+ rest) with
          (String "i" (encodeText (itoa n) +:+ rest)). cbn [decodeValue].
        rewrite decodeText_encode. cbn. rewrite atoi_itoa; [done|]. unfold in_int64. lia.
      * change (encode (VString s) +:+ rest) with (String "s" (encodeText s +:+ rest)). cbn [decodeValue].
        by rewrite decodeText_encode.
      * change (encode (VList l) +:+ rest) with (String "[" (foldr (fun v acc => encode v +:+ acc) "]" l +:+ rest)).
        cbn [decodeValue]. rewrite IHl; [done|done|]. cbn in Hf. lia.
      * rewrite plain_map in Hp. rewrite encode_map in Hf |- *.
        pose proof (IHp (map_to_list m) rest Hp) as Hd. revert Hd Hf.
        generalize (foldr (fun kv acc => encodeText kv.1 +:+ (encode kv.2 +:+ acc)) "}" (map_to_list m)).
        intros body Hd Hf. change (("{" +:+ body) +:+ rest) with (String "{" (body +:+ rest)).
        cbn in Hf. cbn [decodeValue]. rewrite Hd by lia. cbn. by rewrite list_to_map_to_list.
    + intros [|v l] rest Hp Hf; [done|]. cbn [forallb] in Hp. apply andb_true_iff in Hp as [Hv Hl].
      cbn [foldr] in Hf |- *. rewrite strlen_app in Hf. pose proof (encode_nonempty v) as Hn.
      pose proof (items_nonempty l) as Htl.
      rewrite app_assoc_str. destruct (encode_first v) as (c & s & Hc & Hne).
      pose proof (IHv v (foldr (fun v acc => encode v +:+ acc) "]" l +:+ rest) Hv) as Hdec.
      rewrite Hc in Hdec |- *. cbn [String.append] in Hdec |- *. rewrite decodeList_step by done.
      rewrite Hdec by (rewrite <- Hc; lia). cbn. rewrite IHl; [done|done|lia].
    + intros [|[k v] l] rest Hp Hf; [done|]. cbn [forallb fst snd] in Hp.
      apply andb_true_iff in Hp as [Hkv Hl]. apply andb_true_iff in Hkv as [_ Hv].
      cbn [foldr fst snd] in Hf |- *. rewrite !strlen_app in Hf.
      pose proof (encode_nonempty v) as Hn. pose proof (encodeText_nonempty k) as Hk.
      pose proof (pairs_nonempty l) as Htl. rewrite app_assoc_str. destruct (encodeText_first k) as (c & s & Hc & Hne).
      set (tl := (encode v +:+ _) +:+ rest).
      pose proof (decodeText_encode k tl) as Hdec. rewrite Hc in Hdec |- *. cbn [String.append] in Hdec |- *.
      rewrite decodePairs_step by done. rewrite Hdec. cbn. unfold tl.
      rewrite app_assoc_str, IHv; [|done|lia]. cbn. rewrite IHp; [done|done|lia].
Qed.

Lemma decode_encode v : plain v = true -> decode (encode v) = Some v.
Proof.
  intros Hp. unfold decode. pose proof (proj1 (decode_prefix (S (strlen (encode v)))) v "" Hp) as Hd.
  rewrite app_nil_str in Hd. rewrite Hd by lia. done.
Qed.

(** ** The shape of the text *)

Lemma encodeText_newlines t : newlines (encodeText t) = newlines t.
Proof.
  induction t as [|c t IH]; [done|]. cbn [encodeText newlines]. by rewrite IH.
Qed.

Lemma digits_fuel_newlines n x acc : newlines (digits_fuel n x acc) = newlines acc.
Proof.
  revert x acc. induction n as [|n IH]; intros x acc; cbn [digits_fuel]; [done|].
  assert (newlines (String (digit (x mod 10)) acc) = newlines acc) as Hd.
  { cbn [newlines]. destruct (Ascii.eqb_spec (digit (x mod 10)) (ascii_of_nat 10)) as [He|]; [|done].
    exfalso. assert (x mod 10 < 10)%N as Hx by (apply N.mod_lt; lia).
    revert He Hx. generalize (x mod 10)%N. intros d He Hx.
    apply (f_equal N_of_ascii) in He. unfold digit in He. rewrite N_ascii_embedding in He by lia. change (N_of_ascii (ascii_of_nat 10)) with 10%N in He. lia. }
  cbv zeta. destruct (x <? 10)%N; [done|]. by rewrite IH.
Qed.

Lemma itoa_newlines z : newlines (itoa z) = 0%nat.
Proof. unfold itoa, digits. destruct (z <? 0)%Z; cbn [newlines]; by rewrite digits_fuel_newlines. Qed.

Lemma oneLine_newlines t : oneLine t = true -> newlines t = 0%nat.
Proof.
  induction t as [|c t IH]; [done|]. cbn [oneLine newlines]. intros [Hc Ht]%andb_prop. rewrite IH by done.
  by destruct (Ascii.eqb_spec c (ascii_of_nat 10)) as [->|].
Qed.

Lemma oneLine_app a b : oneLine a = true -> oneLine b = true -> oneLine (a +:+ b) = true.
Proof.
  intros Ha Hb. induction a as [|c a IH]; [done|]. cbn in Ha |- *. apply andb_prop in Ha as [-> Ha]. by apply IH.
Qed.

Lemma oneLine_digits n x acc : oneLine acc = true -> oneLine (digits_fuel n x acc) = true.
Proof.
  revert x acc. induction n as [|n IH]; intros x acc Ha; cbn [digits_fuel]; [done|].
  assert (oneLine (String (digit (x mod 10)) acc) = true) as Hd.
  { cbn [oneLine]. rewrite Ha, andb_true_r. assert (x mod 10 < 10)%N as Hx by (apply N.mod_lt; lia).
    revert Hx. generalize (x mod 10)%N. intros d Hx. unfold printable, digit. rewrite N_ascii_embedding by lia.
    apply andb_true_intro. split; apply N.leb_le; lia. }
  cbv zeta. destruct (x <? 10)%N; [done|]. by apply IH.
Qed.

Lemma oneLine_itoa z : oneLine (itoa z) = true.
Proof. unfold itoa, digits. destruct (z <? 0)%Z; cbn [oneLine]; by rewrite oneLine_digits. Qed.

(** A plain value is written on one line. *)
Lemma encode_newlines_fuel n v : (strlen (encode v) <= n)%nat -> plain v = true -> newlines (encode v) = 0%nat.
Proof.
  revert v. induction n as [|n IH]; intros v Hn Hp; [pose proof (encode_nonempty v); lia|].
  destruct v as [|[]|z| |s|l|m|]; try done.
  - change (newlines (encodeText (itoa z)) = 0%nat). by rewrite encodeText_newlines, itoa_newlines.
  - change (newlines (encodeText s) = 0%nat). rewrite encodeText_newlines. by apply oneLine_newlines.
  - change (newlines (foldr (fun v acc => encode v +:+ acc) "]" l) = 0%nat). cbn in Hn, Hp. apply le_S_n in Hn.
    induction l as [|v l IHl]; [done|]. cbn in Hn, Hp |- *. rewrite strlen_app in Hn.
    apply andb_true_iff in Hp as [Hv Hl]. rewrite newlines_app, (IH v), IHl by (done || lia). done.
  - rewrite plain_map in Hp. rewrite encode_map in Hn |- *. cbn in Hn. apply le_S_n in Hn.
    revert Hn Hp. cbn [String.append newlines]. generalize (map_to_list m). clear m. intros l Hn Hp.
    change (newlines (foldr (fun kv acc => encodeText kv.1 +:+ (encode kv.2 +:+ acc)) "}" l) = 0%nat).
    induction l as [|[k v] l IHl]; [done|]. cbn in Hn, Hp |- *. rewrite !strlen_app in Hn.
    apply andb_true_iff in Hp as [Hkv Hl]. apply andb_true_iff in Hkv as [Hk Hv].
    rewrite !newlines_app, encodeText_newlines, oneLine_newlines, (IH v), IHl by (done || lia). done.
Qed.

Lemma encode_newlines v : plain v = true -> newlines (encode v) = 0%nat.
Proof. by apply (encode_newlines_fuel (strlen (encode v))). Qed.

Lemma encode_map_ends m : exists mid, encode (VMap m) = String "{" (mid +:+ "}").
Proof.
  rewrite encode_map. cbn [String.append]. generalize (map_to_list m). intros l.
  induction l as [|[k v] l [mid IH]]; [by exists ""|]. cbn [foldr fst snd].
  injection IH as IH. rewrite IH. exists (encodeText k +:+ (encode v +:+ mid)). by rewrite !app_assoc_str.
Qed.

Lemma encode_map_trim m : trimSpace (encode (VMap m)) = encode (VMap m).
Proof. destruct (encode_map_ends m) as [mid ->]. by apply trimSpace_ends. Qed.

(** One document, also with others behind it. *)
Lemma encode_map_document m :
  plain (VMap m) = true -> contains (encode (VMap m) +:+ nl +:+ "---") (nl +:+ "---" +:+ nl) = false.
Proof.
  intros Hp. destruct (contains _ _) eqn:Hc; [|done]. apply contains_spec in Hc as (a & b & Hab).
  apply (f_equal newlines) in Hab. rewrite !newlines_app, encode_newlines in Hab by done.
  assert (newlines nl = 1%nat /\ newlines "---" = 0%nat) as [H1 H2] by done. rewrite H1, H2 in Hab. lia.
Qed.
