(* ===== verification/Lib.v ===== *)
(** * Third-party code the controllers call

    The functions of packages outside the repository are the fields of one
    class, [Lib]; what the theorems need of their documented behaviour is a
    second class, [LibLaws].  [Demo] is a concrete instance of both, used only
    where a theorem is applied to concrete inputs. *)

From Stdlib Require Import Ascii.
From S2P Require Import Prelude GoStrings GoTime Api Codec.

#[local] Set Warnings "-register-all".

(** What the Robot client keeps of the two answers it decodes. *)
Record ServerInfo := MkServerInfo {
  si_ServerNumber : Z;
  si_ServerName : string;
  si_ServerIP : string;
  si_ServerIPv6Net : string;
  si_Product : string;
  si_Datacenter : string;
  si_Status : string;
  si_Cancelled : bool
}.

Record RescueInfo := MkRescueInfo {
  ri_ServerIP : string;
  ri_ServerNumber : Z;
  ri_OS : string;
  ri_Arch : string;
  ri_Active : bool;
  ri_Password : string;
  ri_AuthorizedKeys : list value;
  ri_HostKey : list value
}.

Class Lib := {
  (** sigs.k8s.io/cluster-api/util/conditions *)
  MarkTrue : list Condition -> string -> list Condition;
  MarkFalse : list Condition -> forall (type reason severity message : string), list Condition;
  (** sigs.k8s.io/controller-runtime controllerutil *)
  ContainsFinalizer : list string -> string -> bool;
  AddFinalizer : list string -> string -> list string;
  RemoveFinalizer : list string -> string -> list string;
  (** sigs.k8s.io/cluster-api/util *)
  IsControlPlaneMachine : Machine -> bool;
  (** clusterv1.GroupVersion.String() and the constants of clusterv1 *)
  clusterGroupVersion : string;
  ClusterNameLabel : string;
  DrainingSucceededCondition : string;
  (** k8s.io/apimachinery: the error of LabelSelectorAsSelector, if any *)
  LabelSelectorAsSelector : LabelSelector -> option error;
  (** golang.org/x/crypto/ssh: ParsePrivateKey, then MarshalAuthorizedKey of
      the public key *)
  ParsePrivateKey : string -> res string;
  (** gopkg.in/yaml.v3; [None] is a nil map *)
  yaml_Unmarshal : string -> res (option object);
  yaml_Marshal : object -> res string;
  (** decoding and encoding of encoding/json *)
  json_Unmarshal_map : string -> res (option object);
  json_MarshalIndent : object -> res string;
  json_Unmarshal_server : string -> res ServerInfo;
  json_Unmarshal_rescue : string -> res RescueInfo;
  json_Unmarshal_any : string -> option error;
  (** net/http: the error of NewRequestWithContext for a URL, if any *)
  NewRequestError : string -> string -> option error;
  (** time: Format(time.RFC3339), which depends on the local time zone *)
  RFC3339 : Z -> string
}.

(** The first condition of a type. *)
Definition getCondition (cs : list Condition) (type : string) : option Condition :=
  List.find (fun c => String.eqb (c_Type c) type) cs.

Class LibLaws `{Lib} : Prop := {
  MarkTrue_get cs t :
    exists c, getCondition (MarkTrue cs t) t = Some c /\ c_Status c = "True";
  MarkFalse_get cs t r sev m :
    exists c, getCondition (MarkFalse cs t r sev m) t = Some c /\
      c_Status c = "False" /\ c_Reason c = r /\ c_Severity c = sev /\ c_Message c = m;
  ContainsFinalizer_add fs f : ContainsFinalizer (AddFinalizer fs f) f = true;
  ContainsFinalizer_remove fs f : ContainsFinalizer (RemoveFinalizer fs f) f = false;
  AddFinalizer_self fs f : f ∈ AddFinalizer fs f;
  AddFinalizer_in fs f g : g ∈ AddFinalizer fs f -> g ∈ fs \/ g = f;
  RemoveFinalizer_in fs f g : g ∈ RemoveFinalizer fs f -> g ∈ fs /\ g <> f
}.

(** The round trip of gopkg.in/yaml.v3 on values whose text is printable ASCII: the
    output is one document, which reads back as what was written, with or
    without the white space around it. *)
Class YamlLaws `{Lib} : Prop := {
  yaml_writes m : plain (VMap m) = true -> exists s, yaml_Marshal m = Ok s;
  yaml_reads m s : plain (VMap m) = true -> yaml_Marshal m = Ok s ->
    yaml_Unmarshal (trimSpace s) = Ok (Some m);
  yaml_document m s : plain (VMap m) = true -> yaml_Marshal m = Ok s ->
    contains (s +:+ nl +:+ "---") (nl +:+ "---" +:+ nl) = false /\
    trimSpace s <> "" /\ trimSpace s <> "---" /\ hasPrefix (trimSpace s) ("---" +:+ nl) = false
}.

(** clusterv1.ConditionSeverity *)
Definition ConditionSeverityError : string := "Error".
Definition ConditionSeverityWarning : string := "Warning".
Definition ConditionSeverityInfo : string := "Info".

(** clusterv1.MachineAddressType *)
Definition MachineExternalIP : string := "ExternalIP".
Definition MachineInternalIP : string := "InternalIP".

(** ** A concrete instance *)

Module Demo.

Definition setCondition (cs : list Condition) (c : Condition) : list Condition :=
  c :: List.filter (fun c' => negb (String.eqb (c_Type c') (c_Type c))) cs.

Definition notEq (f g : string) : bool := negb (String.eqb g f).

Definition decodeObject (s : string) : res (option object) :=
  if String.eqb s "null" then Ok None
  else match decode s with
       | Some (VMap m) => Ok (Some m)
       | _ => Err (errorf "cannot unmarshal")
       end.

#[export] Instance demoLib : Lib := {|
  MarkTrue cs t := setCondition cs (MkCondition t "True" "" "" "");
  MarkFalse cs t r sev m := setCondition cs (MkCondition t "False" sev r m);
  ContainsFinalizer fs f := existsb (String.eqb f) fs;
  AddFinalizer fs f := if existsb (String.eqb f) fs then fs else fs ++ [f];
  RemoveFinalizer fs f := List.filter (notEq f) fs;
  IsControlPlaneMachine m :=
    match Labels (m_Meta m) !! "cluster.x-k8s.io/control-plane" with
    | Some _ => true | None => false end;
  clusterGroupVersion := "cluster.x-k8s.io/v1beta1";
  ClusterNameLabel := "cluster.x-k8s.io/cluster-name";
  DrainingSucceededCondition := "DrainingSucceeded";
  LabelSelectorAsSelector _ := None;
  ParsePrivateKey k := if String.eqb k "" then Err (errorf "ssh: no key found") else Ok ("ssh-ed25519 " +:+ k);
  yaml_Unmarshal s := decodeObject s;
  yaml_Marshal m := Ok (encode (VMap m));
  json_Unmarshal_map s := decodeObject s;
  json_MarshalIndent m := Ok (encode (VMap m));
  json_Unmarshal_server s := Ok (MkServerInfo 1 "" "192.0.2.1" "2001:db8::" "" "" "ready" false);
  json_Unmarshal_rescue s := Ok (MkRescueInfo "" 1 "null" "64" true "" [] []);
  json_Unmarshal_any s := None;
  NewRequestError _ _ := None;
  RFC3339 t := itoa t
|}.

#[export] Instance demoLaws : LibLaws.
Proof.
  split; cbn; intros.
  - exists (MkCondition t "True" "" "" ""). by rewrite String.eqb_refl.
  - exists (MkCondition t "False" sev r m). by rewrite String.eqb_refl.
  - destruct (existsb (String.eqb f) fs) eqn:He; [done|].
    rewrite existsb_app. cbn. by rewrite String.eqb_refl, orb_true_r.
  - induction fs as [|g fs IH]; cbn; [done|]. unfold notEq at 1.
    destruct (String.eqb_spec g f) as [->|Hne]; cbn; [done|].
    rewrite IH, orb_false_r. apply String.eqb_neq. congruence.
  - destruct (existsb (String.eqb f) fs) eqn:He; [|apply elem_of_app; right; by apply list_elem_of_singleton].
    apply existsb_exists in He as (g & Hin & ->%String.eqb_eq). by apply list_elem_of_In.
  - destruct (existsb _ _); [by left|]. match goal with H : _ |- _ => apply elem_of_app in H as [?|Hg] end; [by left|].
    right. by apply list_elem_of_singleton in Hg.
  - match goal with H : _ |- _ => apply list_elem_of_In, List.filter_In in H as [Hin Hn] end.
    split; [by apply list_elem_of_In|]. unfold notEq in Hn. intros ->. by rewrite String.eqb_refl in Hn.
Qed.

#[export] Instance demoYaml : YamlLaws.
Proof.
  assert (forall m mid, encode (VMap m) = String "{" mid -> encode (VMap m) <> "" /\ encode (VMap m) <> "---" /\
    hasPrefix (encode (VMap m)) ("---" +:+ nl) = false) as Hs by by intros m mid ->.
  assert (forall m s, yaml_Marshal m = Ok s -> s = encode (VMap m)) as Hm by (intros m s H; by injection H).
  split.
  - intros m _. by eexists.
  - intros m s Hp ->%Hm. rewrite encode_map_trim. change (decodeObject (encode (VMap m)) = Ok (Some m)).
    unfold decodeObject.
    destruct (String.eqb_spec (encode (VMap m)) "null") as [He|_]; [|by rewrite decode_encode].
    destruct (encode_map_ends m) as [mid Hmid]. rewrite Hmid in He. done.
  - intros m s Hp ->%Hm. rewrite encode_map_trim. split; [by apply encode_map_document|].
    destruct (encode_map_ends m) as [mid Hmid]. by eapply Hs.
Qed.

End Demo.
