(* ===== verification/Samples.v ===== *)
(** * Sample objects and environments

    Concrete objects and answers, used only where a theorem is applied to
    concrete inputs. *)

From S2P Require Import Prelude GoStrings GoTime Api Codec Effects Lib.

Local Open Scope Z_scope.

Definition meta (name ns uid : string) (owners : list OwnerReference) : ObjectMeta :=
  MkObjectMeta name ns uid ∅ [MachineFinalizer] None owners.

Definition sampleHost : HetznerRobotHost :=
  MkHRH (meta "host-1" "prod" "h1" [])
    (MkHRHSpec 4711 "192.0.2.10" "2001:db8:1::/64" "10.0.0.5" "" HostLifecycleClassCompute false
       DestructiveProvisioningPolicyAlwaysCleanSlate)
    (MkHRHStatus HostStateAvailable None None None None "" "").

Definition storageHost : HetznerRobotHost :=
  set_hs hs_LifecycleClass HostLifecycleClassStorage
    (set_hs hs_DestructiveProvisioningPolicy DestructiveProvisioningPolicyRequiresExternalRelease sampleHost).

Definition sampleMachine : Machine :=
  MkMachine (meta "m-1" "prod" "uid-1" []) (Some "bootstrap") "hrm-1" None [].

Definition sampleRelease : HetznerRobotHostRelease :=
  MkRelease (meta "release" "prod" "r1" [])
    (MkReleaseSpec "host-1" (MkReleasedMachineReference "m-1" "prod" "uid-1")
       HostReleaseActionWipeAndReinstall 2000 "disk replaced").

Definition emptyStatus : HetznerRobotMachineStatus :=
  MkHRMStatus false None [] StateNone "" "" "" "" None None None 0 None None [].

Definition sampleHRM : HetznerRobotMachine :=
  MkHRM (meta "hrm-1" "prod" "u1" [MkOwnerReference "cluster.x-k8s.io/v1beta1" "Machine" "m-1" "uid-1"])
    (MkHRMSpec None (Some "host-1") None OSTypeTalos "schematic" "v1.9.0" "" "" "" "")
    emptyStatus.

Definition inState (s : ProvisioningState) : HetznerRobotMachine :=
  set_mst mst_ProvisioningState s sampleHRM.

Definition sampleHRC : HetznerRobotCluster :=
  MkHRC (meta "hrc" "prod" "c1" [])
    (MkHRCSpec "" 0 (MkSecretReference "robot" "") (MkSecretReference "ssh" "") "" None)
    (MkHRCStatus false None []).

Definition sampleCluster : Cluster :=
  MkCluster (meta "cluster" "prod" "cl1" []) false (Some (MkNamespacedName "prod" "hrc")).

(** A bootstrap config: a kubelet argument and an interface with a VLAN. *)
Definition sampleConfig : object :=
  {[ "version" := VString "v1alpha1";
     "machine" := VMap {[
       "type" := VString "worker";
       "kubelet" := VMap {[ "extraArgs" := VMap {[ "v" := VString "2" ]} ]};
       "network" := VMap {[ "interfaces" :=
         VList [VMap {[ "interface" := VString "eth0"; "vlans" := VList [VMap {[ "vlanId" := VNum 1 ]}] ]}] ]} ]} ]}.

Definition sampleSecret : Secret :=
  MkSecret (meta "secret" "prod" "s1" [])
    (list_to_map [("robot-user", "user"); ("robot-password", "pw"); ("ssh-privatekey", "key");
                  ("ssh-fingerprint", "aa:bb"); ("value", encode (VMap sampleConfig))]).

Definition sampleRemediation : HetznerRobotRemediation :=
  MkRemediation (meta "m-1" "prod" "rem" [MkOwnerReference "cluster.x-k8s.io/v1beta1" "Machine" "m-1" "uid-1"])
    (MkStrategy "Reboot" 2 (5 * Minute)) (MkRemediationStatus RemediationPhaseUnset 0 None).

(** An environment that always answers the same. *)
Record World := MkWorld {
  w_now : Z;
  w_machine : HetznerRobotMachine;
  w_host : HetznerRobotHost;
  w_releases : list HetznerRobotHostRelease;
  w_remediation : HetznerRobotRemediation;
  w_http : HttpRequest -> res HttpResponse;
  w_tcp : string -> option error;
  w_ssh : string -> string * option error;
  w_grpc : option error
}.

Definition answer (w : World) : oracle := fun _ X e =>
  match e in Eff X return X with
  | ENow => w_now w
  | EGet k _ =>
      match k return res (Obj k) with
      | KMachine => Ok (w_machine w)
      | KHost => Ok (w_host w)
      | KRelease => Ok sampleRelease
      | KCluster => Ok sampleHRC
      | KRemediation => Ok (w_remediation w)
      | KSecret => Ok sampleSecret
      end
  | EList k _ _ =>
      match k return res (list (Obj k)) with
      | KMachine => Ok [w_machine w]
      | KHost => Ok [w_host w]
      | KRelease => Ok (w_releases w)
      | KCluster => Ok [sampleHRC]
      | KRemediation => Ok [w_remediation w]
      | KSecret => Ok [sampleSecret]
      end
  | ENewPatchHelper _ _ => None
  | EPatch _ _ _ => None
  | EOwnerMachine _ => Ok (Some sampleMachine)
  | EClusterFromMetadata _ => Ok (Some sampleCluster)
  | EOwnerCluster _ => Ok (Some sampleCluster)
  | EHttp rq => w_http w rq
  | ETcpDial addr _ => w_tcp w addr
  | ESshHandshake _ _ _ _ => None
  | ESshNewSession _ _ => None
  | ESshExec _ _ cmd => w_ssh w cmd
  | EGrpcDial _ => None
  | EGrpcApplyConfiguration _ _ _ => w_grpc w
  | EGrpcReset _ _ _ _ => None
  | EGrpcBootstrap _ => None
  end.

Definition okResponse : res HttpResponse := Ok (MkHttpResponse 200 "{}" None).

(** What the commands of an installation print on a server with one disk. *)
Definition sshAnswer (cmd : string) : string * option error :=
  if contains cmd "WIPED=" then ("WIPED=/dev/nvme0n1" +:+ nl +:+ "ALL_DONE" +:+ nl, None)
  else if contains cmd "MAC=" then
    ("MAC=aa:bb:cc:dd:ee:ff" +:+ nl +:+ "GATEWAY=192.0.2.1" +:+ nl +:+ "DISK=/dev/nvme0n1" +:+ nl, None)
  else if contains cmd "RESCUE" then ("RESCUE" +:+ nl, None)
  else if contains cmd "bootstrap-success" then ("READY" +:+ nl, None)
  else ("", None).

(** Everything is reachable and every call succeeds. *)
Definition goodWorld (hrm : HetznerRobotMachine) (host : HetznerRobotHost) : World :=
  MkWorld 1000 hrm host [sampleRelease] sampleRemediation (fun _ => okResponse) (fun _ => None) sshAnswer None.

Definition hist_of {A} (w : World) (p : prog A) : hist := (run_oracle (answer w) p []).1.
Definition result_of {A} (w : World) (p : prog A) : A := (run_oracle (answer w) p []).2.

Lemma exec_of {A} (w : World) (p : prog A) : exec p [] (hist_of w p) (result_of w p).
Proof. apply exec_run_oracle. Qed.

(** In a world, every read answers the same, and so does the clock. *)
Lemma machine_read {A} (w : World) (p : prog A) key (read : HetznerRobotMachine) :
  Ev (EGet KMachine key) (Ok read) ∈ hist_of w p -> read = w_machine w.
Proof. intros [Hn|[h' He]]%run_oracle_answers; [by apply elem_of_nil in Hn|]. by injection He. Qed.

Lemma clock_read {A} (w : World) (p : prog A) now : Ev ENow now ∈ hist_of w p -> now = w_now w.
Proof. intros [Hn|[h' He]]%run_oracle_answers; [by apply elem_of_nil in Hn|done]. Qed.

Lemma remediation_read {A} (w : World) (p : prog A) key (read : HetznerRobotRemediation) :
  Ev (EGet KRemediation key) (Ok read) ∈ hist_of w p -> read = w_remediation w.
Proof. intros [Hn|[h' He]]%run_oracle_answers; [by apply elem_of_nil in Hn|]. by injection He. Qed.
