(* ===== verification/Policy.v ===== *)
(** * Host lifecycle policy

    controllers/hetznerrobotmachine_policy.go: who may wipe, reset or reinstall
    a physical server.  The pure checks come first, then the reconciler's
    method, which reads the host releases of a storage server. *)

From S2P Require Import Prelude GoStrings GoTime Api Effects Lib Samples.

Definition destructiveProvisioningDeniedReason : string := "DestructiveProvisioningDenied".

(** The function [authorizeDestructiveProvisioning]: nil means allowed. *)
Definition authorizeDestructiveProvisioning (host : option HetznerRobotHost) : option error :=
  match host with
  | None => Some (errorf "destructive provisioning denied: host is nil")
  | Some host =>
      let name := hrh_Name host in
      let policy := hs_DestructiveProvisioningPolicy (hrh_Spec host) in
      if hs_MaintenanceMode (hrh_Spec host) then
        Some (errorf ("destructive provisioning denied for host " +:+ name +:+ ": maintenanceMode=true"))
      else
        match hs_LifecycleClass (hrh_Spec host) with
        | HostLifecycleClassCompute =>
            if decide (policy = DestructiveProvisioningPolicyAlwaysCleanSlate) then None
            else Some (errorf ("destructive provisioning denied for compute host " +:+ name
                   +:+ ": policy=" +:+ quote (policyString policy) +:+ ", want "
                   +:+ quote (policyString DestructiveProvisioningPolicyAlwaysCleanSlate)))
        | HostLifecycleClassControlPlane =>
            Some (errorf ("destructive provisioning denied for control-plane host " +:+ name
                   +:+ ": policy=" +:+ quote (policyString policy)))
        | HostLifecycleClassStorage =>
            Some (errorf ("destructive provisioning denied for storage host " +:+ name
                   +:+ ": active storage host release is required"))
        | HostLifecycleClassUnset =>
            Some (errorf ("destructive provisioning denied for host " +:+ name
                   +:+ ": lifecycleClass is required"))
        | HostLifecycleClassOther s =>
            Some (errorf ("destructive provisioning denied for host " +:+ name
                   +:+ ": unsupported lifecycleClass=" +:+ quote s))
        end
  end.

(** The body of the loop of [findActiveHostRelease]: the release is returned
    when none of the [continue]s is taken. *)
Definition releaseIsActive (host : HetznerRobotHost) (machine : Machine) (now : Z)
    (release : HetznerRobotHostRelease) : bool :=
  let spec := rel_Spec release in
  String.eqb (rl_HostRefName spec) (hrh_Name host) &&
  bool_decide (rl_ApprovedAction spec = HostReleaseActionWipeAndReinstall) &&
  (now <? rl_ExpiresAt spec)%Z &&
  (String.eqb (rm_Name (rl_MachineRef spec)) (m_Name machine) &&
   String.eqb (rm_Namespace (rl_MachineRef spec)) (m_Namespace machine) &&
   String.eqb (rm_UID (rl_MachineRef spec)) (m_UID machine)).

Definition findActiveHostRelease (host : HetznerRobotHost) (machine : option Machine)
    : prog (res (option HetznerRobotHostRelease)) :=
  match machine with
  | None => Ret (Err (errorf ("destructive provisioning denied for host " +:+ hrh_Name host
              +:+ ": CAPI Machine is nil")))
  | Some machine =>
      r ← trigger (EList KRelease (hrh_Namespace host) None);
      unwrap releases := r orelse err =>
        Ret (Err (wrapf ("list HetznerRobotHostReleases for host " +:+ hrh_Name host +:+ ": ") err ""));
      now ← trigger ENow;
      Ret (Ok (List.find (releaseIsActive host machine now) releases))
  end.

(** The method [HetznerRobotMachineReconciler.authorizeDestructiveProvisioning].
    [hrm] is only tested for nil. *)
Definition authorizeDestructiveProvisioningFor (hrm : option HetznerRobotMachine)
    (machine : option Machine) (host : option HetznerRobotHost) : prog (option error) :=
  match host, hrm with
  | None, _ => Ret (Some (errorf "destructive provisioning denied: host is nil"))
  | Some host, None =>
      Ret (Some (errorf ("destructive provisioning denied for host " +:+ hrh_Name host
        +:+ ": HetznerRobotMachine is nil")))
  | Some host, Some _ =>
      let policy := hs_DestructiveProvisioningPolicy (hrh_Spec host) in
      if decide (hs_LifecycleClass (hrh_Spec host) <> HostLifecycleClassStorage) then
        Ret (authorizeDestructiveProvisioning (Some host))
      else if hs_MaintenanceMode (hrh_Spec host) then
        Ret (Some (errorf ("destructive provisioning denied for host " +:+ hrh_Name host
          +:+ ": maintenanceMode=true")))
      else if decide (policy <> DestructiveProvisioningPolicyRequiresExternalRelease) then
        Ret (Some (errorf ("destructive provisioning denied for storage host " +:+ hrh_Name host
          +:+ ": policy=" +:+ quote (policyString policy) +:+ ", want "
          +:+ quote (policyString DestructiveProvisioningPolicyRequiresExternalRelease))))
      else
        r ← findActiveHostRelease host machine;
        unwrap release := r orelse err => Ret (Some err);
        match release, machine with
        | None, Some m =>
            Ret (Some (errorf ("destructive provisioning denied for storage host " +:+ hrh_Name host
              +:+ ": active HetznerRobotHostRelease for Machine " +:+ m_Namespace m +:+ "/"
              +:+ m_Name m +:+ " uid=" +:+ m_UID m +:+ " is required")))
        | _, _ => Ret None
        end
  end.

Definition authorizeAutomatedHardwareReset (host : option HetznerRobotHost) : option error :=
  match host with
  | None => Some (errorf "automated hardware reset denied: host is nil")
  | Some host =>
      let name := hrh_Name host in
      let policy := hs_DestructiveProvisioningPolicy (hrh_Spec host) in
      if hs_MaintenanceMode (hrh_Spec host) then
        Some (errorf ("automated hardware reset denied for host " +:+ name +:+ ": maintenanceMode=true"))
      else
        match hs_LifecycleClass (hrh_Spec host) with
        | HostLifecycleClassCompute =>
            if decide (policy = DestructiveProvisioningPolicyAlwaysCleanSlate) then None
            else Some (errorf ("automated hardware reset denied for compute host " +:+ name
                   +:+ ": policy=" +:+ quote (policyString policy) +:+ ", want "
                   +:+ quote (policyString DestructiveProvisioningPolicyAlwaysCleanSlate)))
        | HostLifecycleClassControlPlane =>
            Some (errorf ("automated hardware reset denied for control-plane host " +:+ name
                   +:+ ": platform quorum gate required"))
        | HostLifecycleClassStorage =>
            Some (errorf ("automated hardware reset denied for storage host " +:+ name
                   +:+ ": external storage health/release gate required"))
        | HostLifecycleClassUnset =>
            Some (errorf ("automated hardware reset denied for host " +:+ name
                   +:+ ": lifecycleClass is required"))
        | HostLifecycleClassOther s =>
            Some (errorf ("automated hardware reset denied for host " +:+ name
                   +:+ ": unsupported lifecycleClass=" +:+ quote s))
        end
  end.

Definition markDestructiveProvisioningDenied `{Lib} (hrm : HetznerRobotMachine) (err : error)
    : HetznerRobotMachine :=
  set_mst mst_Conditions
    (MarkFalse (mst_Conditions (hrm_Status hrm)) ReadyCondition destructiveProvisioningDeniedReason
       ConditionSeverityWarning (err_msg err)) hrm.

Definition provisioningMayBecomeDestructive (state : ProvisioningState) : bool :=
  match state with
  | StateNone | StateActivatingRescue | StateInRescue | StateInstalling => true
  | _ => false
  end.

(** * The policy as a specification *)

(** Compute capacity that its owner declared disposable. *)
Definition disposable (host : HetznerRobotHost) : Prop :=
  hs_MaintenanceMode (hrh_Spec host) = false /\
  hs_LifecycleClass (hrh_Spec host) = HostLifecycleClassCompute /\
  hs_DestructiveProvisioningPolicy (hrh_Spec host) = DestructiveProvisioningPolicyAlwaysCleanSlate.

#[export] Instance disposable_dec host : Decision (disposable host).
Proof. unfold disposable. apply _. Defined.

(** A release that names exactly this host and this CAPI Machine, and has not
    expired at [now]. *)
Definition releases (host : HetznerRobotHost) (machine : Machine) (now : Z)
    (release : HetznerRobotHostRelease) : Prop :=
  rl_HostRefName (rel_Spec release) = hrh_Name host /\
  rl_ApprovedAction (rel_Spec release) = HostReleaseActionWipeAndReinstall /\
  (now < rl_ExpiresAt (rel_Spec release))%Z /\
  rl_MachineRef (rel_Spec release) =
    MkReleasedMachineReference (m_Name machine) (m_Namespace machine) (m_UID machine).

(** A storage server some release of the history, read in its namespace and
    compared with a clock reading of the history, gives to the machine. *)
Definition released (machine : Machine) (host : HetznerRobotHost) (h : hist) : Prop :=
  hs_MaintenanceMode (hrh_Spec host) = false /\
  hs_LifecycleClass (hrh_Spec host) = HostLifecycleClassStorage /\
  hs_DestructiveProvisioningPolicy (hrh_Spec host) =
    DestructiveProvisioningPolicyRequiresExternalRelease /\
  exists rels rel now,
    Ev (EList KRelease (hrh_Namespace host) None) (Ok rels) ∈ h /\
    Ev ENow now ∈ h /\ rel ∈ rels /\ releases host machine now rel.

(** The two ways a machine's reconciliation may come to wipe a server. *)
Definition mayDestroy (machine : Machine) (host : HetznerRobotHost) (h : hist) : Prop :=
  disposable host \/ released machine host h.

(** * Facts *)

Lemma releaseIsActive_spec host machine now release :
  releaseIsActive host machine now release = true <-> releases host machine now release.
Proof.
  unfold releaseIsActive, releases.
  rewrite !andb_true_iff, !String.eqb_eq, bool_decide_eq_true, Z.ltb_lt.
  destruct (rl_MachineRef (rel_Spec release)) as [n ns uid]; cbn. naive_solver.
Qed.

Lemma authorize_disposable host :
  authorizeDestructiveProvisioning (Some host) = None <-> disposable host.
Proof.
  unfold authorizeDestructiveProvisioning, disposable.
  destruct (hs_MaintenanceMode _); [naive_solver|].
  destruct (hs_LifecycleClass _); try naive_solver. case_decide; naive_solver.
Qed.

Lemma reset_disposable host :
  authorizeAutomatedHardwareReset (Some host) = None <-> disposable host.
Proof.
  unfold authorizeAutomatedHardwareReset, disposable.
  destruct (hs_MaintenanceMode _); [naive_solver|].
  destruct (hs_LifecycleClass _); try naive_solver. case_decide; naive_solver.
Qed.

Lemma mayDestroy_mono machine host h h' :
  extends h' h -> mayDestroy machine host h -> mayDestroy machine host h'.
Proof.
  intros Hext [Hd|(Hm & Hc & Hp & rels & rel & now & Hl & Hn & Hin & Hr)]; [by left|right].
  split_and!; [done..|]. exists rels, rel, now. split_and!; eauto using extends_elem.
Qed.

Lemma releases_found machine host now rels rel :
  List.find (releaseIsActive host machine now) rels = Some rel ->
  rel ∈ rels /\ releases host machine now rel.
Proof.
  intros [Hin Ha]%List.find_some. split; [by apply list_elem_of_In|by apply releaseIsActive_spec].
Qed.

(** The clock reading and the list of releases an event holds, if it is one. *)
Definition answeredNow (ev : event) : option Z :=
  match ev with
  | Ev e x => match e in Eff X return X -> option Z with ENow => Some | _ => fun _ => None end x
  end.

Definition answeredReleases (ev : event) : option (res (list HetznerRobotHostRelease)) :=
  match ev with
  | Ev e x =>
      match e in Eff X return X -> option (res (list HetznerRobotHostRelease)) with
      | EList k _ _ =>
          match k return res (list (Obj k)) -> option (res (list HetznerRobotHostRelease)) with KRelease => Some | _ => fun _ => None end
      | _ => fun _ => None
      end x
  end.

(** The reconciler's check only reads, and when it allows destruction the
    history proves the policy does. *)
Lemma wp_authorize (G : guard) hrm machine host (Q : option error -> hist -> Prop) h :
  (forall h' X e, isRead X e -> G h' X e) ->
  (forall r h', extends h' h -> (r = None -> mayDestroy machine host h') -> Q r h') ->
  wp G (authorizeDestructiveProvisioningFor (Some hrm) (Some machine) (Some host)) Q h.
Proof.
  intros HG HQ. unfold authorizeDestructiveProvisioningFor.
  case_decide.
  - apply wp_ret, HQ; [done|]. intros Hn. left. by apply authorize_disposable.
  - destruct (hs_MaintenanceMode _) eqn:Hm; [by apply wp_ret, HQ|].
    case_decide as Hp; [by apply wp_ret, HQ|].
    apply wp_bind. unfold findActiveHostRelease.
    apply wp_bind, wp_trigger; [by apply HG|]. intros [rels|err]; [|by apply wp_ret, wp_ret, HQ; [extends_tac|]].
    apply wp_bind, wp_trigger; [by apply HG|]. intros now. apply wp_ret.
    destruct (List.find (releaseIsActive host machine now) rels) as [rel|] eqn:Hf; apply wp_ret, HQ;
      [by extends_tac| |by extends_tac|done].
    intros _. right. apply releases_found in Hf as [Hin Hr]. unfold released.
    split_and!; [done..|].
    exists rels, rel, now. split_and!; [set_solver..|done|done].
Qed.

Lemma emits_authorize hrm machine host :
  emits isRead (authorizeDestructiveProvisioningFor (Some hrm) (Some machine) (Some host)).
Proof. apply (emits_of_wp _ _ (fun _ _ => True) []). by apply wp_authorize. Qed.

(** * Properties *)

(** Destructive provisioning fails closed.  The policy function returns
    nil for exactly the hosts that are not in maintenance, are declared
    [compute], and carry the policy [AlwaysCleanSlate]; a nil host, every other
    lifecycle class (unset, unknown, control-plane, storage) and every other
    policy is denied. *)
Theorem destructive_policy_fails_closed (host : option HetznerRobotHost) :
  authorizeDestructiveProvisioning host = None <-> exists h, host = Some h /\ disposable h.
Proof.
  destruct host as [host|]; [|split; [done|by intros (? & ? & ?)]].
  rewrite authorize_disposable. naive_solver.
Qed.

(** C24: the reconciler's check answers nil exactly when the host is
    disposable, or is a storage host out of maintenance with the policy
    [RequiresExternalRelease] for which the list it has just read holds an
    unexpired [WipeAndReinstall] release naming this host and this CAPI Machine
    by name, namespace and UID. *)
Theorem authorize_for_machine_exact hrm machine host h' r :
  exec (authorizeDestructiveProvisioningFor (Some hrm) (Some machine) (Some host)) [] h' r ->
  r = None <-> mayDestroy machine host h'.
Proof.
  intros He. split.
  - intros Hr. revert Hr.
    by_exec He.
    apply wp_authorize; auto.
  - intros Hm. revert Hm.
    by_exec He. clear r h'.
    unfold authorizeDestructiveProvisioningFor, mayDestroy, disposable, released, findActiveHostRelease.
    destruct (decide (hs_LifecycleClass (hrh_Spec host) <> HostLifecycleClassStorage)) as [Hc|Hc].
    { apply wp_ret. intros [Hd|(? & ? & _)]; [|done]. by apply authorize_disposable. }
    destruct (hs_MaintenanceMode _) eqn:Hmm; [apply wp_ret; by intros [(? & _)|(? & _)]|].
    destruct (decide (hs_DestructiveProvisioningPolicy (hrh_Spec host) <>
      DestructiveProvisioningPolicyRequiresExternalRelease)) as [Hp|Hp].
    { apply wp_ret. intros [(_ & Hl & _)|(_ & _ & Hl & _)]; [|done]. destruct Hc. by rewrite Hl. }
    apply wp_bind, wp_bind, wp_trigger; [done|]. intros [rels|err].
    + apply wp_bind, wp_trigger; [done|]. intros now. apply wp_ret.
      destruct (List.find (releaseIsActive host machine now) rels) as [rel|] eqn:Hf; apply wp_ret; [done|].
      intros [(_ & Hl & _)|(_ & _ & _ & rels' & rel & now' & Hl & Hn & Hin & Hr)]; [by destruct Hc; rewrite Hl|].
      exfalso. apply elem_of_cons in Hl as [?%(f_equal answeredNow)|Hl]; [done|].
      apply list_elem_of_singleton in Hl. apply elem_of_cons in Hn as [Hn|Hn].
      2: { by apply list_elem_of_singleton, (f_equal answeredNow) in Hn. }
      apply (f_equal answeredReleases) in Hl. apply (f_equal answeredNow) in Hn. simplify_eq/=.
      apply list_elem_of_In in Hin.
      apply (List.find_none _ _ Hf) in Hin. apply releaseIsActive_spec in Hr. congruence.
    + apply wp_ret, wp_ret. intros [(_ & Hl & _)|(_ & _ & _ & rels' & rel & now' & Hl & _)]; [by destruct Hc; rewrite Hl|].
      apply list_elem_of_singleton, (f_equal answeredReleases) in Hl. by simplify_eq/=.
Qed.

Lemma authorize_for_machine_exact_witness :
  let p := authorizeDestructiveProvisioningFor (Some sampleHRM) (Some sampleMachine) (Some storageHost) in
  let w := goodWorld sampleHRM storageHost in
  result_of w p = None /\ (result_of w p = None <-> mayDestroy sampleMachine storageHost (hist_of w p)).
Proof.
  split; [vm_compute; reflexivity|]. exact (authorize_for_machine_exact _ _ _ _ _ (exec_of _ _)).
Defined.
