(* ===== verification/Robot.v ===== *)
(** * The Hetzner Robot client

    pkg/robot: the HTTP client of the Robot web service and its construction
    from the cluster's credentials; controllers/hetznerrobotmachine_secrets.go:
    the reads of the bootstrap and SSH secrets.  The 30 second timeout of the
    HTTP client is one of the errors a request may end in. *)

From S2P Require Import Prelude GoStrings GoTime Api Effects Lib Samples.

Local Open Scope Z_scope.

Definition robotBaseURL : string := "https://robot-ws.your-server.de".

Record Client := MkClient {
  username : string;
  password : string;
  baseURL : string
}.

Definition New (username password : string) : Client := MkClient username password robotBaseURL.

Definition NewWithBaseURL (username password baseURL : string) : Client :=
  MkClient username password baseURL.

(** ** [url.Values] *)

Abbreviation Values := (gmap string (list string)).

Definition Values_Set (data : Values) (key value : string) : Values := <[key := [value]]> data.

(** [Values.Encode]: the pairs in the order of their keys. *)
Definition Values_Encode (data : Values) : string :=
  join (concat (map (fun k => map (fun v => queryEscape k +:+ "=" +:+ queryEscape v) (data !!! k))
    (sortStrings (map fst (map_to_list data))))) "&".

(** ** Requests *)

Definition getRequest (c : Client) (path : string) : HttpRequest :=
  MkHttpRequest "GET" (baseURL c +:+ path) (username c) (password c) None "".

Definition postRequest (c : Client) (path : string) (data : Values) : HttpRequest :=
  MkHttpRequest "POST" (baseURL c +:+ path) (username c) (password c)
    (Some "application/x-www-form-urlencoded") (Values_Encode data).

(** [result] stands for the typed destination of [json.Unmarshal]. *)
Definition get `{Lib} {A} (c : Client) (path : string) (result : string -> res A) : prog (res A) :=
  ensure NewRequestError "GET" (baseURL c +:+ path) orelse err => Ret (Err err);
  r ← trigger (EHttp (getRequest c path));
  unwrap resp := r orelse err => Ret (Err (wrapf ("robot API GET " +:+ path +:+ ": ") err ""));
  ensure rsp_BodyErr resp orelse err => Ret (Err err);
  if 400 <=? rsp_StatusCode resp then
    Ret (Err (errorf ("robot API error " +:+ itoa (rsp_StatusCode resp) +:+ " on GET " +:+ path
      +:+ ": " +:+ rsp_Body resp)))
  else Ret (result (rsp_Body resp)).

(** Every caller passes a destination, so [result != nil]. *)
Definition post `{Lib} {A} (c : Client) (path : string) (data : Values) (result : string -> res A)
    : prog (res A) :=
  ensure NewRequestError "POST" (baseURL c +:+ path) orelse err => Ret (Err err);
  r ← trigger (EHttp (postRequest c path data));
  unwrap resp := r orelse err => Ret (Err (wrapf ("robot API POST " +:+ path +:+ ": ") err ""));
  ensure rsp_BodyErr resp orelse err => Ret (Err err);
  if 400 <=? rsp_StatusCode resp then
    Ret (Err (errorf ("robot API error " +:+ itoa (rsp_StatusCode resp) +:+ " on POST " +:+ path
      +:+ ": " +:+ rsp_Body resp)))
  else Ret (result (rsp_Body resp)).

(** A destination of type [any]. *)
Definition anyResult `{Lib} (body : string) : res unit :=
  match json_Unmarshal_any body with None => Ok tt | Some err => Err err end.

Definition res_error {A} (r : res A) : option error :=
  match r with Ok _ => None | Err err => Some err end.

(** ** Operations *)

Definition GetServer `{Lib} (c : Client) (serverID : Z) : prog (res ServerInfo) :=
  get c ("/server/" +:+ itoa serverID) json_Unmarshal_server.

Definition GetServerByIP `{Lib} (c : Client) (ip : string) : prog (res ServerInfo) :=
  get c ("/server/" +:+ ip) json_Unmarshal_server.

Definition rescuePath (serverID : Z) : string := "/boot/" +:+ itoa serverID +:+ "/rescue".

Definition rescueValues (sshKeyFingerprint : string) : Values :=
  let data := Values_Set (Values_Set ∅ "os" "linux") "arch" "64" in
  if String.eqb sshKeyFingerprint "" then data
  else Values_Set data "authorized_key" sshKeyFingerprint.

Definition ActivateRescue `{Lib} (c : Client) (serverID : Z) (sshKeyFingerprint : string)
    : prog (res RescueInfo) :=
  r ← post c (rescuePath serverID) (rescueValues sshKeyFingerprint) json_Unmarshal_rescue;
  unwrap rescue := r orelse err => Ret (Err (wrapf "activate rescue: " err ""));
  Ret (Ok rescue).

Definition GetRescueStatus `{Lib} (c : Client) (serverID : Z) : prog (res RescueInfo) :=
  get c (rescuePath serverID) json_Unmarshal_rescue.

Definition deleteRequest (c : Client) (serverID : Z) : HttpRequest :=
  MkHttpRequest "DELETE" (baseURL c +:+ rescuePath serverID) (username c) (password c) None "".

(** The body of an error answer is read without looking at the read's error. *)
Definition DeactivateRescue `{Lib} (c : Client) (serverID : Z) : prog (option error) :=
  ensure NewRequestError "DELETE" (baseURL c +:+ rescuePath serverID) orelse err => Ret (Some err);
  r ← trigger (EHttp (deleteRequest c serverID));
  unwrap resp := r orelse err => Ret (Some err);
  if 400 <=? rsp_StatusCode resp then
    Ret (Some (errorf ("robot API error " +:+ itoa (rsp_StatusCode resp) +:+ ": " +:+ rsp_Body resp)))
  else Ret None.

Inductive ResetType := ResetTypeSoftware | ResetTypeHardware | ResetTypePower.

Definition resetTypeString (t : ResetType) : string :=
  match t with ResetTypeSoftware => "sw" | ResetTypeHardware => "hw" | ResetTypePower => "power" end.

Definition resetPath (serverID : Z) : string := "/reset/" +:+ itoa serverID.

Definition ResetServer `{Lib} (c : Client) (serverID : Z) (resetType : ResetType)
    : prog (option error) :=
  r ← post c (resetPath serverID) (Values_Set ∅ "type" (resetTypeString resetType)) anyResult;
  unwrap result := r orelse err =>
    Ret (Some (wrapf ("reset server " +:+ itoa serverID +:+ ": ") err ""));
  Ret None.

Definition SetServerName `{Lib} (c : Client) (serverID : Z) (name : string) : prog (option error) :=
  r ← post c ("/server/" +:+ itoa serverID) (Values_Set ∅ "server_name" name) anyResult;
  Ret (res_error r).

(** ** Construction from the cluster *)

(** A [SecretReference]'s namespace, or that of the cluster. *)
Definition secretNamespace (hrc : HetznerRobotCluster) (ref : SecretReference) : string :=
  if String.eqb (sr_Namespace ref) "" then Namespace (hrc_Meta hrc) else sr_Namespace ref.

(** A missing key of a Secret reads as the empty string. *)
Definition secretValue (secret : Secret) (key : string) : string :=
  default "" (sec_Data secret !! key).

Definition NewFromCluster (hrc : HetznerRobotCluster) : prog (res Client) :=
  let ref := cs_RobotSecretRef (hrc_Spec hrc) in
  let ns := secretNamespace hrc ref in
  r ← trigger (EGet KSecret (MkNamespacedName ns (sr_Name ref)));
  unwrap secret := r orelse err =>
    Ret (Err (wrapf ("get robot secret " +:+ ns +:+ "/" +:+ sr_Name ref +:+ ": ") err ""));
  Ret (Ok (New (secretValue secret "robot-user") (secretValue secret "robot-password"))).

(** ** Secrets of the machine reconciler *)

Definition getBootstrapData (machine : Machine) : prog (res string) :=
  match m_DataSecretName machine with
  | None =>
      Ret (Err (errorf ("bootstrap data secret not yet available on machine " +:+ m_Name machine)))
  | Some name =>
      r ← trigger (EGet KSecret (MkNamespacedName (m_Namespace machine) name));
      unwrap secret := r orelse err =>
        Ret (Err (wrapf ("get bootstrap secret " +:+ name +:+ ": ") err ""));
      match sec_Data secret !! "value" with
      | None => Ret (Err (errorf ("bootstrap secret " +:+ name +:+ " has no 'value' key")))
      | Some data => Ret (Ok data)
      end
  end.

Definition buildRobotClient (hrc : HetznerRobotCluster) : prog (res Client) := NewFromCluster hrc.

Definition getSSHPrivateKey (hrc : HetznerRobotCluster) : prog (res string) :=
  let ref := cs_SSHSecretRef (hrc_Spec hrc) in
  let ns := secretNamespace hrc ref in
  r ← trigger (EGet KSecret (MkNamespacedName ns (sr_Name ref)));
  unwrap secret := r orelse err =>
    Ret (Err (wrapf ("get SSH secret " +:+ ns +:+ "/" +:+ sr_Name ref +:+ ": ") err ""));
  match sec_Data secret !! "ssh-privatekey" with
  | None => Ret (Err (errorf ("SSH secret " +:+ sr_Name ref +:+ " has no 'ssh-privatekey' key")))
  | Some key => Ret (Ok key)
  end.

Definition getSSHKeyFingerprint (hrc : HetznerRobotCluster) : prog (res string) :=
  let ref := cs_SSHSecretRef (hrc_Spec hrc) in
  let ns := secretNamespace hrc ref in
  r ← trigger (EGet KSecret (MkNamespacedName ns (sr_Name ref)));
  unwrap secret := r orelse err => Ret (Err (wrapf "get SSH secret: " err ""));
  Ret (Ok (secretValue secret "ssh-fingerprint")).

Definition getSSHPublicKey `{Lib} (hrc : HetznerRobotCluster) : prog (res string) :=
  r ← getSSHPrivateKey hrc;
  unwrap privateKeyBytes := r orelse err =>
    Ret (Err (wrapf "get SSH private key for public key derivation: " err ""));
  unwrap pubKey := ParsePrivateKey privateKeyBytes orelse err =>
    Ret (Err (wrapf "parse SSH private key: " err ""));
  Ret (Ok (trimSpace pubKey)).

(** * Facts *)

(** The value a GET or POST call makes of an answer. *)
Definition answered {A} (verb path : string) (result : string -> res A) (a : res HttpResponse)
    : res A :=
  match a with
  | Err err => Err (wrapf ("robot API " +:+ verb +:+ " " +:+ path +:+ ": ") err "")
  | Ok resp =>
      match rsp_BodyErr resp with
      | Some err => Err err
      | None =>
          if 400 <=? rsp_StatusCode resp then
            Err (errorf ("robot API error " +:+ itoa (rsp_StatusCode resp) +:+ " on " +:+ verb
              +:+ " " +:+ path +:+ ": " +:+ rsp_Body resp))
          else result (rsp_Body resp)
      end
  end.

(** The answers that count as a success. *)
Definition accepted {A} (result : string -> res A) (a : res HttpResponse) (v : A) : Prop :=
  exists resp, a = Ok resp /\ rsp_BodyErr resp = None /\ rsp_StatusCode resp < 400 /\
    result (rsp_Body resp) = Ok v.

Lemma answered_ok {A} verb path (result : string -> res A) a v :
  answered verb path result a = Ok v <-> accepted result a v.
Proof.
  unfold answered, accepted. destruct a as [resp|err]; [|split; [done|naive_solver]].
  destruct (rsp_BodyErr resp) eqn:He; [split; [done|intros (? & ? & ? & _); congruence]|].
  case_match eqn:Hs; bool_prop.
  - split; [done|]. intros (? & [=<-] & _ & ? & _). lia.
  - split; [intros ?; exists resp; done|]. intros (? & [=<-] & _ & _ & ?). done.
Qed.

Section Rules.
Context `{Lib} {A : Type} (G : guard) (c : Client) (path : string) (result : string -> res A).
Implicit Types (Q : res A -> hist -> Prop) (h : hist).

Lemma wp_get Q h :
  (forall err, NewRequestError "GET" (baseURL c +:+ path) = Some err -> Q (Err err) h) ->
  G h _ (EHttp (getRequest c path)) ->
  (forall a, Q (answered "GET" path result a) (Ev (EHttp (getRequest c path)) a :: h)) ->
  wp G (get c path result) Q h.
Proof.
  intros He HG HQ. unfold get. case_match; [by apply wp_ret, He|].
  apply wp_bind, wp_trigger; [done|]. intros a. specialize (HQ a).
  unfold answered in HQ. repeat case_match; by apply wp_ret.
Qed.

Lemma wp_post data Q h :
  (forall err, NewRequestError "POST" (baseURL c +:+ path) = Some err -> Q (Err err) h) ->
  G h _ (EHttp (postRequest c path data)) ->
  (forall a, Q (answered "POST" path result a) (Ev (EHttp (postRequest c path data)) a :: h)) ->
  wp G (post c path data result) Q h.
Proof.
  intros He HG HQ. unfold post. case_match; [by apply wp_ret, He|].
  apply wp_bind, wp_trigger; [done|]. intros a. specialize (HQ a).
  unfold answered in HQ. repeat case_match; by apply wp_ret.
Qed.
End Rules.

Lemma emits_get `{Lib} {A} (P : forall X : Set, Eff X -> Prop) c path (result : string -> res A) :
  P _ (EHttp (getRequest c path)) -> emits P (get c path result).
Proof. intros HP. unfold get. repeat emits_step; try done. Qed.

Lemma emits_GetRescueStatus `{Lib} (P : forall X : Set, Eff X -> Prop) c id :
  P _ (EHttp (getRequest c (rescuePath id))) -> emits P (GetRescueStatus c id).
Proof. apply emits_get. Qed.

Lemma emits_GetServer `{Lib} (P : forall X : Set, Eff X -> Prop) c id :
  P _ (EHttp (getRequest c ("/server/" +:+ itoa id))) -> emits P (GetServer c id).
Proof. apply emits_get. Qed.

Lemma emits_DeactivateRescue `{Lib} (P : forall X : Set, Eff X -> Prop) c id :
  P _ (EHttp (deleteRequest c id)) -> emits P (DeactivateRescue c id).
Proof. intros HP. unfold DeactivateRescue. repeat emits_step; try done. Qed.

Definition resetRequest (c : Client) (serverID : Z) (t : ResetType) : HttpRequest :=
  postRequest c (resetPath serverID) (Values_Set ∅ "type" (resetTypeString t)).

Definition activateRequest (c : Client) (serverID : Z) (fp : string) : HttpRequest :=
  postRequest c (rescuePath serverID) (rescueValues fp).

Lemma emits_post `{Lib} {A} (P : forall X : Set, Eff X -> Prop) c path data (result : string -> res A) :
  P _ (EHttp (postRequest c path data)) -> emits P (post c path data result).
Proof. intros HP. unfold post. repeat emits_step; try done. Qed.

Lemma emits_ResetServer `{Lib} (P : forall X : Set, Eff X -> Prop) c id t :
  P _ (EHttp (resetRequest c id t)) -> emits P (ResetServer c id t).
Proof.
  intros HP. unfold ResetServer. apply emits_bind; [by apply emits_post|].
  intros [?|?]; done.
Qed.

Lemma emits_ActivateRescue `{Lib} (P : forall X : Set, Eff X -> Prop) c id fp :
  P _ (EHttp (activateRequest c id fp)) -> emits P (ActivateRescue c id fp).
Proof.
  intros HP. unfold ActivateRescue. apply emits_bind; [by apply emits_post|].
  intros [?|?]; done.
Qed.

(** The POST requests of a history, and those answered with success. *)
Definition isPost (ev : event) : bool :=
  match ev_eff ev with EHttp rq => String.eqb (rq_Method rq) "POST" | _ => false end.

Definition acceptedPost `{Lib} (ev : event) : bool :=
  match ev with
  | Ev e x =>
      match e in Eff X return X -> bool with
      | EHttp rq => fun a => String.eqb (rq_Method rq) "POST" && is_ok (answered "POST" "" anyResult a)
      | _ => fun _ => false
      end x
  end.

Definition posts (h : hist) : nat := count isPost h.
Definition acceptedPosts `{Lib} (h : hist) : nat := count acceptedPost h.

Lemma posts_reads h' h : onlyReads h' h -> posts h' = posts h.
Proof. apply (count_onlyCalls isRead). intros [X e x] Hr. by destruct e. Qed.

Lemma acceptedPosts_reads `{Lib} h' h : onlyReads h' h -> acceptedPosts h' = acceptedPosts h.
Proof. apply (count_onlyCalls isRead). intros [X e x] Hr. by destruct e. Qed.

Lemma acceptedPosts_reset `{Lib} c id t a (r : option error) h :
  (r = None <-> accepted anyResult a tt) ->
  acceptedPosts (Ev (EHttp (resetRequest c id t)) a :: h) =
    ((if r is None then 1 else 0) + acceptedPosts h)%nat.
Proof.
  intros Hr. unfold acceptedPosts, count. cbn [List.filter acceptedPost rq_Method resetRequest postRequest].
  pose proof (answered_ok "POST" "" anyResult a) as Ha.
  destruct (answered "POST" "" anyResult a) as [[]|err]; cbn; destruct r as [err'|]; try done.
  - assert (Some err' = None) by by apply Hr, Ha. done.
  - assert (Err err = Ok tt) by by apply Ha, Hr. done.
Qed.

(** A reset: nothing is sent, or one request whose answer decides. *)
Lemma wp_ResetServer `{Lib} (G : guard) c id t (Q : option error -> hist -> Prop) h :
  (forall err, Q (Some err) h) ->
  G h _ (EHttp (resetRequest c id t)) ->
  (forall a r, (r = None <-> accepted anyResult a tt) -> Q r (Ev (EHttp (resetRequest c id t)) a :: h)) ->
  wp G (ResetServer c id t) Q h.
Proof.
  intros Hn HG HQ. unfold ResetServer. apply wp_bind, wp_post; [|done|].
  - intros err _. apply wp_ret, Hn.
  - intros a. pose proof (answered_ok "POST" (resetPath id) anyResult a) as Ha.
    destruct (answered "POST" (resetPath id) anyResult a) as [[]|err]; apply wp_ret, HQ.
    + split; [intros _; by apply Ha|done].
    + split; [done|]. intros Hacc. by apply Ha in Hacc.
Qed.

(** The secret readers only read the API server. *)
Lemma emits_NewFromCluster hrc : emits isRead (NewFromCluster hrc).
Proof. unfold NewFromCluster. repeat emits_step; done. Qed.

Lemma wp_NewFromCluster (G : guard) hrc (Q : res Client -> hist -> Prop) h :
  (forall h' X e, isRead X e -> G h' X e) ->
  (forall r h', onlyReads h' h -> (forall c, r = Ok c -> baseURL c = robotBaseURL) -> Q r h') ->
  wp G (NewFromCluster hrc) Q h.
Proof.
  intros HG HQ. unfold NewFromCluster. cbv zeta. apply wp_bind, wp_trigger; [by apply HG|].
  intros [secret|err]; apply wp_ret, HQ; try by apply onlyReads_cons.
  - by intros ? [= <-].
  - done.
Qed.

Lemma emits_getBootstrapData machine : emits isRead (getBootstrapData machine).
Proof. unfold getBootstrapData. repeat emits_step; done. Qed.

Lemma emits_getSSHPrivateKey hrc : emits isRead (getSSHPrivateKey hrc).
Proof. unfold getSSHPrivateKey. repeat emits_step; done. Qed.

Lemma emits_getSSHKeyFingerprint hrc : emits isRead (getSSHKeyFingerprint hrc).
Proof. unfold getSSHKeyFingerprint. repeat emits_step; done. Qed.

Lemma emits_getSSHPublicKey `{Lib} hrc : emits isRead (getSSHPublicKey hrc).
Proof.
  unfold getSSHPublicKey. apply emits_bind; [apply emits_getSSHPrivateKey|].
  intros ?. repeat emits_step; done.
Qed.

#[export] Hint Resolve emits_NewFromCluster emits_getBootstrapData emits_getSSHPrivateKey
  emits_getSSHKeyFingerprint emits_getSSHPublicKey : guards.

(** * Properties *)

(** A hardware reset is one authenticated form POST to
    [/reset/<serverID>] whose body is [type=<reset type>]; it reports success
    exactly when the service answers below 400 with a readable JSON body, and
    nothing is sent when the request cannot be built. *)
Theorem ResetServer_exact `{Lib} (c : Client) (id : Z) (t : ResetType) h' r :
  exec (ResetServer c id t) [] h' r ->
  (h' = [] /\ r <> None) \/
  exists a, h' = [Ev (EHttp (MkHttpRequest "POST" (baseURL c +:+ "/reset/" +:+ itoa id)
                               (username c) (password c)
                               (Some "application/x-www-form-urlencoded")
                               ("type=" +:+ resetTypeString t))) a] /\
    (r = None <-> accepted anyResult a tt).
Proof.
  intros He. by_exec He. clear r h'. apply wp_ResetServer; [by left|done|].
  intros a r Hr. right. exists a. split; [|done]. do 2 f_equal.
  unfold resetRequest, postRequest. do 2 f_equal; by destruct t; vm_compute.
Qed.

(** Activating the rescue system is one authenticated form POST to
    [/boot/<serverID>/rescue] asking for 64 bit Linux, with the fingerprint as
    [authorized_key] unless it is empty; the rescue record of the answer is
    returned exactly on an answer below 400 that decodes to it. *)
Theorem ActivateRescue_exact `{Lib} (c : Client) (id : Z) (fp : string) h' r :
  exec (ActivateRescue c id fp) [] h' r ->
  (h' = [] /\ exists err, r = Err err) \/
  exists a, h' = [Ev (EHttp (MkHttpRequest "POST" (baseURL c +:+ "/boot/" +:+ itoa id +:+ "/rescue")
                               (username c) (password c)
                               (Some "application/x-www-form-urlencoded")
                               (if String.eqb fp "" then "arch=64&os=linux"
                                else "arch=64&authorized_key=" +:+ queryEscape fp +:+ "&os=linux"))) a] /\
    (forall info, r = Ok info <-> accepted json_Unmarshal_rescue a info).
Proof.
  intros He. by_exec He. clear r h'.
  unfold ActivateRescue. apply wp_bind, wp_post; [|done|].
  - intros err _. apply wp_ret. left. eauto.
  - intros a.
    replace (postRequest c (rescuePath id) _) with
      (MkHttpRequest "POST" (baseURL c +:+ "/boot/" +:+ itoa id +:+ "/rescue") (username c) (password c)
        (Some "application/x-www-form-urlencoded")
        (if String.eqb fp "" then "arch=64&os=linux"
         else "arch=64&authorized_key=" +:+ queryEscape fp +:+ "&os=linux"))
      by (unfold postRequest, rescueValues; f_equal; by destruct (String.eqb fp "")).
    pose proof (answered_ok "POST" (rescuePath id) json_Unmarshal_rescue a) as Ha.
    destruct (answered "POST" (rescuePath id) json_Unmarshal_rescue a) as [info|err];
      apply wp_ret; right; exists a; (split; [done|]).
    + intros info'. by rewrite <- Ha.
    + intros info'. rewrite <- Ha. done.
Qed.

Import Demo.

Lemma ResetServer_exact_witness :
  let p := ResetServer (New "user" "pw") 4711 ResetTypeHardware in
  let w := goodWorld sampleHRM sampleHost in
  result_of w p = None /\
  ((hist_of w p = [] /\ result_of w p <> None) \/
   exists a, hist_of w p =
      [Ev (EHttp (MkHttpRequest "POST" (robotBaseURL +:+ "/reset/" +:+ itoa 4711) "user" "pw"
         (Some "application/x-www-form-urlencoded") ("type=" +:+ "hw"))) a] /\
      (result_of w p = None <-> accepted anyResult a tt)).
Proof.
  split; [vm_compute; reflexivity|].
  exact (ResetServer_exact (New "user" "pw") 4711 ResetTypeHardware _ _ (exec_of _ _)).
Defined.

Lemma ActivateRescue_exact_witness :
  let p := ActivateRescue (New "user" "pw") 4711 "aa:bb" in
  let w := goodWorld sampleHRM sampleHost in
  is_ok (result_of w p) = true /\
  ((hist_of w p = [] /\ exists err, result_of w p = Err err) \/
   exists a, hist_of w p =
      [Ev (EHttp (MkHttpRequest "POST" (robotBaseURL +:+ "/boot/" +:+ itoa 4711 +:+ "/rescue") "user" "pw"
         (Some "application/x-www-form-urlencoded")
         ("arch=64&authorized_key=" +:+ queryEscape "aa:bb" +:+ "&os=linux"))) a] /\
      (forall info, result_of w p = Ok info <-> accepted json_Unmarshal_rescue a info)).
Proof.
  split; [vm_compute; reflexivity|].
  exact (ActivateRescue_exact (New "user" "pw") 4711 "aa:bb" _ _ (exec_of _ _)).
Defined.
