(* ===== verification/Rescue.v ===== *)
(** * The rescue SSH client

    pkg/sshrescue: connecting to a server's rescue system, running commands,
    reading the hardware, choosing the install disk, wiping, installing Talos
    or Flatcar, and the checks of what a server runs.  Closing a connection has
    no result and is left out. *)

From Stdlib Require Import Ascii.
From S2P Require Import Prelude GoStrings GoTime Base64 Api Effects Lib Samples.

Local Open Scope Z_scope.

Definition rescueSSHPort : Z := 22.
Definition connectTimeout : Z := 60 * Second.

(** [client] is the address of the connection, once there is one. *)
Record SSHClient := MkSSHClient {
  ip : string;
  privateKey : string;
  client : option string
}.

#[export] Instance set_client : Setter client := fun v r => MkSSHClient (ip r) (privateKey r) v.

Definition NewSSH (ip privateKey : string) : SSHClient := MkSSHClient ip privateKey None.

(** [net.JoinHostPort] *)
Definition JoinHostPort (host port : string) : string :=
  if contains host ":" then "[" +:+ host +:+ "]:" +:+ port else host +:+ ":" +:+ port.

Definition sshAddr (ip : string) : string := JoinHostPort ip (itoa rescueSSHPort).

Definition Connect `{Lib} (c : SSHClient) : prog (SSHClient * option error) :=
  unwrap signer := ParsePrivateKey (privateKey c) orelse err =>
    Ret (c, Some (wrapf "parse SSH private key: " err ""));
  let addr := sshAddr (ip c) in
  e ← trigger (ETcpDial addr connectTimeout);
  ensure e orelse err => Ret (c, Some (wrapf ("TCP connect to " +:+ addr +:+ ": ") err ""));
  e ← trigger (ESshHandshake addr "root" signer connectTimeout);
  ensure e orelse err => Ret (c, Some (wrapf ("SSH handshake to " +:+ addr +:+ ": ") err ""));
  Ret (c <| client := Some addr |>, None).

(** Single quotes around, each embedded one as quote, escaped quote, quote. *)
Definition shellQuote (s : string) : string := "'" +:+ replaceAll s "'" "'\''" +:+ "'".

Definition wrapped (command : string) : string := "bash -c " +:+ shellQuote command.

Definition Run (c : SSHClient) (command : string) : prog (string * option error) :=
  match client c with
  | None => Ret ("", Some (errorf "not connected"))
  | Some addr =>
      e ← trigger (ESshNewSession addr "root");
      ensure e orelse err => Ret ("", Some (wrapf "new session: " err ""));
      r ← trigger (ESshExec addr "root" (wrapped command));
      let '(buf, e) := r in
      ensure e orelse err =>
        Ret (buf, Some (wrapf "command failed: " err (nl +:+ "output: " +:+ buf)));
      Ret (buf, None)
  end.

(** ** Hardware *)

Record HardwareInfo := MkHardwareInfo {
  hw_PrimaryMAC : string;
  hw_GatewayIP : string;
  hw_NVMeDisks : list string;
  hw_CephDisks : gmap string bool;
  hw_ByIDPaths : gmap string string
}.

#[export] Instance set_hw_PrimaryMAC : Setter hw_PrimaryMAC :=
  fun v r => MkHardwareInfo v (hw_GatewayIP r) (hw_NVMeDisks r) (hw_CephDisks r) (hw_ByIDPaths r).
#[export] Instance set_hw_GatewayIP : Setter hw_GatewayIP :=
  fun v r => MkHardwareInfo (hw_PrimaryMAC r) v (hw_NVMeDisks r) (hw_CephDisks r) (hw_ByIDPaths r).
#[export] Instance set_hw_NVMeDisks : Setter hw_NVMeDisks :=
  fun v r => MkHardwareInfo (hw_PrimaryMAC r) (hw_GatewayIP r) v (hw_CephDisks r) (hw_ByIDPaths r).
#[export] Instance set_hw_CephDisks : Setter hw_CephDisks :=
  fun v r => MkHardwareInfo (hw_PrimaryMAC r) (hw_GatewayIP r) (hw_NVMeDisks r) v (hw_ByIDPaths r).
#[export] Instance set_hw_ByIDPaths : Setter hw_ByIDPaths :=
  fun v r => MkHardwareInfo (hw_PrimaryMAC r) (hw_GatewayIP r) (hw_NVMeDisks r) (hw_CephDisks r) v.

(** The body of the loop over the trimmed lines. *)
Definition parseLine (hw : HardwareInfo) (line : string) : HardwareInfo :=
  if hasPrefix line "MAC=" then hw <| hw_PrimaryMAC := trimPrefix line "MAC=" |>
  else if hasPrefix line "GATEWAY=" then hw <| hw_GatewayIP := trimPrefix line "GATEWAY=" |>
  else if hasPrefix line "DISK=" then
    hw <| hw_NVMeDisks := hw_NVMeDisks hw ++ [trimPrefix line "DISK="] |>
  else if hasPrefix line "CEPH=" then
    hw <| hw_CephDisks := <[trimPrefix line "CEPH=" := true]> (hw_CephDisks hw) |>
  else if hasPrefix line "BYID=" then
    match splitN2 (trimPrefix line "BYID=") "=" with
    | [dev; path] => hw <| hw_ByIDPaths := <[dev := path]> (hw_ByIDPaths hw) |>
    | _ => hw
    end
  else hw.

Definition parseStep (hw : HardwareInfo) (line : string) : HardwareInfo :=
  let line := trimSpace line in
  if String.eqb line "" then hw else parseLine hw line.

Definition parseLines (output : string) : HardwareInfo :=
  fold_left parseStep (split output nl) (MkHardwareInfo "" "" [] ∅ ∅).

Definition ParseHardwareOutput (output : string) : res HardwareInfo :=
  let hw := parseLines output in
  if String.eqb (hw_PrimaryMAC hw) "" then
    Err (errorf "parse hardware output: MAC address not found")
  else if String.eqb (hw_GatewayIP hw) "" then
    Err (errorf "parse hardware output: gateway IP not found")
  else Ok hw.

Definition detectScript : string := rawString "echo `MAC=$(ip link show $(ip route show default | awk '{print $5}') | grep ether | awk '{print $2}')`
echo `GATEWAY=$(ip route | grep default | awk '{print $3}' | head -1)`
for d in $(lsblk -dn -o NAME,TYPE | awk '$2==`disk` && $1~/^nvme/ {print `/dev/`$1}'); do
  echo `DISK=$d`
  if blkid `$d`* 2>/dev/null | grep -q ceph_bluestore; then
    echo `CEPH=$d`
  fi
done
for link in /dev/disk/by-id/nvme-*; do
  [ -L `$link` ] || continue
  case `$link` in *-part*) continue;; esac
  target=$(readlink -f `$link`)
  echo `BYID=$target=$link`
done".

Definition DetectHardware (c : SSHClient) : prog (res HardwareInfo) :=
  r ← Run c detectScript;
  let '(out, e) := r in
  ensure e orelse err => Ret (Err (wrapf "detect hardware: " err (nl +:+ "Output: " +:+ out)));
  Ret (ParseHardwareOutput out).

(** Indexing a [map[string]bool]. *)
Definition indexBool (m : gmap string bool) (key : string) : bool := default false (m !! key).

Definition safeDisks (hw : HardwareInfo) : list string :=
  List.filter (fun d => negb (indexBool (hw_CephDisks hw) d)) (hw_NVMeDisks hw).

Definition ResolveInstallDiskFromInfo (hw : HardwareInfo) (configuredDisk : string) : res string :=
  match safeDisks hw with
  | [] =>
      match hw_NVMeDisks hw with
      | [] => Ok configuredDisk
      | _ =>
          if negb (String.eqb configuredDisk "") then Ok configuredDisk
          else Err (errorf "all NVMe disks have Ceph BlueStore data — cannot determine install disk safely")
      end
  | first :: _ =>
      if existsb (fun d => String.eqb d configuredDisk) (safeDisks hw) then Ok configuredDisk
      else Ok first
  end.

(** ** Wiping *)

Definition wipeScript (disks : list string) : string :=
  rawString "for d in "
  +:+ join (map shellQuote disks) " "
  +:+ rawString "; do (wipefs -af `$d` 2>/dev/null; sgdisk --zap-all `$d` 2>/dev/null; dd if=/dev/zero of=`$d` bs=1M count=100 conv=notrunc 2>/dev/null; DISK_SIZE=$(blockdev --getsize64 `$d` 2>/dev/null); if [ -n `$DISK_SIZE` ] && [ `$DISK_SIZE` -gt 104857600 ]; then dd if=/dev/zero of=`$d` bs=1M count=100 seek=$(( (DISK_SIZE / 1048576) - 100 )) conv=notrunc 2>/dev/null; fi; blkdiscard `$d` 2>/dev/null; sync; echo `WIPED=$d`) & done; wait; echo `ALL_DONE`".

(** The disks a line of the script's output confirms. *)
Definition wipedDisks (out : string) : gset string :=
  fold_left (fun wiped line =>
      let line := trimSpace line in
      if hasPrefix line "WIPED=" then {[ trimPrefix line "WIPED=" ]} ∪ wiped else wiped)
    (split out nl) ∅.

Definition WipeAllDisks (c : SSHClient) (disks : list string) : prog (string * option error) :=
  match disks with
  | [] => Ret ("", Some (errorf "wipe all disks: no disks specified"))
  | _ =>
      r ← Run c (wipeScript disks);
      let '(out, e) := r in
      ensure e orelse err =>
        Ret (out, Some (wrapf "wipe all disks: " err (nl +:+ "Output: " +:+ out)));
      let missing := List.filter (fun d => negb (bool_decide (d ∈ wipedDisks out))) disks in
      match missing with
      | [] => Ret (out, None)
      | _ =>
          Ret (out, Some (errorf ("wipe all disks: " +:+ itoa (Z.of_nat (length missing))
            +:+ " disk(s) not confirmed wiped: " +:+ join missing ", ")))
      end
  end.

(** ** Installing *)

Definition talosImage (factoryURL schematic version customImageURL : string) : string * string :=
  if negb (String.eqb customImageURL "") then
    (customImageURL, if hasSuffix customImageURL ".zst" then "zstdcat" else "xzcat")
  else
    (trimRight (Ascii.eqb "/"%char) factoryURL +:+ "/image/" +:+ schematic +:+ "/" +:+ version
       +:+ "/metal-amd64.raw.xz", "xzcat").

Definition InstallTalos (c : SSHClient) (factoryURL schematic version disk customImageURL : string)
    : prog (option error) :=
  let '(imageURL, decompressCmd) := talosImage factoryURL schematic version customImageURL in
  let installCmd := "curl -fsSL " +:+ quote imageURL +:+ " | " +:+ decompressCmd +:+ " | dd of="
    +:+ quote disk +:+ " bs=4M conv=notrunc status=progress 2>&1" in
  r ← Run c installCmd;
  let '(out, e) := r in
  ensure e orelse err =>
    Ret (Some (wrapf ("write raw image to " +:+ disk +:+ ": ") err (nl +:+ "Output: " +:+ out)));
  Ret None.

Definition flatcarSetupScript : string := rawString "
		curl -fsSL -o /tmp/flatcar-install https://raw.githubusercontent.com/flatcar/init/flatcar-master/bin/flatcar-install && \
		chmod +x /tmp/flatcar-install && \
		apt-get install -y -qq gawk 2>&1 | tail -1 && \
		echo `SETUP_OK`
	".

Definition partitionScript (disk : string) : string :=
  rawString "
		sgdisk -e " +:+ quote disk +:+ rawString " 2>&1 && \
		DISK_END=$(sgdisk -p " +:+ quote disk +:+
  rawString " | grep `last usable sector` | awk '{print $NF}') && \
		SIZE_SECTORS=$((200 * 1024 * 1024 * 1024 / 512)) && \
		START=$((DISK_END - SIZE_SECTORS + 1)) && \
		sgdisk -n 10:${START}:${DISK_END} -t 10:8300 -c 10:r-dm-data " +:+ quote disk +:+
  rawString " 2>&1 && \
		partprobe " +:+ quote disk +:+ rawString " 2>&1 && sleep 1 && \
		echo `PARTITION_CREATED`
	".

(** One command of [InstallFlatcar]: its failure is wrapped and returned. *)
Definition runStep (c : SSHClient) (what command : string) (next : prog (option error))
    : prog (option error) :=
  r ← Run c command;
  let '(out, e) := r in
  ensure e orelse err =>
    Ret (Some (wrapf (what +:+ ": ") err (nl +:+ "Output: " +:+ out)));
  next.

Definition InstallFlatcar (c : SSHClient) (channel disk customImageURL ignitionJSON : string)
    : prog (option error) :=
  let channel := if String.eqb channel "" then "stable" else channel in
  runStep c "setup flatcar-install" flatcarSetupScript (
  let b64 := base64Encode ignitionJSON in
  runStep c "write Ignition temp file"
    ("echo '" +:+ b64 +:+ "' | base64 -d > /tmp/ignition.json && echo IGN_OK") (
  let install (installCmd : string) :=
    runStep c ("flatcar-install on " +:+ disk) installCmd (
    runStep c ("create r-dm-data partition on " +:+ disk) (partitionScript disk) (
    Ret None)) in
  if negb (String.eqb customImageURL "") then
    runStep c "download custom image"
      ("curl -fsSL -o /tmp/flatcar-custom.bin.bz2 " +:+ quote customImageURL +:+ " && echo DL_OK")
      (install ("/tmp/flatcar-install -d " +:+ disk
         +:+ " -f /tmp/flatcar-custom.bin.bz2 -i /tmp/ignition.json 2>&1"))
  else
    install ("/tmp/flatcar-install -d " +:+ disk +:+ " -C " +:+ channel
      +:+ " -i /tmp/ignition.json 2>&1"))).

(** ** What a server runs *)

Definition flatcarTimeout : Z := 15 * Second.

Definition IsFlatcarUp `{Lib} (ip privateKey : string) : prog bool :=
  unwrap signer := ParsePrivateKey privateKey orelse err => Ret false;
  let addr := sshAddr ip in
  e ← trigger (ETcpDial addr flatcarTimeout);
  ensure e orelse err => Ret false;
  e ← trigger (ESshHandshake addr "core" signer flatcarTimeout);
  ensure e orelse err => Ret false;
  Ret true.

Definition sentinelCommand : string :=
  "test -f /run/cluster-api/bootstrap-success.complete && echo READY || echo WAITING".

Definition CheckFlatcarBootstrapComplete `{Lib} (ip privateKey : string) : prog (res bool) :=
  unwrap signer := ParsePrivateKey privateKey orelse err =>
    Ret (Err (wrapf "parse SSH key: " err ""));
  let addr := sshAddr ip in
  e ← trigger (ETcpDial addr connectTimeout);
  ensure e orelse err => Ret (Err (wrapf ("TCP connect to " +:+ addr +:+ ": ") err ""));
  e ← trigger (ESshHandshake addr "core" signer connectTimeout);
  ensure e orelse err => Ret (Err (wrapf ("SSH handshake to " +:+ addr +:+ ": ") err ""));
  e ← trigger (ESshNewSession addr "core");
  ensure e orelse err => Ret (Err (wrapf "new session: " err ""));
  r ← trigger (ESshExec addr "core" sentinelCommand);
  let '(buf, e) := r in
  ensure e orelse err =>
    Ret (Err (wrapf "check bootstrap sentinel: " err (nl +:+ "Output: " +:+ buf)));
  Ret (Ok (String.eqb (trimSpace buf) "READY")).

Definition isReachableAddr (addr : string) (timeout : Z) : prog bool :=
  e ← trigger (ETcpDial addr timeout);
  ensure e orelse err => Ret false;
  Ret true.

Definition IsReachable (ip : string) : prog bool := isReachableAddr (sshAddr ip) (15 * Second).

Definition rescueCheckScript : string :=
  rawString "if mount | grep 'on / ' | grep -q tmpfs; then echo RESCUE; elif grep -qi 'Hetzner Rescue' /etc/motd 2>/dev/null; then echo RESCUE; elif [ `$(hostname)` = `rescue` ]; then echo RESCUE; else echo NORMAL; fi".

Definition IsRescueMode `{Lib} (ip privateKey : string) : prog (res bool) :=
  r ← Connect (NewSSH ip privateKey);
  let '(client, e) := r in
  ensure e orelse err =>
    Ret (Err (wrapf ("SSH connect for rescue check on " +:+ ip +:+ ": ") err ""));
  r ← Run client rescueCheckScript;
  let '(out, e) := r in
  ensure e orelse err =>
    Ret (Err (wrapf ("rescue mode detection on " +:+ ip +:+ ": ") err (" (output: " +:+ out +:+ ")")));
  Ret (Ok (String.eqb (trimSpace out) "RESCUE")).

(** * Facts *)

(** ** Quoting *)

(** How a POSIX shell reads one word made of single-quoted runs and
    backslash-escaped characters; [None] when the word has any other
    unquoted character, which the shell could interpret. *)
Fixpoint shellWord (quoted : bool) (s : string) : option string :=
  match s with
  | EmptyString => if quoted then None else Some EmptyString
  | String c s' =>
      if Ascii.eqb c "'" then shellWord (negb quoted) s'
      else if quoted then String c <$> shellWord true s'
      else if Ascii.eqb c "\" then
        match s' with
        | String d s'' => String d <$> shellWord false s''
        | EmptyString => None
        end
      else None
  end.

Lemma shellWord_replaced (s : string) :
  shellWord true (replaceAll s "'" "'\''" +:+ "'") = Some s.
Proof.
  induction s as [|c s IH]; [done|]. rewrite replaceAll_char.
  destruct (ascii_dec "'" c) as [<-|Hc].
  - cbn -[replaceAll]. by rewrite IH.
  - cbn -[replaceAll]. rewrite IH. destruct (Ascii.eqb_spec c "'"); [congruence|done].
Qed.

(** ** Connections and commands *)

Section Rules.
Context `{Lib} (G : guard).

(** The calls of the client as guard obligations. *)
Lemma wp_Connect (c : SSHClient) (Q : SSHClient * option error -> hist -> Prop) h :
  (forall h', extends h' h -> G h' _ (ETcpDial (sshAddr (ip c)) connectTimeout)) ->
  (forall h' key, extends h' h -> G h' _ (ESshHandshake (sshAddr (ip c)) "root" key connectTimeout)) ->
  (forall err h', extends h' h -> Q (c, Some err) h') ->
  (forall h', extends h' h -> Q (c <| client := Some (sshAddr (ip c)) |>, None) h') ->
  wp G (Connect c) Q h.
Proof.
  intros Hd Hs He Hok. unfold Connect.
  case_match; [|by apply wp_ret, He].
  apply wp_bind, wp_trigger; [by apply Hd|]. intros [err|]; [apply wp_ret, He; extends_tac|].
  apply wp_bind, wp_trigger; [apply Hs; extends_tac|].
  intros [err|]; [apply wp_ret, He; extends_tac|apply wp_ret, Hok; extends_tac].
Qed.

Lemma wp_Run (c : SSHClient) (command : string) (Q : string * option error -> hist -> Prop) h :
  (forall addr h', client c = Some addr -> extends h' h -> G h' _ (ESshNewSession addr "root")) ->
  (forall addr h', client c = Some addr -> extends h' h ->
     G h' _ (ESshExec addr "root" (wrapped command))) ->
  (forall out err h', extends h' h -> Q (out, Some err) h') ->
  (forall addr out h', client c = Some addr -> extends h' h ->
     Q (out, None) (Ev (ESshExec addr "root" (wrapped command)) (out, None) :: h')) ->
  wp G (Run c command) Q h.
Proof.
  intros Hs Hx He Hok. unfold Run. destruct (client c) as [addr|]; [|by apply wp_ret, He].
  apply wp_bind, wp_trigger; [by apply Hs|]. intros [err|]; [apply wp_ret, He; extends_tac|].
  apply wp_bind, wp_trigger; [apply Hx; [done|extends_tac]|].
  intros [out [err|]]; apply wp_ret; [apply He; extends_tac|apply Hok; [done|extends_tac]].
Qed.
End Rules.

(** ** The rescue check *)

(** The history holds a rescue check that ran on the server's address and
    printed that it is the rescue system. *)
Definition verifiedRescue (ip : string) (h : hist) : Prop :=
  exists out, Ev (ESshExec (sshAddr ip) "root" (wrapped rescueCheckScript)) (out, None) ∈ h /\
    trimSpace out = "RESCUE".

Lemma verifiedRescue_extends ip h' h : extends h' h -> verifiedRescue ip h -> verifiedRescue ip h'.
Proof. intros He (out & Hin & Ho). exists out. split; [by eapply extends_elem|done]. Qed.

(** The calls of a rescue check. *)
Definition rescueCheckCall (ip : string) (X : Set) (e : Eff X) : Prop :=
  match e with
  | ETcpDial addr _ => addr = sshAddr ip
  | ESshHandshake addr user _ _ => addr = sshAddr ip /\ user = "root"
  | ESshNewSession addr user => addr = sshAddr ip /\ user = "root"
  | ESshExec addr user cmd => addr = sshAddr ip /\ user = "root" /\ cmd = wrapped rescueCheckScript
  | _ => False
  end.

Lemma wp_IsRescueMode `{Lib} (G : guard) server key (Q : res bool -> hist -> Prop) h :
  (forall h' X e, extends h' h -> rescueCheckCall server X e -> G h' X e) ->
  (forall r h', extends h' h -> (r = Ok true -> verifiedRescue server h') -> Q r h') ->
  wp G (IsRescueMode server key) Q h.
Proof.
  intros HG HQ. unfold IsRescueMode. apply wp_bind, wp_Connect.
  - intros h' Hh. by apply HG.
  - intros h' k Hh. by apply HG.
  - intros err h' Hh. by apply wp_ret, HQ.
  - intros h' Hh. apply wp_bind, wp_Run; cbn.
    + intros addr h'' [= <-] Hh''. apply HG; [by transitivity h'|done].
    + intros addr h'' [= <-] Hh''. apply HG; [by transitivity h'|done].
    + intros out err h'' Hh''. apply HQ; [by transitivity h'|done].
    + intros addr out h'' [= <-] Hh''. apply HQ; [apply extends_cons_trans; by etrans|].
      intros [= Ho]. bool_prop. exists out. split; [set_solver|].
      by destruct (String.eqb_spec (trimSpace out) "RESCUE").
Qed.

(** ** Choosing the disk *)

(** A disk of the server without a Ceph signature. *)
Definition cephFree (hw : HardwareInfo) (d : string) : Prop :=
  d ∈ hw_NVMeDisks hw /\ indexBool (hw_CephDisks hw) d = false.

Lemma safeDisks_spec hw d : d ∈ safeDisks hw <-> cephFree hw d.
Proof.
  unfold safeDisks, cephFree. rewrite list_elem_of_In, List.filter_In, <- list_elem_of_In.
  by rewrite negb_true_iff.
Qed.

(** ** Reading lines *)

Lemma split_lines (l : list string) :
  Forall (fun p => contains p nl = false) l -> split (join (l ++ [""]) nl) nl = l ++ [""].
Proof.
  intros Hl. apply split_join; [by destruct l|]. apply Forall_app. split; [done|]. by repeat constructor.
Qed.

(** The labelled lines the hardware script prints. *)
Definition hardwareLines (mac gateway : string) (disks : list (string * bool))
    (byID : list (string * string)) : list string :=
  ["MAC=" +:+ mac; "GATEWAY=" +:+ gateway]
  ++ concat (map (fun '(d, ceph) => ("DISK=" +:+ d) ::
       (if (ceph : bool) then ["CEPH=" +:+ d] else [])) disks)
  ++ map (fun '(d, link) => "BYID=" +:+ d +:+ "=" +:+ link) byID.

Definition hardwareOutput mac gateway disks byID : string :=
  join (hardwareLines mac gateway disks byID ++ [""]) nl.

Definition cephMap (disks : list (string * bool)) (m : gmap string bool) : gmap string bool :=
  fold_left (fun m '(d, ceph) => if (ceph : bool) then <[d := true]> m else m) disks m.

Definition byIDMap (byID : list (string * string)) (m : gmap string string) : gmap string string :=
  fold_left (fun m '(d, link) => <[d := link]> m) byID m.

Lemma parseStep_graphic hw line :
  allGraphic line = true -> line <> "" -> parseStep hw line = parseLine hw line.
Proof.
  intros Hg Hn. unfold parseStep. rewrite trimSpace_graphic by done.
  by destruct (String.eqb_spec line "").
Qed.

Ltac parse_line := unfold parseLine, hasPrefix; rewrite prefix_app, trimPrefix_app; reflexivity.

Lemma parseLine_mac hw v : parseLine hw ("MAC=" +:+ v) = hw <| hw_PrimaryMAC := v |>.
Proof. parse_line. Qed.

Lemma parseLine_gateway hw v : parseLine hw ("GATEWAY=" +:+ v) = hw <| hw_GatewayIP := v |>.
Proof. parse_line. Qed.

Lemma parseLine_disk hw v :
  parseLine hw ("DISK=" +:+ v) = hw <| hw_NVMeDisks := hw_NVMeDisks hw ++ [v] |>.
Proof. parse_line. Qed.

Lemma parseLine_ceph hw v :
  parseLine hw ("CEPH=" +:+ v) = hw <| hw_CephDisks := <[v := true]> (hw_CephDisks hw) |>.
Proof. parse_line. Qed.

Lemma parseLine_byID hw d link :
  contains d "=" = false ->
  parseLine hw ("BYID=" +:+ d +:+ "=" +:+ link) =
    hw <| hw_ByIDPaths := <[d := link]> (hw_ByIDPaths hw) |>.
Proof.
  intros Hd. unfold parseLine, hasPrefix. rewrite prefix_app, trimPrefix_app. unfold splitN2.
  change ("=" +:+ link) with (String "=" link). by rewrite cut_char.
Qed.

(** A labelled line of graphic text goes to the parser unchanged. *)
Lemma parseStep_label hw c label v :
  allGraphic (String c label) = true -> allGraphic v = true ->
  parseStep hw (String c label +:+ v) = parseLine hw (String c label +:+ v).
Proof. intros Hl Hv. apply parseStep_graphic; [by rewrite allGraphic_app, Hl, Hv|done]. Qed.

Lemma parse_disks disks hw :
  Forall (fun '(d, _) => allGraphic d = true) disks ->
  fold_left parseStep (concat (map (fun '(d, ceph) => ("DISK=" +:+ d) ::
       (if (ceph : bool) then ["CEPH=" +:+ d] else [])) disks)) hw =
  hw <| hw_NVMeDisks := hw_NVMeDisks hw ++ map fst disks |>
     <| hw_CephDisks := cephMap disks (hw_CephDisks hw) |>.
Proof.
  revert hw. induction disks as [|[d ceph] disks IH]; intros hw Hd.
  { destruct hw; cbn. by rewrite app_nil_r. }
  apply Forall_cons_1 in Hd as [Hd Hds]. cbn [map concat]. rewrite fold_left_app, IH by done.
  destruct ceph; cbn [fold_left]; rewrite !parseStep_label, parseLine_disk, ?parseLine_ceph by done;
    destruct hw; cbn; unfold set_field; cbn; by rewrite <- app_assoc.
Qed.

Lemma parse_byID byID hw :
  Forall (fun '(d, link) => allGraphic d = true /\ contains d "=" = false /\ allGraphic link = true) byID ->
  fold_left parseStep (map (fun '(d, link) => "BYID=" +:+ d +:+ "=" +:+ link) byID) hw =
  hw <| hw_ByIDPaths := byIDMap byID (hw_ByIDPaths hw) |>.
Proof.
  revert hw. induction byID as [|[d link] byID IH]; intros hw Hd; [by destruct hw|].
  apply Forall_cons_1 in Hd as [(Hd & He & Hl) Hds]. cbn [map fold_left]. rewrite IH by done.
  rewrite parseStep_label, parseLine_byID; [done..|]. by rewrite !allGraphic_app, Hd, Hl.
Qed.

(** ** Commands of a history *)

(** The command an event runs, with its answer. *)
Definition ranCommand (ev : event) : option (string * string * string * (string * option error)) :=
  match ev with
  | Ev e x =>
      match e in Eff X return X -> option (string * string * string * (string * option error)) with
      | ESshExec addr user cmd => fun x => Some (addr, user, cmd, x)
      | _ => fun _ => None
      end x
  end.

(** The commands of a history, in the order they ran. *)
Definition commands (h : hist) : list (string * string * string * (string * option error)) :=
  rev (omap ranCommand h).

Lemma commands_cons ev h : commands (ev :: h) = commands h ++ match ranCommand ev with Some c => [c] | None => [] end.
Proof. unfold commands. cbn [omap list_omap]. destruct (ranCommand ev); cbn; by rewrite ?app_nil_r. Qed.

(** A command that ran on the client's connection and succeeded. *)
Definition succeeded (c : SSHClient) (cmd : string) (r : string * string * string * (string * option error))
    : Prop :=
  exists addr out, client c = Some addr /\ r = (addr, "root", wrapped cmd, (out, None)).

Lemma wp_Run_any (c : SSHClient) (command : string) (Q : string * option error -> hist -> Prop) h :
  (forall out err h',
     (commands h' = commands h \/
      exists addr e, commands h' = commands h ++ [(addr, "root", wrapped command, (out, Some e))]) ->
     Q (out, Some err) h') ->
  (forall h' out addr, client c = Some addr ->
     commands h' = commands h ++ [(addr, "root", wrapped command, (out, None))] -> Q (out, None) h') ->
  wp any (Run c command) Q h.
Proof.
  intros He Hok. unfold Run. destruct (client c) as [addr|]; [|apply wp_ret, He; by left].
  apply wp_bind, wp_trigger; [done|].
  intros [err|]; [apply wp_ret, He; left; rewrite commands_cons; apply app_nil_r|].
  apply wp_bind, wp_trigger; [done|].
  intros [out [err|]]; apply wp_ret; [apply He; right; exists addr, err|apply (Hok _ _ addr); [done|]];
    by rewrite !commands_cons, app_nil_r.
Qed.

Lemma wp_runStep (c : SSHClient) what command next (Q : option error -> hist -> Prop) h :
  (forall err h', Q (Some err) h') ->
  (forall h' r, succeeded c command r -> commands h' = commands h ++ [r] -> wp any next Q h') ->
  wp any (runStep c what command next) Q h.
Proof.
  intros He Hok. unfold runStep. apply wp_bind, wp_Run_any.
  - intros out err h' _. apply He.
  - intros h' out addr Hc Hh. eapply Hok; [|done]. by exists addr, out.
Qed.

Lemma wipedDisks_spec out d :
  d ∈ wipedDisks out <-> exists line, line ∈ split out nl /\ trimSpace line = "WIPED=" +:+ d.
Proof.
  unfold wipedDisks.
  cut (forall l (s : gset string), d ∈ fold_left (fun wiped line =>
      let line := trimSpace line in
      if hasPrefix line "WIPED=" then {[ trimPrefix line "WIPED=" ]} ∪ wiped else wiped) l s <->
    d ∈ s \/ exists line, line ∈ l /\ trimSpace line = "WIPED=" +:+ d).
  { intros ->. set_solver. }
  induction l as [|line l IH]; intros s; cbn [fold_left]; [set_solver|].
  rewrite IH. cbv zeta. setoid_rewrite elem_of_cons.
  destruct (hasPrefix (trimSpace line) "WIPED=") eqn:Hp.
  - unfold hasPrefix in Hp. apply prefix_spec in Hp as [t Ht]. rewrite Ht, trimPrefix_app.
    rewrite elem_of_union, elem_of_singleton. split.
    + intros [[->|?]|(x & ? & ?)]; eauto 10.
    + intros [?|(x & [->|?] & Hx)]; eauto. rewrite Ht in Hx. apply app_cancel_l in Hx. auto.
  - split; [naive_solver|]. intros [?|(x & [->|?] & Hx)]; eauto.
    rewrite Hx in Hp. unfold hasPrefix in Hp. by rewrite prefix_app in Hp.
Qed.

(** * Properties *)

(** C38: quoting is sound: whatever the text, the shell reads the quoted word
    back as that text, with nothing outside quotes but escaped quotes, so no
    character of it is interpreted. *)
Theorem shellQuote_sound (s : string) : shellWord false (shellQuote s) = Some s.
Proof. exact (shellWord_replaced s). Qed.

(** C26: the disk chosen for installation, when [configured] is the disk the
    caller names.  Without NVMe disks it is that one.  When some disk has no Ceph
    signature, the choice is such a disk: the named one if it qualifies, else the
    first.  When every disk has one, the named disk is used all the same, and
    only when none is named there is an error.  The comment of the function
    promises an error whenever no disk is safe.  And the controller always names
    a disk, the one of the machine's spec or else a default
    ([States.configuredDisk]), so in the program the error never occurs and a
    disk with Ceph data can be chosen ([Progress.resolve_ok]). *)
Theorem ResolveInstallDisk_safe (hw : HardwareInfo) (configured : string) :
  (hw_NVMeDisks hw = [] -> ResolveInstallDiskFromInfo hw configured = Ok configured) /\
  ((exists d, cephFree hw d) ->
     exists d, ResolveInstallDiskFromInfo hw configured = Ok d /\ cephFree hw d /\
       (cephFree hw configured -> d = configured) /\
       (~ cephFree hw configured -> head (safeDisks hw) = Some d)) /\
  (hw_NVMeDisks hw <> [] -> (forall d, ~ cephFree hw d) ->
     (configured <> "" -> ResolveInstallDiskFromInfo hw configured = Ok configured) /\
     (configured = "" -> is_ok (ResolveInstallDiskFromInfo hw configured) = false)).
Proof.
  unfold ResolveInstallDiskFromInfo. setoid_rewrite <- safeDisks_spec.
  assert (forall l, existsb (fun d => String.eqb d configured) l = true <-> configured ∈ l) as Hex.
  { intros l. rewrite existsb_exists. setoid_rewrite String.eqb_eq. setoid_rewrite list_elem_of_In.
    naive_solver. }
  split_and!.
  - intros Hn. unfold safeDisks. by rewrite Hn.
  - intros [d Hd]. destruct (safeDisks hw) as [|first rest]; [by apply not_elem_of_nil in Hd|].
    destruct (existsb _ _) eqn:He.
    + apply Hex in He. exists configured. naive_solver.
    + exists first. split_and!; [done|set_solver| |done].
      intros Hin%Hex. congruence.
  - intros Hn Hall. destruct (safeDisks hw) as [|first rest]; [|destruct (Hall first); set_solver].
    destruct (hw_NVMeDisks hw); [done|]. split; [|by intros ->].
    intros Hc. by destruct (String.eqb_spec configured "").
Qed.

(** C36: the hardware parser reads back what the detection script prints: for
    printable fields, a nonempty MAC and gateway and device names without an
    equals sign, the parse of the output is exactly that hardware, the disks in
    order, the Ceph marks, and the last by-id path of each device. *)
Theorem ParseHardwareOutput_roundtrip mac gateway disks byID :
  allGraphic mac = true -> mac <> "" -> allGraphic gateway = true -> gateway <> "" ->
  Forall (fun '(d, _) => allGraphic d = true) disks ->
  Forall (fun '(d, link) => allGraphic d = true /\ contains d "=" = false /\ allGraphic link = true) byID ->
  ParseHardwareOutput (hardwareOutput mac gateway disks byID) =
    Ok (MkHardwareInfo mac gateway (map fst disks) (cephMap disks ∅) (byIDMap byID ∅)).
Proof.
  intros Hm Hm0 Hg Hg0 Hd Hb. unfold ParseHardwareOutput, parseLines, hardwareOutput.
  rewrite split_lines.
  - rewrite fold_left_app. unfold hardwareLines. rewrite !fold_left_app.
    rewrite parse_disks by done. rewrite parse_byID by done.
    cbn [fold_left]. rewrite !parseStep_label, parseLine_mac, parseLine_gateway by done. cbn.
    destruct (String.eqb_spec mac ""); [done|]. by destruct (String.eqb_spec gateway "").
  - unfold hardwareLines. repeat apply Forall_app_2.
    + repeat constructor; apply graphic_no_char; rewrite ?allGraphic_app, ?Hm, ?Hg; done.
    + apply Forall_concat, Forall_map. eapply Forall_impl; [|exact Hd]. intros [d ceph] Hx. cbn.
      destruct ceph; repeat constructor; apply graphic_no_char; rewrite ?allGraphic_app, ?Hx; done.
    + apply Forall_map. eapply Forall_impl; [|exact Hb]. intros [d link] (Hx & _ & Hy). cbn.
      apply graphic_no_char; [|done]. cbn. by rewrite ?allGraphic_app, ?Hx; cbn; rewrite Hy.
Qed.

(** C27: a wipe is reported done only when it is confirmed.  With a connection,
    [WipeAllDisks] runs one script that names every disk, shell-quoted; it
    returns no error exactly when there was a disk to wipe, that script ran
    without an error, and its output has a line [WIPED=<disk>] for each of the
    disks. *)
Theorem WipeAllDisks_confirmed (c : SSHClient) (disks : list string) h' r :
  exec (WipeAllDisks c disks) [] h' r ->
  r.2 = None <->
    disks <> [] /\
    exists addr, client c = Some addr /\
      commands h' = [(addr, "root", wrapped (wipeScript disks), (r.1, None))] /\
      forall d, d ∈ disks -> exists line, line ∈ split r.1 nl /\ trimSpace line = "WIPED=" +:+ d.
Proof.
  intros He. setoid_rewrite <- wipedDisks_spec. by_exec He. clear r h'. unfold WipeAllDisks.
  destruct disks as [|d0 disks]; [apply wp_ret; naive_solver|].
  apply wp_bind, wp_Run_any.
  - intros out err h' Hh. apply wp_ret. cbn [fst snd]. split; [done|].
    intros (_ & addr & _ & Hc & _). cbn in Hh.
    destruct Hh as [Hh|(? & ? & Hh)]; rewrite Hc in Hh; simplify_eq.
  - intros h' out addr Hc Hh. cbn in Hh.
    set (missing := List.filter _ _).
    assert (missing = [] <-> forall d, d ∈ d0 :: disks -> d ∈ wipedDisks out) as Hm.
    { split.
      - intros Hm d Hd. destruct (decide (d ∈ wipedDisks out)) as [|Hn]; [done|].
        assert (d ∈ missing) as Hin; [|rewrite Hm in Hin; by apply not_elem_of_nil in Hin].
        apply list_elem_of_In, List.filter_In. rewrite bool_decide_eq_false_2 by done.
        by rewrite <- list_elem_of_In.
      - intros Hall. destruct missing as [|d l] eqn:Hm; [done|].
        assert (d ∈ missing) as Hin by (rewrite Hm; set_solver).
        apply list_elem_of_In, List.filter_In in Hin as [Hin Hb].
        apply list_elem_of_In, Hall in Hin. by rewrite bool_decide_eq_true_2 in Hb. }
    clearbody missing. destruct missing as [|d l]; apply wp_ret; cbn [fst snd].
    + split; [|done]. intros _. split; [done|]. exists addr. split_and!; [done|done|by apply Hm].
    + split; [done|]. intros (_ & addr' & _ & _ & Hall). by apply Hm in Hall.
Qed.

(** C28: installing Flatcar runs its commands in order and stops at the first
    failure: when it reports success, exactly the setup, the write of the
    Ignition file, the download of a custom image if one is given, the
    installer on the chosen disk and the partitioning of that disk ran, all as
    root on the connection; and the base64 text in the write command is quoted
    safely and decodes to the Ignition config that was given. *)
Theorem InstallFlatcar_sequence (c : SSHClient) channel disk image ignition h' :
  exec (InstallFlatcar c channel disk image ignition) [] h' None ->
  exists b64,
    base64Decode b64 = Some ignition /\ contains b64 "'" = false /\
    Forall2 (succeeded c)
      ([flatcarSetupScript; "echo '" +:+ b64 +:+ "' | base64 -d > /tmp/ignition.json && echo IGN_OK"]
       ++ (if String.eqb image "" then
             ["/tmp/flatcar-install -d " +:+ disk +:+ " -C "
                +:+ (if String.eqb channel "" then "stable" else channel)
                +:+ " -i /tmp/ignition.json 2>&1"]
           else
             ["curl -fsSL -o /tmp/flatcar-custom.bin.bz2 " +:+ quote image +:+ " && echo DL_OK";
              "/tmp/flatcar-install -d " +:+ disk
                +:+ " -f /tmp/flatcar-custom.bin.bz2 -i /tmp/ignition.json 2>&1"])
       ++ [partitionScript disk])
      (commands h').
Proof.
  intros He. exists (base64Encode ignition).
  split; [apply base64Decode_encode|]. split; [apply base64Encode_safe|].
  revert He. generalize (@eq_refl _ (@None error)). generalize (@None error) at 1 3.
  intros r Hr He. revert Hr. by_exec He. clear r h'. unfold InstallFlatcar. cbv zeta.
  apply wp_runStep; [done|]. intros h1 r1 H1 C1.
  apply wp_runStep; [done|]. intros h2 r2 H2 C2.
  destruct (String.eqb_spec image ""); cbn [negb].
  2: apply wp_runStep; [done|]; intros h3 r3 H3 C3.
  all: apply wp_runStep; [done|]; intros h4 r4 H4 C4.
  all: apply wp_runStep; [done|]; intros h5 r5 H5 C5.
  all: apply wp_ret; intros _; rewrite C5, C4, ?C3, C2, C1; cbn; repeat constructor; done.
Qed.

(** ** Witnesses *)

Definition sampleClient : SSHClient := MkSSHClient "192.0.2.10" "key" (Some (sshAddr "192.0.2.10")).

Lemma ParseHardwareOutput_roundtrip_witness :
  ParseHardwareOutput (hardwareOutput "aa:bb" "192.0.2.1" [("/dev/nvme0n1", true); ("/dev/nvme1n1", false)]
    [("/dev/nvme0n1", "/dev/disk/by-id/nvme-1")]) =
  Ok (MkHardwareInfo "aa:bb" "192.0.2.1" ["/dev/nvme0n1"; "/dev/nvme1n1"]
    (cephMap [("/dev/nvme0n1", true); ("/dev/nvme1n1", false)] ∅)
    (byIDMap [("/dev/nvme0n1", "/dev/disk/by-id/nvme-1")] ∅)).
Proof.
  apply (ParseHardwareOutput_roundtrip "aa:bb" "192.0.2.1"
    [("/dev/nvme0n1", true); ("/dev/nvme1n1", false)] [("/dev/nvme0n1", "/dev/disk/by-id/nvme-1")]);
    try reflexivity; try discriminate; repeat constructor.
Defined.

Lemma WipeAllDisks_confirmed_witness :
  let p := WipeAllDisks sampleClient ["/dev/nvme0n1"] in
  let w := goodWorld sampleHRM sampleHost in
  snd (result_of w p) = None /\
  (snd (result_of w p) = None <->
    ["/dev/nvme0n1"] <> [] /\
    exists addr, client sampleClient = Some addr /\
      commands (hist_of w p) =
        [(addr, "root", wrapped (wipeScript ["/dev/nvme0n1"]), (fst (result_of w p), None))] /\
      forall d, d ∈ ["/dev/nvme0n1"] ->
        exists line, line ∈ split (fst (result_of w p)) nl /\ trimSpace line = "WIPED=" +:+ d).
Proof.
  split; [vm_compute; reflexivity|].
  exact (WipeAllDisks_confirmed sampleClient ["/dev/nvme0n1"] _ _ (exec_of _ _)).
Defined.

Lemma InstallFlatcar_sequence_witness :
  let p := InstallFlatcar sampleClient "stable" "/dev/nvme0n1" "" "{}" in
  let h := hist_of (goodWorld sampleHRM sampleHost) p in
  exists b64, base64Decode b64 = Some "{}" /\ contains b64 "'" = false /\
    Forall2 (succeeded sampleClient)
      [flatcarSetupScript; "echo '" +:+ b64 +:+ "' | base64 -d > /tmp/ignition.json && echo IGN_OK";
       "/tmp/flatcar-install -d " +:+ "/dev/nvme0n1" +:+ " -C " +:+ "stable" +:+ " -i /tmp/ignition.json 2>&1";
       partitionScript "/dev/nvme0n1"] (commands h).
Proof.
  assert (result_of (goodWorld sampleHRM sampleHost)
    (InstallFlatcar sampleClient "stable" "/dev/nvme0n1" "" "{}") = None) as Hr by (vm_compute; reflexivity).
  pose proof (exec_of (goodWorld sampleHRM sampleHost)
    (InstallFlatcar sampleClient "stable" "/dev/nvme0n1" "" "{}")) as He.
  rewrite Hr in He. exact (InstallFlatcar_sequence sampleClient "stable" "/dev/nvme0n1" "" "{}" _ He).
Defined.
