(* ===== verification/Talos.v ===== *)
(** * The Talos client

    pkg/talos/client.go: what a server's Talos API answers, and the calls that
    configure, reset and bootstrap it.  A deadline of a context is one of the
    errors a call may end in. *)

From S2P Require Import Prelude GoStrings GoTime Api Effects Lib Samples Rescue.

Local Open Scope Z_scope.

Definition TalosAPIPort : Z := 50000.

Definition talosAddr (ip : string) : string := JoinHostPort ip (itoa TalosAPIPort).

Definition tcpReachable (ip : string) (port : Z) : prog bool :=
  e ← trigger (ETcpDial (JoinHostPort ip (itoa port)) (5 * Second));
  ensure e orelse err => Ret false;
  Ret true.

Definition IsUp (ip : string) : prog bool := tcpReachable ip TalosAPIPort.

Definition IsK8sAPIUp (ip : string) : prog bool := tcpReachable ip 6443.

(** Both constructors of a connection dial the same address; the credentials
    they pass are not part of the model. *)
Definition newConn (ip : string) : prog (option error) := trigger (EGrpcDial (talosAddr ip)).

(** The error texts of a server that cannot be reached. *)
Definition transportErrors : list string :=
  ["deadline exceeded"; "context canceled"; "connection refused"; "connection reset";
   "i/o timeout"; "EOF"; "Unavailable"; "transport:"].

Definition IsInMaintenanceMode (ip : string) : prog bool :=
  e ← newConn ip;
  ensure e orelse err => Ret false;
  e ← trigger (EGrpcApplyConfiguration (talosAddr ip) "" None);
  match e with
  | Some err =>
      let errMsg := err_msg err in
      if contains errMsg "certificate required" then Ret false
      else if existsb (contains errMsg) transportErrors then Ret false
      else Ret true
  | None => Ret true
  end.

Definition WipeSystemDisk (ip : string) : prog (option error) :=
  e ← newConn ip;
  ensure e orelse err =>
    Ret (Some (wrapf ("connect to " +:+ ip +:+ " for system disk wipe: ") err ""));
  e ← trigger (EGrpcReset (talosAddr ip) false true ResetSystemDisk);
  ensure e orelse err =>
    Ret (Some (wrapf ("reset with system disk wipe on " +:+ ip +:+ ": ") err ""));
  Ret None.

Definition ApplyConfig (ip configData : string) : prog (option error) :=
  e ← newConn ip;
  ensure e orelse err => Ret (Some (wrapf ("connect to " +:+ ip +:+ " (maintenance): ") err ""));
  e ← trigger (EGrpcApplyConfiguration (talosAddr ip) configData (Some ApplyAuto));
  ensure e orelse err => Ret (Some (wrapf ("ApplyConfiguration on " +:+ ip +:+ ": ") err ""));
  Ret None.

Definition isAlreadyBootstrapped (err : option error) : bool :=
  match err with
  | None => false
  | Some err =>
      let s := err_msg err in
      contains s "already bootstrapped" || contains s "AlreadyExists" ||
      contains s "etcd is already running"
  end.

Definition Bootstrap (ip : string) : prog (option error) :=
  e ← newConn ip;
  ensure e orelse err => Ret (Some (wrapf ("connect to " +:+ ip +:+ " (authenticated): ") err ""));
  e ← trigger (EGrpcBootstrap (talosAddr ip));
  match e with
  | Some err =>
      if isAlreadyBootstrapped (Some err) then Ret None
      else Ret (Some (wrapf ("Bootstrap on " +:+ ip +:+ ": ") err ""))
  | None => Ret None
  end.

Definition IsTransientBootstrapError (err : option error) : bool :=
  match err with
  | None => false
  | Some err =>
      let s := err_msg err in
      contains s "connection refused" || contains s "connection reset" || contains s "EOF" ||
      contains s "deadline exceeded" || contains s "Unavailable" || contains s "transport:" ||
      contains s "tls:" || contains s "certificate required" || contains s "i/o timeout"
  end.

(** * Facts *)

(** An error that says whether the server is in maintenance mode: any error
    that is neither a demand for a client certificate nor a failed transport. *)
Definition applicationError (err : error) : Prop :=
  contains (err_msg err) "certificate required" = false /\
  forall t, t ∈ transportErrors -> contains (err_msg err) t = false.

Lemma transport_existsb (s : string) :
  existsb (contains s) transportErrors = false <->
  forall t, t ∈ transportErrors -> contains s t = false.
Proof.
  split.
  - intros He t Ht. apply list_elem_of_In in Ht. destruct (contains s t) eqn:Hc; [|done].
    rewrite <- He. symmetry. apply existsb_exists. by exists t.
  - intros Hall. destruct (existsb _ _) eqn:He; [|done].
    apply existsb_exists in He as (t & Ht%list_elem_of_In & Hc). by rewrite Hall in Hc.
Qed.

(** The calls that probe a server without changing it. *)
Definition probeCall (X : Set) (e : Eff X) : Prop :=
  match e with
  | ETcpDial _ _ => True
  | EGrpcDial _ => True
  | EGrpcApplyConfiguration _ data mode => data = "" /\ mode = None
  | _ => False
  end.

Lemma emits_IsUp ip : emits probeCall (IsUp ip).
Proof. unfold IsUp, tcpReachable. repeat emits_step; done. Qed.

Lemma emits_IsInMaintenanceMode ip : emits probeCall (IsInMaintenanceMode ip).
Proof. unfold IsInMaintenanceMode, newConn. repeat emits_step; done. Qed.

#[export] Hint Resolve emits_IsUp emits_IsInMaintenanceMode : guards.

(** * Properties *)

(** The maintenance-mode probe dials the Talos port of the server and
    sends one empty configuration without a mode; it answers yes exactly when
    the dial succeeds and the call is accepted or ends in an application error,
    that is one that neither demands a client certificate nor reports a failed
    transport. *)
Theorem IsInMaintenanceMode_exact ip h' b :
  exec (IsInMaintenanceMode ip) [] h' b ->
  (b = false /\ exists err, h' = [Ev (EGrpcDial (talosAddr ip)) (Some err)]) \/
  exists answer,
    h' = [Ev (EGrpcApplyConfiguration (talosAddr ip) "" None) answer;
          Ev (EGrpcDial (talosAddr ip)) None] /\
    (b = true <-> (answer = None \/ exists err, answer = Some err /\ applicationError err)).
Proof.
  intros He. by_exec He. clear b h'. unfold IsInMaintenanceMode, newConn.
  apply wp_bind, wp_trigger; [done|]. intros [err|]; [apply wp_ret; eauto|].
  apply wp_bind, wp_trigger; [done|]. intros answer. destruct answer as [err|].
  2: { apply wp_ret. right. exists None. split; [done|]. naive_solver. }
  destruct (contains (err_msg err) "certificate required") eqn:Hc.
  { apply wp_ret. right. exists (Some err). split; [done|]. split; [done|].
    intros [?|(err0 & Heq & Hc0 & _)]; [done|]; injection Heq as <-; congruence. }
  destruct (existsb (contains (err_msg err)) transportErrors) eqn:Ht; apply wp_ret; right;
    exists (Some err); (split; [done|]).
  - split; [done|]. intros [?|(err0 & Heq & _ & Hall)]; [done|]. injection Heq as <-.
    apply transport_existsb in Hall. congruence.
  - split; [|done]. intros _. right. exists err. split; [done|]. split; [done|]. by apply transport_existsb.
Qed.

Lemma IsInMaintenanceMode_exact_witness :
  let p := IsInMaintenanceMode "192.0.2.10" in
  let w := goodWorld sampleHRM sampleHost in
  result_of w p = true /\
  ((result_of w p = false /\ exists err, hist_of w p = [Ev (EGrpcDial (talosAddr "192.0.2.10")) (Some err)]) \/
   exists answer,
     hist_of w p = [Ev (EGrpcApplyConfiguration (talosAddr "192.0.2.10") "" None) answer;
                    Ev (EGrpcDial (talosAddr "192.0.2.10")) None] /\
     (result_of w p = true <-> (answer = None \/ exists err, answer = Some err /\ applicationError err))).
Proof.
  split; [vm_compute; reflexivity|]. exact (IsInMaintenanceMode_exact "192.0.2.10" _ _ (exec_of _ _)).
Defined.
