(* ===== verification/Bundle.v ===== *)
(** * TLS credentials for the Talos API

    pkg/talos/bundle.go: the machine CA is read from a machineconfig, and a
    client certificate signed by it authenticates the administrator to the
    node.  The primitives of crypto, encoding/pem and gopkg.in/yaml.v3 are
    parameters; randomness is a state that the generating calls draw from, and
    the two readings of the clock are arguments. *)

From Stdlib Require Import Ascii.
From S2P Require Import Prelude GoStrings GoTime Base64.

Local Open Scope Z_scope.

(** The fields of a machineconfig the code reads. *)
Record talosV1Alpha1Config := MkTalosConfig {
  mc_Crt : string;
  mc_Key : string
}.

(** The x509.Certificate passed to CreateCertificate: the fields that are set. *)
Inductive KeyUsage := KeyUsageDigitalSignature.
Inductive ExtKeyUsage := ExtKeyUsageClientAuth.

Record CertTemplate := MkCertTemplate {
  ct_SerialNumber : Z;
  ct_Organization : list string;
  ct_NotBefore : Z;
  ct_NotAfter : Z;
  ct_KeyUsage : KeyUsage;
  ct_ExtKeyUsage : list ExtKeyUsage
}.

(** What ParsePKCS8PrivateKey returns: a key of the wanted type, or one of
    another Go type. *)
Inductive AnyKey (K : Type) :=
| Ed25519Key (k : K)
| OtherKey (typeName : string).
Arguments Ed25519Key {K} k.
Arguments OtherKey {K} typeName.

Class Crypto := {
  Certificate : Type;
  Raw : Certificate -> string;
  PublicKey : Type;
  PrivateKey : Type;
  TLSCertificate : Type;
  (** rand.Reader *)
  Rand : Type;
  (** gopkg.in/yaml.v3: the first document, decoded into the struct *)
  yaml_DecodeConfig : string -> res talosV1Alpha1Config;
  (** the bytes of the first block, if there is one *)
  pem_Decode : string -> option string;
  pem_EncodeToMemory : forall (type bytes : string), string;
  (** the CorruptInputError of encoding/base64 for an input *)
  base64_Corrupt : string -> error;
  x509_ParseCertificate : string -> res Certificate;
  x509_ParsePKCS8PrivateKey : string -> res (AnyKey PrivateKey);
  x509_MarshalPKCS8PrivateKey : PrivateKey -> res string;
  (** the certificates a pool takes from a PEM text *)
  x509_CertsFromPEM : string -> list Certificate;
  ed25519_GenerateKey : Rand -> res (PublicKey * PrivateKey) * Rand;
  rand_Int : Rand -> Z -> res Z * Rand;
  x509_CreateCertificate : Rand -> CertTemplate -> Certificate -> PublicKey -> PrivateKey -> res string * Rand;
  tls_X509KeyPair : string -> string -> res TLSCertificate
}.

(** Documented behaviour: a PEM text holds its block, the empty text holds
    none, a parsed certificate keeps its DER bytes, and a pool takes from the
    PEM text of a certificate that certificate. *)
Class CryptoLaws `{Crypto} : Prop := {
  pem_roundtrip t b : pem_Decode (pem_EncodeToMemory t b) = Some b;
  pem_nothing : pem_Decode "" = None;
  parse_raw der c : x509_ParseCertificate der = Ok c -> Raw c = der;
  pool_takes der c : x509_ParseCertificate der = Ok c ->
    x509_CertsFromPEM (pem_EncodeToMemory "CERTIFICATE" der) = [c]
}.

Definition VersionTLS12 : Z := 771.

Section Bundle.
Context `{Crypto}.

Record TLSConfig := MkTLSConfig {
  RootCAs : list Certificate;
  Certificates : list TLSCertificate;
  MinVersion : Z
}.

(** [base64.StdEncoding.DecodeString], which skips line breaks. *)
Fixpoint skipLineBreaks (s : string) : string :=
  match s with
  | EmptyString => EmptyString
  | String c s =>
      if Ascii.eqb c "010" || Ascii.eqb c "013" then skipLineBreaks s else String c (skipLineBreaks s)
  end.

Definition stdDecodeString (s : string) : res string :=
  match base64Decode (skipLineBreaks s) with
  | Some d => Ok d
  | None => Err (base64_Corrupt s)
  end.

Definition decodeCAPKCS8Ed25519 (crtB64 keyB64 : string) : res (Certificate * PrivateKey) :=
  unwrap caCertPEM := stdDecodeString crtB64 orelse err => Err (wrapf "decode ca cert base64: " err "");
  match pem_Decode caCertPEM with
  | None => Err (errorf "ca cert: no PEM block found")
  | Some caCertBlock =>
      unwrap caCert := x509_ParseCertificate caCertBlock orelse err =>
        Err (wrapf "parse CA certificate: " err "");
      unwrap caKeyPEM := stdDecodeString keyB64 orelse err => Err (wrapf "decode ca key base64: " err "");
      match pem_Decode caKeyPEM with
      | None => Err (errorf "ca key: no PEM block found")
      | Some caKeyBlock =>
          unwrap caKeyRaw := x509_ParsePKCS8PrivateKey caKeyBlock orelse err =>
            Err (wrapf "parse CA private key (PKCS#8): " err "");
          match caKeyRaw with
          | Ed25519Key caKey => Ok (caCert, caKey)
          | OtherKey T => Err (errorf ("CA key is not Ed25519 (got " +:+ T +:+ ")"))
          end
      end
  end.

Definition MachineCAFromMachineConfig (machineConfigYAML : string) : res (Certificate * PrivateKey) :=
  unwrap mc := yaml_DecodeConfig machineConfigYAML orelse err =>
    Err (wrapf "parse machineconfig YAML: " err "");
  if String.eqb (mc_Crt mc) "" || String.eqb (mc_Key mc) "" then
    Err (errorf "machineconfig missing machine.ca.crt or machine.ca.key")
  else decodeCAPKCS8Ed25519 (mc_Crt mc) (mc_Key mc).

(** The certificate of the administrator: [now1] and [now2] are the readings of
    the clock for its two bounds. *)
Definition adminTemplate (serial now1 now2 : Z) : CertTemplate :=
  MkCertTemplate serial ["os:admin"] (now1 - 5 * Minute) (now2 + 24 * Hour)
    KeyUsageDigitalSignature [ExtKeyUsageClientAuth].

Definition adminTLSConfigFromCA (now1 now2 : Z) (caCert : Certificate) (caKey : PrivateKey) (r : Rand)
    : res TLSConfig * Rand :=
  let '(k, r) := ed25519_GenerateKey r in
  unwrap keys := k orelse err => (Err (wrapf "generate client Ed25519 key: " err ""), r);
  let '(clientPub, clientPriv) := keys in
  let '(s, r) := rand_Int r (2 ^ 128) in
  unwrap serial := s orelse err => (Err (wrapf "generate serial: " err ""), r);
  let '(d, r) := x509_CreateCertificate r (adminTemplate serial now1 now2) caCert clientPub caKey in
  unwrap clientCertDER := d orelse err => (Err (wrapf "sign client certificate: " err ""), r);
  let clientCertPEM := pem_EncodeToMemory "CERTIFICATE" clientCertDER in
  unwrap clientKeyDER := x509_MarshalPKCS8PrivateKey clientPriv orelse err =>
    (Err (wrapf "marshal client key: " err ""), r);
  let clientKeyPEM := pem_EncodeToMemory "PRIVATE KEY" clientKeyDER in
  unwrap tlsCert := tls_X509KeyPair clientCertPEM clientKeyPEM orelse err =>
    (Err (wrapf "build TLS key pair: " err ""), r);
  match x509_CertsFromPEM (pem_EncodeToMemory "CERTIFICATE" (Raw caCert)) with
  | [] => (Err (errorf "failed to add machine CA to cert pool"), r)
  | caPool => (Ok (MkTLSConfig caPool [tlsCert] VersionTLS12), r)
  end.

Definition AdminTLSConfig (now1 now2 : Z) (machineConfigYAML : string) (r : Rand) : res TLSConfig * Rand :=
  unwrap ca := MachineCAFromMachineConfig machineConfigYAML orelse err =>
    (Err (wrapf "read machine CA from machineconfig: " err ""), r);
  let '(caCert, caKey) := ca in
  adminTLSConfigFromCA now1 now2 caCert caKey r.
End Bundle.

(** * Facts *)

Lemma base64Char_lineBreak n :
  (n < 64)%N -> Ascii.eqb (base64Char n) "010" = false /\ Ascii.eqb (base64Char n) "013" = false.
Proof.
  intros Hn. destruct (base64Char_facts n Hn) as [Hv _].
  split; apply Ascii.eqb_neq; intros He; by rewrite He in Hv.
Qed.

Lemma skipLineBreaks_char n s :
  (n < 64)%N -> skipLineBreaks (String (base64Char n) s) = String (base64Char n) (skipLineBreaks s).
Proof. intros Hn. destruct (base64Char_lineBreak n Hn) as [H1 H2]. cbn [skipLineBreaks]. by rewrite H1, H2. Qed.

Lemma skipLineBreaks_encode s : skipLineBreaks (base64Encode s) = base64Encode s.
Proof.
  cut (forall n s, (strlen s <= n)%nat -> skipLineBreaks (base64Encode s) = base64Encode s).
  { intros H. by apply (H (strlen s)). }
  clear s. induction n as [|n IH]; intros s Hs; [by destruct s; [|cbn in Hs; lia]|].
  destruct s as [|a [|b [|c s]]]; [done|..].
  1: pose proof (N_ascii_bounded a).
  2: pose proof (N_ascii_bounded a); pose proof (N_ascii_bounded b).
  3: pose proof (N_ascii_bounded a); pose proof (N_ascii_bounded b); pose proof (N_ascii_bounded c).
  all: cbn [base64Encode].
  all: rewrite !skipLineBreaks_char by (zify; Z.to_euclidean_division_equations; lia); try done.
  rewrite IH by (cbn in Hs; lia). done.
Qed.

Section Facts.
Context `{CryptoLaws}.

Lemma stdDecode_encode s : stdDecodeString (base64Encode s) = Ok s.
Proof. unfold stdDecodeString. by rewrite skipLineBreaks_encode, base64Decode_encode. Qed.

(** A machineconfig with the CA in the form Talos writes it. *)
Definition carriesCA (yaml : string) (caCert : Certificate) (caKey : PrivateKey) : Prop :=
  exists ct certDER kt keyDER,
    yaml_DecodeConfig yaml =
      Ok (MkTalosConfig (base64Encode (pem_EncodeToMemory ct certDER)) (base64Encode (pem_EncodeToMemory kt keyDER))) /\
    x509_ParseCertificate certDER = Ok caCert /\ x509_ParsePKCS8PrivateKey keyDER = Ok (Ed25519Key caKey).

Lemma encode_pem_nonempty t b : String.eqb (base64Encode (pem_EncodeToMemory t b)) "" = false.
Proof.
  apply String.eqb_neq. intros He. pose proof (stdDecode_encode (pem_EncodeToMemory t b)) as Hd.
  rewrite He in Hd. injection Hd as Hd. pose proof (pem_roundtrip t b) as Hp. by rewrite <- Hd, pem_nothing in Hp.
Qed.

Lemma machineCA_carried yaml caCert caKey :
  carriesCA yaml caCert caKey -> MachineCAFromMachineConfig yaml = Ok (caCert, caKey).
Proof.
  intros (ct & certDER & kt & keyDER & Hy & Hc & Hk). unfold MachineCAFromMachineConfig.
  rewrite Hy. cbn [mc_Crt mc_Key]. rewrite !encode_pem_nonempty. cbn [orb].
  unfold decodeCAPKCS8Ed25519. by rewrite !stdDecode_encode, !pem_roundtrip, Hc, Hk.
Qed.

(** A certificate a machineconfig gives was parsed from DER bytes. *)
Lemma machineCA_parsed yaml caCert caKey :
  MachineCAFromMachineConfig yaml = Ok (caCert, caKey) -> exists der, x509_ParseCertificate der = Ok caCert.
Proof.
  unfold MachineCAFromMachineConfig, decodeCAPKCS8Ed25519.
  repeat first
    [ match goal with |- context [match ?x with _ => _ end] =>
        lazymatch x with context [match _ with _ => _ end] => fail | _ => destruct x eqn:? end end
    | discriminate ].
  intros [= <- <-]. eauto.
Qed.

(** The credentials for a CA: they trust exactly that CA, and present one
    certificate, signed by its key. *)
Definition adminOf (now1 now2 : Z) (caCert : Certificate) (caKey : PrivateKey) (cfg : TLSConfig) : Prop :=
  RootCAs cfg = [caCert] /\ MinVersion cfg = VersionTLS12 /\
  exists serial r r' pub priv certDER keyDER tlsCert,
    x509_CreateCertificate r (adminTemplate serial now1 now2) caCert pub caKey = (Ok certDER, r') /\
    (exists r1 r2, ed25519_GenerateKey r1 = (Ok (pub, priv), r2)) /\
    x509_MarshalPKCS8PrivateKey priv = Ok keyDER /\
    tls_X509KeyPair (pem_EncodeToMemory "CERTIFICATE" certDER) (pem_EncodeToMemory "PRIVATE KEY" keyDER) = Ok tlsCert /\
    Certificates cfg = [tlsCert].

Lemma adminTLS_of now1 now2 caCert caKey der r cfg r' :
  x509_ParseCertificate der = Ok caCert ->
  adminTLSConfigFromCA now1 now2 caCert caKey r = (Ok cfg, r') -> adminOf now1 now2 caCert caKey cfg.
Proof.
  intros Hder. pose proof (pool_takes der caCert Hder) as Hpool. rewrite <- (parse_raw der caCert Hder) in Hpool.
  unfold adminTLSConfigFromCA.
  destruct (ed25519_GenerateKey r) as [[[pub priv]|err] r1] eqn:Hg; [|done].
  destruct (rand_Int r1 (2 ^ 128)) as [[serial|err] r2]; [|done].
  destruct (x509_CreateCertificate _ _ _ _ _) as [[certDER|err] r3] eqn:Hc; [|done].
  destruct (x509_MarshalPKCS8PrivateKey priv) as [keyDER|err] eqn:Hm; [|done].
  destruct (tls_X509KeyPair _ _) as [tlsCert|err] eqn:Ht; [|done].
  rewrite Hpool. intros [= <- <-]. split; [done|]. split; [done|].
  exists serial, r2, r3, pub, priv, certDER, keyDER, tlsCert. eauto 8.
Qed.
End Facts.

(** * Properties *)

(** C37: the administrator's credentials come from the machine's own CA.  A
    machineconfig that carries a CA in the form Talos writes it (a PEM text in
    base64, whatever the headers say) gives back exactly that CA; and whenever
    credentials are made from a machineconfig at all, it named a CA, they trust
    that CA alone, and their one certificate is for a freshly generated key,
    for the role os:admin, for client authentication, valid from five minutes
    before to a day after the readings of the clock, and signed by that CA. *)
Theorem admin_credentials `{CryptoLaws} yaml now1 now2 :
  (forall caCert caKey, carriesCA yaml caCert caKey -> MachineCAFromMachineConfig yaml = Ok (caCert, caKey)) /\
  (forall r cfg r', AdminTLSConfig now1 now2 yaml r = (Ok cfg, r') ->
     exists caCert caKey, MachineCAFromMachineConfig yaml = Ok (caCert, caKey) /\ adminOf now1 now2 caCert caKey cfg).
Proof.
  split; [apply machineCA_carried|]. intros r cfg r'. unfold AdminTLSConfig.
  destruct (MachineCAFromMachineConfig yaml) as [[caCert caKey]|err] eqn:Hca; [|done].
  intros Ha. exists caCert, caKey. split; [done|]. destruct (machineCA_parsed _ _ _ Hca) as [der Hder].
  by eapply adminTLS_of.
Qed.

(** ** Witnesses *)

Module Demo.

(** Keys and certificates as text; a certificate names its signer. *)
#[export] Instance crypto : Crypto := {
  Certificate := string;
  Raw c := c;
  PublicKey := string;
  PrivateKey := string;
  TLSCertificate := string;
  Rand := nat;
  yaml_DecodeConfig y :=
    if String.eqb y "config" then Ok (MkTalosConfig (base64Encode "-ca") (base64Encode "-key"))
    else Err (errorf "yaml: unmarshal errors");
  pem_Decode s := match s with String _ s => Some s | EmptyString => None end;
  pem_EncodeToMemory t b := String "-" b;
  base64_Corrupt s := errorf "illegal base64 data";
  x509_ParseCertificate s := Ok s;
  x509_ParsePKCS8PrivateKey s := Ok (Ed25519Key s);
  x509_MarshalPKCS8PrivateKey k := Ok k;
  x509_CertsFromPEM s := match s with String _ s => [s] | EmptyString => [] end;
  ed25519_GenerateKey r := (Ok ("pub", "priv"), S r);
  rand_Int r n := (Ok (Z.of_nat r), S r);
  x509_CreateCertificate r t c p k := (Ok (p +:+ " by " +:+ k), S r);
  tls_X509KeyPair c k := Ok (c +:+ k)
}.

#[export] Instance crypto_laws : CryptoLaws.
Proof. split; try done. intros der c. by intros [= ->]. intros der c. by intros [= ->]. Qed.

End Demo.

Import Demo.

Lemma admin_credentials_witness :
  AdminTLSConfig (H:=Demo.crypto) 1000 1001 "config" 0%nat =
    (Ok (MkTLSConfig (H:=Demo.crypto) ["ca"] ["-pub by key-priv"] VersionTLS12), 3%nat) /\
  MachineCAFromMachineConfig (H:=Demo.crypto) "config" = Ok ("ca", "key") /\
  exists caCert caKey, MachineCAFromMachineConfig (H:=Demo.crypto) "config" = Ok (caCert, caKey) /\
    adminOf 1000 1001 caCert caKey (MkTLSConfig (H:=Demo.crypto) ["ca"] ["-pub by key-priv"] VersionTLS12).
Proof.
  split; [vm_compute; reflexivity|]. split.
  - apply (proj1 (admin_credentials (H:=Demo.crypto) "config" 1000 1001)). by exists "CERTIFICATE", "ca", "ED25519 PRIVATE KEY", "key".
  - apply (proj2 (admin_credentials (H:=Demo.crypto) "config" 1000 1001) 0%nat _ 3%nat). vm_compute. reflexivity.
Defined.
