(* ===== verification/HostClaim.v ===== *)
(** * Claiming physical hosts

    controllers/hetznerrobotmachine_host.go: how a HetznerRobotMachine finds,
    claims, adopts, updates and releases a HetznerRobotHost.  A function that
    assigns to the machine or to a host returns the changed object beside its
    result; assignments made before an error is returned are kept, as in Go. *)

From S2P Require Import Prelude GoStrings GoTime Api Effects Lib Samples Rescue.

Local Open Scope Z_scope.

(** ** References *)

Definition machineReferenceFor (hrm : HetznerRobotMachine) : MachineReference :=
  MkMachineReference (hrm_Name hrm) (hrm_Namespace hrm).

Definition machineReferenceMatches (ref : option MachineReference) (hrm : HetznerRobotMachine) : bool :=
  match ref with
  | None => false
  | Some ref => String.eqb (mr_Name ref) (hrm_Name hrm) && String.eqb (mr_Namespace ref) (hrm_Namespace hrm)
  end.

Definition hostIsClaimedBy (host : HetznerRobotHost) (hrm : HetznerRobotMachine) : bool :=
  machineReferenceMatches (hst_ConsumerRef (hrh_Status host)) hrm ||
  machineReferenceMatches (hst_MachineRef (hrh_Status host)) hrm.

Definition currentHostConsumerRef (host : HetznerRobotHost) : option MachineReference :=
  match hst_ConsumerRef (hrh_Status host) with
  | Some ref => Some ref
  | None => hst_MachineRef (hrh_Status host)
  end.

Definition setHostConsumerRef (host : HetznerRobotHost) (ref : MachineReference) : HetznerRobotHost :=
  set_hst hst_MachineRef (Some ref) (set_hst hst_ConsumerRef (Some ref) host).

Definition clearHostConsumerRef (host : HetznerRobotHost) : HetznerRobotHost :=
  set_hst hst_MachineRef None (set_hst hst_ConsumerRef None host).

(** The name of [spec.hostRef], when it is set and not empty. *)
Definition directHostRef (hrm : HetznerRobotMachine) : option string :=
  match ms_HostRef (hrm_Spec hrm) with
  | Some name => if String.eqb name "" then None else Some name
  | None => None
  end.

Definition hostKey (hrm : HetznerRobotMachine) (name : string) : NamespacedName :=
  MkNamespacedName (hrm_Namespace hrm) name.

Definition providerPrefix : string := "hetzner-robot://".

Definition robotServerIDFromProviderID (providerID : option string) : option Z :=
  match providerID with
  | None => None
  | Some raw =>
      if negb (hasPrefix raw providerPrefix) then None
      else
        match atoi (trimPrefix raw providerPrefix) with
        | Some serverID => if serverID <=? 0 then None else Some serverID
        | None => None
        end
  end.

Definition refString (ref : MachineReference) : string := mr_Namespace ref +:+ "/" +:+ mr_Name ref.

Definition claimedByOther (host : HetznerRobotHost) (ref : MachineReference) (hrm : HetznerRobotMachine)
    : error :=
  errorf ("host " +:+ hrh_Name host +:+ " is claimed by " +:+ refString ref +:+ ", not "
    +:+ hrm_Namespace hrm +:+ "/" +:+ hrm_Name hrm).

(** ** Claiming *)

Definition ensureHostConsumerRef (host : HetznerRobotHost) (hrm : HetznerRobotMachine)
    : prog (HetznerRobotHost * option error) :=
  let go :=
    if machineReferenceMatches (hst_ConsumerRef (hrh_Status host)) hrm &&
       machineReferenceMatches (hst_MachineRef (hrh_Status host)) hrm
    then Ret (host, None)
    else
      e ← trigger (ENewPatchHelper KHost host);
      ensure e orelse err =>
        Ret (host, Some (wrapf "init HRH patch helper for consumerRef backfill: " err ""));
      let host' := setHostConsumerRef host (machineReferenceFor hrm) in
      e ← trigger (EPatch KHost host host');
      ensure e orelse err =>
        Ret (host', Some (wrapf ("backfill host " +:+ hrh_Name host +:+ " consumerRef: ") err ""));
      Ret (host', None) in
  match currentHostConsumerRef host with
  | Some ref =>
      if negb (machineReferenceMatches (Some ref) hrm) then
        Ret (host, Some (claimedByOther host ref hrm))
      else go
  | None => go
  end.

(** Fetch and claim the candidate: the end of [resolveHost]. *)
Definition claimCandidate (hrm : HetznerRobotMachine) (candidateName : string)
    : prog (HetznerRobotMachine * res HetznerRobotHost) :=
  r ← trigger (EGet KHost (hostKey hrm candidateName));
  unwrap hrh := r orelse err =>
    Ret (hrm, Err (wrapf ("get candidate host " +:+ candidateName +:+ ": ") err ""));
  if negb (bool_decide (hst_State (hrh_Status hrh) = HostStateAvailable)) then
    Ret (hrm, Err (errorf ("host " +:+ candidateName +:+ " is not Available (state="
      +:+ hostStateString (hst_State (hrh_Status hrh)) +:+ ")")))
  else if hs_MaintenanceMode (hrh_Spec hrh) then
    Ret (hrm, Err (errorf ("host " +:+ candidateName +:+ " is in maintenanceMode and cannot be claimed")))
  else
    e ← trigger (ENewPatchHelper KHost hrh);
    ensure e orelse err =>
      Ret (hrm, Err (wrapf "init HRH patch helper for claim: " err ""));
    let hrh' := set_hst hst_State HostStateClaimed hrh in
    let hrh' := setHostConsumerRef hrh' (machineReferenceFor hrm) in
    let hrh' := set_hst hst_DirtyReason "" hrh' in
    e ← trigger (EPatch KHost hrh hrh');
    ensure e orelse err =>
      Ret (hrm, Err (wrapf ("claim host " +:+ candidateName +:+ " (patch HRH): ") err ""));
    Ret (set_mst mst_HostRef candidateName hrm, Ok hrh').

(** Re-adopt a host that already records this machine. *)
Definition recoverClaim (hrm : HetznerRobotMachine) (hrh : HetznerRobotHost)
    : prog (HetznerRobotMachine * res HetznerRobotHost) :=
  let hrm := set_mst mst_HostRef (hrh_Name hrh) hrm in
  r ← ensureHostConsumerRef hrh hrm;
  let '(hrh, e) := r in
  ensure e orelse err => Ret (hrm, Err err);
  Ret (hrm, Ok hrh).

(** The host of the second pass over the list. *)
Definition claimable (h : HetznerRobotHost) : bool :=
  bool_decide (hst_State (hrh_Status h) = HostStateAvailable) && negb (hs_MaintenanceMode (hrh_Spec h)).

Definition resolveHost `{Lib} (hrm : HetznerRobotMachine)
    : prog (HetznerRobotMachine * res HetznerRobotHost) :=
  let hostRef := statusHostRef hrm in
  if negb (String.eqb hostRef "") then
    r ← trigger (EGet KHost (hostKey hrm hostRef));
    unwrap hrh := r orelse err =>
      Ret (hrm, Err (wrapf ("get claimed host " +:+ hostRef +:+ ": ") err ""));
    r ← ensureHostConsumerRef hrh hrm;
    let '(hrh, e) := r in
    ensure e orelse err => Ret (hrm, Err err);
    Ret (hrm, Ok hrh)
  else
    match directHostRef hrm with
    | Some name =>
        r ← trigger (EGet KHost (hostKey hrm name));
        unwrap hrh := r orelse err =>
          Ret (hrm, Err (wrapf ("get host " +:+ name +:+ ": ") err ""));
        if hostIsClaimedBy hrh hrm then recoverClaim hrm hrh
        else if hs_MaintenanceMode (hrh_Spec hrh) then
          Ret (hrm, Err (errorf ("host " +:+ hrh_Name hrh +:+ " is in maintenanceMode and cannot be claimed")))
        else claimCandidate hrm name
    | None =>
        match ms_HostSelector (hrm_Spec hrm) with
        | Some sel =>
            ensure LabelSelectorAsSelector sel orelse err =>
              Ret (hrm, Err (wrapf "invalid hostSelector: " err ""));
            r ← trigger (EList KHost (hrm_Namespace hrm) (Some sel));
            unwrap items := r orelse err =>
              Ret (hrm, Err (wrapf "list hosts by selector: " err ""));
            match List.find (fun h : HetznerRobotHost => hostIsClaimedBy h hrm) items with
            | Some h => recoverClaim hrm h
            | None =>
                let candidateName := match List.find claimable items with
                                     | Some h => hrh_Name h | None => "" end in
                if String.eqb candidateName "" then
                  Ret (hrm, Err (errorf "no non-maintenance Available HetznerRobotHost found matching selector"))
                else claimCandidate hrm candidateName
            end
        | None =>
            Ret (hrm, Err (errorf "HetznerRobotMachine must specify either spec.hostRef or spec.hostSelector"))
        end
    end.

(** ** Adoption of provisioned machines *)

(** The owner that blocks adoption, and the error of looking it up. *)
Definition blockingHostOwnerRef (host : HetznerRobotHost) (hrm : HetznerRobotMachine)
    : prog (option MachineReference * option error) :=
  match hst_ConsumerRef (hrh_Status host) with
  | Some ref =>
      if machineReferenceMatches (Some ref) hrm then Ret (None, None) else Ret (Some ref, None)
  | None =>
      match hst_MachineRef (hrh_Status host) with
      | None => Ret (None, None)
      | Some legacyRef =>
          if machineReferenceMatches (Some legacyRef) hrm then Ret (None, None)
          else
            match robotServerIDFromProviderID (ms_ProviderID (hrm_Spec hrm)) with
            | None => Ret (Some legacyRef, None)
            | Some expectedServerID =>
                if negb (hs_ServerID (hrh_Spec host) =? expectedServerID) then Ret (Some legacyRef, None)
                else
                  let legacyNamespace := if String.eqb (mr_Namespace legacyRef) "" then hrh_Namespace host
                                         else mr_Namespace legacyRef in
                  r ← trigger (EGet KMachine (MkNamespacedName legacyNamespace (mr_Name legacyRef)));
                  match r with
                  | Err err =>
                      if err_notfound err then Ret (None, None)
                      else Ret (Some legacyRef, Some (wrapf ("get legacy host owner " +:+ legacyNamespace +:+ "/"
                             +:+ mr_Name legacyRef +:+ ": ") err ""))
                  | Ok _ => Ret (Some legacyRef, None)
                  end
            end
      end
  end.

Definition resolveProvisionedAdoptionHost `{Lib} (hrm : HetznerRobotMachine) (expectedServerID : Z)
    : prog (res HetznerRobotHost) :=
  match directHostRef hrm with
  | Some name =>
      r ← trigger (EGet KHost (hostKey hrm name));
      unwrap host := r orelse err =>
        Ret (Err (wrapf ("get hostRef " +:+ name +:+ " for provisioned adoption: ") err ""));
      Ret (Ok host)
  | None =>
      match ms_HostSelector (hrm_Spec hrm) with
      | None =>
          Ret (Err (errorf "spec.hostRef or spec.hostSelector is required to backfill provisioned host ownership"))
      | Some sel =>
          ensure LabelSelectorAsSelector sel orelse err =>
            Ret (Err (wrapf "invalid hostSelector for provisioned adoption: " err ""));
          r ← trigger (EList KHost (hrm_Namespace hrm) (Some sel));
          unwrap items := r orelse err =>
            Ret (Err (wrapf "list hosts by selector for provisioned adoption: " err ""));
          match List.filter (fun host : HetznerRobotHost =>
                  hs_ServerID (hrh_Spec host) =? expectedServerID) items with
          | [] =>
              Ret (Err (errorf ("no HetznerRobotHost matches providerID serverID=" +:+ itoa expectedServerID)))
          | [host] => Ret (Ok host)
          | matches =>
              Ret (Err (errorf ("multiple HetznerRobotHosts match providerID serverID="
                +:+ itoa expectedServerID +:+ ": "
                +:+ join (sortStrings (map (fun host : HetznerRobotHost => hrh_Name host) matches)) ", ")))
          end
      end
  end.

(** The assignments that record a provisioned host of the machine. *)
Definition markProvisioned (hrm : HetznerRobotMachine) (host : HetznerRobotHost) : HetznerRobotHost :=
  setHostConsumerRef (set_hst hst_State HostStateProvisioned host) (machineReferenceFor hrm).

Definition backfillProvisionedHostClaim `{Lib} (hrm : HetznerRobotMachine)
    : prog (HetznerRobotMachine * res bool) :=
  if negb (String.eqb (statusHostRef hrm) "") then Ret (hrm, Ok false)
  else
    match robotServerIDFromProviderID (ms_ProviderID (hrm_Spec hrm)) with
    | None => Ret (hrm, Err (errorf "providerID is required to backfill provisioned host ownership"))
    | Some expectedServerID =>
        r ← resolveProvisionedAdoptionHost hrm expectedServerID;
        unwrap host := r orelse err => Ret (hrm, Err err);
        if hs_MaintenanceMode (hrh_Spec host) then
          Ret (hrm, Err (errorf ("host " +:+ hrh_Name host +:+ " is in maintenanceMode and cannot be adopted")))
        else if negb (hs_ServerID (hrh_Spec host) =? expectedServerID) then
          Ret (hrm, Err (errorf ("host " +:+ hrh_Name host +:+ " serverID=" +:+ itoa (hs_ServerID (hrh_Spec host))
            +:+ " does not match HRM providerID serverID=" +:+ itoa expectedServerID)))
        else
          r ← blockingHostOwnerRef host hrm;
          let '(ref, e) := r in
          ensure e orelse err => Ret (hrm, Err err);
          match ref with
          | Some ref => Ret (hrm, Err (errorf ("host " +:+ hrh_Name host +:+ " is claimed by " +:+ refString ref)))
          | None =>
              if bool_decide (hst_State (hrh_Status host) = HostStateClaimed) then
                Ret (hrm, Err (errorf ("host " +:+ hrh_Name host +:+ " is Claimed without consumerRef")))
              else
                e ← trigger (ENewPatchHelper KHost host);
                ensure e orelse err =>
                  Ret (hrm, Err (wrapf "init HRH patch helper for provisioned adoption: " err ""));
                let host' := set_hst hst_ErrorMessage "" (set_hst hst_DirtyReason "" (markProvisioned hrm host)) in
                e ← trigger (EPatch KHost host host');
                ensure e orelse err =>
                  Ret (hrm, Err (wrapf ("backfill host " +:+ hrh_Name host +:+ " provisioned ownership: ") err ""));
                Ret (set_mst mst_HostRef (hrh_Name host) hrm, Ok true)
          end
    end.

Definition ensureProvisionedHostStatus (hrm : HetznerRobotMachine) : prog (option error) :=
  let hostRef := statusHostRef hrm in
  if String.eqb hostRef "" then Ret None
  else
    r ← trigger (EGet KHost (hostKey hrm hostRef));
    unwrap host := r orelse err =>
      Ret (Some (wrapf ("get provisioned host " +:+ hostRef +:+ ": ") err ""));
    r ← blockingHostOwnerRef host hrm;
    let '(ref, e) := r in
    ensure e orelse err => Ret (Some err);
    match ref with
    | Some ref => Ret (Some (claimedByOther host ref hrm))
    | None =>
        if bool_decide (hst_State (hrh_Status host) = HostStateProvisioned) &&
           machineReferenceMatches (hst_ConsumerRef (hrh_Status host)) hrm &&
           machineReferenceMatches (hst_MachineRef (hrh_Status host)) hrm
        then Ret None
        else
          e ← trigger (ENewPatchHelper KHost host);
          ensure e orelse err =>
            Ret (Some (wrapf "init HRH patch helper for provisioned status: " err ""));
          e ← trigger (EPatch KHost host (set_hst hst_ErrorMessage "" (markProvisioned hrm host)));
          ensure e orelse err =>
            Ret (Some (wrapf ("patch host " +:+ hrh_Name host +:+ " provisioned status: ") err ""));
          Ret None
    end.

(** ** Deletion *)

(** [Ok None] stands for the result [nil, false, nil]. *)
Definition resolveHostForDelete `{Lib} (hrm : HetznerRobotMachine)
    : prog (res (option HetznerRobotHost)) :=
  let hostRef := statusHostRef hrm in
  if negb (String.eqb hostRef "") then
    r ← trigger (EGet KHost (hostKey hrm hostRef));
    unwrap hrh := r orelse err => Ret (Err (wrapf ("get claimed host " +:+ hostRef +:+ ": ") err ""));
    Ret (Ok (Some hrh))
  else
    match directHostRef hrm with
    | Some name =>
        r ← trigger (EGet KHost (hostKey hrm name));
        unwrap hrh := r orelse err =>
          Ret (Err (wrapf ("get directly referenced host " +:+ name +:+ ": ") err ""));
        if hostIsClaimedBy hrh hrm then Ret (Ok (Some hrh)) else Ret (Ok None)
    | None =>
        match ms_HostSelector (hrm_Spec hrm) with
        | Some sel =>
            ensure LabelSelectorAsSelector sel orelse err =>
              Ret (Err (wrapf "invalid hostSelector: " err ""));
            r ← trigger (EList KHost (hrm_Namespace hrm) (Some sel));
            unwrap items := r orelse err => Ret (Err (wrapf "list hosts by selector: " err ""));
            Ret (Ok (List.find (fun h : HetznerRobotHost => hostIsClaimedBy h hrm) items))
        | None => Ret (Ok None)
        end
    end.

(** The host as [releaseHost] writes it. *)
Definition releasedHost (hrh : HetznerRobotHost) : HetznerRobotHost :=
  let hrh' := set_hst hst_State HostStateAvailable hrh in
  let hrh' := set_hst hst_LastConsumerRef (currentHostConsumerRef hrh') hrh' in
  let hrh' := clearHostConsumerRef hrh' in
  set_hst hst_ErrorMessage "" (set_hst hst_DirtyReason "ReleasedAfterMachineDelete" hrh').

Definition releaseHost (namespace hostName : string) : prog (option error) :=
  r ← trigger (EGet KHost (MkNamespacedName namespace hostName));
  unwrap hrh := r orelse err => Ret (Some (wrapf ("get host " +:+ hostName +:+ ": ") err ""));
  e ← trigger (ENewPatchHelper KHost hrh);
  ensure e orelse err => Ret (Some (wrapf "init HRH patch helper: " err ""));
  e ← trigger (EPatch KHost hrh (releasedHost hrh));
  ensure e orelse err => Ret (Some (wrapf ("patch host " +:+ hostName +:+ ": ") err ""));
  Ret None.

(** ** Status updates *)

Definition hardwareDetails (hw : HardwareInfo) : HostHardwareDetails :=
  let cephDisks := map fst (List.filter snd (map_to_list (hw_CephDisks hw))) in
  MkHostHardwareDetails (hw_PrimaryMAC hw) (hw_GatewayIP hw) (sortStrings (hw_NVMeDisks hw))
    (sortStrings cephDisks) (hw_ByIDPaths hw).

Definition recordHostHardwareDetails (namespace hostName : string) (hw : option HardwareInfo)
    : prog (option error) :=
  match hw with
  | None => Ret None
  | Some hw =>
      if String.eqb hostName "" then Ret None
      else
        r ← trigger (EGet KHost (MkNamespacedName namespace hostName));
        unwrap hrh := r orelse err => Ret (Some (wrapf ("get host " +:+ hostName +:+ ": ") err ""));
        e ← trigger (ENewPatchHelper KHost hrh);
        ensure e orelse err => Ret (Some (wrapf "init HRH patch helper: " err ""));
        e ← trigger (EPatch KHost hrh (set_hst hst_HardwareDetails (Some (hardwareDetails hw)) hrh));
        ensure e orelse err =>
          Ret (Some (wrapf ("patch host " +:+ hostName +:+ " hardware details: ") err ""));
        Ret None
  end.

Definition updateHostState (namespace hostName : string) (state : HostState) : prog (option error) :=
  r ← trigger (EGet KHost (MkNamespacedName namespace hostName));
  unwrap hrh := r orelse err => Ret (Some (wrapf ("get host " +:+ hostName +:+ ": ") err ""));
  if bool_decide (hst_State (hrh_Status hrh) = state) then Ret None
  else
    e ← trigger (ENewPatchHelper KHost hrh);
    ensure e orelse err => Ret (Some (wrapf "init HRH patch helper: " err ""));
    e ← trigger (EPatch KHost hrh (set_hst hst_State state hrh));
    ensure e orelse err =>
      Ret (Some (wrapf ("patch host " +:+ hostName +:+ " state to " +:+ hostStateString state +:+ ": ") err ""));
    Ret None.

(** * Facts *)

(** ** References *)

Lemma machineReferenceMatches_spec ref hrm :
  machineReferenceMatches ref hrm = true <-> ref = Some (machineReferenceFor hrm).
Proof.
  unfold machineReferenceMatches, machineReferenceFor. destruct ref as [[n ns]|]; [|done].
  cbn. rewrite andb_true_iff, !String.eqb_eq. naive_solver.
Qed.

(** Both references of the host name the machine. *)
Definition ownedBy (host : HetznerRobotHost) (hrm : HetznerRobotMachine) : Prop :=
  hst_ConsumerRef (hrh_Status host) = Some (machineReferenceFor hrm) /\
  hst_MachineRef (hrh_Status host) = Some (machineReferenceFor hrm).

Lemma set_ownedBy host hrm : ownedBy (setHostConsumerRef host (machineReferenceFor hrm)) hrm.
Proof. done. Qed.

(** ** Hosts read from the API server *)

(** The same object up to its status. *)
Definition sameHost (a b : HetznerRobotHost) : Prop := hrh_Meta a = hrh_Meta b /\ hrh_Spec a = hrh_Spec b.

Definition fetched (host : HetznerRobotHost) (h : hist) : Prop :=
  exists read, sameHost read host /\
    ((exists key, Ev (EGet KHost key) (Ok read) ∈ h) \/
     exists ns sel items, Ev (EList KHost ns sel) (Ok items) ∈ h /\ read ∈ items).

Lemma fetched_get host key h : Ev (EGet KHost key) (Ok host) ∈ h -> fetched host h.
Proof. intros H. exists host. split; [done|]. left. by exists key. Qed.

Lemma fetched_list host ns sel items (h : hist) :
  Ev (EList KHost ns sel) (Ok items) ∈ h -> host ∈ items -> fetched host h.
Proof. intros H Hin. exists host. split; [done|]. right. by exists ns, sel, items. Qed.

Lemma fetched_same a b h : sameHost a b -> fetched a h -> fetched b h.
Proof.
  intros [Hm Hs] (read & [Hm' Hs'] & Hr). exists read. split; [split; congruence|done].
Qed.

Lemma fetched_extends host h' h : extends h' h -> fetched host h -> fetched host h'.
Proof.
  intros He (read & Hs & [[key Hk]|(ns & sel & items & Hl & Hin)]); exists read; (split; [done|]).
  - left. exists key. by eapply extends_elem.
  - right. exists ns, sel, items. split; [by eapply extends_elem|done].
Qed.

Lemma find_claimable items h : List.find claimable items = Some h ->
  h ∈ items /\ hst_State (hrh_Status h) = HostStateAvailable /\ hs_MaintenanceMode (hrh_Spec h) = false.
Proof.
  intros [Hin Hc]%List.find_some. apply list_elem_of_In in Hin. unfold claimable in Hc. by bool_prop.
Qed.

(** ** Moves of a host

    What the run of the machine with this reference may make of a host.  The
    metadata and the spec stay as they are. *)
Inductive hostMove (ref : MachineReference) (before after : HetznerRobotHost) : Prop :=
| move_claim :
    hst_State (hrh_Status before) = HostStateAvailable -> hs_MaintenanceMode (hrh_Spec before) = false ->
    after = set_hst hst_DirtyReason "" (setHostConsumerRef (set_hst hst_State HostStateClaimed before) ref) ->
    hostMove ref before after
| move_complete :
    currentHostConsumerRef before = None \/ currentHostConsumerRef before = Some ref ->
    after = setHostConsumerRef before ref -> hostMove ref before after
| move_provision :
    hst_ConsumerRef (hrh_Status before) = None \/ hst_ConsumerRef (hrh_Status before) = Some ref ->
    sameHost before after -> claimOf after = (HostStateProvisioned, Some ref, Some ref) ->
    hostMove ref before after
| move_release : after = releasedHost before -> hostMove ref before after
| move_quiet : sameHost before after -> claimOf after = claimOf before -> hostMove ref before after.

Lemma hostMove_same ref before after : hostMove ref before after -> sameHost before after.
Proof. by intros [_ _ ->|_ ->|_ Hs _| ->|Hs _]. Qed.

(** A call that writes hosts only, and those so. *)
Definition hostWrite (P : HetznerRobotHost -> HetznerRobotHost -> Prop) (X : Set) (e : Eff X) : Prop :=
  match e with
  | EPatch k before after =>
      match k return Obj k -> Obj k -> Prop with KHost => P | _ => fun _ _ => False end before after
  | _ => False
  end.

(** Calls to the Kubernetes API server or the clock that write nothing but
    hosts, and those with moves of this machine. *)
Definition isCluster (ref : MachineReference) (X : Set) (e : Eff X) : Prop :=
  isRead X e \/ hostWrite (hostMove ref) X e.

(** The only writes of [resolveHost]. *)
Definition claimWrite (hrm : HetznerRobotMachine) (before after : HetznerRobotHost) : Prop :=
  (hst_State (hrh_Status before) = HostStateAvailable /\
   hs_MaintenanceMode (hrh_Spec before) = false /\
   after = set_hst hst_DirtyReason ""
     (setHostConsumerRef (set_hst hst_State HostStateClaimed before) (machineReferenceFor hrm))) \/
  ((currentHostConsumerRef before = None \/
    currentHostConsumerRef before = Some (machineReferenceFor hrm)) /\
   after = setHostConsumerRef before (machineReferenceFor hrm)).

Lemma claimWrite_move hrm before after :
  claimWrite hrm before after -> hostMove (machineReferenceFor hrm) before after.
Proof. intros [(? & ? & ->)|[? ->]]; [by apply move_claim|by apply move_complete]. Qed.

(** A guard that lets reads and the writes of hosts allowed by [P] through. *)
Definition hostWrites (P : HetznerRobotHost -> HetznerRobotHost -> Prop) (X : Set) (e : Eff X) : Prop :=
  isRead X e \/ hostWrite P X e.

Lemma hostWrites_patches P X e : hostWrites P X e -> patchesOnly KHost P X e.
Proof. intros [Hr|Hw]; [by destruct e|]. by destruct e as [| | | |[] b a| | | | | | | | | | | |]. Qed.

Lemma claims_cluster hrm X e :
  hostWrites (claimWrite hrm) X e -> isCluster (machineReferenceFor hrm) X e.
Proof.
  intros [Hr|Hw]; [by left|right]. destruct e as [| | | |[] b a| | | | | | | | | | | |]; try done.
  by apply claimWrite_move.
Qed.

Section Rules.
Context `{Lib} (G : guard).

Lemma wp_ensureHostConsumerRef host hrm (Q : HetznerRobotHost * option error -> hist -> Prop) h :
  (forall h' X e, extends h' h -> hostWrites (claimWrite hrm) X e -> G h' X e) ->
  (forall host' e h', extends h' h -> sameHost host host' ->
     (length (patches KHost h') <= S (length (patches KHost h)))%nat ->
     (e = None -> ownedBy host' hrm) -> Q (host', e) h') ->
  wp G (ensureHostConsumerRef host hrm) Q h.
Proof.
  intros HG HQ. unfold ensureHostConsumerRef.
  assert (currentHostConsumerRef host = None \/
          currentHostConsumerRef host = Some (machineReferenceFor hrm) ->
    wp G (if machineReferenceMatches (hst_ConsumerRef (hrh_Status host)) hrm &&
             machineReferenceMatches (hst_MachineRef (hrh_Status host)) hrm
          then Ret (host, None)
          else
            e ← trigger (ENewPatchHelper KHost host);
            ensure e orelse err =>
              Ret (host, Some (wrapf "init HRH patch helper for consumerRef backfill: " err ""));
            let host' := setHostConsumerRef host (machineReferenceFor hrm) in
            e ← trigger (EPatch KHost host host');
            ensure e orelse err =>
              Ret (host', Some (wrapf ("backfill host " +:+ hrh_Name host +:+ " consumerRef: ") err ""));
            Ret (host', None)) Q h) as Hgo.
  { intros Href. destruct (_ && _) eqn:Hm.
    { apply wp_ret, HQ; [done|done|lia|]. intros _. bool_prop.
      by split; apply machineReferenceMatches_spec. }
    apply wp_bind, wp_trigger; [by apply HG; [done|left]|].
    intros [err|]; [by apply wp_ret, HQ; [extends_tac|..|done]; [done|rewrite !patches_cons; cbn; lia]|].
    apply wp_bind, wp_trigger.
    { apply HG; [extends_tac|]. right. right. by split. }
    intros [err|]; apply wp_ret, HQ; try done; try extends_tac; rewrite !patches_cons; cbn; lia. }
  destruct (currentHostConsumerRef host) as [ref|] eqn:Hr; [|apply Hgo; by left].
  destruct (machineReferenceMatches (Some ref) hrm) eqn:Hm; cbn [negb].
  - apply Hgo. right. by apply machineReferenceMatches_spec in Hm.
  - apply wp_ret, HQ; [done|done|lia|done].
Qed.
End Rules.

(** What every caller may assume of the machine and the result of a claim. *)
Definition claimResult (hrm hrm' : HetznerRobotMachine) (r : res HetznerRobotHost) (h' : hist) : Prop :=
  (hrm' = hrm \/ exists n, hrm' = set_mst mst_HostRef n hrm) /\
  (forall host, r = Ok host -> fetched host h' /\ ownedBy host hrm).

Section Resolve.
Context `{Lib} (G : guard) (hrm : HetznerRobotMachine).
Implicit Types (Q : HetznerRobotMachine * res HetznerRobotHost -> hist -> Prop) (h : hist).

(** The calls and the result of the functions that end in a claim. *)
Definition claimsHost (p : prog (HetznerRobotMachine * res HetznerRobotHost)) (h : hist) : Prop :=
  forall Q,
    (forall h' X e, extends h' h -> hostWrites (claimWrite hrm) X e -> G h' X e) ->
    (forall hrm' r h', extends h' h ->
       (length (patches KHost h') <= S (length (patches KHost h)))%nat ->
       claimResult hrm hrm' r h' -> Q (hrm', r) h') ->
    wp G p Q h.

Lemma hostWrites_read X e : isRead X e -> hostWrites (claimWrite hrm) X e.
Proof. by left. Qed.

Lemma claims_error err h : claimsHost (Ret (hrm, Err err)) h.
Proof. intros Q _ HQ. apply wp_ret, HQ; [done|lia|]. split; [by left|done]. Qed.

Lemma claims_read (X : Set) (e : Eff X) (k : X -> prog _) h :
  isRead X e -> (forall x, claimsHost (k x) (Ev e x :: h)) -> claimsHost (trigger e ≫= k) h.
Proof.
  intros Hr Hk Q HG HQ. apply wp_bind, wp_trigger; [by apply HG, hostWrites_read|].
  intros x. apply Hk.
  - intros h' Y e' He. apply HG. etrans; [exact He|]. by apply extends_cons_trans.
  - intros hrm' r h' He Hl. apply HQ; [etrans; [exact He|]; by apply extends_cons_trans|].
    rewrite patches_cons in Hl. replace (patchOf KHost (Ev e x)) with
      (@None (Obj KHost * Obj KHost * option error)) in Hl; [done|]. by destruct e.
Qed.

Lemma claims_ensure hrm1 host (h : hist) :
  (hrm1 = hrm \/ exists n, hrm1 = set_mst mst_HostRef n hrm) -> fetched host h ->
  claimsHost (r ← ensureHostConsumerRef host hrm1;
              let '(hrh, e) := r in
              ensure e orelse err => Ret (hrm1, Err err);
              Ret (hrm1, Ok hrh)) h.
Proof.
  intros Hhrm Hf Q HG HQ.
  assert (forall b a, claimWrite hrm1 b a <-> claimWrite hrm b a) as Hw by (destruct Hhrm as [->|[n ->]]; done).
  apply wp_bind, wp_ensureHostConsumerRef.
  - intros h' X e He [Hr|Hp]; apply HG; [done|by left|done|right].
    destruct e as [| | | |[] b a| | | | | | | | | | | |]; try done. by apply Hw.
  - intros host' e h' He Hs Hl Ho. destruct e as [err|]; apply wp_ret, HQ; try done.
    + split; [done|]. intros ? [= <-]. split.
      * eapply fetched_same; [exact Hs|]. by eapply fetched_extends.
      * specialize (Ho eq_refl). destruct Hhrm as [->|[n ->]]; done.
Qed.

Lemma claims_recover host h : fetched host h -> claimsHost (recoverClaim hrm host) h.
Proof. intros Hf. apply claims_ensure; eauto. Qed.

Lemma claims_candidate name h : claimsHost (claimCandidate hrm name) h.
Proof.
  apply claims_read; [done|]. intros [host|err]; [|apply claims_error].
  destruct (bool_decide _) eqn:Hs; cbn [negb]; [|apply claims_error].
  destruct (hs_MaintenanceMode _) eqn:Hm; [apply claims_error|].
  apply claims_read; [done|]. intros [err|]; [apply claims_error|].
  intros Q HG HQ. bool_prop. apply wp_bind, wp_trigger.
  { apply HG; [done|]. right. left. by split_and!. }
  intros [err|]; apply wp_ret, HQ; try extends_tac; try (rewrite !patches_cons; cbn; lia).
  - split; [by left|done].
  - split; [by eauto|]. intros ? [= <-]. split; [|done].
    exists host. split; [done|]. left. exists (hostKey hrm name). set_solver.
Qed.

Lemma claims_resolveHost h : claimsHost (resolveHost hrm) h.
Proof.
  unfold resolveHost. cbv zeta. destruct (String.eqb _ ""); cbn [negb].
  - destruct (directHostRef hrm) as [name|].
    + apply claims_read; [done|]. intros [host|err]; [|apply claims_error].
      destruct (hostIsClaimedBy host hrm).
      { eapply claims_recover, fetched_get. constructor. }
      destruct (hs_MaintenanceMode _); [apply claims_error|apply claims_candidate].
    + destruct (ms_HostSelector _) as [sel|]; [|apply claims_error].
      destruct (LabelSelectorAsSelector sel); [apply claims_error|].
      apply claims_read; [done|]. intros [items|err]; [|apply claims_error].
      destruct (List.find (fun h0 : HetznerRobotHost => hostIsClaimedBy h0 hrm) items) as [host|] eqn:Hf.
      { apply List.find_some in Hf as [Hin _]. apply list_elem_of_In in Hin.
        eapply claims_recover, fetched_list; [|exact Hin]. constructor. }
      destruct (String.eqb _ ""); [apply claims_error|apply claims_candidate].
  - apply claims_read; [done|]. intros [host|err]; [|apply claims_error].
    eapply claims_ensure, fetched_get; [by left|]. constructor.
Qed.
End Resolve.

(** ** Deletion *)

Lemma wp_resolveHostForDelete `{Lib} (G : guard) hrm (Q : res (option HetznerRobotHost) -> hist -> Prop) h :
  (forall h' X e, isRead X e -> G h' X e) ->
  (forall r h', extends h' h ->
     (forall host, r = Ok (Some host) -> fetched host h' /\
        (statusHostRef hrm <> "" /\ Ev (EGet KHost (hostKey hrm (statusHostRef hrm))) (Ok host) ∈ h' \/
         hostIsClaimedBy host hrm = true)) -> Q r h') ->
  wp G (resolveHostForDelete hrm) Q h.
Proof.
  intros HG HQ. unfold resolveHostForDelete. cbv zeta.
  destruct (String.eqb_spec (statusHostRef hrm) "") as [Hs|Hs]; cbn [negb].
  - destruct (directHostRef hrm) as [name|].
    + apply wp_bind, wp_trigger; [by apply HG|].
      intros [host|err]; [|apply wp_ret, HQ; [extends_tac|done]].
      destruct (hostIsClaimedBy host hrm) eqn:Hc; apply wp_ret, HQ; [extends_tac| |extends_tac|done].
      intros ? [= <-]. split; [|by right]. eapply fetched_get. constructor.
    + destruct (ms_HostSelector _) as [sel|]; [|by apply wp_ret, HQ].
      destruct (LabelSelectorAsSelector sel); [by apply wp_ret, HQ|].
      apply wp_bind, wp_trigger; [by apply HG|].
      intros [items|err]; apply wp_ret, HQ; [extends_tac| |extends_tac|done].
      intros host [= Hf]. apply List.find_some in Hf as [Hin Hc]. apply list_elem_of_In in Hin.
      split; [|by right]. eapply fetched_list; [|exact Hin]. constructor.
  - apply wp_bind, wp_trigger; [by apply HG|].
    intros [host|err]; apply wp_ret, HQ; [extends_tac| |extends_tac|done].
    intros ? [= <-]. split; [eapply fetched_get; constructor|]. left. split; [done|set_solver].
Qed.

(** ** Calls of the other operations *)

Lemma emits_blockingHostOwnerRef host hrm : emits isRead (blockingHostOwnerRef host hrm).
Proof. unfold blockingHostOwnerRef. repeat emits_step; done. Qed.

Lemma emits_resolveProvisionedAdoptionHost `{Lib} hrm id :
  emits isRead (resolveProvisionedAdoptionHost hrm id).
Proof. unfold resolveProvisionedAdoptionHost. cbv zeta. repeat emits_step; done. Qed.

#[export] Hint Resolve emits_blockingHostOwnerRef emits_resolveProvisionedAdoptionHost : guards.

Lemma read_cluster ref X e : isRead X e -> isCluster ref X e.
Proof. by left. Qed.

Lemma move_cluster ref (b a : HetznerRobotHost) : hostMove ref b a -> isCluster ref _ (EPatch KHost b a).
Proof. intros Hm. by right. Qed.

(** A machine may take a host only from nobody, from itself, or from a legacy
    owner. *)
Lemma yields_blocking host hrm :
  yields isRead (blockingHostOwnerRef host hrm) (fun r => r = (None, None) ->
    hst_ConsumerRef (hrh_Status host) = None \/
    hst_ConsumerRef (hrh_Status host) = Some (machineReferenceFor hrm)).
Proof.
  unfold blockingHostOwnerRef. destruct (hst_ConsumerRef _) as [ref|].
  - destruct (machineReferenceMatches _ hrm) eqn:Hm; [|done]. intros _. right. by apply machineReferenceMatches_spec in Hm.
  - eapply yields_mono; [done|intros r _ _; by left|]. apply emits_yields. repeat emits_step; done.
Qed.

(** Adoption and the status of a provisioned host write the same claim. *)
Lemma provision_move host after hrm :
  hst_ConsumerRef (hrh_Status host) = None \/
    hst_ConsumerRef (hrh_Status host) = Some (machineReferenceFor hrm) ->
  sameHost host after -> claimOf after = claimOf (markProvisioned hrm host) ->
  isCluster (machineReferenceFor hrm) _ (EPatch KHost host after).
Proof. intros Ho Hs Hc. by apply move_cluster, move_provision. Qed.

(** Adoption changes at most the machine's [status.hostRef]. *)
Lemma yields_backfill `{Lib} hrm :
  yields (isCluster (machineReferenceFor hrm)) (backfillProvisionedHostClaim hrm)
    (fun r => r.1 = hrm \/ exists n, r.1 = set_mst mst_HostRef n hrm).
Proof.
  unfold backfillProvisionedHostClaim. destruct (negb _); [by left|].
  destruct (robotServerIDFromProviderID _) as [id|]; [|by left].
  apply yields_emits; [eapply (emits_mono isRead); [by left|auto with guards]|].
  intros [host|err]; [|by left].
  destruct (hs_MaintenanceMode _); [by left|]. destruct (negb _); [by left|].
  eapply yields_bind; [eapply yields_mono; [apply read_cluster|intros r Hr; exact Hr|apply yields_blocking]|].
  intros [[ref|] [err|]] Ho; try by left. destruct (bool_decide _); [by left|].
  apply yields_call; [by left|]. intros [err|]; [by left|]. cbv zeta.
  apply yields_call; [by apply provision_move; [apply Ho|..]|]. intros [err|]; [by left|]. right. by eexists.
Qed.

Lemma emits_ensureProvisionedHostStatus hrm :
  emits (isCluster (machineReferenceFor hrm)) (ensureProvisionedHostStatus hrm).
Proof.
  unfold ensureProvisionedHostStatus. cbv zeta. destruct (String.eqb _ _); [done|].
  apply emits_bind; [by split; [left|]|]. intros [host|err]; [|done].
  eapply emits_after; [eapply yields_mono; [apply read_cluster|intros r Hr; exact Hr|apply yields_blocking]|].
  intros [[ref|] [err|]] Ho; try done. destruct (_ && _); [done|].
  apply emits_bind; [by split; [left|]|]. intros [err|]; [done|].
  apply emits_bind; [by apply emits_trigger, provision_move; [apply Ho|..]|]. by intros [err|].
Qed.

Lemma emits_releaseHost ref ns n : emits (isCluster ref) (releaseHost ns n).
Proof.
  unfold releaseHost. apply emits_bind; [by split; [left|]|]. intros [host|err]; [|done].
  apply emits_bind; [by split; [left|]|]. intros [err|]; [done|].
  apply emits_bind; [by apply emits_trigger, move_cluster, move_release|]. by intros [err|].
Qed.

(** Reads, and writes of hosts that leave ownership alone. *)
Definition quietCluster (X : Set) (e : Eff X) : Prop :=
  isRead X e \/ hostWrite (fun b a => sameHost b a /\ claimOf a = claimOf b) X e.

Lemma quiet_recordHostHardwareDetails ns n hw : emits quietCluster (recordHostHardwareDetails ns n hw).
Proof.
  unfold recordHostHardwareDetails. cbv zeta. unfold quietCluster.
  repeat emits_step; first [by left|by right].
Qed.

(** ** Adoption *)

(** The host has only a legacy owner, and the history shows the machine of that
    name, in the namespace of the reference or else of the host, to be gone. *)
Definition legacyOwnerGone (h : hist) (host : HetznerRobotHost) : Prop :=
  hst_ConsumerRef (hrh_Status host) = None /\
  exists ref err, hst_MachineRef (hrh_Status host) = Some ref /\
    Ev (EGet KMachine (MkNamespacedName
          (if String.eqb (mr_Namespace ref) "" then hrh_Namespace host else mr_Namespace ref) (mr_Name ref)))
      (Err err) ∈ h /\ err_notfound err = true.

(** What a write of [backfillProvisionedHostClaim] needs: the host's server
    number is the one in the machine's provider id, it is not in maintenance
    nor Claimed, and it has no owner, this owner, or a legacy one whose machine
    is gone. *)
Definition adoptionWrite (hrm : HetznerRobotMachine) (h : hist) (before after : HetznerRobotHost) : Prop :=
  robotServerIDFromProviderID (ms_ProviderID (hrm_Spec hrm)) = Some (hs_ServerID (hrh_Spec before)) /\
  hs_MaintenanceMode (hrh_Spec before) = false /\
  hst_State (hrh_Status before) <> HostStateClaimed /\
  (currentHostConsumerRef before = None \/
   currentHostConsumerRef before = Some (machineReferenceFor hrm) \/ legacyOwnerGone h before) /\
  hst_State (hrh_Status after) = HostStateProvisioned /\ ownedBy after hrm.

Lemma wp_blockingHostOwnerRef (G : guard) host hrm (Q : option MachineReference * option error -> hist -> Prop) h :
  (forall h' X e, isRead X e -> G h' X e) ->
  (forall r h', extends h' h -> patches KHost h' = patches KHost h ->
     (r = (None, None) ->
       currentHostConsumerRef host = None \/
       currentHostConsumerRef host = Some (machineReferenceFor hrm) \/ legacyOwnerGone h' host) -> Q r h') ->
  wp G (blockingHostOwnerRef host hrm) Q h.
Proof.
  intros HG HQ. unfold blockingHostOwnerRef, currentHostConsumerRef in *.
  destruct (hst_ConsumerRef _) as [ref|] eqn:Hc.
  { destruct (machineReferenceMatches (Some ref) hrm) eqn:Hm; apply wp_ret, HQ; try done.
    intros _. right. left. by apply machineReferenceMatches_spec in Hm. }
  destruct (hst_MachineRef _) as [ref|] eqn:Hmr; [|apply wp_ret, HQ; [done|done|by left]].
  destruct (machineReferenceMatches (Some ref) hrm) eqn:Hm.
  { apply wp_ret, HQ; [done|done|]. intros _. right. left. by apply machineReferenceMatches_spec in Hm. }
  destruct (robotServerIDFromProviderID _) as [id|]; [|by apply wp_ret, HQ].
  destruct (negb _); [by apply wp_ret, HQ|]. cbv zeta.
  apply wp_bind, wp_trigger; [by apply HG|].
  intros [m|err]; [by apply wp_ret, HQ; [extends_tac|..]|].
  destruct (err_notfound err) eqn:Hn; apply wp_ret, HQ; try done; try extends_tac.
  intros _. right. right. split; [done|]. exists ref, err. split; [done|]. split; [constructor|done].
Qed.

(** * Properties *)

(** C16: resolving a machine's host never steals one.  Of all calls only host
    objects are written, at most one, and only in two ways: an Available host
    out of maintenance becomes Claimed with both references naming the machine,
    or a host with no owner or this owner gets both references.  A host is
    returned only when it was read from the API server and both its references
    name the machine, and the machine changes in no field but
    [status.hostRef]. *)
Theorem resolveHost_never_steals `{Lib} (hrm : HetznerRobotMachine) h' r :
  exec (resolveHost hrm) [] h' r ->
  Forall (fun p => claimWrite hrm p.1.1 p.1.2) (patches KHost h') /\
  (length (patches KHost h') <= 1)%nat /\
  claimResult hrm r.1 r.2 h' /\
  guarded (static (isCluster (machineReferenceFor hrm))) h'.
Proof.
  intros He.
  assert (forall G : guard, (forall h X e, hostWrites (claimWrite hrm) X e -> G h X e) ->
    wp G (resolveHost hrm) (fun r h' => (length (patches KHost h') <= 1)%nat /\ claimResult hrm r.1 r.2 h') [])
    as Hwp.
  { intros G HG. apply claims_resolveHost; [by intros; apply HG|]. intros hrm' r' h1 _ Hl Hr. by split. }
  destruct (exec_guarded _ _ _ _ _ He (Hwp (static (patchesOnly KHost (claimWrite hrm)))
    (fun _ X e => hostWrites_patches _ X e))) as [[Hl Hr] Hp].
  destruct (exec_guarded _ _ _ _ _ He (Hwp (static (isCluster (machineReferenceFor hrm)))
    (fun _ X e => claims_cluster hrm X e))) as [_ Hc].
  split; [exact (guarded_patches KHost (claimWrite hrm) h' Hp)|]. split; [done|]. by split.
Qed.

(** C25: a machine that is being deleted never claims a host: the lookup only
    reads, and the host it returns is the one recorded in [status.hostRef], or
    one whose references name the machine. *)
Theorem resolveHostForDelete_never_claims `{Lib} (hrm : HetznerRobotMachine) h' r :
  exec (resolveHostForDelete hrm) [] h' r ->
  guarded (static isRead) h' /\
  forall host, r = Ok (Some host) ->
    (statusHostRef hrm <> "" /\ Ev (EGet KHost (hostKey hrm (statusHostRef hrm))) (Ok host) ∈ h') \/
    hostIsClaimedBy host hrm = true.
Proof.
  intros He.
  destruct (exec_guarded (static isRead) _ (fun r h' => forall host, r = Ok (Some host) ->
    (statusHostRef hrm <> "" /\ Ev (EGet KHost (hostKey hrm (statusHostRef hrm))) (Ok host) ∈ h') \/
    hostIsClaimedBy host hrm = true) _ _ He) as [Hr Hg]; [|done].
  apply wp_resolveHostForDelete; [done|]. intros r' h1 _ Hr host Ho. by apply (Hr host Ho).
Qed.

(** The server number written into a provider id is read back, for every
    positive number of the machine's [int]; other texts are no provider id. *)
Theorem providerID_roundtrip (id : Z) :
  0 < id <= maxInt64 -> robotServerIDFromProviderID (Some (providerPrefix +:+ itoa id)) = Some id.
Proof.
  intros Hid. unfold robotServerIDFromProviderID, hasPrefix. rewrite prefix_app, trimPrefix_app. cbn [negb].
  rewrite atoi_itoa by (unfold in_int64, minInt64; lia).
  destruct (Z.leb_spec id 0); [lia|done].
Qed.


(** C17: adoption must prove ownership.  Backfilling the host of a machine that
    was provisioned before writes at most one host, and only one whose server
    number is the one of the machine's provider id, that is out of maintenance,
    not Claimed and without an owner, its own already, or left by a legacy owner
    (a machineRef without a consumerRef) whose machine the API server has just
    reported as not found; the write makes it
    Provisioned with both references to the machine.  Adoption is reported only
    with such a write acknowledged, and then [status.hostRef] names the host. *)
Theorem backfill_adopts_own_server `{Lib} (hrm : HetznerRobotMachine) h' r :
  exec (backfillProvisionedHostClaim hrm) [] h' r ->
  (patches KHost h' = [] /\ r.2 <> Ok true /\ r.1 = hrm) \/
  exists before after e,
    patches KHost h' = [(before, after, e)] /\ adoptionWrite hrm h' before after /\
    (r.2 = Ok true <-> e = None) /\
    (e = None -> r.1 = set_mst mst_HostRef (hrh_Name before) hrm) /\ (e <> None -> r.1 = hrm).
Proof.
  intros He. by_exec He. clear r h'. unfold backfillProvisionedHostClaim.
  destruct (negb _); [apply wp_ret; by left|].
  destruct (robotServerIDFromProviderID _) as [id|] eqn:Hid; [|apply wp_ret; by left].
  apply wp_bind, wp_reads; [by auto with guards|done|]. intros [host|err] h1 _ P1; [|apply wp_ret; by left].
  destruct (hs_MaintenanceMode _) eqn:Hm; [apply wp_ret; by left|].
  destruct (negb (_ =? _)) eqn:Hs; [apply wp_ret; by left|]. bool_prop. subst id.
  apply wp_bind, wp_blockingHostOwnerRef; [done|]. intros [[ref|] [err|]] h2 E2 P2 Ho.
  1-3: apply wp_ret; left; by rewrite P2, P1.
  destruct (bool_decide _) eqn:Hst; [apply wp_ret; left; by rewrite P2, P1|]. bool_prop.
  apply wp_bind, wp_trigger; [done|].
  intros [err|]; [apply wp_ret; left; rewrite patches_cons; cbn; by rewrite P2, P1|].
  cbv zeta. apply wp_bind, wp_trigger; [done|].
  intros e. destruct e as [err|]; apply wp_ret; right; do 3 eexists; rewrite !patches_cons; cbn;
    rewrite P2, P1; (split; [done|]).
  all: split; [|naive_solver].
  all: unfold adoptionWrite; split_and!; try done.
  all: destruct (Ho eq_refl) as [?|[?|(? & ref & e & Href & Hin & Hn)]]; [by left|by right; left|right; right].
  all: split; [done|]; exists ref, e; split; [done|]; split; [|done]; do 2 (apply elem_of_cons; right); exact Hin.
Qed.

(** A released host is free again.  A release that succeeds has written
    exactly one host, the one it has just read under that name: available,
    without an owner, with the last owner and the reason recorded, without an
    error, and with its spec, hardware details and metadata as they were; out of
    maintenance, it can be claimed again, by any machine. *)
Theorem release_frees_host `{Lib} (ns name : string) h' :
  exec (releaseHost ns name) [] h' None ->
  exists host after, Ev (EGet KHost (MkNamespacedName ns name)) (Ok host) ∈ h' /\
    patches KHost h' = [(host, after, None)] /\
    hst_ConsumerRef (hrh_Status after) = None /\ hst_MachineRef (hrh_Status after) = None /\
    hst_LastConsumerRef (hrh_Status after) = currentHostConsumerRef host /\
    hst_DirtyReason (hrh_Status after) = "ReleasedAfterMachineDelete" /\
    hst_ErrorMessage (hrh_Status after) = "" /\
    hst_HardwareDetails (hrh_Status after) = hst_HardwareDetails (hrh_Status host) /\ sameHost after host /\
    (forall hrm, hostIsClaimedBy after hrm = false) /\
    claimable after = negb (hs_MaintenanceMode (hrh_Spec host)).
Proof.
  intros He. generalize (@eq_refl (option error) None). revert He. generalize (@None error) at 1 2.
  intros r He. by_exec He. clear r h'. unfold releaseHost.
  apply wp_bind, wp_trigger; [done|]. intros [host|err]; [|by apply wp_ret].
  apply wp_bind, wp_trigger; [done|]. intros [err|]; [by apply wp_ret|].
  apply wp_bind, wp_trigger; [done|]. intros [err|]; [by apply wp_ret|].
  apply wp_ret. intros _. exists host, (releasedHost host).
  split; [do 2 (apply elem_of_cons; right); constructor|]. split; [done|].
  do 8 (split; [done|]). unfold claimable. cbn. by destruct (hs_MaintenanceMode _).
Qed.

(** ** Witnesses *)

Import Demo.

Lemma resolveHost_never_steals_witness :
  let p := resolveHost sampleHRM in
  let w := goodWorld sampleHRM sampleHost in
  is_ok (snd (result_of w p)) = true /\
  Forall (fun p => claimWrite sampleHRM p.1.1 p.1.2) (patches KHost (hist_of w p)) /\
  (length (patches KHost (hist_of w p)) <= 1)%nat /\
  claimResult sampleHRM (fst (result_of w p)) (snd (result_of w p)) (hist_of w p) /\
  guarded (static (isCluster (machineReferenceFor sampleHRM))) (hist_of w p).
Proof.
  split; [vm_compute; reflexivity|]. exact (resolveHost_never_steals sampleHRM _ _ (exec_of _ _)).
Defined.

Definition claimedHRM : HetznerRobotMachine := set_mst mst_HostRef "host-1" sampleHRM.

Lemma resolveHostForDelete_never_claims_witness :
  let p := resolveHostForDelete claimedHRM in
  let w := goodWorld claimedHRM sampleHost in
  result_of w p = Ok (Some sampleHost) /\
  guarded (static isRead) (hist_of w p) /\
  (forall host, result_of w p = Ok (Some host) ->
    (statusHostRef claimedHRM <> "" /\
     Ev (EGet KHost (hostKey claimedHRM (statusHostRef claimedHRM))) (Ok host) ∈ hist_of w p) \/
    hostIsClaimedBy host claimedHRM = true).
Proof.
  split; [vm_compute; reflexivity|]. exact (resolveHostForDelete_never_claims claimedHRM _ _ (exec_of _ _)).
Defined.

Lemma providerID_roundtrip_witness :
  0 < 4711 <= maxInt64 /\ robotServerIDFromProviderID (Some (providerPrefix +:+ itoa 4711)) = Some 4711.
Proof. split; [by unfold maxInt64|]. apply (providerID_roundtrip 4711). by unfold maxInt64. Defined.

Definition adoptedHRM : HetznerRobotMachine :=
  set_ms ms_ProviderID (Some "hetzner-robot://4711") (inState StateProvisioned).

Lemma backfill_adopts_own_server_witness :
  let p := backfillProvisionedHostClaim adoptedHRM in
  let w := goodWorld adoptedHRM sampleHost in
  snd (result_of w p) = Ok true /\
  ((patches KHost (hist_of w p) = [] /\ snd (result_of w p) <> Ok true /\
    fst (result_of w p) = adoptedHRM) \/
   exists before after e,
     patches KHost (hist_of w p) = [(before, after, e)] /\
     adoptionWrite adoptedHRM (hist_of w p) before after /\
     (snd (result_of w p) = Ok true <-> e = None) /\
     (e = None -> fst (result_of w p) = set_mst mst_HostRef (hrh_Name before) adoptedHRM) /\
     (e <> None -> fst (result_of w p) = adoptedHRM)).
Proof.
  split; [vm_compute; reflexivity|]. exact (backfill_adopts_own_server adoptedHRM _ _ (exec_of _ _)).
Defined.

Lemma release_frees_host_witness :
  let host := setHostConsumerRef sampleHost (machineReferenceFor sampleHRM) in
  let h := hist_of (goodWorld sampleHRM host) (releaseHost "prod" "host-1") in
  exists read after, Ev (EGet KHost (MkNamespacedName "prod" "host-1")) (Ok read) ∈ h /\
    patches KHost h = [(read, after, None)] /\
    hst_LastConsumerRef (hrh_Status after) = currentHostConsumerRef read /\
    claimable after = negb (hs_MaintenanceMode (hrh_Spec read)).
Proof.
  assert (result_of (goodWorld sampleHRM (setHostConsumerRef sampleHost (machineReferenceFor sampleHRM)))
    (releaseHost "prod" "host-1") = None) as Hr by (vm_compute; reflexivity).
  pose proof (exec_of (goodWorld sampleHRM (setHostConsumerRef sampleHost (machineReferenceFor sampleHRM)))
    (releaseHost "prod" "host-1")) as He.
  rewrite Hr in He. destruct (release_frees_host "prod" "host-1" _ He)
    as (read & after & Hin & Hp & _ & _ & Hl & _ & _ & _ & _ & _ & Hc).
  exists read, after. split; [exact Hin|]. split; [exact Hp|]. split; [exact Hl|exact Hc].
Defined.
