(* ===== verification/Inject.v ===== *)
(** * Talos machineconfig injection

    controllers/hetznerrobotmachine_inject.go: reading the first document of a
    multi-document machineconfig, changing it, and writing it back in front of
    the others.  The decoded YAML is a [value]; a Go map that the code mutates
    in place is a finite map that is returned changed.  Assigning to a nil map
    panics, so a result is a value, an error or a panic. *)

From Stdlib Require Import Ascii.
From S2P Require Import Prelude GoStrings GoTime Api Codec Lib.

Local Open Scope Z_scope.

(** ** Results that may be a panic *)

Inductive gores (A : Type) : Type :=
| GOk (a : A)
| GErr (e : error)
| GPanic (msg : string).
Arguments GOk {A} a.
Arguments GErr {A} e.
Arguments GPanic {A} msg.

#[export] Instance gores_mret : MRet gores := @GOk.
#[export] Instance gores_mbind : MBind gores := fun A B f r =>
  match r with GOk a => f a | GErr e => GErr e | GPanic m => GPanic m end.

#[export] Instance gores_fmap : FMap gores := fun A B f r =>
  match r with GOk a => GOk (f a) | GErr e => GErr e | GPanic m => GPanic m end.

Definition gores_of {A} (r : res A) : gores A :=
  match r with Ok a => GOk a | Err e => GErr e end.

(** [if err != nil { return fmt.Errorf("<pre>%w", err) }] *)
Definition gwrap {A} (pre : string) (r : gores A) : gores A :=
  match r with GErr e => GErr (wrapf pre e "") | r => r end.

Definition nilMapPanic {A} : gores A := GPanic "assignment to entry in nil map".

(** ** Documents *)

Definition docSep : string := nl +:+ "---" +:+ nl.

Fixpoint cleanDocuments (parts : list string) : list string :=
  match parts with
  | [] => []
  | p :: rest =>
      let p := trimSpace p in
      if negb (String.eqb p "") && negb (String.eqb p "---") then
        trimPrefix p ("---" +:+ nl) :: cleanDocuments rest
      else cleanDocuments rest
  end.

Definition splitYAMLDocuments (data : string) : list string := cleanDocuments (split data docSep).

(** The documents after the first are appended as they were split. *)
Definition appendDocuments (first : string) (rest : list string) : string :=
  fold_left (fun result doc => (result +:+ docSep) +:+ doc) rest first.

(** [fn] gets the decoded document, [None] when it decodes to a nil map. *)
Definition modifyFirstDocument `{Lib} (configData : string) (fn : option object -> gores object)
    : gores string :=
  match splitYAMLDocuments configData with
  | [] => GErr (errorf "empty machineconfig")
  | doc :: rest =>
      config ← gwrap "unmarshal first document: " (gores_of (yaml_Unmarshal doc));
      config ← fn config;
      firstDoc ← gwrap "marshal first document: " (gores_of (yaml_Marshal config));
      GOk (appendDocuments firstDoc rest)
  end.

(** ** Maps *)

(** The child map [ensureMap] returns. *)
Definition childMap (parent : object) (key : string) : object :=
  match parent !! key with Some (VMap m) => m | _ => ∅ end.

(** [ensureMap(parent, key)] followed by the changes [f] makes to the child. *)
Definition ensureMap (parent : object) (key : string) (f : object -> object) : object :=
  <[key := VMap (f (childMap parent key))]> parent.

(** The same for the document itself, which may be a nil map. *)
Definition ensureTop (config : option object) (key : string) (f : object -> object) : gores object :=
  match config with
  | None => nilMapPanic
  | Some config => GOk (ensureMap config key f)
  end.

(** [l, _ := m[key].([]interface{})] *)
Definition listAt (m : object) (key : string) : list value :=
  match m !! key with Some (VList l) => l | _ => [] end.

Definition obj (l : list (string * value)) : value := VMap (list_to_map l).

(** ** Injections *)

Definition defaultInstallDisk : string := "/dev/nvme0n1".

Definition setInstallDisk (installDisk : string) (config : option object) : gores object :=
  ensureTop config "machine" (fun machine =>
    ensureMap machine "install" (fun install =>
      match install !! "disk" with
      | Some _ => install
      | None => <["disk" := VString installDisk]> install
      end)).

Definition injectInstallDisk `{Lib} (configData installDisk : string) : gores string :=
  let installDisk := if String.eqb installDisk "" then defaultInstallDisk else installDisk in
  modifyFirstDocument configData (setInstallDisk installDisk).

(** [strings.Split(ipv6Net, "/")[0]] *)
Definition ipv6Prefix (ipv6Net : string) : string := hd "" (split ipv6Net "/").

Definition ipv6Interface (ipv6Net primaryMAC : string) : value :=
  let ipv6Addr := ipv6Prefix ipv6Net +:+ "1/64" in
  let selector : object := <["physical" := VBool true]> ∅ in
  let selector := if String.eqb primaryMAC "" then selector
                  else <["hardwareAddr" := VString primaryMAC]> selector in
  obj [("deviceSelector", VMap selector);
       ("addresses", VList [VString ipv6Addr]);
       ("routes", VList [obj [("network", VString "::/0"); ("gateway", VString "fe80::1")]])].

Definition setIPv6 (ipv6Net primaryMAC : string) (config : option object) : gores object :=
  ensureTop config "machine" (fun machine =>
    let machine := ensureMap machine "network" (fun network =>
      <["interfaces" := VList (listAt network "interfaces" ++ [ipv6Interface ipv6Net primaryMAC])]> network) in
    ensureMap machine "sysctls" (fun sysctls =>
      <["net.ipv6.conf.all.forwarding" := VString "1"]> sysctls)).

(** The last parameter of the Go function is not used. *)
Definition injectIPv6Config `{Lib} (configData ipv6Net primaryMAC internalIP : string) : gores string :=
  if String.eqb ipv6Net "" then GOk configData
  else modifyFirstDocument configData (setIPv6 ipv6Net primaryMAC).

(** The node address of a subnet: [::1] in it. *)
Definition nodeIPv6Of (ipv6Net : string) : string :=
  if String.eqb ipv6Net "" then "" else trimSuffix (ipv6Prefix ipv6Net) "::" +:+ "::1".

(** The [switch] on the two addresses; empty for neither. *)
Definition nodeIPOf (internalIP ipv6Net : string) : string :=
  let nodeIPv6 := nodeIPv6Of ipv6Net in
  if negb (String.eqb internalIP "") && negb (String.eqb nodeIPv6 "") then internalIP +:+ "," +:+ nodeIPv6
  else if negb (String.eqb internalIP "") then internalIP
  else if negb (String.eqb nodeIPv6 "") then nodeIPv6
  else "".

(** Both kubelet injections set one argument. *)
Definition setKubeletArg (arg val : string) (config : option object) : gores object :=
  ensureTop config "machine" (fun machine =>
    ensureMap machine "kubelet" (fun kubelet =>
      ensureMap kubelet "extraArgs" (fun extraArgs => <[arg := VString val]> extraArgs))).

Definition injectKubeletNodeIP `{Lib} (configData internalIP ipv6Net : string) : gores string :=
  let nodeIP := nodeIPOf internalIP ipv6Net in
  if String.eqb nodeIP "" then GOk configData
  else modifyFirstDocument configData (setKubeletArg "node-ip" nodeIP).

Definition stripVLANs (iface : value) : value :=
  match iface with VMap m => VMap (delete "vlans" m) | v => v end.

Definition prefixLenOf (vlanCfg : VLANConfig) : Z :=
  if vl_PrefixLength vlanCfg =? 0 then 24 else vl_PrefixLength vlanCfg.

Definition vlanInterface (vlanCfg : VLANConfig) (internalIP primaryMAC : string) : value :=
  obj [("deviceSelector", obj [("physical", VBool true); ("hardwareAddr", VString primaryMAC)]);
       ("vlans", VList [obj [("vlanId", VNum (vl_ID vlanCfg));
          ("addresses", VList [VString (internalIP +:+ "/" +:+ itoa (prefixLenOf vlanCfg))])]])].

Definition setVLAN (vlanCfg : VLANConfig) (internalIP primaryMAC : string) (config : option object)
    : gores object :=
  ensureTop config "machine" (fun machine =>
    ensureMap machine "network" (fun network =>
      <["interfaces" := VList (map stripVLANs (listAt network "interfaces")
                                 ++ [vlanInterface vlanCfg internalIP primaryMAC])]> network)).

(** The last two parameters of the Go function are not used. *)
Definition injectVLANConfig `{Lib} (configData : string) (vlanCfg : option VLANConfig)
    (internalIP primaryMAC serverIP gatewayIP : string) : gores string :=
  match vlanCfg with
  | None => GOk configData
  | Some vlanCfg =>
      if String.eqb internalIP "" then GOk configData
      else if String.eqb primaryMAC "" then
        GErr (errorf "primaryMAC required for VLAN injection — detected during rescue")
      else modifyFirstDocument configData (setVLAN vlanCfg internalIP primaryMAC)
  end.

Definition injectProviderID `{Lib} (configData providerID : string) : gores string :=
  if String.eqb providerID "" then GOk configData
  else modifyFirstDocument configData (setKubeletArg "provider-id" providerID).

(** * Facts *)

Lemma listAt_insert m key l : listAt (<[key := VList l]> m) key = l.
Proof. unfold listAt. by rewrite lookup_insert_eq. Qed.

Lemma listAt_insert_ne m key key' v : key <> key' -> listAt (<[key := v]> m) key' = listAt m key'.
Proof. intros Hne. unfold listAt. by rewrite lookup_insert_ne. Qed.
