(* ===== verification/Ignition.v ===== *)
(** * Flatcar Ignition configs

    controllers/hetznerrobotmachine_ignition.go: the changes made to the
    bootstrap Ignition JSON before it is installed.  A [VList] with no elements
    stands for an empty and for a nil slice alike. *)

From Stdlib Require Import Ascii.
From S2P Require Import Prelude GoStrings GoTime Api Effects Codec Lib Rescue Inject.

Local Open Scope Z_scope.

(** ** Values *)

(** A type assertion without the second result. *)
Definition assertMap (v : option value) : gores object :=
  match v with Some (VMap m) => GOk m | _ => GPanic "interface conversion: not a map" end.

Definition assertList (v : option value) : gores (list value) :=
  match v with Some (VList l) => GOk l | _ => GPanic "interface conversion: not a slice" end.

(** [s, _ := m[key].(string)] *)
Definition stringAt (m : object) (key : string) : string :=
  match m !! key with Some (VString s) => s | _ => "" end.

(** Comparing an interface value with a string. *)
Definition isString (v : option value) (s : string) : bool :=
  match v with Some (VString s') => String.eqb s' s | _ => false end.

(** [m[key] = v] when the map may be nil. *)
Definition assign (m : option object) (key : string) (v : value) : gores object :=
  match m with Some m => GOk (<[key := v]> m) | None => nilMapPanic end.

(** Reading a nil map finds nothing. *)
Definition index (m : option object) (key : string) : option value :=
  match m with Some m => m !! key | None => None end.

(** [fmt.Sprintf("%v", v)]; maps print in the order of their keys. *)
Fixpoint sprintV (v : value) : string :=
  match v with
  | VNil => "<nil>"
  | VBool b => if b then "true" else "false"
  | VNum n => itoa n
  | VFloat t => t
  | VString s => s
  | VList l => "[" +:+ join (map sprintV l) " " +:+ "]"
  | VMap m =>
      let printed := map_fold (fun k v acc => <[k := sprintV v]> acc) (∅ : gmap string string) m in
      "map[" +:+ join (map (fun k => k +:+ ":" +:+ printed !!! k)
        (sortStrings (map fst (map_to_list printed)))) " " +:+ "]"
  | VOther d => d
  end.

(** [url.PathEscape] *)
Definition urlEncode (s : string) : string := pathEscape s.

(** ** Compatibility fixes *)

(** The body of the loop over the files. *)
Definition fixInline (f : value) : value :=
  match f with
  | VMap file =>
      match file !! "contents" with
      | Some (VMap contents) =>
          match contents !! "inline", contents !! "source" with
          | Some inline, None =>
              let contents := <["source" := VString ("data:," +:+ urlEncode (sprintV inline))]> contents in
              let contents := delete "inline" contents in
              VMap (<["contents" := VMap contents]> file)
          | _, _ => f
          end
      | _ => f
      end
  | _ => f
  end.

Definition fixIgnitionInlineFields (ign : option object) : option object :=
  match ign with
  | Some m =>
      match m !! "storage" with
      | Some (VMap storage) =>
          match storage !! "files" with
          | Some (VList files) =>
              Some (<["storage" := VMap (<["files" := VList (map fixInline files)]> storage)]> m)
          | _ => ign
          end
      | _ => ign
      end
  | None => None
  end.

Definition fileSource (file : object) : string :=
  match file !! "contents" with Some (VMap contents) => stringAt contents "source" | _ => "" end.

Definition isURL (src : string) : bool := hasPrefix src "http://" || hasPrefix src "https://".

(** The loop over the files: those kept, and the paths of those removed. *)
Fixpoint keepFiles (files : list value) : gores (list value * list string) :=
  match files with
  | [] => GOk ([], [])
  | VMap file :: rest =>
      if isURL (fileSource file) then
        match file !! "path" with
        | Some (VString path) => '(kept, removed) ← keepFiles rest; GOk (kept, path :: removed)
        | _ => GPanic "interface conversion: path is not a string"
        end
      else '(kept, removed) ← keepFiles rest; GOk (VMap file :: kept, removed)
  | f :: rest => '(kept, removed) ← keepFiles rest; GOk (f :: kept, removed)
  end.

(** The links that stay when the files at [removed] are gone. *)
Definition keepLink (removed : list string) (l : value) : bool :=
  match l with VMap link => negb (existsb (String.eqb (stringAt link "target")) removed) | _ => true end.

Definition removeIgnitionURLDownloads (ign : option object) : gores (option object) :=
  match ign with
  | Some m =>
      match m !! "storage" with
      | Some (VMap storage) =>
          '(storage, removed) ←
            match storage !! "files" with
            | Some (VList files) =>
                '(kept, removed) ← keepFiles files;
                GOk (<["files" := VList kept]> storage, removed)
            | _ => GOk (storage, [])
            end;
          let storage :=
            match storage !! "links", removed with
            | Some (VList links), _ :: _ =>
                <["links" := VList (List.filter (keepLink removed) links)]> storage
            | _, _ => storage
            end in
          GOk (Some (<["storage" := VMap storage]> m))
      | _ => GOk ign
      end
  | None => GOk None
  end.

(** ** Files, units, keys *)

Definition ignitionFile (path content : string) (mode : Z) : value :=
  obj [("path", VString path);
       ("contents", obj [("source", VString ("data:," +:+ urlEncode content))]);
       ("mode", VNum mode);
       ("overwrite", VBool true)].

Definition addIgnitionFile (storage : object) (path content : string) (mode : Z) : gores object :=
  files ← assertList (storage !! "files");
  GOk (<["files" := VList (files ++ [ignitionFile path content mode])]> storage).

Definition addIgnitionUnit (systemd : object) (name : string) (enabled : bool) (contents : string)
    : gores object :=
  units ← assertList (systemd !! "units");
  let unit : object := <["name" := VString name]> (<["enabled" := VBool enabled]> ∅) in
  let unit := if String.eqb contents "" then unit else <["contents" := VString contents]> unit in
  GOk (<["units" := VList (units ++ [VMap unit])]> systemd).

(** Changes the first element that is a map whose [name] is the given one;
    [None] when there is none. *)
Fixpoint updateNamed (name : string) (f : object -> object) (l : list value) : option (list value) :=
  match l with
  | [] => None
  | VMap m :: rest =>
      if isString (m !! "name") name then Some (VMap (f m) :: rest)
      else cons (VMap m) <$> updateNamed name f rest
  | v :: rest => cons v <$> updateNamed name f rest
  end.

Definition kubeletDropin (extraArgs : string) : value :=
  obj [("name", VString "10-caphr-args.conf");
       ("contents", VString ("[Service]" +:+ nl +:+ "Environment=" +:+ doubleQuote +:+ "KUBELET_EXTRA_ARGS="
          +:+ extraArgs +:+ doubleQuote +:+ nl))].

Definition addKubeletDropin (systemd : object) (extraArgs : string) : gores object :=
  units ← assertList (systemd !! "units");
  match updateNamed "kubelet.service"
          (fun unit => <["dropins" := VList (listAt unit "dropins" ++ [kubeletDropin extraArgs])]> unit) units with
  | Some units => GOk (<["units" := VList units]> systemd)
  | None => GOk systemd
  end.

(** The text of the primary network file. *)
Definition primaryNetwork (primaryMAC serverIP gatewayIP ipv6Net : string) (vlanConfig : option VLANConfig)
    : string :=
  "[Match]" +:+ nl +:+ "MACAddress=" +:+ primaryMAC +:+ nl
  +:+ nl +:+ "[Network]" +:+ nl +:+ "DNS=185.12.64.1" +:+ nl +:+ "DNS=185.12.64.2" +:+ nl
  +:+ match vlanConfig with Some v => "VLAN=vlan" +:+ itoa (vl_ID v) +:+ nl | None => "" end
  +:+ nl +:+ "[Address]" +:+ nl +:+ "Address=" +:+ serverIP +:+ "/32" +:+ nl
  +:+ "Peer=" +:+ gatewayIP +:+ "/32" +:+ nl
  +:+ nl +:+ "[Route]" +:+ nl +:+ "Destination=0.0.0.0/0" +:+ nl +:+ "Gateway=" +:+ gatewayIP +:+ nl
  +:+ (if String.eqb ipv6Net "" then ""
       else
         let ipv6Addr := trimSuffix (ipv6Prefix ipv6Net) "::" +:+ "::1/64" in
         nl +:+ "[Address]" +:+ nl +:+ "Address=" +:+ ipv6Addr +:+ nl
         +:+ nl +:+ "[Route]" +:+ nl +:+ "Destination=::/0" +:+ nl +:+ "Gateway=fe80::1" +:+ nl).

(** The file mode 0o644. *)
Definition mode644 : Z := 420.

Definition addHetznerPrimaryNetwork (storage : object) (primaryMAC serverIP gatewayIP ipv6Net : string)
    (vlanConfig : option VLANConfig) : gores object :=
  addIgnitionFile storage "/etc/systemd/network/10-public.network"
    (primaryNetwork primaryMAC serverIP gatewayIP ipv6Net vlanConfig) mode644.

Definition vlanNetdev (vlanID : Z) : string :=
  "[NetDev]" +:+ nl +:+ "Name=vlan" +:+ itoa vlanID +:+ nl +:+ "Kind=vlan" +:+ nl +:+ nl
  +:+ "[VLAN]" +:+ nl +:+ "Id=" +:+ itoa vlanID +:+ nl.

Definition vlanNetwork (vlanID : Z) (internalIP : string) (prefixLen : Z) : string :=
  "[Match]" +:+ nl +:+ "Name=vlan" +:+ itoa vlanID +:+ nl +:+ nl
  +:+ "[Network]" +:+ nl +:+ "Address=" +:+ internalIP +:+ "/" +:+ itoa prefixLen +:+ nl.

Definition addVLANNetdevAndNetwork (storage : object) (vlanID : Z) (internalIP : string) (prefixLen : Z)
    : gores object :=
  storage ← addIgnitionFile storage ("/etc/systemd/network/10-vlan" +:+ itoa vlanID +:+ ".netdev")
              (vlanNetdev vlanID) mode644;
  addIgnitionFile storage ("/etc/systemd/network/10-vlan" +:+ itoa vlanID +:+ ".network")
    (vlanNetwork vlanID internalIP prefixLen) mode644.

Definition addNetworkdIPv6File (storage : object) (ipv6Addr primaryMAC : string) : gores object :=
  addIgnitionFile storage "/etc/systemd/network/10-ipv6.network"
    ("[Match]" +:+ nl +:+ "MACAddress=" +:+ primaryMAC +:+ nl +:+ nl
     +:+ "[Network]" +:+ nl +:+ "Address=" +:+ ipv6Addr +:+ nl +:+ nl
     +:+ "[Route]" +:+ nl +:+ "Destination=::/0" +:+ nl +:+ "Gateway=fe80::1" +:+ nl) mode644.

(** The user's entry once the key is in it. *)
Definition authorizeKey (pubKey : string) (user : object) : object :=
  let keys := listAt user "sshAuthorizedKeys" in
  if existsb (fun k => isString (Some k) pubKey) keys then user
  else <["sshAuthorizedKeys" := VList (keys ++ [VString pubKey])]> user.

Definition newUser (username pubKey : string) : value :=
  obj [("name", VString username); ("sshAuthorizedKeys", VList [VString pubKey])].

Definition addSSHAuthorizedKey (ign : option object) (username pubKey : string) : gores (option object) :=
  ign ← match index ign "passwd" with
        | None => Some <$> assign ign "passwd" (VMap ∅)
        | Some _ => GOk ign
        end;
  passwd ← assertMap (index ign "passwd");
  let passwd := match passwd !! "users" with
                | None => <["users" := VList []]> passwd
                | Some _ => passwd
                end in
  users ← assertList (passwd !! "users");
  let users := match updateNamed username (authorizeKey pubKey) users with
               | Some users => users
               | None => users ++ [newUser username pubKey]
               end in
  Some <$> assign ign "passwd" (VMap (<["users" := VList users]> passwd)).

Definition buildKubeletExtraArgs (providerID internalIP ipv6Net : string) : string :=
  let args := if String.eqb providerID "" then [] else ["--provider-id=" +:+ providerID] in
  let nodeIP := nodeIPOf internalIP ipv6Net in
  let args := if String.eqb nodeIP "" then args else args ++ ["--node-ip=" +:+ nodeIP] in
  join args " ".

(** ** The whole injection *)

(** [if _, ok := m[key]; !ok { m[key] = empty }], then the map at [key]. *)
Definition section (ign : option object) (key : string) : gores (option object * object) :=
  ign ← match index ign key with
        | None => Some <$> assign ign key (VMap ∅)
        | Some _ => GOk ign
        end;
  m ← assertMap (index ign key);
  GOk (ign, m).

Definition withDefault (m : object) (key : string) : object :=
  match m !! key with None => <[key := VList []]> m | Some _ => m end.

Definition injectFlatcarConfig `{Lib} (bootstrapData providerID internalIP ipv6Net primaryMAC : string)
    (vlanConfig : option VLANConfig) (sshPublicKey serverIP gatewayIP : string) : gores string :=
  ign ← gwrap "parse Ignition JSON: " (gores_of (json_Unmarshal_map bootstrapData));
  ign ← removeIgnitionURLDownloads (fixIgnitionInlineFields ign);
  '(ign, storage) ← section ign "storage";
  let storage := withDefault storage "files" in
  '(ign, systemd) ← section ign "systemd";
  let systemd := withDefault systemd "units" in
  let kubeletArgs := buildKubeletExtraArgs providerID internalIP ipv6Net in
  systemd ← (if String.eqb kubeletArgs "" then GOk systemd
             else systemd ← addIgnitionUnit systemd "kubelet.service" false "";
                  addKubeletDropin systemd kubeletArgs);
  storage ← (if negb (String.eqb serverIP "") && negb (String.eqb gatewayIP "")
             then addHetznerPrimaryNetwork storage primaryMAC serverIP gatewayIP ipv6Net None
             else GOk storage);
  ign ← assign ign "storage" (VMap storage);
  ign ← assign (Some ign) "systemd" (VMap systemd);
  ign ← (if String.eqb sshPublicKey "" then GOk (Some ign)
         else addSSHAuthorizedKey (Some ign) "core" sshPublicKey);
  gwrap "marshal Ignition JSON: " (gores_of (json_MarshalIndent (default ∅ ign))).

(** ** Writing a network file before the first boot *)

(** Each command's failure is wrapped; the partition is unmounted at the end
    whatever happened once it is mounted. *)
Definition writePreBootNetwork (sshClient : SSHClient) (installDisk primaryMAC serverIP gatewayIP ipv6Net
    internalIP : string) (vlanConfig : option VLANConfig) : prog (option error) :=
  if String.eqb serverIP "" || String.eqb gatewayIP "" then
    Ret (Some (errorf "cannot write pre-boot network: serverIP or gatewayIP empty"))
  else
    let rootPart := installDisk +:+ "p9" in
    let mountPoint := "/mnt/flatcar-root" in
    let networkDir := mountPoint +:+ "/etc/systemd/network" in
    let heredoc (file text : string) :=
      "cat > " +:+ networkDir +:+ "/" +:+ file +:+ " << 'NETEOF'" +:+ nl +:+ text +:+ "NETEOF" in
    runStep sshClient ("mount ROOT partition " +:+ rootPart)
      ("mkdir -p " +:+ mountPoint +:+ " && mount " +:+ rootPart +:+ " " +:+ mountPoint) (
    e ← runStep sshClient "create networkd dir on ROOT" ("mkdir -p " +:+ networkDir) (
        runStep sshClient "write 10-static-preboot.network"
          (heredoc "10-static-preboot.network" (primaryNetwork primaryMAC serverIP gatewayIP ipv6Net vlanConfig)) (
        match vlanConfig with
        | Some v =>
            if String.eqb internalIP "" then Ret None
            else
              let id := itoa (vl_ID v) in
              runStep sshClient "write vlan netdev"
                (heredoc ("10-vlan" +:+ id +:+ ".netdev") (vlanNetdev (vl_ID v))) (
              runStep sshClient "write vlan network"
                (heredoc ("10-vlan" +:+ id +:+ ".network") (vlanNetwork (vl_ID v) internalIP (prefixLenOf v))) (
              Ret None))
        | None => Ret None
        end));
    _ ← Run sshClient ("umount " +:+ mountPoint +:+ " 2>/dev/null || true");
    Ret e).

(** ** Templates *)

Definition devmapperPoolServiceUnit : string := rawString "[Unit]
Description=Create devmapper thin-pool for containerd
DefaultDependencies=no
Before=containerd.service
After=dev-disk-by\x2dpartlabel-r\x2ddm\x2ddata.device
Wants=dev-disk-by\x2dpartlabel-r\x2ddm\x2ddata.device

[Service]
Type=oneshot
RemainAfterExit=yes
ExecStart=/opt/bin/setup-devmapper-pool.sh

[Install]
WantedBy=multi-user.target
".

Definition devmapperPoolScript : string := rawString "#!/bin/bash
set -euo pipefail

POOL_NAME=`containerd-pool`
DM_PART=`/dev/disk/by-partlabel/r-dm-data`
META_DIR=`/var/lib/devmapper`
META_FILE=`${META_DIR}/meta`

log() { echo `devmapper-pool: $*`; }

# Wait for partition device to appear.
WAIT=0
while [ ! -b `$DM_PART` ] && [ `$WAIT` -lt 30 ]; do
    sleep 1
    WAIT=$((WAIT + 1))
done
if [ ! -b `$DM_PART` ]; then
    log `ERROR: $DM_PART not found after ${WAIT}s`
    exit 1
fi
log `partition ready after ${WAIT}s`

# Check if pool already exists (persistent across reboots if metadata on disk).
if dmsetup info `$POOL_NAME` >/dev/null 2>&1; then
    log `pool already exists, nothing to do`
    exit 0
fi

DATA_DEV=$(readlink -f `$DM_PART`)
log `data device: $DATA_DEV`

# Create metadata sparse file (4GB) on /var.
# On Flatcar /var is writable (stateful partition), unlike Talos extensions.
mkdir -p `$META_DIR`
if [ ! -f `$META_FILE` ]; then
    dd if=/dev/zero of=`$META_FILE` bs=1 count=0 seek=4294967296 2>/dev/null
    log `metadata file created`
fi

META_LOOP=$(losetup -f --show `$META_FILE`)
SECTORS=$(blockdev --getsz `$DATA_DEV`)
log `creating pool: data=$DATA_DEV sectors=$SECTORS meta=$META_LOOP`

dmsetup create `$POOL_NAME` \
    --table `0 ${SECTORS} thin-pool ${META_LOOP} ${DATA_DEV} 512 32768 1 skip_block_zeroing`
log `pool created successfully`
".

Definition containerdDevmapperConfig : string := rawString "# Devmapper snapshotter for Kata containers.
# Pool created by devmapper-pool.service (Before=containerd.service).
[plugins.`io.containerd.snapshotter.v1.devmapper`]
  pool_name = `containerd-pool`
  root_path = `/var/lib/containerd/devmapper`
  base_image_size = `10GB`
  discard_blocks = true
  fs_type = `ext4`
  async_remove = true
".

Definition isFlatcar (hrm : HetznerRobotMachine) : bool :=
  String.eqb (ms_OSType (hrm_Spec hrm)) OSTypeFlatcar.
