(* ===== verification/FlatcarConfig.v ===== *)
(** * What a Flatcar server boots with

    Facts about the Ignition config [injectFlatcarConfig] produces: the fixes
    for Flatcar reach every file, and what the injection adds is there. *)

From S2P Require Import Prelude GoStrings GoTime Api Effects Codec Lib Rescue Inject Ignition.

Local Open Scope Z_scope.

(** * Specification *)

(** The list at a key of a section of a document. *)
Definition sectionList (m : object) (sec key : string) : list value :=
  match m !! sec with Some (VMap s) => listAt s key | _ => [] end.

(** No file is fetched over HTTP, and none has inline contents without a
    source. *)
Definition remoteFree (files : list value) : Prop :=
  forall file, VMap file ∈ files -> isURL (fileSource file) = false.

Definition inlineFree (files : list value) : Prop :=
  forall file contents, VMap file ∈ files -> file !! "contents" = Some (VMap contents) ->
    is_Some (contents !! "inline") -> is_Some (contents !! "source").

(** The key opens the user's account. *)
Definition keyAuthorized (m : object) (username key : string) : Prop :=
  exists user, VMap user ∈ sectionList m "passwd" "users" /\
    user !! "name" = Some (VString username) /\ VString key ∈ listAt user "sshAuthorizedKeys".

(** A unit of systemd carries the drop-in. *)
Definition hasDropin (m : object) (unitName : string) (dropin : value) : Prop :=
  exists unit, VMap unit ∈ sectionList m "systemd" "units" /\
    unit !! "name" = Some (VString unitName) /\ dropin ∈ listAt unit "dropins".

(** * Facts *)

Lemma gbind_ok {A B} (r : gores A) (f : A -> gores B) b :
  r ≫= f = GOk b -> exists a, r = GOk a /\ f a = GOk b.
Proof. destruct r; try done. intros Hf. eauto. Qed.

Lemma gwrap_ok {A} pre (r : gores A) a : gwrap pre r = GOk a -> r = GOk a.
Proof. by destruct r. Qed.

Lemma gores_of_ok {A} (r : res A) a : gores_of r = GOk a -> r = Ok a.
Proof. destruct r; try done. by intros [= ->]. Qed.

(** Inverts the binds of a hypothesis. *)
Ltac inv_g H :=
  lazymatch type of H with
  | _ ≫= _ = GOk _ =>
      let a := fresh "a" in let Ha := fresh "Ha" in
      apply gbind_ok in H as (a & Ha & H)
  | gwrap _ _ = GOk _ => apply gwrap_ok in H
  | gores_of _ = GOk _ => apply gores_of_ok in H
  | GOk _ = GOk _ => injection H as H
  end.

Lemma assertMap_ok v m : assertMap v = GOk m -> v = Some (VMap m).
Proof. destruct v as [[]|]; try done. by intros [= ->]. Qed.

Lemma assertList_ok v l : assertList v = GOk l -> v = Some (VList l).
Proof. destruct v as [[]|]; try done. by intros [= ->]. Qed.

Lemma assign_ok m key v m' : assign m key v = GOk m' -> exists m0, m = Some m0 /\ m' = <[key := v]> m0.
Proof. destruct m; try done. intros [= <-]. eauto. Qed.

Lemma isString_spec v s : isString v s = true <-> v = Some (VString s).
Proof.
  destruct v as [[]|]; cbn; try done. rewrite String.eqb_eq. naive_solver.
Qed.

(** ** Files *)

Lemma inlineFree_sub l l' : (forall f, f ∈ l' -> f ∈ l) -> inlineFree l -> inlineFree l'.
Proof. intros Hs Hi file contents Hin. apply Hi. auto. Qed.

Lemma fixInline_inlineFree files : inlineFree (map fixInline files).
Proof.
  intros file contents Hin Hc Hinl. apply list_elem_of_In, in_map_iff in Hin as (f & Hf & _).
  destruct f as [| | | | | |file0|]; try done. cbn in Hf.
  destruct (file0 !! "contents") as [[| | | | | |c|]|] eqn:Hc0; try (injection Hf as <-; congruence).
  destruct (c !! "inline") as [inline|] eqn:Hi; [|injection Hf as <-; rewrite Hc0 in Hc; injection Hc as <-].
  - destruct (c !! "source") as [src|] eqn:Hs.
    + injection Hf as <-. rewrite Hc0 in Hc. injection Hc as <-. by rewrite Hs.
    + injection Hf as <-. rewrite lookup_insert_eq in Hc. injection Hc as <-.
      rewrite lookup_delete_eq in Hinl. by destruct Hinl.
  - rewrite Hi in Hinl. by destruct Hinl.
Qed.

Lemma keepFiles_ok files kept removed :
  keepFiles files = GOk (kept, removed) ->
  remoteFree kept /\ (forall f, f ∈ kept -> f ∈ files).
Proof.
  revert kept removed. induction files as [|f files IH]; intros kept removed; cbn.
  { intros [= <- <-]. split; [intros file Hin; by apply elem_of_nil in Hin|done]. }
  assert (forall g, remoteFree [g] ->
    (keepFiles files ≫= fun '(kept, removed) => GOk (g :: kept, removed)) = GOk (kept, removed) ->
    g = f -> remoteFree kept /\ forall f0, f0 ∈ kept -> f0 ∈ f :: files) as Hkeep.
  { intros g Hg Hk ->. inv_g Hk. destruct a as [kept' removed']. injection Hk as <- <-.
    destruct (IH _ _ Ha) as [Hr Hs]. split; [|set_solver].
    intros file [Heq|Hin]%elem_of_cons; [|by apply Hr]. apply Hg. rewrite <- Heq. constructor. }
  assert (forall g, (forall file, g <> VMap file) -> remoteFree [g]) as Hother.
  { intros g Hg file Hin%list_elem_of_singleton. by destruct (Hg file). }
  destruct f as [| | | | | |file|]; try (intros Hk; eapply Hkeep; [|exact Hk|done]; by apply Hother).
  destruct (isURL (fileSource file)) eqn:Hu.
  - destruct (file !! "path") as [[]|]; try done. intros Hk. inv_g Hk. destruct a as [kept' removed'].
    injection Hk as <- <-. destruct (IH _ _ Ha) as [Hr Hs]. split; [done|set_solver].
  - intros Hk. eapply Hkeep; [|exact Hk|done]. intros file' Hin%list_elem_of_singleton. by injection Hin as ->.
Qed.

Definition cleanStorage (storage : object) : Prop :=
  remoteFree (listAt storage "files") /\ inlineFree (listAt storage "files").

Lemma cleanFiles_nil : remoteFree [] /\ inlineFree [].
Proof. split; [intros file Hin|intros file c Hin]; by apply elem_of_nil in Hin. Qed.

(** The files of the document's storage once both fixes ran. *)
Lemma fixes_clean ign ign' storage :
  removeIgnitionURLDownloads (fixIgnitionInlineFields ign) = GOk ign' ->
  index ign' "storage" = Some (VMap storage) -> cleanStorage storage.
Proof.
  unfold cleanStorage. destruct ign as [m|]; [|by intros [= <-]].
  unfold fixIgnitionInlineFields. destruct (m !! "storage") as [[| | | | | |st|]|] eqn:Hst; try (
    unfold removeIgnitionURLDownloads; rewrite Hst; intros [= <-]; cbn; by rewrite Hst).
  assert (exists m1 st1, (match st !! "files" with
     | Some (VList files) => Some (<["storage" := VMap (<["files" := VList (map fixInline files)]> st)]> m)
     | _ => Some m end) = Some m1 /\ m1 !! "storage" = Some (VMap st1) /\ inlineFree (listAt st1 "files"))
    as (m1 & st1 & -> & Hst1 & Hinl).
  { destruct (st !! "files") as [[| | | | |files| |]|] eqn:Hf;
      try (exists m, st; split; [done|]; split; [done|]; unfold listAt; rewrite Hf; apply cleanFiles_nil).
    eexists _, _. split; [done|]. split; [by rewrite lookup_insert_eq|].
    rewrite listAt_insert. apply fixInline_inlineFree. }
  unfold removeIgnitionURLDownloads. rewrite Hst1. intros Hr. inv_g Hr. destruct a as [st2 removed].
  injection Hr as <-. cbn. rewrite lookup_insert_eq. intros [= <-].
  assert (remoteFree (listAt st2 "files") /\ inlineFree (listAt st2 "files")) as [H2r H2i].
  { unfold listAt in Hinl. destruct (st1 !! "files") as [[| | | | |files| |]|] eqn:Hf;
      try (injection Ha as <- <-; unfold listAt; rewrite Hf; apply cleanFiles_nil).
    inv_g Ha. destruct a as [kept removed']. injection Ha as <- <-. rewrite listAt_insert.
    destruct (keepFiles_ok _ _ _ Ha0) as [Hk Hs]. split; [done|]. by eapply inlineFree_sub. }
  assert (forall l, listAt (<["links" := VList l]> st2) "files" = listAt st2 "files") as Hl
    by (intros l; by apply listAt_insert_ne).
  destruct (st2 !! "links") as [[]|]; try done. destruct removed; [done|]. by rewrite Hl.
Qed.

(** A file the injection adds. *)
Lemma addIgnitionFile_ok storage path content mode storage' :
  addIgnitionFile storage path content mode = GOk storage' -> cleanStorage storage ->
  cleanStorage storage' /\ ignitionFile path content mode ∈ listAt storage' "files".
Proof.
  unfold addIgnitionFile. intros Ha [Hr Hi]. inv_g Ha. injection Ha as <-. apply assertList_ok in Ha0.
  unfold cleanStorage. rewrite listAt_insert. unfold listAt in Hr, Hi. rewrite Ha0 in Hr, Hi.
  split; [split|].
  - intros file [Hin|Hin%list_elem_of_singleton]%elem_of_app; [by apply Hr|]. injection Hin as ->. done.
  - intros file c [Hin|Hin%list_elem_of_singleton]%elem_of_app; [by apply Hi|]. injection Hin as ->.
    cbn. intros [= <-] [x Hx]. by eexists.
  - apply elem_of_app. right. constructor.
Qed.

(** ** Units and users *)

Lemma updateNamed_some name f l l' :
  updateNamed name f l = Some l' ->
  exists m, VMap m ∈ l /\ m !! "name" = Some (VString name) /\ VMap (f m) ∈ l'.
Proof.
  revert l'. induction l as [|v l IH]; intros l'; cbn; [done|].
  assert (forall g, cons g <$> updateNamed name f l = Some l' ->
    exists m, VMap m ∈ v :: l /\ m !! "name" = Some (VString name) /\ VMap (f m) ∈ l') as Hrest.
  { intros g Hg. destruct (updateNamed name f l) as [l1|]; [|done]. injection Hg as <-.
    destruct (IH l1 eq_refl) as (m & Hm & Hn & Hin). exists m. set_solver. }
  destruct v as [| | | | | |m|]; try apply Hrest.
  destruct (isString (m !! "name") name) eqn:Hn; [|apply Hrest].
  intros [= <-]. apply isString_spec in Hn. exists m. set_solver.
Qed.

Lemma updateNamed_none name f l :
  updateNamed name f l = None -> forall m, VMap m ∈ l -> m !! "name" <> Some (VString name).
Proof.
  induction l as [|v l IH]; cbn; [intros _ m Hin; by apply elem_of_nil in Hin|].
  intros Hu m [Heq|Hin]%elem_of_cons.
  - subst v. destruct (isString (m !! "name") name) eqn:Hn; [done|].
    intros Hm. apply isString_spec in Hm. congruence.
  - apply IH; [|done]. destruct v as [| | | | | |m'|]; try (by destruct (updateNamed name f l)).
    destruct (isString _ _); [done|]. by destruct (updateNamed name f l).
Qed.

(** The unit is added first, so the drop-in finds one. *)
Lemma dropin_ok systemd systemd' systemd'' args :
  addIgnitionUnit systemd "kubelet.service" false "" = GOk systemd' ->
  addKubeletDropin systemd' args = GOk systemd'' ->
  exists unit, VMap unit ∈ listAt systemd'' "units" /\
    unit !! "name" = Some (VString "kubelet.service") /\ kubeletDropin args ∈ listAt unit "dropins".
Proof.
  unfold addIgnitionUnit, addKubeletDropin. intros Hu Hd. inv_g Hu. injection Hu as <-.
  rewrite lookup_insert_eq in Hd. cbn [assertList mbind gores_mbind] in Hd.
  destruct (updateNamed _ _ _) as [units|] eqn:Hup.
  - injection Hd as <-. apply updateNamed_some in Hup as (m & _ & Hn & Hin).
    eexists. rewrite listAt_insert. split; [exact Hin|]. split; [by rewrite lookup_insert_ne|].
    rewrite listAt_insert. apply elem_of_app. right. constructor.
  - exfalso. eapply (updateNamed_none _ _ _ Hup); [apply elem_of_app; right; constructor|].
    by rewrite lookup_insert_eq.
Qed.

Lemma authorizeKey_ok key user : VString key ∈ listAt (authorizeKey key user) "sshAuthorizedKeys".
Proof.
  unfold authorizeKey. destruct (existsb _ _) eqn:He.
  - apply existsb_exists in He as (v & Hin & Hv). apply isString_spec in Hv. injection Hv as ->.
    by apply list_elem_of_In.
  - rewrite listAt_insert. apply elem_of_app. right. constructor.
Qed.

Lemma authorizeKey_name key user : authorizeKey key user !! "name" = user !! "name".
Proof. unfold authorizeKey. destruct (existsb _ _); [done|]. by rewrite lookup_insert_ne. Qed.

Lemma addSSH_ok m username key m' :
  addSSHAuthorizedKey (Some m) username key = GOk m' ->
  exists passwd, m' = Some (<["passwd" := VMap passwd]> m) /\
    keyAuthorized (<["passwd" := VMap passwd]> m) username key.
Proof.
  unfold addSSHAuthorizedKey. intros Hs. inv_g Hs. rename a into ign, Ha into H1.
  assert (exists m1, ign = Some m1 /\ forall v, <["passwd" := v]> m1 = <["passwd" := v]> m) as (m1 & -> & Hm1).
  { cbn in H1. destruct (m !! "passwd"); injection H1 as <-; eexists; (split; [done|]); [done|].
    intros v. apply insert_insert_eq. }
  clear H1. inv_g Hs. inv_g Hs. cbn in Hs. injection Hs as <-. rewrite Hm1.
  eexists. split; [done|]. unfold keyAuthorized, sectionList. rewrite lookup_insert_eq, listAt_insert.
  destruct (updateNamed username (authorizeKey key) _) as [users|] eqn:Hu.
  - apply updateNamed_some in Hu as (user & _ & Hn & Hin). exists (authorizeKey key user).
    split; [done|]. split; [by rewrite authorizeKey_name|apply authorizeKey_ok].
  - eexists. split; [apply elem_of_app; right; constructor|]. split; [done|]. cbn. constructor.
Qed.

Lemma section_ok ign key ign' m :
  section ign key = GOk (ign', m) -> index ign' key = Some (VMap m).
Proof.
  unfold section. intros Hs. inv_g Hs. inv_g Hs. injection Hs as <- <-. by apply assertMap_ok in Ha0.
Qed.

(** A fresh section is empty, so its lists are. *)
Lemma section_clean ign ign' storage :
  (forall s, index ign "storage" = Some (VMap s) -> cleanStorage s) ->
  section ign "storage" = GOk (ign', storage) -> cleanStorage (withDefault storage "files").
Proof.
  intros Hc Hs. unfold section in Hs. inv_g Hs. inv_g Hs. injection Hs as <- <-. apply assertMap_ok in Ha0.
  assert (cleanStorage a0) as Ha0c.
  { destruct (index ign "storage") as [v|] eqn:Hi; [injection Ha as ->; rewrite Hi in Ha0; by apply Hc|].
    destruct ign as [m|]; [|done]. injection Ha as <-. cbn in Ha0. rewrite lookup_insert_eq in Ha0.
    injection Ha0 as <-. apply cleanFiles_nil. }
  unfold cleanStorage, withDefault in *. destruct (a0 !! "files") eqn:Hf; [done|].
  rewrite listAt_insert. apply cleanFiles_nil.
Qed.

(** * Properties *)

(** C30: what a Flatcar server boots with.  Whenever the injection succeeds, the
    JSON it returns is the encoding of a document in which no file is fetched
    over HTTP and no file has inline contents without a source; the kubelet
    drop-in with exactly the arguments of the machine is on a kubelet unit;
    the static network file of the server is among the files, overwriting; and
    the cluster's SSH key opens the account core. *)
Theorem flatcar_config_contents `{Lib} data pid iip net mac vlan key sip gw s :
  injectFlatcarConfig data pid iip net mac vlan key sip gw = GOk s ->
  exists m, json_MarshalIndent m = Ok s /\
    remoteFree (sectionList m "storage" "files") /\ inlineFree (sectionList m "storage" "files") /\
    (buildKubeletExtraArgs pid iip net <> "" ->
     hasDropin m "kubelet.service" (kubeletDropin (buildKubeletExtraArgs pid iip net))) /\
    (sip <> "" -> gw <> "" ->
     ignitionFile "/etc/systemd/network/10-public.network" (primaryNetwork mac sip gw net None) mode644
       ∈ sectionList m "storage" "files") /\
    (key <> "" -> keyAuthorized m "core" key).
Proof.
  unfold injectFlatcarConfig. intros Hs. inv_g Hs. clear Ha. inv_g Hs. rename a into ign0, a0 into ign1.
  assert (forall st, index ign1 "storage" = Some (VMap st) -> cleanStorage st) as Hclean
    by (intros st; by eapply fixes_clean). clear Ha.
  inv_g Hs. destruct a as [ign2 storage0]. apply (section_clean _ _ _ Hclean) in Ha. cbv zeta in Hs.
  revert Ha Hs. generalize (withDefault storage0 "files"). intros storage Hst Hs.
  inv_g Hs. destruct a as [ign3 systemd0]. clear Ha.
  revert Hs. generalize (withDefault systemd0 "units"). intros systemd Hs.
  inv_g Hs. rename a into systemd1, Ha into Hsys. inv_g Hs. rename a into storage1, Ha into Hsto.
  inv_g Hs. inv_g Hs. inv_g Hs. inv_g Hs. inv_g Hs.
  apply assign_ok in Ha as (m0 & -> & ->). apply assign_ok in Ha0 as (m1 & [= <-] & ->).
  set (m2 := <["systemd" := _]> _) in *.
  assert (exists m, a1 = Some m /\ m !! "storage" = Some (VMap storage1) /\
    m !! "systemd" = Some (VMap systemd1) /\ (key <> "" -> keyAuthorized m "core" key))
    as (m & -> & Hm1 & Hm2 & Hkey).
  { assert (m2 !! "storage" = Some (VMap storage1) /\ m2 !! "systemd" = Some (VMap systemd1)) as [H1 H2].
    { unfold m2. by rewrite lookup_insert_ne, !lookup_insert_eq. }
    clearbody m2. destruct (String.eqb_spec key "") as [->|Hne]; [injection Ha1 as <-; by exists m2|].
    apply addSSH_ok in Ha1 as (passwd & -> & Hk). eexists. split; [done|].
    split; [by rewrite lookup_insert_ne|]. split; [by rewrite lookup_insert_ne|done]. }
  clear Ha1 m2. exists m. split; [exact Hs|]. unfold hasDropin, sectionList. rewrite Hm1, Hm2. clear Hm1 Hm2.
  assert (cleanStorage storage1 /\ (sip <> "" -> gw <> "" ->
    ignitionFile "/etc/systemd/network/10-public.network" (primaryNetwork mac sip gw net None) mode644
       ∈ listAt storage1 "files")) as [[Hr Hi] Hnet].
  { destruct (String.eqb_spec sip "") as [->|Hsip]; [injection Hsto as <-; by split|].
    destruct (String.eqb_spec gw "") as [->|Hgw]; [injection Hsto as <-; by split|].
    cbn [negb andb] in Hsto. by apply addIgnitionFile_ok in Hsto as [Hc Hin]. }
  split; [done|]. split; [done|]. split; [|by split].
  intros Hargs. apply String.eqb_neq in Hargs. rewrite Hargs in Hsys. inv_g Hsys. by eapply dropin_ok.
Qed.

(** The text of a file added to the Ignition config survives its encoding:
    the source is a data URL, and decoding the part behind the comma gives the
    text back. *)
Theorem ignitionFile_roundtrip (path content : string) (mode : Z) :
  exists file encoded, ignitionFile path content mode = VMap file /\
    fileSource file = "data:," +:+ encoded /\ pathUnescape encoded = Some content /\
    isURL (fileSource file) = false /\ stringAt file "path" = path.
Proof.
  eexists _, (urlEncode content). split; [done|]. split; [done|]. split; [apply pathUnescape_escape|done].
Qed.

Import Demo.

Lemma flatcar_config_contents_witness :
  exists s m,
    injectFlatcarConfig "{}" "hetzner-robot://4711" "10.0.0.5" "2001:db8:1::/64" "aa:bb" None
      "ssh-ed25519 key" "192.0.2.10" "192.0.2.1" = GOk s /\
    json_MarshalIndent m = Ok s /\
    hasDropin m "kubelet.service"
      (kubeletDropin "--provider-id=hetzner-robot://4711 --node-ip=10.0.0.5,2001:db8:1::1") /\
    keyAuthorized m "core" "ssh-ed25519 key".
Proof.
  eassert (injectFlatcarConfig "{}" "hetzner-robot://4711" "10.0.0.5" "2001:db8:1::/64" "aa:bb" None
    "ssh-ed25519 key" "192.0.2.10" "192.0.2.1" = GOk _) as Hs by (vm_compute; reflexivity).
  destruct (flatcar_config_contents _ _ _ _ _ _ _ _ _ _ Hs) as (m & Hm & _ & _ & Hd & _ & Hk).
  eexists _, m. split; [exact Hs|]. split; [exact Hm|].
  split; [apply Hd; vm_compute; discriminate|apply Hk; discriminate].
Defined.

(** The unit of the drop-in is appended without a look at the units that are
    there: a config that brings its own kubelet unit ends up with two of them,
    and the drop-in is on the first. *)
Example kubelet_unit_twice :
  let own := obj [("name", VString "kubelet.service"); ("enabled", VBool true)] in
  match addIgnitionUnit {[ "units" := VList [own] ]} "kubelet.service" false "" with
  | GOk systemd =>
      map (fun u => match u with VMap m => m !! "enabled" | _ => None end) (listAt systemd "units") =
        [Some (VBool true); Some (VBool false)] /\
      forallb (fun u => match u with VMap m => isString (m !! "name") "kubelet.service" | _ => false end)
        (listAt systemd "units") = true
  | _ => False
  end.
Proof. by vm_compute. Qed.
