(* ===== verification/Retry.v ===== *)
(** * Results, errors and retries of a reconciliation

    controllers/hetznerrobotmachine_controller.go: what a reconciliation
    returns, the classification of its errors and the backoff between
    retries. *)

From S2P Require Import Prelude GoStrings GoTime Api Effects.

Local Open Scope Z_scope.

(** [ctrl.Result] *)
Record Result := MkCtrlResult { Requeue : bool; RequeueAfter : Z }.

Definition MkResult (after : Z) : Result := MkCtrlResult false after.

Definition noRequeue : Result := MkResult 0.

(** A result with a nil error, an error with an empty result, or a panic. *)
Inductive outcome :=
| Returned (r : Result)
| Failed (e : error)
| Panicked (msg : string).

Definition requeueAfterShort : Z := 15 * Second.
Definition requeueAfterMedium : Z := 20 * Second.
Definition requeueAfterLong : Z := 60 * Second.

Definition provisionTimeout : Z := 30 * Minute.

Definition talosFactoryDefaultBaseURL : string := "https://factory.talos.dev".

(** What a step of the machine's state machine returns: the machine with the
    assignments made to it, and the outcome. *)
Definition requeue {T} (o : T) (d : Z) : prog (T * outcome) := Ret (o, Returned (MkResult d)).
Definition finish {T} (o : T) : prog (T * outcome) := Ret (o, Returned noRequeue).
Definition fail {T} (o : T) (e : error) : prog (T * outcome) := Ret (o, Failed e).
Definition failw {T} (o : T) (pre : string) (e : error) : prog (T * outcome) :=
  Ret (o, Failed (wrapf pre e "")).

(** ** Classification *)

Definition isPermanentError (err : option error) : bool :=
  match err with
  | None => false
  | Some err =>
      let msg := toLower (err_msg err) in
      if contains msg "unmarshal" || contains msg "invalid" then true
      else if contains msg "secret" && contains msg "not found" then true
      else if contains msg "must specify either" then true
      else false
  end.

(** ** Backoff *)

(** [30s * 2^(retryCount-1)], capped; [math.Pow] of 2 and an integer of at most
    10 is exact, and [Duration] products wrap like any [int64]. *)
Definition computeBackoff (retryCount : Z) : Z :=
  let exp := wrap64 (retryCount - 1) in
  let exp := if exp <? 0 then 0 else exp in
  let exp := if 10 <? exp then 10 else exp in
  let backoff := wrap64 (30 * Second * 2 ^ exp) in
  if 5 * Minute <? backoff then 5 * Minute else backoff.

(** * Facts *)

Lemma clamp_below (x lo : Z) : (if x <? lo then lo else x) = Z.max lo x.
Proof. destruct (Z.ltb_spec x lo); lia. Qed.

Lemma clamp_above (x hi : Z) : (if hi <? x then hi else x) = Z.min hi x.
Proof. destruct (Z.ltb_spec hi x); lia. Qed.

Lemma backoff_table (retryCount : Z) :
  minInt64 < retryCount <= maxInt64 ->
  computeBackoff retryCount = Z.min (5 * Minute) (30 * Second * 2 ^ Z.max 0 (Z.min 10 (retryCount - 1))).
Proof.
  intros Hr. unfold computeBackoff. rewrite (wrap64_id (retryCount - 1)) by (unfold in_int64, minInt64, maxInt64 in *; lia).
  cbv zeta. rewrite clamp_below, !clamp_above.
  assert (Z.min 10 (Z.max 0 (retryCount - 1)) = Z.max 0 (Z.min 10 (retryCount - 1))) as Hc by lia.
  rewrite Hc. clear Hc.
  remember (Z.max 0 (Z.min 10 (retryCount - 1))) as k eqn:Hk.
  assert (0 <= k <= 10) as Hb by lia. clear - Hb.
  rewrite wrap64_id.
  - done.
  - assert (2 ^ k <= 2 ^ 10) by (apply Z.pow_le_mono_r; lia).
    assert (0 < 2 ^ k) by (apply Z.pow_pos_nonneg; lia).
    unfold in_int64, minInt64, maxInt64, Second. lia.
Qed.

Lemma backoff_cases (retryCount : Z) :
  minInt64 < retryCount <= maxInt64 ->
  computeBackoff retryCount =
    if retryCount <=? 1 then 30 * Second
    else if retryCount =? 2 then 60 * Second
    else if retryCount =? 3 then 120 * Second
    else if retryCount =? 4 then 240 * Second
    else 5 * Minute.
Proof.
  intros Hr. rewrite backoff_table by done.
  destruct (Z.leb_spec retryCount 1).
  { replace (Z.max 0 (Z.min 10 (retryCount - 1))) with 0 by lia. done. }
  destruct (Z.eqb_spec retryCount 2) as [->|]; [done|].
  destruct (Z.eqb_spec retryCount 3) as [->|]; [done|].
  destruct (Z.eqb_spec retryCount 4) as [->|]; [done|].
  assert (2 ^ 4 <= 2 ^ Z.max 0 (Z.min 10 (retryCount - 1))) by (apply Z.pow_le_mono_r; lia).
  unfold Minute, Second in *. lia.
Qed.

(** * Properties *)

(** C40: the backoff of a retry count is 30, 60, 120 and 240 seconds for the
    first four failures and five minutes from the fifth on, for every [int]
    count but the least one: it never overflows, never decreases with the
    count, and always lies between 30 seconds and 5 minutes. *)
Theorem computeBackoff_schedule (n m : Z) :
  minInt64 < n <= m -> m <= maxInt64 ->
  computeBackoff n =
    (if n <=? 1 then 30 * Second else if n =? 2 then 60 * Second else if n =? 3 then 120 * Second
     else if n =? 4 then 240 * Second else 5 * Minute) /\
  30 * Second <= computeBackoff n <= computeBackoff m /\ computeBackoff m <= 5 * Minute.
Proof.
  intros Hn Hm. split; [apply backoff_cases; lia|].
  rewrite !backoff_cases by lia. unfold Minute, Second.
  repeat match goal with |- context [?a <=? ?b] => destruct (Z.leb_spec a b) end;
  repeat match goal with |- context [?a =? ?b] => destruct (Z.eqb_spec a b) end; lia.
Qed.

Lemma computeBackoff_schedule_witness :
  minInt64 < 3 <= 7 /\ computeBackoff 3 = 120 * Second /\ computeBackoff 3 <= computeBackoff 7.
Proof.
  split; [done|]. split; [reflexivity|].
  apply (computeBackoff_schedule 3 7); unfold minInt64, maxInt64; lia.
Defined.
