(* ===== verification/States.v ===== *)
(** * The provisioning states

    controllers/hetznerrobotmachine_states.go and
    controllers/hetznerrobotmachine_flatcar.go: the handler of every state of a
    machine's provisioning.  A handler gets the machine and returns it with the
    assignments made to it, and an outcome. *)

From S2P Require Import Prelude GoStrings GoTime Api Effects Lib Robot Rescue Talos HostClaim Inject Ignition Retry.

Local Open Scope Z_scope.

Abbreviation stepResult := (HetznerRobotMachine * outcome)%type.

Definition resetCooldown : Z := 2 * Minute.

Definition setState (s : ProvisioningState) (hrm : HetznerRobotMachine) : HetznerRobotMachine :=
  set_mst mst_ProvisioningState s hrm.

(** ** Rescue *)

(** The remaining cooldown of the last reset, when there is one. *)
Definition cooldown (hrm : HetznerRobotMachine) : prog (option Z) :=
  match mst_LastResetTime (hrm_Status hrm) with
  | None => Ret None
  | Some t =>
      now ← trigger ENow;
      let elapsed := since now t in
      if elapsed <? resetCooldown then Ret (Some (wrap64 (resetCooldown - elapsed))) else Ret None
  end.

Definition stateActivateRescue `{Lib} (hrm : HetznerRobotMachine) (hrc : HetznerRobotCluster)
    (robotClient : Client) (serverID : Z) (serverIP : string) : prog stepResult :=
  c ← cooldown hrm;
  match c with
  | Some remaining => requeue hrm remaining
  | None =>
      r ← getSSHKeyFingerprint hrc;
      unwrap sshFingerprint := r orelse err => failw hrm "get SSH key fingerprint: " err;
      r ← ActivateRescue robotClient serverID sshFingerprint;
      unwrap info := r orelse err =>
        failw hrm ("activate rescue on server " +:+ itoa serverID +:+ ": ") err;
      e ← ResetServer robotClient serverID ResetTypeHardware;
      ensure e orelse err => failw hrm ("reset server " +:+ itoa serverID +:+ ": ") err;
      now ← trigger ENow;
      let hrm := set_mst mst_LastResetTime (Some now) hrm in
      let hrm := setState StateActivatingRescue hrm in
      requeue hrm (4 * Minute)
  end.

Definition rescueHostnameScript : string :=
  rawString "([ `$(hostname)` = `rescue` ] || test -f /etc/hetzner-build) && echo RESCUE || echo NOT_RESCUE".

(** The second half of [stateCheckRescueActive]: ask the Robot service. *)
Definition pollRescue `{Lib} (hrm : HetznerRobotMachine) (hrc : HetznerRobotCluster)
    (robotClient : Client) (serverID : Z) (serverIP : string) : prog stepResult :=
  r ← GetRescueStatus robotClient serverID;
  unwrap rescueStatus := r orelse err => requeue hrm requeueAfterLong;
  up ← IsUp serverIP;
  if (up : bool) then
    _ ← WipeSystemDisk serverIP;
    stateActivateRescue hrm hrc robotClient serverID serverIP
  else if ri_Active rescueStatus then requeue hrm requeueAfterLong
  else requeue hrm (2 * Minute).

Definition stateCheckRescueActive `{Lib} (hrm : HetznerRobotMachine) (hrc : HetznerRobotCluster)
    (robotClient : Client) (serverID : Z) (serverIP : string) : prog stepResult :=
  reachable ← IsReachable serverIP;
  if (reachable : bool) then
    r ← getSSHPrivateKey hrc;
    match r with
    | Err _ => pollRescue hrm hrc robotClient serverID serverIP
    | Ok privateKey =>
        r ← Connect (NewSSH serverIP privateKey);
        let '(client, connErr) := r in
        match connErr with
        | Some _ => pollRescue hrm hrc robotClient serverID serverIP
        | None =>
            r ← Run client rescueHostnameScript;
            let '(out, _) := r in
            if String.eqb (trimSpace out) "RESCUE" then
              requeue (setState StateInRescue hrm) requeueAfterShort
            else stateActivateRescue hrm hrc robotClient serverID serverIP
        end
    end
  else pollRescue hrm hrc robotClient serverID serverIP.

(** ** Preparing the disks

    What both installers do from the check that SSH answers to the confirmed
    wipe.  The left result is an early return; the right one carries the
    machine, the connection, the hardware and the chosen disk. *)

Definition installSession := (HetznerRobotMachine * SSHClient * HardwareInfo * string)%type.

Definition early (p : prog stepResult) : prog (stepResult + installSession) := r ← p; Ret (inl r).

Definition configuredDisk (hrm : HetznerRobotMachine) : string :=
  if String.eqb (ms_InstallDisk (hrm_Spec hrm)) "" then defaultInstallDisk
  else ms_InstallDisk (hrm_Spec hrm).

(** Connect, detect the hardware, choose the disk and wipe. *)
Definition wipeInRescue `{Lib} (hrm : HetznerRobotMachine) (serverIP privateKey : string)
    : prog (stepResult + installSession) :=
  r ← Connect (NewSSH serverIP privateKey);
  let '(sshClient, e) := r in
  ensure e orelse err =>
    early (failw hrm ("SSH connect to rescue " +:+ serverIP +:+ ": ") err);
  r ← DetectHardware sshClient;
  unwrap hw := r orelse err => early (failw hrm ("detect hardware on " +:+ serverIP +:+ ": ") err);
  let hrm := set_mst mst_PrimaryMAC (hw_PrimaryMAC hw) hrm in
  let hrm := set_mst mst_GatewayIP (hw_GatewayIP hw) hrm in
  _ ← recordHostHardwareDetails (hrm_Namespace hrm) (statusHostRef hrm) (Some hw);
  unwrap installDisk := ResolveInstallDiskFromInfo hw (configuredDisk hrm) orelse err =>
    early (failw hrm ("resolve install disk on " +:+ serverIP +:+ ": ") err);
  let stableDisk := default installDisk (hw_ByIDPaths hw !! installDisk) in
  let hrm := set_mst mst_ResolvedInstallDisk stableDisk hrm in
  match hw_NVMeDisks hw with
  | [] => early (fail hrm (errorf ("no NVMe disks found on " +:+ serverIP)))
  | disks =>
      r ← WipeAllDisks sshClient disks;
      let '(out, e) := r in
      ensure e orelse err =>
        early (fail hrm (wrapf ("wipe all disks on " +:+ serverIP +:+ ": ") err (nl +:+ "Output: " +:+ out)));
      Ret (inr (hrm, sshClient, hw, installDisk))
  end.

Definition prepareDisks `{Lib} (hrm : HetznerRobotMachine) (hrc : HetznerRobotCluster)
    (robotClient : Client) (serverID : Z) (serverIP : string) : prog (stepResult + installSession) :=
  reachable ← IsReachable serverIP;
  if negb reachable then early (requeue (setState StateNone hrm) requeueAfterShort)
  else
    r ← getSSHPrivateKey hrc;
    unwrap privateKey := r orelse err =>
      early (failw hrm "get SSH private key for rescue check: " err);
    r ← IsRescueMode serverIP privateKey;
    unwrap isRescue := r orelse err => early (requeue hrm requeueAfterLong);
    if negb isRescue then early (stateActivateRescue hrm hrc robotClient serverID serverIP)
    else wipeInRescue hrm serverIP privateKey.

(** ** Talos *)

Definition talosEFIScript : string := rawString "
		if command -v efibootmgr > /dev/null 2>&1; then
			# Mount efivars read-write (rescue mounts it read-only by default)
			mount -o remount,rw /sys/firmware/efi/efivars 2>/dev/null || \
			mount -t efivarfs efivarfs /sys/firmware/efi/efivars 2>/dev/null || true

			echo `Before cleanup:`
			efibootmgr

			# Delete ALL boot entries except PXE/Network and Talos
			for entry in $(efibootmgr 2>/dev/null | grep '^Boot[0-9A-Fa-f]' | grep -iv 'pxe\|network\|ipv4\|ipv6\|talos' | grep -o '^Boot[0-9A-Fa-f]*' | sed 's/Boot//'); do
				echo `Deleting non-Talos/non-PXE entry: Boot${entry}`
				efibootmgr -b `$entry` -B 2>/dev/null || true
			done

			# Set boot order: PXE first, Talos second (Hetzner standard).
			# PXE first ensures rescue always works (one-shot: if rescue active → boot
			# rescue; if not → PXE silently fails → falls through to Talos).
			TALOS_NUM=$(efibootmgr | grep -i 'Talos' | grep -oP 'Boot\K[0-9A-Fa-f]+' | head -1)
			PXE_NUMS=$(efibootmgr | grep -i 'PXE\|Network\|IPv4' | grep -oP 'Boot\K[0-9A-Fa-f]+' | paste -sd,)
			if [ -n `$PXE_NUMS` ] && [ -n `$TALOS_NUM` ]; then
				efibootmgr -o `${PXE_NUMS},${TALOS_NUM}` 2>&1
			elif [ -n `$PXE_NUMS` ]; then
				efibootmgr -o `${PXE_NUMS}` 2>&1
			elif [ -n `$TALOS_NUM` ]; then
				efibootmgr -o `${TALOS_NUM}` 2>&1
			fi

			echo `After cleanup:`
			efibootmgr
		fi
	".

(** From the image to the reboot. *)
Definition installTalosImage `{Lib} (s : installSession) (hrc : HetznerRobotCluster)
    (robotClient : Client) (serverID : Z) (serverIP : string) : prog stepResult :=
  let '(hrm, sshClient, hw, installDisk) := s in
  let factoryURL := if String.eqb (cs_TalosFactoryBaseURL (hrc_Spec hrc)) "" then talosFactoryDefaultBaseURL
                    else cs_TalosFactoryBaseURL (hrc_Spec hrc) in
  let spec := hrm_Spec hrm in
  e ← InstallTalos sshClient factoryURL (ms_TalosSchematic spec) (ms_TalosVersion spec) installDisk
        (ms_CustomImageURL spec);
  ensure e orelse err => failw hrm ("install Talos on " +:+ serverIP +:+ ": ") err;
  _ ← Run sshClient talosEFIScript;
  _ ← DeactivateRescue robotClient serverID;
  _ ← Run sshClient "reboot";
  requeue (setState StateInstalling hrm) (90 * Second).

Definition stateInstallTalos `{Lib} (hrm : HetznerRobotMachine) (hrc : HetznerRobotCluster)
    (robotClient : Client) (serverID : Z) (serverIP : string) : prog stepResult :=
  r ← prepareDisks hrm hrc robotClient serverID serverIP;
  match r with
  | inl result => Ret result
  | inr session => installTalosImage session hrc robotClient serverID serverIP
  end.

Definition stateWaitInstall `{Lib} (hrm : HetznerRobotMachine) (hrc : HetznerRobotCluster)
    (robotClient : Client) (serverID : Z) (serverIP : string) : prog stepResult :=
  maintenance ← IsInMaintenanceMode serverIP;
  if (maintenance : bool) then requeue (setState StateBootingTalos hrm) requeueAfterShort
  else
    up ← IsUp serverIP;
    if (up : bool) then stateActivateRescue hrm hrc robotClient serverID serverIP
    else requeue hrm requeueAfterMedium.

(** The cluster with the endpoint of its first control plane machine. *)
Definition withEndpoint (hrc : HetznerRobotCluster) (serverIP : string) : HetznerRobotCluster :=
  hrc <| hrc_Spec := (hrc_Spec hrc) <| cs_EndpointHost := serverIP |> <| cs_EndpointPort := 6443 |> |>.

Definition stateWaitTalosMaintenanceMode `{Lib} (hrm : HetznerRobotMachine) (machine : Machine)
    (hrc : HetznerRobotCluster) (serverIP : string) : prog stepResult :=
  maintenance ← IsInMaintenanceMode serverIP;
  if negb maintenance then requeue hrm requeueAfterMedium
  else if IsControlPlaneMachine machine && String.eqb (cs_EndpointHost (hrc_Spec hrc)) "" then
    e ← trigger (ENewPatchHelper KCluster hrc);
    ensure e orelse err => failw hrm "init HRC patch helper: " err;
    e ← trigger (EPatch KCluster hrc (withEndpoint hrc serverIP));
    ensure e orelse err => failw hrm "patch control plane endpoint: " err;
    requeue (setState StateApplyingConfig hrm) requeueAfterShort
  else requeue (setState StateApplyingConfig hrm) requeueAfterShort.

(** Goes on with the value of an injection, or ends with its error or panic. *)
Definition attempt {A} (hrm : HetznerRobotMachine) (pre : string) (r : gores A)
    (k : A -> prog stepResult) : prog stepResult :=
  match r with
  | GOk a => k a
  | GErr err => failw hrm pre err
  | GPanic msg => Ret (hrm, Panicked msg)
  end.

Definition providerIDOf (serverID : Z) : string := "hetzner-robot://" +:+ itoa serverID.

(** The internal address counts only when the cluster has a VLAN. *)
Definition vlanInternalIP (hrc : HetznerRobotCluster) (hrh : HetznerRobotHost) : string :=
  match cs_VLANConfig (hrc_Spec hrc) with None => "" | Some _ => hs_InternalIP (hrh_Spec hrh) end.

(** The disk written into the machineconfig. *)
Definition configDisk (hrm : HetznerRobotMachine) : string :=
  if String.eqb (mst_ResolvedInstallDisk (hrm_Status hrm)) "" then configuredDisk hrm
  else mst_ResolvedInstallDisk (hrm_Status hrm).

(** The VLAN part of [stateApplyConfig], with its two preconditions. *)
Definition applyVLAN `{Lib} (hrm : HetznerRobotMachine) (hrc : HetznerRobotCluster)
    (hrh : HetznerRobotHost) (serverIP primaryMAC bootstrapData : string) : gores string :=
  match cs_VLANConfig (hrc_Spec hrc) with
  | None => GOk bootstrapData
  | Some vlan =>
      let internalIP := hs_InternalIP (hrh_Spec hrh) in
      let gatewayIP := mst_GatewayIP (hrm_Status hrm) in
      if String.eqb internalIP "" then
        GErr (errorf ("VLANConfig is set on cluster but host " +:+ hrh_Name hrh +:+ " has no internalIP"))
      else if String.eqb gatewayIP "" then
        GErr (errorf "gateway IP not detected — machine must go through rescue install first")
      else
        gwrap "inject VLAN config: "
          (injectVLANConfig bootstrapData (Some vlan) internalIP primaryMAC serverIP gatewayIP)
  end.

(** All injections into the machineconfig, in order. *)
Definition talosConfig `{Lib} (hrm : HetznerRobotMachine) (hrc : HetznerRobotCluster)
    (hrh : HetznerRobotHost) (serverID : Z) (serverIP bootstrapData : string) : gores string :=
  data ← gwrap "inject install disk into config: " (injectInstallDisk bootstrapData (configDisk hrm));
  let primaryMAC := mst_PrimaryMAC (hrm_Status hrm) in
  if String.eqb primaryMAC "" then
    GErr (errorf "primary NIC MAC not detected — machine must go through rescue install first")
  else
    data ← applyVLAN hrm hrc hrh serverIP primaryMAC data;
    let ipv6Net := hs_ServerIPv6Net (hrh_Spec hrh) in
    data ← (if String.eqb ipv6Net "" then GOk data
            else gwrap "inject IPv6 config: "
                   (injectIPv6Config data ipv6Net primaryMAC (hs_InternalIP (hrh_Spec hrh))));
    data ← gwrap "inject kubelet nodeIP: " (injectKubeletNodeIP data (vlanInternalIP hrc hrh) ipv6Net);
    gwrap "inject providerID into config: " (injectProviderID data (providerIDOf serverID)).

Definition stateApplyConfig `{Lib} (hrm : HetznerRobotMachine) (machine : Machine)
    (hrc : HetznerRobotCluster) (hrh : HetznerRobotHost) (serverID : Z) (serverIP : string)
    : prog stepResult :=
  r ← getBootstrapData machine;
  unwrap bootstrapData := r orelse err => requeue hrm requeueAfterShort;
  attempt hrm "" (talosConfig hrm hrc hrh serverID serverIP bootstrapData) (fun data =>
  e ← ApplyConfig serverIP data;
  ensure e orelse err => failw hrm ("apply Talos config to " +:+ serverIP +:+ ": ") err;
  let hrm := set_ms ms_ProviderID (Some (providerIDOf serverID)) hrm in
  requeue (setState StateWaitingForBoot hrm) requeueAfterMedium).

(** The assignments that mark a machine provisioned and ready. *)
Definition markReady `{Lib} (hrm : HetznerRobotMachine) : HetznerRobotMachine :=
  let hrm := set_mst mst_Ready true hrm in
  let hrm := set_mst mst_Initialization (Some true) hrm in
  set_mst mst_Conditions (MarkTrue (mst_Conditions (hrm_Status hrm)) ReadyCondition) hrm.

Definition stateWaitForBoot `{Lib} (hrm : HetznerRobotMachine) (serverIP : string) : prog stepResult :=
  up ← IsUp serverIP;
  if negb up then requeue hrm requeueAfterMedium
  else finish (markReady (setState StateProvisioned hrm)).

(** ** Flatcar *)

Definition flatcarEFIScript : string := rawString "
		if command -v efibootmgr > /dev/null 2>&1; then
			mount -o remount,rw /sys/firmware/efi/efivars 2>/dev/null || \
			mount -t efivarfs efivarfs /sys/firmware/efi/efivars 2>/dev/null || true

			echo `Before:`
			efibootmgr

			# Delete ALL non-PXE boot entries (stale Flatcar, Talos, UEFI OS, etc)
			for entry in $(efibootmgr 2>/dev/null | grep '^Boot[0-9A-Fa-f]' | grep -iv 'pxe\|network\|ipv4\|ipv6' | grep -o '^Boot[0-9A-Fa-f]*' | sed 's/Boot//'); do
				efibootmgr -b `$entry` -B 2>/dev/null || true
			done

			# Set boot order to PXE only — firmware will fallback to disk ESP
			PXE_NUMS=$(efibootmgr | grep -i 'PXE\|Network\|IPv4' | grep -oP 'Boot\K[0-9A-Fa-f]+' | paste -sd,)
			if [ -n `$PXE_NUMS` ]; then
				efibootmgr -o `${PXE_NUMS}` 2>&1
			fi

			echo `After:`
			efibootmgr
		fi
	".

(** From the Ignition config to the reboot. *)
Definition installFlatcarImage `{Lib} (s : installSession) (hrc : HetznerRobotCluster)
    (hrh : HetznerRobotHost) (robotClient : Client) (serverID : Z)
    (serverIP bootstrapData sshPubKey : string) : prog stepResult :=
  let '(hrm, sshClient, hw, installDisk) := s in
  let providerID := providerIDOf serverID in
  attempt hrm "inject Flatcar config: "
    (injectFlatcarConfig bootstrapData providerID (vlanInternalIP hrc hrh) (hs_ServerIPv6Net (hrh_Spec hrh))
       (hw_PrimaryMAC hw) (cs_VLANConfig (hrc_Spec hrc)) sshPubKey serverIP (hw_GatewayIP hw))
    (fun ignitionJSON =>
  let channel := if String.eqb (ms_FlatcarChannel (hrm_Spec hrm)) "" then "stable"
                 else ms_FlatcarChannel (hrm_Spec hrm) in
  e ← InstallFlatcar sshClient channel installDisk (ms_CustomImageURL (hrm_Spec hrm)) ignitionJSON;
  ensure e orelse err => failw hrm ("install Flatcar on " +:+ serverIP +:+ ": ") err;
  _ ← Run sshClient flatcarEFIScript;
  _ ← DeactivateRescue robotClient serverID;
  let hrm := set_ms ms_ProviderID (Some providerID) hrm in
  _ ← Run sshClient "reboot";
  requeue (setState StateInstalling hrm) (5 * Minute)).

Definition stateInstallFlatcar `{Lib} (hrm : HetznerRobotMachine) (machine : Machine)
    (hrc : HetznerRobotCluster) (hrh : HetznerRobotHost) (robotClient : Client) (serverID : Z)
    (serverIP : string) : prog stepResult :=
  r ← getBootstrapData machine;
  unwrap bootstrapData := r orelse err => requeue hrm requeueAfterShort;
  r ← getSSHPublicKey hrc;
  unwrap sshPubKey := r orelse err => failw hrm "get SSH public key for Flatcar: " err;
  r ← prepareDisks hrm hrc robotClient serverID serverIP;
  match r with
  | inl result => Ret result
  | inr session =>
      installFlatcarImage session hrc hrh robotClient serverID serverIP bootstrapData sshPubKey
  end.

Definition stateWaitFlatcarInstall `{Lib} (hrm : HetznerRobotMachine) (hrc : HetznerRobotCluster)
    (serverIP : string) : prog stepResult :=
  r ← getSSHPrivateKey hrc;
  unwrap privateKey := r orelse err => failw hrm "get SSH private key: " err;
  up ← IsFlatcarUp serverIP privateKey;
  if (up : bool) then requeue (setState StateBootingFlatcar hrm) requeueAfterShort
  else
    _ ← IsReachable serverIP;
    requeue hrm requeueAfterMedium.

Definition stateWaitFlatcarBoot `{Lib} (hrm : HetznerRobotMachine) (hrc : HetznerRobotCluster)
    (serverIP : string) : prog stepResult :=
  r ← getSSHPrivateKey hrc;
  unwrap privateKey := r orelse err => failw hrm "get SSH private key: " err;
  r ← CheckFlatcarBootstrapComplete serverIP privateKey;
  unwrap complete := r orelse err => requeue hrm requeueAfterMedium;
  if negb complete then requeue hrm requeueAfterMedium
  else finish (markReady (setState StateProvisioned hrm)).

(** * Facts *)

(** ** The calls of the handlers *)

(** Commands that only look at a server. *)
Definition probeCommands : list string :=
  [wrapped rescueHostnameScript; wrapped rescueCheckScript; wrapped detectScript; sentinelCommand].

(** The endpoint is all a machine's run writes of a cluster, and only where
    there is none. *)
Definition endpointWrite (before after : HetznerRobotCluster) : Prop :=
  cs_EndpointHost (hrc_Spec before) = "" /\ exists serverIP, after = withEndpoint before serverIP.

(** What provisioning writes: of a host only what does not say whose it is, and
    the endpoint of the cluster. *)
Definition provisioningWrite (k : Kind) : Obj k -> Obj k -> Prop :=
  match k with
  | KHost => fun before after => sameHost before after /\ claimOf after = claimOf before
  | KCluster => endpointWrite
  | _ => fun _ _ => False
  end.

(** Calls that can neither wipe, reset, reboot nor configure a server, whatever
    server it is, and that neither write a machine nor change whose a host is. *)
Definition harmless (X : Set) (e : Eff X) : Prop :=
  match e with
  | EHttp rq => rq_Method rq <> "POST"
  | ESshExec _ _ cmd => cmd ∈ probeCommands
  | EGrpcApplyConfiguration _ data mode => data = "" /\ mode = None
  | EGrpcReset _ _ _ _ | EGrpcBootstrap _ => False
  | EPatch k before after => provisioningWrite k before after
  | _ => True
  end.

(** The two requests that send a server into its rescue system. *)
Definition robotTarget (serverID : Z) (rq : HttpRequest) : Prop :=
  rq_URL rq = robotBaseURL +:+ resetPath serverID \/ rq_URL rq = robotBaseURL +:+ rescuePath serverID.

(** Calls that may put the server of this number and address into rescue. *)
Definition rescuing (id : Z) (ip : string) (X : Set) (e : Eff X) : Prop :=
  match e with
  | EHttp rq => rq_Method rq = "POST" -> robotTarget id rq
  | EGrpcReset addr _ _ _ => addr = talosAddr ip
  | _ => harmless X e
  end.

(** Calls that may install on it: any command on its rescue system too. *)
Definition installing (id : Z) (ip : string) (X : Set) (e : Eff X) : Prop :=
  match e with
  | ESshExec addr user cmd => cmd ∈ probeCommands \/ addr = sshAddr ip /\ user = "root"
  | _ => rescuing id ip X e
  end.

(** Calls that may send a machineconfig to the server's Talos. *)
Definition configuring (ip : string) (X : Set) (e : Eff X) : Prop :=
  match e with
  | EGrpcApplyConfiguration addr _ _ => addr = talosAddr ip \/ harmless X e
  | _ => harmless X e
  end.

Lemma harmless_configuring ip X e : harmless X e -> configuring ip X e.
Proof. destruct e; try done. cbn. by right. Qed.

Lemma harmless_rescuing id ip X e : harmless X e -> rescuing id ip X e.
Proof. destruct e; cbn; try done; by intros ? ?. Qed.

Lemma rescuing_installing id ip X e : rescuing id ip X e -> installing id ip X e.
Proof. destruct e; try done. cbn. by left. Qed.

Lemma cluster_harmless X e : quietCluster X e -> harmless X e.
Proof. intros [Hr|Hw]; [by destruct e|]. by destruct e as [| | | |[] b a| | | | | | | | | | | |]. Qed.

Lemma read_harmless X e : isRead X e -> harmless X e.
Proof. by destruct e. Qed.

Lemma probe_harmless X e : probeCall X e -> harmless X e.
Proof. by destruct e. Qed.

#[export] Hint Resolve harmless_rescuing harmless_configuring rescuing_installing cluster_harmless read_harmless probe_harmless : guards.

Lemma emits_IsReachable ip : emits harmless (IsReachable ip).
Proof. unfold IsReachable, isReachableAddr. repeat emits_step; done. Qed.

Lemma emits_IsFlatcarUp `{Lib} ip key : emits harmless (IsFlatcarUp ip key).
Proof. unfold IsFlatcarUp. cbv zeta. repeat emits_step; done. Qed.

Lemma emits_CheckFlatcarBootstrapComplete `{Lib} ip key :
  emits harmless (CheckFlatcarBootstrapComplete ip key).
Proof.
  unfold CheckFlatcarBootstrapComplete. cbv zeta. repeat emits_step; try done.
  cbn. unfold probeCommands. set_solver.
Qed.

Lemma emits_ApplyConfig ip data : emits (configuring ip) (ApplyConfig ip data).
Proof. unfold ApplyConfig, newConn. repeat emits_step; try done. by left. Qed.

Lemma emits_cooldown hrm : emits harmless (cooldown hrm).
Proof. unfold cooldown. cbv zeta. repeat emits_step; done. Qed.

Lemma emits_WipeSystemDisk id ip : emits (rescuing id ip) (WipeSystemDisk ip).
Proof. unfold WipeSystemDisk, newConn. repeat emits_step; done. Qed.

(** A connection only ever goes to the address it was opened to. *)
Lemma yields_Connect `{Lib} (P : forall X : Set, Eff X -> Prop) ip key :
  (forall X e, harmless X e -> P X e) ->
  yields P (Connect (NewSSH ip key)) (fun r => r.1 = NewSSH ip key \/ client r.1 = Some (sshAddr ip)).
Proof.
  intros HP. unfold Connect. destruct (ParsePrivateKey _); [|by left]. cbv zeta.
  apply yields_call; [by apply HP|]. intros [err|]; [by left|].
  apply yields_call; [by apply HP|]. intros [err|]; [by left|by right].
Qed.

Definition connectedTo (ip : string) (c : SSHClient) : Prop :=
  client c = None \/ client c = Some (sshAddr ip).

Lemma yields_connected `{Lib} P ip key :
  (forall X e, harmless X e -> P X e) ->
  yields P (Connect (NewSSH ip key)) (fun r => connectedTo ip r.1).
Proof.
  intros HP. eapply yields_mono; [|intros r Hr|by apply yields_Connect]; [done|].
  destruct Hr as [->|?]; [by left|by right].
Qed.

Lemma emits_Run (P : forall X : Set, Eff X -> Prop) ip c cmd :
  connectedTo ip c -> P _ (ESshNewSession (sshAddr ip) "root") ->
  P _ (ESshExec (sshAddr ip) "root" (wrapped cmd)) -> emits P (Run c cmd).
Proof.
  intros [Hc|Hc] Hs Hx; unfold Run; rewrite Hc; [done|].
  apply emits_bind; [by apply emits_trigger|]. intros [?|]; [done|].
  apply emits_bind; [by apply emits_trigger|]. intros [? [?|]]; done.
Qed.

Lemma emits_Run_installing id ip c cmd : connectedTo ip c -> emits (installing id ip) (Run c cmd).
Proof. intros Hc. apply (emits_Run _ ip); [done|done|]. cbn. by right. Qed.

Lemma emits_Run_probe ip c cmd :
  connectedTo ip c -> wrapped cmd ∈ probeCommands -> emits harmless (Run c cmd).
Proof. intros Hc Hp. by apply (emits_Run _ ip). Qed.

(** ** Transitions *)

(** The states a handler may move to, for Talos and for Flatcar. *)
Definition nextStates (flatcar : bool) (s : ProvisioningState) : list ProvisioningState :=
  match s with
  | StateNone => [StateActivatingRescue]
  | StateActivatingRescue => [StateInRescue]
  | StateInRescue => [StateNone; StateActivatingRescue; StateInstalling]
  | StateInstalling => if flatcar then [StateBootingFlatcar] else [StateBootingTalos; StateActivatingRescue]
  | StateBootingTalos => [StateApplyingConfig]
  | StateApplyingConfig => [StateWaitingForBoot]
  | StateWaitingForBoot => [StateProvisioned]
  | StateBootingFlatcar => [StateProvisioned]
  | _ => []
  end.

(** The provider id is all that is ever assigned of a machine's spec, to that of
    a server. *)
Definition providerStep (p p' : option string) : Prop :=
  p' = p \/ exists serverID, p' = Some (providerIDOf serverID).

Definition specKept (hrm hrm' : HetznerRobotMachine) : Prop :=
  (hrm_Spec hrm') <| ms_ProviderID := None |> = (hrm_Spec hrm) <| ms_ProviderID := None |> /\
  providerStep (ms_ProviderID (hrm_Spec hrm)) (ms_ProviderID (hrm_Spec hrm')).

#[export] Hint Extern 0 (providerStep _ _) => left; reflexivity : core.

#[export] Instance specKept_preorder : PreOrder specKept.
Proof.
  split; [done|]. intros hrm1 hrm2 hrm3 [H1 P1] [H2 P2]. split; [congruence|].
  destruct P2 as [->|P2]; [exact P1|by right].
Qed.

Lemma specKept_provider hrm serverID : specKept hrm (set_ms ms_ProviderID (Some (providerIDOf serverID)) hrm).
Proof. split; [done|]. right. by exists serverID. Qed.

Lemma specKept_os hrm hrm' : specKept hrm hrm' -> ms_OSType (hrm_Spec hrm') = ms_OSType (hrm_Spec hrm).
Proof. intros [Hs _]. exact (f_equal ms_OSType Hs). Qed.

(** The parts of a machine no handler assigns to. *)
Definition keeps (hrm hrm' : HetznerRobotMachine) : Prop :=
  hrm_Meta hrm' = hrm_Meta hrm /\
  specKept hrm hrm' /\
  mst_HostRef (hrm_Status hrm') = mst_HostRef (hrm_Status hrm) /\
  mst_RetryCount (hrm_Status hrm') = mst_RetryCount (hrm_Status hrm) /\
  mst_ProvisionStarted (hrm_Status hrm') = mst_ProvisionStarted (hrm_Status hrm).

(** Readiness is only ever set, and only together with the state. *)
Definition readyKept (hrm hrm' : HetznerRobotMachine) : Prop :=
  mst_Ready (hrm_Status hrm') = mst_Ready (hrm_Status hrm) \/ provisioningState hrm' = StateProvisioned.

Definition stepsTo (hrm : HetznerRobotMachine) (to : list ProvisioningState) (r : stepResult) : Prop :=
  keeps hrm r.1 /\ readyKept hrm r.1 /\ provisioningState r.1 ∈ provisioningState hrm :: to.

Lemma keeps_refl hrm : keeps hrm hrm.
Proof. done. Qed.

Lemma stay hrm to o : stepsTo hrm to (hrm, o).
Proof. split_and!; [done|by left|constructor]. Qed.

Lemma move hrm to s o : s ∈ to -> stepsTo hrm to (setState s hrm, o).
Proof. intros Hs. split_and!; [done|by left|by right]. Qed.

Lemma stepsTo_weaken hrm to to' r : to ⊆ to' -> stepsTo hrm to r -> stepsTo hrm to' r.
Proof.
  intros Hto (? & ? & Hs). split_and!; [done..|].
  apply elem_of_cons in Hs as [Hs|Hs]; apply elem_of_cons; auto.
Qed.

#[export] Hint Resolve stay : guards.

(** ** Handlers *)

(** The machine is the same but for what the hardware detection records. *)
Definition detectedFrom (hrm hrm' : HetznerRobotMachine) : Prop :=
  keeps hrm hrm' /\ mst_Ready (hrm_Status hrm') = mst_Ready (hrm_Status hrm) /\
  provisioningState hrm' = provisioningState hrm.

Lemma detected_stay hrm hrm' to o : detectedFrom hrm hrm' -> stepsTo hrm to (hrm', o).
Proof. intros (Hk & Hr & Hs). split_and!; [done|by left|cbn; rewrite Hs; constructor]. Qed.

Lemma detected_move hrm hrm' to s o :
  detectedFrom hrm hrm' -> s ∈ to -> stepsTo hrm to (setState s hrm', o).
Proof. intros (Hk & Hr & _) Hs. split_and!; [done|by left|by right]. Qed.

Definition is_inr {A B} (r : A + B) : Prop := match r with inl _ => False | inr _ => True end.

Definition prepared (hrm : HetznerRobotMachine) (ip : string) (r : stepResult + installSession) : Prop :=
  match r with
  | inl r => stepsTo hrm [StateNone; StateActivatingRescue] r
  | inr (hrm', c, hw, disk) => detectedFrom hrm hrm' /\ connectedTo ip c
  end.

Section Handlers.
Context `{Lib} (hrc : HetznerRobotCluster) (robotClient : Client) (id : Z) (ip : string).
Context (Hbase : baseURL robotClient = robotBaseURL).

Ltac reads := eapply emits_mono; [|solve [auto with guards]]; auto with guards.

Lemma emits_activate fp : emits (rescuing id ip) (ActivateRescue robotClient id fp).
Proof. apply emits_ActivateRescue. intros _. right. cbn. by rewrite Hbase. Qed.

Lemma emits_reset t : emits (rescuing id ip) (ResetServer robotClient id t).
Proof. apply emits_ResetServer. intros _. left. cbn. by rewrite Hbase. Qed.

Lemma emits_status : emits harmless (GetRescueStatus robotClient id).
Proof. by apply emits_GetRescueStatus. Qed.

Lemma emits_deactivate : emits harmless (DeactivateRescue robotClient id).
Proof. by apply emits_DeactivateRescue. Qed.

Lemma yields_stateActivateRescue hrm :
  yields (rescuing id ip) (stateActivateRescue hrm hrc robotClient id ip)
    (stepsTo hrm [StateActivatingRescue]).
Proof.
  unfold stateActivateRescue. apply yields_emits.
  { eapply emits_mono; [apply harmless_rescuing|apply emits_cooldown]. }
  intros [remaining|]; [apply stay|].
  apply yields_emits; [reads|]. intros [fp|err]; [|apply stay].
  apply yields_emits; [apply emits_activate|]. intros [info|err]; [|apply stay].
  apply yields_emits; [apply emits_reset|]. intros [err|]; [apply stay|].
  apply yields_call; [done|]. intros now. cbv zeta.
  split_and!; [done|by left|set_solver].
Qed.

(** Re-activation of rescue as a step to more states. *)
Lemma yields_activate_to hrm to :
  StateActivatingRescue ∈ to ->
  yields (rescuing id ip) (stateActivateRescue hrm hrc robotClient id ip) (stepsTo hrm to).
Proof.
  intros Hin. eapply yields_mono; [done| |apply yields_stateActivateRescue].
  intros r. apply stepsTo_weaken. set_solver.
Qed.

Lemma yields_pollRescue hrm to :
  StateActivatingRescue ∈ to ->
  yields (rescuing id ip) (pollRescue hrm hrc robotClient id ip) (stepsTo hrm to).
Proof.
  intros Hin. unfold pollRescue. apply yields_emits.
  { eapply emits_mono; [apply harmless_rescuing|apply emits_status]. }
  intros [rescue|err]; [|apply stay].
  apply yields_emits; [reads|]. intros [|].
  - apply yields_emits; [apply emits_WipeSystemDisk|]. intros _. by apply yields_activate_to.
  - destruct (ri_Active rescue); apply stay.
Qed.

Lemma yields_stateCheckRescueActive hrm :
  yields (rescuing id ip) (stateCheckRescueActive hrm hrc robotClient id ip)
    (stepsTo hrm [StateInRescue; StateActivatingRescue]).
Proof.
  assert (yields (rescuing id ip) (pollRescue hrm hrc robotClient id ip)
    (stepsTo hrm [StateInRescue; StateActivatingRescue])) as Hpoll by (apply yields_pollRescue; set_solver).
  unfold stateCheckRescueActive. apply yields_emits.
  { eapply emits_mono; [apply harmless_rescuing|apply emits_IsReachable]. }
  intros [|]; [|done]. apply yields_emits; [reads|]. intros [key|err]; [|done].
  eapply yields_bind; [apply (yields_connected _ ip); apply harmless_rescuing|].
  intros [c [err|]] Hc; [done|]. apply yields_emits.
  { eapply emits_mono; [apply harmless_rescuing|].
    apply (emits_Run_probe ip); [done|]. unfold probeCommands. set_solver. }
  intros [out e]. destruct (String.eqb _ _).
  - apply move. set_solver.
  - apply yields_activate_to. set_solver.
Qed.

Lemma yields_early (P : forall X : Set, Eff X -> Prop) hrm p :
  yields P p (stepsTo hrm [StateNone; StateActivatingRescue]) -> yields P (early p) (prepared hrm ip).
Proof. intros Hp. eapply yields_bind; [exact Hp|]. by intros r Hr. Qed.

Lemma yields_wipeInRescue hrm key :
  yields (installing id ip) (wipeInRescue hrm ip key) (prepared hrm ip).
Proof.
  unfold wipeInRescue.
  eapply yields_bind; [apply (yields_connected _ ip); auto with guards|].
  intros [c [err|]] Hc; [by apply yields_early; cbn; apply stay|]. cbn [fst] in Hc.
  apply yields_emits.
  { unfold DetectHardware. apply emits_bind; [by apply emits_Run_installing|].
    intros [out [err|]]; done. }
  intros [hw|err]; [|by apply yields_early; cbn; apply stay]. cbv zeta.
  set (hrm2 := set_mst mst_GatewayIP _ _).
  assert (detectedFrom hrm hrm2) as H2 by done. clearbody hrm2.
  apply yields_emits.
  { eapply emits_mono; [|apply quiet_recordHostHardwareDetails]. auto with guards. }
  intros _. destruct (ResolveInstallDiskFromInfo _ _) as [disk|err];
    [|by apply yields_early; cbn; apply detected_stay].
  set (hrm3 := set_mst mst_ResolvedInstallDisk _ hrm2).
  assert (detectedFrom hrm hrm3) as H3 by done. clearbody hrm3.
  destruct (hw_NVMeDisks hw) as [|d ds]; [by apply yields_early; cbn; apply detected_stay|].
  apply yields_emits.
  { unfold WipeAllDisks. apply emits_bind; [by apply emits_Run_installing|].
    intros [out [err|]]; [done|]. cbv zeta. by case_match. }
  intros [out [err|]]; [by apply yields_early; cbn; apply detected_stay|]. by split.
Qed.

(** The prologue of both installers: beyond putting the server into rescue,
    it acts only after a check has shown the rescue system. *)
Lemma wp_prepareDisks (G : guard) hrm (Q : stepResult + installSession -> hist -> Prop) h :
  (forall h' X e, extends h' h -> rescuing id ip X e -> G h' X e) ->
  (forall h' X e, extends h' h -> verifiedRescue ip h' -> installing id ip X e -> G h' X e) ->
  (forall r h', extends h' h -> prepared hrm ip r -> (is_inr r -> verifiedRescue ip h') -> Q r h') ->
  wp G (prepareDisks hrm hrc robotClient id ip) Q h.
Proof.
  intros Hr Hi HQ. unfold prepareDisks.
  assert (forall p h', extends h' h -> yields (rescuing id ip) p (stepsTo hrm [StateNone; StateActivatingRescue]) ->
    wp G (early p) Q h') as Hearly.
  { intros p h' He Hp. eapply yields_wp; [apply (yields_bind _ _ _ (stepsTo hrm [StateNone; StateActivatingRescue])
      (fun r => exists r', r = inl r' /\ stepsTo hrm [StateNone; StateActivatingRescue] r')); [exact Hp|]|..].
    - intros r Hs. exists r. done.
    - intros h1 X e H1 HP. apply Hr; [by transitivity h'|done].
    - intros r h1 H1 (r' & -> & Hs). apply HQ; [by transitivity h'|done|by intros []]. }
  apply wp_bind, (emits_wp harmless); [apply emits_IsReachable|auto with guards|].
  intros [|] h1 H1; cbn [negb]; [|apply Hearly; [done|]; apply move; set_solver].
  apply wp_bind, (emits_wp isRead); [auto with guards| |].
  { intros h' X e He Hx. apply Hr; [by transitivity h1|auto with guards]. }
  intros [key|err] h2 H2; [|apply Hearly; [by transitivity h1|]; apply stay].
  assert (extends h2 h) as H2' by by transitivity h1.
  apply wp_bind, wp_IsRescueMode.
  { intros h' X e He Hx. apply Hr; [by transitivity h2|].
    destruct e; try done. destruct Hx as (_ & _ & ->). cbn. unfold probeCommands. set_solver. }
  intros [isRescue|err] h3 H3 Hv; [|apply Hearly; [by transitivity h2|]; apply stay].
  assert (extends h3 h) as H3' by by transitivity h2.
  destruct isRescue; cbn [negb].
  - specialize (Hv eq_refl). eapply yields_wp; [apply yields_wipeInRescue|..].
    + intros h' X e He Hx. apply Hi; [by transitivity h3| |done]. by eapply verifiedRescue_extends.
    + intros r h' He Hp. apply HQ; [by transitivity h3|done|]. intros _. by eapply verifiedRescue_extends.
  - apply Hearly; [done|]. apply yields_activate_to. set_solver.
Qed.

Lemma yields_installTalosImage hrm hrm' c hw disk :
  detectedFrom hrm hrm' -> connectedTo ip c ->
  yields (installing id ip) (installTalosImage (hrm', c, hw, disk) hrc robotClient id ip)
    (stepsTo hrm [StateNone; StateActivatingRescue; StateInstalling]).
Proof.
  intros Hd Hc. unfold installTalosImage. cbv zeta. apply yields_emits.
  { unfold InstallTalos. destruct (talosImage _ _ _ _). cbv zeta.
    apply emits_bind; [by apply emits_Run_installing|]. by intros [out [err|]]. }
  intros [err|]; [by apply detected_stay|].
  apply yields_emits; [by apply emits_Run_installing|]. intros _.
  apply yields_emits; [eapply emits_mono; [|apply emits_deactivate]; auto with guards|]. intros _.
  apply yields_emits; [by apply emits_Run_installing|]. intros _.
  apply detected_move; [done|set_solver].
Qed.

Lemma emits_runStep c what cmd next :
  connectedTo ip c -> emits (installing id ip) next ->
  emits (installing id ip) (runStep c what cmd next).
Proof.
  intros Hc Hn. unfold runStep. apply emits_bind; [by apply emits_Run_installing|].
  by intros [out [err|]].
Qed.

Lemma emits_InstallFlatcar c channel disk image ign :
  connectedTo ip c -> emits (installing id ip) (InstallFlatcar c channel disk image ign).
Proof.
  intros Hc. unfold InstallFlatcar. cbv zeta. case_match; repeat (apply emits_runStep; [done|]); done.
Qed.

Lemma yields_installFlatcarImage hrm hrm' c hw disk hrh data key :
  detectedFrom hrm hrm' -> connectedTo ip c ->
  yields (installing id ip) (installFlatcarImage (hrm', c, hw, disk) hrc hrh robotClient id ip data key)
    (stepsTo hrm [StateNone; StateActivatingRescue; StateInstalling]).
Proof.
  intros Hd Hc. unfold installFlatcarImage. cbv zeta. unfold attempt.
  destruct (injectFlatcarConfig _ _ _ _ _ _ _ _ _); try by apply detected_stay.
  apply yields_emits; [by apply emits_InstallFlatcar|]. intros [err|]; [by apply detected_stay|].
  apply yields_emits; [by apply emits_Run_installing|]. intros _.
  apply yields_emits; [eapply emits_mono; [|apply emits_deactivate]; auto with guards|]. intros _.
  apply yields_emits; [by apply emits_Run_installing|]. intros _.
  destruct Hd as ((? & Hs & ? & ? & ?) & ? & ?).
  split; [|split; [by left|cbn; set_solver]]. split; [done|]. split; [|done].
  etransitivity; [exact Hs|apply specKept_provider].
Qed.

(** What a guard must allow for the states before the server is installed. *)
Definition allowsInstall (G : guard) (h : hist) : Prop :=
  (forall h' X e, extends h' h -> rescuing id ip X e -> G h' X e) /\
  (forall h' X e, extends h' h -> verifiedRescue ip h' -> installing id ip X e -> G h' X e).

Lemma allowsInstall_extends G h h' : extends h' h -> allowsInstall G h -> allowsInstall G h'.
Proof. intros He [Hr Hi]. split; intros h1 X e H1; [apply Hr|apply Hi]; by transitivity h'. Qed.

Lemma wp_stateInstallTalos G hrm (Q : stepResult -> hist -> Prop) h :
  allowsInstall G h ->
  (forall r h', extends h' h -> stepsTo hrm [StateNone; StateActivatingRescue; StateInstalling] r -> Q r h') ->
  wp G (stateInstallTalos hrm hrc robotClient id ip) Q h.
Proof.
  intros [Hr Hi] HQ. unfold stateInstallTalos. apply wp_bind, wp_prepareDisks; [done|done|].
  intros [r|[[[hrm' c] hw] disk]] h1 H1 Hp Hv.
  - apply wp_ret, HQ; [done|]. revert Hp. apply stepsTo_weaken. set_solver.
  - specialize (Hv I). destruct Hp as [Hd Hc].
    eapply yields_wp; [by apply yields_installTalosImage|..].
    + intros h' X e He Hx. apply Hi; [by transitivity h1|by eapply verifiedRescue_extends|done].
    + intros r h' He Hs. apply HQ; [by transitivity h1|done].
Qed.

Lemma wp_stateInstallFlatcar G hrm machine hrh (Q : stepResult -> hist -> Prop) h :
  allowsInstall G h ->
  (forall r h', extends h' h -> stepsTo hrm [StateNone; StateActivatingRescue; StateInstalling] r -> Q r h') ->
  wp G (stateInstallFlatcar hrm machine hrc hrh robotClient id ip) Q h.
Proof.
  intros HG HQ. unfold stateInstallFlatcar. apply wp_bind, (emits_wp isRead); [auto with guards| |].
  { intros h' X e He Hx. apply (proj1 HG); auto with guards. }
  intros [data|err] h1 H1; [|by apply wp_ret, HQ; [|apply stay]].
  apply wp_bind, (emits_wp isRead); [auto with guards| |].
  { intros h' X e He Hx. apply (proj1 HG); [by transitivity h1|auto with guards]. }
  intros [key|err] h2 H2; [|apply wp_ret, HQ; [by transitivity h1|apply stay]].
  assert (extends h2 h) as H2' by by transitivity h1.
  destruct (allowsInstall_extends G h h2 H2' HG) as [Hr Hi].
  apply wp_bind, wp_prepareDisks; [done|done|].
  intros [r|[[[hrm' c] hw] disk]] h3 H3 Hp Hv.
  - apply wp_ret, HQ; [by transitivity h2|]. revert Hp. apply stepsTo_weaken. set_solver.
  - specialize (Hv I). destruct Hp as [Hd Hc].
    eapply yields_wp; [by apply yields_installFlatcarImage|..].
    + intros h' X e He Hx. apply Hi; [by transitivity h3|by eapply verifiedRescue_extends|done].
    + intros r h' He Hs. apply HQ; [|done]. transitivity h3; [done|]. by transitivity h2.
Qed.

Lemma yields_stateWaitInstall hrm :
  yields (rescuing id ip) (stateWaitInstall hrm hrc robotClient id ip)
    (stepsTo hrm [StateBootingTalos; StateActivatingRescue]).
Proof.
  unfold stateWaitInstall. apply yields_emits; [reads|].
  intros [|]; [apply move; set_solver|].
  apply yields_emits; [reads|]. intros [|]; [|apply stay]. apply yields_activate_to. set_solver.
Qed.

Lemma yields_stateWaitFlatcarInstall hrm :
  yields harmless (stateWaitFlatcarInstall hrm hrc ip) (stepsTo hrm [StateBootingFlatcar]).
Proof.
  unfold stateWaitFlatcarInstall. apply yields_emits; [reads|]. intros [key|err]; [|apply stay].
  apply yields_emits; [apply emits_IsFlatcarUp|]. intros [|]; [apply move; set_solver|].
  apply yields_emits; [apply emits_IsReachable|]. intros _. apply stay.
Qed.

Lemma yields_stateWaitTalosMaintenanceMode hrm machine :
  yields harmless (stateWaitTalosMaintenanceMode hrm machine hrc ip) (stepsTo hrm [StateApplyingConfig]).
Proof.
  unfold stateWaitTalosMaintenanceMode. apply yields_emits; [reads|].
  intros [|]; cbn [negb]; [|apply stay].
  destruct (_ && _) eqn:Hfirst; [|apply move; set_solver]. bool_prop.
  apply yields_call; [done|]. intros [err|]; [apply stay|].
  apply yields_call; [split; [done|by exists ip]|]. intros [err|]; [apply stay|apply move; set_solver].
Qed.

Lemma yields_stateApplyConfig hrm machine hrh :
  yields (configuring ip) (stateApplyConfig hrm machine hrc hrh id ip) (stepsTo hrm [StateWaitingForBoot]).
Proof.
  unfold stateApplyConfig. apply yields_emits; [reads|]. intros [data|err]; [|apply stay].
  unfold attempt. destruct (talosConfig _ _ _ _ _ _); try apply stay.
  apply yields_emits; [apply emits_ApplyConfig|]. intros [err|]; [apply stay|]. cbv zeta.
  split; [|split; [by left|cbn; set_solver]]. split; [done|]. split; [apply specKept_provider|done].
Qed.

Lemma ready_step hrm o to :
  StateProvisioned ∈ to -> stepsTo hrm to (markReady (setState StateProvisioned hrm), o).
Proof. intros Hto. split_and!; [done|by right|cbn; set_solver]. Qed.

Lemma yields_stateWaitForBoot hrm :
  yields harmless (stateWaitForBoot hrm ip) (stepsTo hrm [StateProvisioned]).
Proof.
  unfold stateWaitForBoot. apply yields_emits; [reads|]. intros [|]; cbn [negb]; [|apply stay].
  apply ready_step. set_solver.
Qed.

Lemma yields_stateWaitFlatcarBoot hrm :
  yields harmless (stateWaitFlatcarBoot hrm hrc ip) (stepsTo hrm [StateProvisioned]).
Proof.
  unfold stateWaitFlatcarBoot. apply yields_emits; [reads|]. intros [key|err]; [|apply stay].
  apply yields_emits; [apply emits_CheckFlatcarBootstrapComplete|].
  intros [[|]|err]; cbn [negb]; try apply stay. apply ready_step. set_solver.
Qed.
End Handlers.
