(* ===== verification/Machine.v ===== *)
(** * The machine reconciler

    controllers/hetznerrobotmachine_controller.go: the reconciliation of a
    HetznerRobotMachine, its provisioning and its deletion, and the mapping of
    host releases to machines. *)

From S2P Require Import Prelude GoStrings GoTime Api Effects Lib Policy Robot Rescue Talos HostClaim Inject Ignition Retry States.

Local Open Scope Z_scope.

(** ** Provisioning *)

(** The addresses reported to the Cluster API. *)
Definition machineAddresses (hrc : HetznerRobotCluster) (hrh : HetznerRobotHost) : list MachineAddress :=
  let spec := hrh_Spec hrh in
  let addresses := [MkMachineAddress MachineExternalIP (hs_ServerIP spec)] in
  let addresses :=
    match cs_VLANConfig (hrc_Spec hrc) with
    | Some _ => if String.eqb (hs_InternalIP spec) "" then addresses
                else addresses ++ [MkMachineAddress MachineInternalIP (hs_InternalIP spec)]
    | None => addresses
    end in
  if String.eqb (hs_ServerIPv6Net spec) "" then addresses
  else addresses ++ [MkMachineAddress MachineExternalIP
         (trimSuffix (ipv6Prefix (hs_ServerIPv6Net spec)) "::" +:+ "::1")].

(** The branch for a machine that is provisioned already. *)
Definition reconcileProvisioned `{Lib} (hrm : HetznerRobotMachine) : prog stepResult :=
  hrm ← (if String.eqb (statusHostRef hrm) "" then
           r ← backfillProvisionedHostClaim hrm; Ret (fst r)
         else Ret hrm);
  let hrm := markReady hrm in
  _ ← (if String.eqb (statusHostRef hrm) "" then Ret None else ensureProvisionedHostStatus hrm);
  if String.eqb (statusHostRef hrm) "" then requeue hrm requeueAfterLong else finish hrm.

(** The [switch] over the provisioning states. *)
Definition runState `{Lib} (hrm : HetznerRobotMachine) (hrc : HetznerRobotCluster) (machine : Machine)
    (hrh : HetznerRobotHost) (robotClient : Client) : prog stepResult :=
  let serverID := hs_ServerID (hrh_Spec hrh) in
  let serverIP := hs_ServerIP (hrh_Spec hrh) in
  match provisioningState hrm with
  | StateNone => stateActivateRescue hrm hrc robotClient serverID serverIP
  | StateActivatingRescue => stateCheckRescueActive hrm hrc robotClient serverID serverIP
  | StateInRescue =>
      if isFlatcar hrm then stateInstallFlatcar hrm machine hrc hrh robotClient serverID serverIP
      else stateInstallTalos hrm hrc robotClient serverID serverIP
  | StateInstalling =>
      if isFlatcar hrm then stateWaitFlatcarInstall hrm hrc serverIP
      else stateWaitInstall hrm hrc robotClient serverID serverIP
  | StateBootingTalos => stateWaitTalosMaintenanceMode hrm machine hrc serverIP
  | StateApplyingConfig => stateApplyConfig hrm machine hrc hrh serverID serverIP
  | StateWaitingForBoot => stateWaitForBoot hrm serverIP
  | StateBootingFlatcar => stateWaitFlatcarBoot hrm hrc serverIP
  | StateError => finish hrm
  | _ => finish hrm
  end.

(** The gate in front of the destructive states: the error of a denial. *)
Definition gate `{Lib} (hrm : HetznerRobotMachine) (machine : Machine) (hrh : HetznerRobotHost)
    : prog (option error) :=
  if provisioningMayBecomeDestructive (provisioningState hrm) then
    authorizeDestructiveProvisioningFor (Some hrm) (Some machine) (Some hrh)
  else Ret None.

Definition reconcileNormal `{Lib} (hrm : HetznerRobotMachine) (hrc : HetznerRobotCluster)
    (machine : Machine) : prog stepResult :=
  if decide (provisioningState hrm = StateProvisioned) then reconcileProvisioned hrm
  else
    r ← resolveHost hrm;
    let '(hrm, r) := r in
    unwrap hrh := r orelse err => failw hrm "resolve host: " err;
    let hrm := set_mst mst_Addresses (machineAddresses hrc hrh) hrm in
    e ← gate hrm machine hrh;
    ensure e orelse err => requeue (markDestructiveProvisioningDenied hrm err) requeueAfterLong;
    r ← buildRobotClient hrc;
    unwrap robotClient := r orelse err => failw hrm "build robot client: " err;
    runState hrm hrc machine hrh robotClient.

(** ** Deletion *)

(** Whether the drain is done, or timed out. *)
Definition drainDone `{Lib} (machine : Machine) : bool :=
  existsb (fun cond => String.eqb (c_Type cond) DrainingSucceededCondition && String.eqb (c_Status cond) "True")
    (m_Conditions machine) ||
  existsb (fun cond => String.eqb (c_Type cond) DrainingSucceededCondition
                       && String.eqb (c_Reason cond) "DrainError") (m_Conditions machine).

Definition waitsForDrain `{Lib} (machine : Machine) : bool :=
  match m_NodeRef machine with Some _ => negb (drainDone machine) | None => false end.

Definition removeMachineFinalizer `{Lib} (hrm : HetznerRobotMachine) : HetznerRobotMachine :=
  hrm <| hrm_Meta := (hrm_Meta hrm) <| Finalizers := RemoveFinalizer (Finalizers (hrm_Meta hrm)) MachineFinalizer |> |>.

(** Rescue and reset of the host; every error is only logged. *)
Definition resetOnDelete `{Lib} (hrc : HetznerRobotCluster) (robotClient : Client) (serverID : Z) : prog unit :=
  r ← getSSHKeyFingerprint hrc;
  let sshFingerprint := match r with Ok fp => fp | Err _ => "" end in
  _ ← ActivateRescue robotClient serverID sshFingerprint;
  _ ← ResetServer robotClient serverID ResetTypeHardware;
  Ret tt.

Definition reconcileDelete `{Lib} (hrm : HetznerRobotMachine) (hrc : HetznerRobotCluster)
    (machine : Machine) : prog stepResult :=
  let hrm := setState StateDeleting hrm in
  r ← resolveHostForDelete hrm;
  let hrh := match r with Ok hrh => hrh | Err _ => None end in
  let serverID := match hrh with Some hrh => hs_ServerID (hrh_Spec hrh) | None => 0 end in
  if waitsForDrain machine then requeue hrm (15 * Second)
  else
    r ← buildRobotClient hrc;
    unwrap robotClient := r orelse err => finish (removeMachineFinalizer hrm);
    denied ← (if serverID =? 0 then Ret None
              else
                match hrh with
                | Some hrh => authorizeDestructiveProvisioningFor (Some hrm) (Some machine) (Some hrh)
                | None => Ret None
                end);
    ensure denied orelse err => finish (removeMachineFinalizer hrm);
    _ ← (if serverID =? 0 then Ret tt else resetOnDelete hrc robotClient serverID);
    _ ← match hrh with
        | Some hrh => releaseHost (hrm_Namespace hrm) (hrh_Name hrh)
        | None => Ret None
        end;
    finish (removeMachineFinalizer hrm).

(** ** Reconciliation *)

(** States in which the provision timeout runs. *)
Definition timeoutApplies (s : ProvisioningState) : bool :=
  match s with StateProvisioned | StateError | StateDeleting => false | _ => true end.

(** A terminal failure. *)
Definition failTerminal `{Lib} (reason msg : string) (hrm : HetznerRobotMachine) : HetznerRobotMachine :=
  let hrm := set_mst mst_FailureMessage (Some msg) hrm in
  let hrm := set_mst mst_FailureReason (Some reason) hrm in
  let hrm := setState StateError hrm in
  let hrm := set_mst mst_Ready false hrm in
  set_mst mst_Conditions
    (MarkFalse (mst_Conditions (hrm_Status hrm)) ReadyCondition reason ConditionSeverityError msg) hrm.

Definition timeoutMessage `{Lib} (started : Z) (state : ProvisioningState) : string :=
  "Provision did not complete within 30m0s (started " +:+ RFC3339 started +:+ ", current state: "
  +:+ stateString state +:+ ")".

(** The timeout check: the machine with the clock started, or the terminal
    failure. *)
Definition checkTimeout `{Lib} (hrm : HetznerRobotMachine) : prog (HetznerRobotMachine * bool) :=
  if timeoutApplies (provisioningState hrm) then
    match mst_ProvisionStarted (hrm_Status hrm) with
    | None => now ← trigger ENow; Ret (set_mst mst_ProvisionStarted (Some now) hrm, false)
    | Some started =>
        now ← trigger ENow;
        if provisionTimeout <? since now started then
          Ret (failTerminal "ProvisionTimeout" (timeoutMessage started (provisioningState hrm)) hrm, true)
        else Ret (hrm, false)
    end
  else Ret (hrm, false).

(** The time left of the backoff, when it has not elapsed. *)
Definition backoffRemaining (hrm : HetznerRobotMachine) : prog (option Z) :=
  let status := hrm_Status hrm in
  match mst_LastRetryTimestamp status with
  | Some t =>
      if 0 <? mst_RetryCount status then
        let expectedBackoff := computeBackoff (mst_RetryCount status) in
        now ← trigger ENow;
        let elapsed := since now t in
        if elapsed <? expectedBackoff then Ret (Some (wrap64 (expectedBackoff - elapsed))) else Ret None
      else Ret None
  | None => Ret None
  end.

(** What is done with an error of [reconcileNormal]. *)
Definition handleError `{Lib} (hrm : HetznerRobotMachine) (err : error) : prog stepResult :=
  if isPermanentError (Some err) then
    finish (failTerminal "PermanentError" (err_msg err) hrm)
  else
    let hrm := set_mst mst_RetryCount (wrap64 (mst_RetryCount (hrm_Status hrm) + 1)) hrm in
    now ← trigger ENow;
    let hrm := set_mst mst_LastRetryTimestamp (Some now) hrm in
    requeue hrm (computeBackoff (mst_RetryCount (hrm_Status hrm))).

(** What is done after its success. *)
Definition handleSuccess `{Lib} (hrm : HetznerRobotMachine) : HetznerRobotMachine :=
  let hrm := set_mst mst_RetryCount 0 hrm in
  let hrm := set_mst mst_FailureMessage None hrm in
  let hrm := set_mst mst_FailureReason None hrm in
  let hrm := set_mst mst_LastRetryTimestamp None hrm in
  if decide (provisioningState hrm = StateProvisioned) then hrm
  else
    set_mst mst_Conditions
      (MarkFalse (mst_Conditions (hrm_Status hrm)) ReadyCondition "Provisioning" ConditionSeverityInfo
         "Machine is being provisioned") hrm.

(** From the backoff check on: one attempt at the machine's state. *)
Definition reconcileAttempt `{Lib} (hrm : HetznerRobotMachine) (hrc : HetznerRobotCluster)
    (machine : Machine) : prog stepResult :=
  b ← backoffRemaining hrm;
  match b with
  | Some remaining => requeue hrm remaining
  | None =>
      r ← reconcileNormal hrm hrc machine;
      let '(hrm, o) := r in
      match o with
      | Failed err => handleError hrm err
      | Returned result => Ret (handleSuccess hrm, Returned result)
      | Panicked msg => Ret (hrm, Panicked msg)
      end
  end.

(** From the deletion check to the end of [Reconcile]. *)
Definition reconcileMachine `{Lib} (hrm : HetznerRobotMachine) (hrc : HetznerRobotCluster)
    (machine : Machine) : prog stepResult :=
  match DeletionTimestamp (hrm_Meta hrm) with
  | Some _ => reconcileDelete hrm hrc machine
  | None =>
      if negb (ContainsFinalizer (Finalizers (hrm_Meta hrm)) MachineFinalizer) then
        finish (hrm <| hrm_Meta := (hrm_Meta hrm)
          <| Finalizers := AddFinalizer (Finalizers (hrm_Meta hrm)) MachineFinalizer |> |>)
      else
        t ← checkTimeout hrm;
        let '(hrm, timedOut) := t in
        if (timedOut : bool) then finish hrm else reconcileAttempt hrm hrc machine
  end.

(** The deferred patch runs on every way out of the body, a panic included;
    its error is only logged. *)
Definition Reconcile `{Lib} (req : NamespacedName) : prog outcome :=
  r ← trigger (EGet KMachine req);
  unwrap hrm := r orelse err =>
    Ret (if err_notfound err then Returned noRequeue else Failed err);
  r ← trigger (EOwnerMachine (hrm_Meta hrm));
  unwrap machine := r orelse err => Ret (Failed err);
  match machine with
  | None => Ret (Returned (MkResult requeueAfterShort))
  | Some machine =>
      r ← trigger (EClusterFromMetadata (m_Meta machine));
      unwrap cluster := r orelse err => Ret (Failed err);
      match cluster with
      | None => Ret (Returned (MkResult requeueAfterShort))
      | Some cluster =>
          if cl_Paused cluster then Ret (Returned noRequeue)
          else
            match cl_InfrastructureRef cluster with
            | None => Ret (Returned (MkResult requeueAfterShort))
            | Some ref =>
                r ← trigger (EGet KCluster ref);
                unwrap hrc := r orelse err => Ret (Returned (MkResult requeueAfterShort));
                e ← trigger (ENewPatchHelper KMachine hrm);
                ensure e orelse err => Ret (Failed (wrapf "failed to init patch helper: " err ""));
                r ← reconcileMachine hrm hrc machine;
                let '(hrm', o) := r in
                _ ← trigger (EPatch KMachine hrm hrm');
                Ret o
            end
      end
  end.

(** ** Releases *)

Definition ownerMatches `{Lib} (release : HetznerRobotHostRelease) (ownerRef : OwnerReference) : bool :=
  String.eqb (or_APIVersion ownerRef) clusterGroupVersion && String.eqb (or_Kind ownerRef) "Machine" &&
  String.eqb (or_Name ownerRef) (rm_Name (rl_MachineRef (rel_Spec release))) &&
  String.eqb (or_UID ownerRef) (rm_UID (rl_MachineRef (rel_Spec release))).

Definition machineKey (hrm : HetznerRobotMachine) : NamespacedName :=
  MkNamespacedName (hrm_Namespace hrm) (hrm_Name hrm).

(** The object of the event is a release: the manager passes no other kind. *)
Definition mapHostReleaseToMachines `{Lib} (release : HetznerRobotHostRelease) : prog (list NamespacedName) :=
  r ← trigger (EList KMachine (Namespace (rel_Meta release)) None);
  unwrap hrms := r orelse err => Ret [];
  Ret (map machineKey
    (List.filter (fun hrm : HetznerRobotMachine =>
       existsb (ownerMatches release) (OwnerReferences (hrm_Meta hrm))) hrms)).
