(* ===== verification/Safety.v ===== *)
(** * Safety of the machine reconciler

    What every run of the machine reconciler guarantees, whatever the API
    server, the Robot service, the servers and the clock answer: a server is
    only touched destructively when policy allows it, and a machine only moves
    along the transitions of its state machine. *)

From S2P Require Import Prelude GoStrings GoTime Api Effects Lib Samples Policy Robot Rescue Talos HostClaim Inject Ignition Retry States Machine.

Local Open Scope Z_scope.

(** ** What is allowed *)

(** The host was read from the API server, and its policy, or a release of the
    history, lets the machine destroy what is on it. *)
Definition authorized (machine : Machine) (host : HetznerRobotHost) (h : hist) : Prop :=
  fetched host h /\ mayDestroy machine host h.

(** The calls a reconciliation of the machine may make at a history.  A POST to
    the Robot service, a Talos reset and a command other than the fixed probes
    need an authorized host and go to that host's server; such a command runs
    as root after a check that found the rescue system; a machineconfig goes to
    the address of a host that was read; of a host only the moves of the machine
    with this reference are written, and of the cluster only its endpoint. *)
Definition safeCall (ref : MachineReference) (machine : Machine) : guard := fun h X e =>
  match e with
  | EHttp rq =>
      rq_Method rq = "POST" ->
      exists host, authorized machine host h /\ robotTarget (hs_ServerID (hrh_Spec host)) rq
  | EGrpcReset addr _ _ _ =>
      exists host, authorized machine host h /\ addr = talosAddr (hs_ServerIP (hrh_Spec host))
  | ESshExec addr user cmd =>
      cmd ∈ probeCommands \/
      exists host, authorized machine host h /\ addr = sshAddr (hs_ServerIP (hrh_Spec host)) /\
        user = "root" /\ verifiedRescue (hs_ServerIP (hrh_Spec host)) h
  | EGrpcApplyConfiguration addr data mode =>
      data = "" /\ mode = None \/
      exists host, fetched host h /\ addr = talosAddr (hs_ServerIP (hrh_Spec host))
  | EGrpcBootstrap _ => False
  | EPatch k before after =>
      match k return Obj k -> Obj k -> Prop with
      | KHost => hostMove ref
      | KCluster => endpointWrite
      | _ => fun _ _ => False
      end before after
  | _ => True
  end.

Lemma safe_harmless ref machine h X e : harmless X e -> safeCall ref machine h X e.
Proof.
  destruct e as [| | | |[] b a| | | | | | | | | | | |]; cbn; try done; intros Hh;
    [by apply move_quiet; apply Hh|by left|by left].
Qed.

Lemma safe_cluster ref machine h X e : isCluster ref X e -> safeCall ref machine h X e.
Proof. intros [Hr|Hw]; [by destruct e|]. by destruct e as [| | | |[] b a| | | | | | | | | | | |]. Qed.

Lemma authorized_extends machine host h' h :
  extends h' h -> authorized machine host h -> authorized machine host h'.
Proof. intros He [Hf Hm]. split; [by eapply fetched_extends|by eapply mayDestroy_mono]. Qed.

Lemma safe_rescuing ref machine host h X e :
  authorized machine host h ->
  rescuing (hs_ServerID (hrh_Spec host)) (hs_ServerIP (hrh_Spec host)) X e -> safeCall ref machine h X e.
Proof.
  intros Ha. destruct e; try (intros Hx; exact (safe_harmless ref machine h _ _ Hx)); cbn; try done; intros Hx.
  - intros Hp. exists host. auto.
  - by exists host.
Qed.

Lemma safe_installing ref machine host h X e :
  authorized machine host h -> verifiedRescue (hs_ServerIP (hrh_Spec host)) h ->
  installing (hs_ServerID (hrh_Spec host)) (hs_ServerIP (hrh_Spec host)) X e -> safeCall ref machine h X e.
Proof.
  intros Ha Hv Hi. destruct e; try by eapply safe_rescuing.
  destruct Hi as [Hp|(-> & ->)]; [by left|right]. by exists host.
Qed.

Lemma safe_configuring ref machine host h X e :
  fetched host h -> configuring (hs_ServerIP (hrh_Spec host)) X e -> safeCall ref machine h X e.
Proof.
  intros Hf Hc. destruct e; try by apply safe_harmless.
  destruct Hc as [->|Hh]; [right; by exists host|by apply safe_harmless].
Qed.

(** ** What changes *)

(** A machine after [reconcileNormal]. *)
Definition normalStep (hrm hrm' : HetznerRobotMachine) : Prop :=
  hrm_Meta hrm' = hrm_Meta hrm /\
  specKept hrm hrm' /\
  mst_RetryCount (hrm_Status hrm') = mst_RetryCount (hrm_Status hrm) /\
  mst_ProvisionStarted (hrm_Status hrm') = mst_ProvisionStarted (hrm_Status hrm) /\
  readyKept hrm hrm' /\
  provisioningState hrm' ∈ provisioningState hrm :: nextStates (isFlatcar hrm) (provisioningState hrm).

Lemma normal_refl hrm : normalStep hrm hrm.
Proof. unfold normalStep. split_and!; try done; [by left|constructor]. Qed.

Lemma normal_hostRef hrm n : normalStep hrm (set_mst mst_HostRef n hrm).
Proof. unfold normalStep. split_and!; try done; [by left|constructor]. Qed.

Lemma normal_of_step hrm0 hrm to r :
  normalStep hrm0 hrm -> provisioningState hrm = provisioningState hrm0 ->
  mst_Ready (hrm_Status hrm) = mst_Ready (hrm_Status hrm0) ->
  stepsTo hrm to r -> to ⊆ nextStates (isFlatcar hrm0) (provisioningState hrm0) ->
  normalStep hrm0 r.1.
Proof.
  intros (Hm & Ho & Hc & Hp & _ & _) Hs Hr (Hk & Hrk & Hin) Hto.
  destruct Hk as (Hkm & Hko & _ & Hkc & Hkp).
  split; [congruence|]. split; [by etransitivity|]. split; [congruence|]. split; [congruence|]. split.
  - destruct Hrk as [Hrk|]; [left; congruence|by right].
  - rewrite Hs in Hin. apply elem_of_cons in Hin as [->|Hin]; [constructor|]. apply elem_of_cons. auto.
Qed.

(** The handler of the machine's state, under a guard that allows what the state
    may do. *)
Lemma wp_runState_steps `{Lib} (G : guard) machine hrm hrc host (robotClient : Client) (Q : stepResult -> hist -> Prop) h :
  baseURL robotClient = robotBaseURL ->
  (provisioningMayBecomeDestructive (provisioningState hrm) = true ->
    allowsInstall (hs_ServerID (hrh_Spec host)) (hs_ServerIP (hrh_Spec host)) G h) ->
  (forall h' X e, extends h' h -> configuring (hs_ServerIP (hrh_Spec host)) X e -> G h' X e) ->
  (forall r h', extends h' h ->
     stepsTo hrm (nextStates (isFlatcar hrm) (provisioningState hrm)) r -> Q r h') ->
  wp G (runState hrm hrc machine host robotClient) Q h.
Proof.
  intros Hb Hi Hc HQ. unfold runState. cbv zeta.
  assert (forall P p R, yields P p R -> (forall h' X e, extends h' h -> P X e -> G h' X e) ->
    (forall r, R r -> stepsTo hrm (nextStates (isFlatcar hrm) (provisioningState hrm)) r) ->
    wp G p Q h) as Hy.
  { intros P p R Hp HP HR. eapply yields_wp; [exact Hp|done|]. intros r h' He Hr. apply HQ; auto. }
  assert (forall h' X e, extends h' h -> harmless X e -> G h' X e) as Hh
    by (intros; by apply Hc, harmless_configuring).
  destruct (provisioningState hrm) eqn:Hs; cbn in Hi; try specialize (Hi eq_refl);
    try (apply wp_ret, HQ; [done|apply stay]).
  - eapply Hy; [by apply yields_stateActivateRescue|apply Hi|done].
  - eapply Hy; [by apply yields_stateCheckRescueActive|apply Hi|].
    intros r (? & ? & Hin). split_and!; [done..|]. rewrite Hs in Hin |- *. cbn [nextStates].
    clear - Hin. set_solver.
  - destruct (isFlatcar hrm).
    + apply wp_stateInstallFlatcar; [done..|]. intros r h' He Hr. by apply HQ.
    + apply wp_stateInstallTalos; [done..|]. intros r h' He Hr. by apply HQ.
  - destruct (isFlatcar hrm).
    + eapply Hy; [by eapply yields_stateWaitFlatcarInstall|auto|done].
    + eapply Hy; [by apply yields_stateWaitInstall|apply Hi|done].
  - eapply Hy; [by eapply yields_stateWaitTalosMaintenanceMode|auto|done].
  - eapply Hy; [by eapply yields_stateApplyConfig|auto|done].
  - eapply Hy; [by eapply yields_stateWaitForBoot|auto|done].
  - eapply Hy; [by eapply yields_stateWaitFlatcarBoot|auto|done].
Qed.

Section Normal.
Context `{Lib} (G : guard) (ref : MachineReference) (machine : Machine).
Hypothesis HG : forall h X e, safeCall ref machine h X e -> G h X e.
Implicit Types (Q : stepResult -> hist -> Prop) (h : hist).

Lemma G_harmless h X e : harmless X e -> G h X e.
Proof. intros. by apply HG, safe_harmless. Qed.

Lemma G_cluster h X e : isCluster ref X e -> G h X e.
Proof. intros. by apply HG, safe_cluster. Qed.

Lemma G_read h X e : isRead X e -> G h X e.
Proof. intros. apply G_harmless. auto with guards. Qed.

(** The handler of the machine's state, on a host that is authorized when
    the state asks for it. *)
Lemma wp_runState hrm hrc host (robotClient : Client) Q h :
  baseURL robotClient = robotBaseURL -> fetched host h ->
  (provisioningMayBecomeDestructive (provisioningState hrm) = true -> authorized machine host h) ->
  (forall r h', extends h' h ->
     stepsTo hrm (nextStates (isFlatcar hrm) (provisioningState hrm)) r -> Q r h') ->
  wp G (runState hrm hrc machine host robotClient) Q h.
Proof.
  intros Hb Hf Ha HQ. apply wp_runState_steps; [done| | |done].
  - intros Hd. specialize (Ha Hd). split.
    + intros h' X e He Hx. apply HG. eapply safe_rescuing; [by eapply authorized_extends|done].
    + intros h' X e He Hv Hx. apply HG. eapply safe_installing; [by eapply authorized_extends|done..].
  - intros h' X e He Hx. apply HG. eapply safe_configuring; [by eapply fetched_extends|done].
Qed.

Lemma wp_buildRobotClient hrc (Q : res Client -> hist -> Prop) h :
  (forall r h', extends h' h -> (forall c, r = Ok c -> baseURL c = robotBaseURL) -> Q r h') ->
  wp G (buildRobotClient hrc) Q h.
Proof.
  intros HQ. apply wp_NewFromCluster; [intros; by apply G_read|].
  intros r h' He Hc. apply HQ; [by apply onlyReads_extends|done].
Qed.

Lemma wp_reads_safe {A} (p : prog A) (Q : A -> hist -> Prop) h :
  emits isRead p -> (forall a h', extends h' h -> Q a h') -> wp G p Q h.
Proof. intros Hp HQ. apply (emits_wp isRead); [done| |done]. intros. by apply G_read. Qed.

Lemma wp_cluster_safe {A} (p : prog A) (Q : A -> hist -> Prop) h :
  emits (isCluster ref) p -> (forall a h', extends h' h -> Q a h') -> wp G p Q h.
Proof. intros Hp HQ. apply (emits_wp (isCluster ref)); [done| |done]. intros. by apply G_cluster. Qed.

Lemma wp_authorize_safe hrm host (Q : option error -> hist -> Prop) h :
  (forall e h', extends h' h -> (e = None -> mayDestroy machine host h') -> Q e h') ->
  wp G (authorizeDestructiveProvisioningFor (Some hrm) (Some machine) (Some host)) Q h.
Proof. intros HQ. apply wp_authorize; [intros; by apply G_read|done]. Qed.

Lemma wp_reconcileProvisioned hrm Q h :
  machineReferenceFor hrm = ref -> provisioningState hrm = StateProvisioned ->
  (forall r h', extends h' h -> normalStep hrm r.1 -> Q r h') ->
  wp G (reconcileProvisioned hrm) Q h.
Proof.
  intros Href Hs HQ. unfold reconcileProvisioned.
  assert (forall hrm' h', extends h' h -> normalStep hrm hrm' -> provisioningState hrm' = StateProvisioned ->
    wp G (let hrm0 := markReady hrm' in
          _ ← (if String.eqb (statusHostRef hrm0) "" then Ret None else ensureProvisionedHostStatus hrm0);
          if String.eqb (statusHostRef hrm0) "" then requeue hrm0 requeueAfterLong else finish hrm0) Q h')
    as Hrest.
  { intros hrm' h' He Hn Hp. cbv zeta.
    assert (forall o h1, extends h1 h' -> Q (markReady hrm', o) h1) as HQ'.
    { intros o h1 H1. apply HQ; [by transitivity h'|].
      destruct Hn as (? & ? & ? & ? & _ & ?). split_and!; try done. by right. }
    destruct (String.eqb _ ""); [by apply wp_ret, HQ'|].
    apply wp_bind, wp_cluster_safe.
    { replace ref with (machineReferenceFor (markReady hrm')); [apply emits_ensureProvisionedHostStatus|].
      rewrite <- Href. unfold machineReferenceFor. cbn. by rewrite (proj1 Hn). }
    intros _ h1 H1. by apply wp_ret, HQ'. }
  pose proof (normal_refl hrm) as Hrefl. pose proof (normal_hostRef hrm) as Hset.
  destruct (String.eqb (statusHostRef hrm) ""); [|by apply wp_bind, wp_ret, Hrest].
  apply wp_bind, wp_bind.
  eapply wp_mono; [|apply (wp_extends G), (yields_wp (isCluster (machineReferenceFor hrm)) G _
    (fun r => r.1 = hrm \/ exists n, r.1 = set_mst mst_HostRef n hrm) (fun r _ =>
     r.1 = hrm \/ exists n, r.1 = set_mst mst_HostRef n hrm))]; [|apply yields_backfill| |done].
  - intros r h' [Hr He]. apply wp_ret, Hrest; [done|..]; by destruct Hr as [->|[n ->]].
  - intros h' X e _ Hc. apply G_cluster. by rewrite <- Href.
Qed.

Lemma wp_reconcileNormal hrm hrc Q h :
  machineReferenceFor hrm = ref ->
  (forall r h', extends h' h -> normalStep hrm r.1 -> Q r h') ->
  wp G (reconcileNormal hrm hrc machine) Q h.
Proof.
  intros Href HQ. unfold reconcileNormal. destruct (decide _) as [Hs|Hs]; [by apply wp_reconcileProvisioned|].
  apply wp_bind, (claims_resolveHost G hrm h).
  { intros h' X e _ Hc. apply G_cluster. rewrite <- Href. by apply claims_cluster. }
  intros hrm1 r h1 H1 _ [Hhrm Hr].
  assert (normalStep hrm hrm1 /\ provisioningState hrm1 = provisioningState hrm /\
    mst_Ready (hrm_Status hrm1) = mst_Ready (hrm_Status hrm) /\ isFlatcar hrm1 = isFlatcar hrm)
    as (Hn & Hst & Hrd & Hfl).
  { destruct Hhrm as [->|[n ->]]; (split; [|done]); [apply normal_refl|apply normal_hostRef]. }
  clear Hhrm. destruct r as [host|err]; [|by apply wp_ret, HQ].
  destruct (Hr host eq_refl) as [Hf _]. clear Hr. cbv zeta.
  set (hrm2 := set_mst mst_Addresses _ hrm1).
  assert (normalStep hrm hrm2 /\ provisioningState hrm2 = provisioningState hrm /\
    mst_Ready (hrm_Status hrm2) = mst_Ready (hrm_Status hrm) /\ isFlatcar hrm2 = isFlatcar hrm)
    as (Hn2 & Hst2 & Hrd2 & Hfl2) by done.
  clearbody hrm2. clear Hn Hst Hrd Hfl hrm1.
  apply wp_bind. unfold gate.
  assert (forall h2, extends h2 h1 ->
    (provisioningMayBecomeDestructive (provisioningState hrm2) = true -> mayDestroy machine host h2) ->
    wp G (r ← buildRobotClient hrc;
          unwrap robotClient := r orelse err => failw hrm2 "build robot client: " err;
          runState hrm2 hrc machine host robotClient) Q h2) as Hrun.
  { intros h2 H2 Hm. apply wp_bind, wp_buildRobotClient. intros [c|err] h3 H3 Hc.
    2: { apply wp_ret, HQ; [|done]. transitivity h2; [done|]. by transitivity h1. }
    apply wp_runState; [by apply Hc| | |].
    - eapply fetched_extends; [|exact Hf]. by transitivity h2.
    - intros Hd. split; [eapply fetched_extends; [|exact Hf]; by transitivity h2|].
      eapply mayDestroy_mono; [done|]. by apply Hm.
    - intros r h4 H4 Hr. apply HQ.
      + transitivity h3; [done|]. transitivity h2; [done|]. by transitivity h1.
      + eapply normal_of_step; [done..|exact Hr|]. rewrite Hst2, Hfl2. done. }
  destruct (provisioningMayBecomeDestructive _); [|by apply wp_ret, Hrun].
  apply wp_authorize_safe. intros [err|] h2 H2 Hm; [|by apply Hrun; [|intros _; apply Hm]].
  apply wp_ret, HQ; [by transitivity h1|]. done.
Qed.

(** ** Deletion *)

Lemma wp_reconcileDelete hrm hrc Q h :
  (forall r h', extends h' h ->
     r.1 = setState StateDeleting hrm \/ r.1 = removeMachineFinalizer (setState StateDeleting hrm) ->
     (forall err, r.2 <> Failed err) -> Q r h') ->
  wp G (reconcileDelete hrm hrc machine) Q h.
Proof.
  intros HQ. unfold reconcileDelete. cbv zeta.
  apply wp_bind, wp_resolveHostForDelete; [intros; by apply G_read|].
  intros r h1 H1 Hr.
  assert (forall hrh, match r with Ok hrh => hrh | Err _ => None end = Some hrh -> fetched hrh h1) as Hf.
  { intros hrh Hh. destruct r as [o|err]; [|done]. subst o. by apply Hr. }
  revert Hf. generalize (match r with Ok hrh => hrh | Err _ => None end). clear Hr r. intros host Hf.
  destruct (waitsForDrain machine); [by apply wp_ret, HQ; [|left|]|].
  apply wp_bind, wp_buildRobotClient. intros [c|err] h2 H2 Hc.
  2: { apply wp_ret, HQ; [by transitivity h1|by right|done]. }
  specialize (Hc c eq_refl). assert (extends h2 h) as H2' by by transitivity h1.
  assert (forall h3, extends h3 h2 -> wp G (_ ← match host with
      | Some hrh => releaseHost (hrm_Namespace (setState StateDeleting hrm)) (hrh_Name hrh)
      | None => Ret None end;
      finish (removeMachineFinalizer (setState StateDeleting hrm))) Q h3) as Hend.
  { intros h3 H3. assert (extends h3 h) as H3' by by transitivity h2.
    destruct host as [hrh|]; [|apply wp_ret, HQ; [done|by right|done]].
    apply wp_bind, wp_cluster_safe; [apply emits_releaseHost|].
    intros _ h4 H4. apply wp_ret, HQ; [by transitivity h3|by right|done]. }
  destruct host as [hrh|]; cbn beta iota.
  2: { apply wp_bind, wp_ret. apply wp_bind, wp_ret. by apply Hend. }
  destruct (Z.eqb_spec (hs_ServerID (hrh_Spec hrh)) 0) as [Hz|Hz].
  { apply wp_bind, wp_ret. apply wp_bind, wp_ret. by apply Hend. }
  apply wp_bind, wp_authorize_safe. intros [err|] h3 H3 Hm.
  { apply wp_ret, HQ; [by transitivity h2|by right|done]. }
  assert (authorized machine hrh h3) as Ha.
  { split; [|by apply Hm]. eapply fetched_extends; [|by apply Hf]. by transitivity h2. }
  apply wp_bind. unfold resetOnDelete.
  apply wp_bind, wp_reads_safe; [auto with guards|]. intros fp h4 H4. cbv zeta.
  apply wp_bind, (emits_wp (rescuing (hs_ServerID (hrh_Spec hrh)) (hs_ServerIP (hrh_Spec hrh)))).
  { by apply emits_activate. }
  { intros h' X e He Hx. apply HG. eapply safe_rescuing; [|done].
    eapply authorized_extends; [|exact Ha]. by transitivity h4. }
  intros _ h5 H5.
  apply wp_bind, (emits_wp (rescuing (hs_ServerID (hrh_Spec hrh)) (hs_ServerIP (hrh_Spec hrh)))).
  { by apply emits_reset. }
  { intros h' X e He Hx. apply HG. eapply safe_rescuing; [|done].
    eapply authorized_extends; [|exact Ha]. transitivity h5; [done|]. by transitivity h4. }
  intros _ h6 H6. apply wp_ret. apply Hend.
  transitivity h5; [done|]. transitivity h4; [done|]. by transitivity h3.
Qed.
End Normal.

(** ** The whole reconciliation *)

(** Nothing of a machine's spec is ever assigned but the provider id, and
    nothing of its metadata but the finalizers. *)
Definition machineKept (before after : HetznerRobotMachine) : Prop :=
  specKept before after /\ exists fs, hrm_Meta after = (hrm_Meta before) <| Finalizers := fs |>.

Lemma metaKept_same (m m' : ObjectMeta) : m' = m -> exists fs, m' = m <| Finalizers := fs |>.
Proof. intros ->. exists (Finalizers m). by destruct m. Qed.

Lemma normal_kept hrm hrm' : normalStep hrm hrm' -> machineKept hrm hrm'.
Proof. intros (Hm & Hs & _). split; [done|by apply metaKept_same]. Qed.

(** What a reconciliation may write into the machine it read. *)
Definition machineStep (before after : HetznerRobotMachine) : Prop :=
  machineKept before after /\
  match DeletionTimestamp (hrm_Meta before) with
  | Some _ => provisioningState after = StateDeleting
  | None =>
      provisioningState after ∈
        StateError :: provisioningState before :: nextStates (isFlatcar before) (provisioningState before)
  end /\
  (mst_Ready (hrm_Status after) = true ->
   mst_Ready (hrm_Status before) = true \/ provisioningState after = StateProvisioned).

Lemma machineStep_normal hrm hrm' :
  DeletionTimestamp (hrm_Meta hrm) = None -> normalStep hrm hrm' -> machineStep hrm hrm'.
Proof.
  intros Hd Hn. pose proof (normal_kept _ _ Hn) as Hk. destruct Hn as (_ & _ & _ & _ & Hr & Hs).
  unfold machineStep. rewrite Hd. split; [done|]. split.
  - apply elem_of_cons. by right.
  - destruct Hr as [->|?]; auto.
Qed.

Lemma machineStep_frame hrm hrm1 hrm2 :
  machineStep hrm hrm1 -> machineKept hrm hrm2 -> provisioningState hrm2 = provisioningState hrm1 ->
  mst_Ready (hrm_Status hrm2) = mst_Ready (hrm_Status hrm1) -> machineStep hrm hrm2.
Proof. intros (_ & Hs & Hr) Hk H1 H2. unfold machineStep. by rewrite H1, H2. Qed.

Lemma machineStep_error `{Lib} hrm hrm1 reason msg :
  DeletionTimestamp (hrm_Meta hrm) = None -> machineKept hrm hrm1 ->
  machineStep hrm (failTerminal reason msg hrm1).
Proof. intros Hd Hk. unfold machineStep. rewrite Hd. split; [exact Hk|]. split; [constructor|done]. Qed.

Lemma handleSuccess_kept `{Lib} hrm hrm' : machineKept hrm hrm' -> machineKept hrm (handleSuccess hrm').
Proof. intros Hk. unfold handleSuccess. cbv zeta. by destruct (decide _). Qed.

(** The machine with what an attempt reports: ready, state, failure, retries and
    conditions; all else is as it was. *)
Definition withReport (hrm : HetznerRobotMachine) (ready : bool) (state : ProvisioningState)
    (reason msg : option string) (retries : Z) (lastRetry : option Z) (conds : list Condition) : HetznerRobotMachine :=
  let s := hrm_Status hrm in
  MkHRM (hrm_Meta hrm) (hrm_Spec hrm)
    (MkHRMStatus ready (mst_Initialization s) (mst_Addresses s) state (mst_HostRef s) (mst_PrimaryMAC s)
       (mst_GatewayIP s) (mst_ResolvedInstallDisk s) reason msg (mst_ProvisionStarted s) retries lastRetry
       (mst_LastResetTime s) conds).

(** How an attempt ends, for a machine [hrm] it started with: the machine as its
    state's handler left it ([hrm']), but for what is reported. *)
Inductive attemptEnd `{Lib} (hrm : HetznerRobotMachine) : hist -> stepResult -> Prop :=
| end_waiting h remaining : attemptEnd hrm h (hrm, Returned (MkResult remaining))
| end_success h hrm' result :
    normalStep hrm hrm' ->
    attemptEnd hrm h
      (withReport hrm' (mst_Ready (hrm_Status hrm')) (provisioningState hrm') None None 0 None
         (if decide (provisioningState hrm' = StateProvisioned) then mst_Conditions (hrm_Status hrm')
          else MarkFalse (mst_Conditions (hrm_Status hrm')) ReadyCondition "Provisioning" "Info"
                 "Machine is being provisioned"),
       Returned result)
| end_permanent h hrm' err :
    normalStep hrm hrm' -> isPermanentError (Some err) = true ->
    attemptEnd hrm h
      (withReport hrm' false StateError (Some "PermanentError") (Some (err_msg err))
         (mst_RetryCount (hrm_Status hrm')) (mst_LastRetryTimestamp (hrm_Status hrm'))
         (MarkFalse (mst_Conditions (hrm_Status hrm')) ReadyCondition "PermanentError" "Error" (err_msg err)),
       Returned (MkResult 0))
| end_transient h hrm' err now :
    normalStep hrm hrm' -> isPermanentError (Some err) = false -> hd_error h = Some (Ev ENow now) ->
    attemptEnd hrm h
      (set_mst mst_LastRetryTimestamp (Some now)
         (set_mst mst_RetryCount (wrap64 (mst_RetryCount (hrm_Status hrm) + 1)) hrm'),
       Returned (MkResult (computeBackoff (wrap64 (mst_RetryCount (hrm_Status hrm) + 1)))))
| end_panic h hrm' msg : normalStep hrm hrm' -> attemptEnd hrm h (hrm', Panicked msg).

Lemma attemptEnd_success `{Lib} hrm h hrm' result :
  normalStep hrm hrm' -> attemptEnd hrm h (handleSuccess hrm', Returned result).
Proof.
  intros Hn%(end_success hrm h hrm' result). destruct hrm' as [meta spec []].
  unfold handleSuccess. cbv zeta. revert Hn. unfold withReport, provisioningState. cbn. by destruct (decide _).
Qed.

Lemma attemptEnd_permanent `{Lib} hrm h hrm' err :
  normalStep hrm hrm' -> isPermanentError (Some err) = true ->
  attemptEnd hrm h (failTerminal "PermanentError" (err_msg err) hrm', Returned noRequeue).
Proof. intros Hn Hp. apply (end_permanent hrm h hrm' err Hn) in Hp. by destruct hrm' as [meta spec []]. Qed.

Lemma wp_reconcileAttempt `{Lib} (G : guard) ref machine hrm hrc (Q : stepResult -> hist -> Prop) h :
  machineReferenceFor hrm = ref ->
  (forall h X e, safeCall ref machine h X e -> G h X e) ->
  (forall r h', extends h' h -> attemptEnd hrm h' r -> Q r h') ->
  wp G (reconcileAttempt hrm hrc machine) Q h.
Proof.
  intros Href HG HQ. unfold reconcileAttempt.
  apply wp_bind, (emits_wp harmless); [unfold backoffRemaining; cbv zeta; repeat emits_step; done| |].
  { intros. by apply HG, safe_harmless. }
  intros [remaining|] h2 H2; [by apply wp_ret, HQ; [|constructor]|].
  apply wp_bind, (wp_reconcileNormal G ref); [done|done|]. intros [hrm3 o] h3 H3 Hn. cbn [fst] in Hn.
  assert (extends h3 h) as H3' by by transitivity h2.
  destruct o as [result|err|msg]; [by apply wp_ret, HQ; [|apply attemptEnd_success]| |by apply wp_ret, HQ; [|constructor]].
  unfold handleError. destruct (isPermanentError _) eqn:Hp; [by apply wp_ret, HQ; [|apply attemptEnd_permanent]|].
  cbv zeta. apply wp_bind, wp_trigger; [by apply HG|]. intros now.
  apply wp_ret, HQ; [extends_tac|]. pose proof (end_transient hrm (Ev ENow now :: h3) hrm3 err now Hn Hp eq_refl) as He.
  destruct Hn as (_ & _ & Hc & _). cbn in He |- *. by rewrite Hc.
Qed.

Lemma machineStep_attempt `{Lib} hrm h r :
  DeletionTimestamp (hrm_Meta hrm) = None -> attemptEnd hrm h r -> machineStep hrm r.1.
Proof.
  intros Hd He. destruct He as [h remaining|h hrm' result Hn|h hrm' err Hn _|h hrm' err now Hn _ _|h hrm' msg Hn].
  - apply machineStep_normal; [done|apply normal_refl].
  - pose proof (normal_kept _ _ Hn) as Hk. apply machineStep_normal in Hn; [|done].
    by eapply machineStep_frame; [exact Hn|exact Hk|..].
  - apply normal_kept in Hn. unfold machineStep. rewrite Hd. split; [exact Hn|]. split; [constructor|done].
  - pose proof (normal_kept _ _ Hn) as Hk. apply machineStep_normal in Hn; [|done]. by eapply machineStep_frame.
  - by apply machineStep_normal.
Qed.

(** The timeout check: no answer but the clock's, and the clock started. *)
Lemma wp_checkTimeout `{Lib} (G : guard) hrm (Q : HetznerRobotMachine * bool -> hist -> Prop) h :
  (forall h X e, harmless X e -> G h X e) ->
  (timeoutApplies (provisioningState hrm) = false -> Q (hrm, false) h) ->
  (timeoutApplies (provisioningState hrm) = true -> forall now,
     match mst_ProvisionStarted (hrm_Status hrm) with
     | None => Q (set_mst mst_ProvisionStarted (Some now) hrm, false) (Ev ENow now :: h)
     | Some started =>
         if provisionTimeout <? since now started then
           Q (failTerminal "ProvisionTimeout" (timeoutMessage started (provisioningState hrm)) hrm, true)
             (Ev ENow now :: h)
         else Q (hrm, false) (Ev ENow now :: h)
     end) ->
  wp G (checkTimeout hrm) Q h.
Proof.
  intros HG Hno Hyes. unfold checkTimeout. destruct (timeoutApplies _); [|by apply wp_ret, Hno].
  specialize (Hyes eq_refl).
  destruct (mst_ProvisionStarted _) as [started|]; apply wp_bind, wp_trigger; try (by apply HG);
    intros now; specialize (Hyes now); [destruct (_ <? _)|]; by apply wp_ret.
Qed.

Lemma wp_reconcileMachine `{Lib} (G : guard) ref machine hrm hrc (Q : stepResult -> hist -> Prop) h :
  machineReferenceFor hrm = ref ->
  (forall h X e, safeCall ref machine h X e -> G h X e) ->
  (forall r h', extends h' h -> machineStep hrm r.1 -> (forall err, r.2 <> Failed err) -> Q r h') ->
  wp G (reconcileMachine hrm hrc machine) Q h.
Proof.
  intros Href HG HQ. unfold reconcileMachine.
  destruct (DeletionTimestamp (hrm_Meta hrm)) as [t|] eqn:Hd.
  { apply (wp_reconcileDelete G ref); [done|]. intros r h' He Hr Ho. apply HQ; [done| |done].
    unfold machineStep. rewrite Hd. destruct Hr as [->| ->]; (split; [split; [done|]|split; [done|by left]]).
    - by apply metaKept_same.
    - by eexists. }
  assert (machineStep hrm hrm) as Hrefl by (apply machineStep_normal; [done|apply normal_refl]).
  destruct (negb _).
  { apply wp_ret, HQ; [done| |done]. eapply machineStep_frame; [exact Hrefl| |done..]. split; [done|by eexists]. }
  assert (forall hrm1 h1, extends h1 h -> hrm_Meta hrm1 = hrm_Meta hrm -> hrm_Spec hrm1 = hrm_Spec hrm ->
    provisioningState hrm1 = provisioningState hrm ->
    mst_Ready (hrm_Status hrm1) = mst_Ready (hrm_Status hrm) -> wp G (reconcileAttempt hrm1 hrc machine) Q h1) as Hrest.
  { intros hrm1 h1 H1 Hm Hsp Hs Hr. apply (wp_reconcileAttempt G ref machine); [|done|].
    { rewrite <- Href. unfold machineReferenceFor. by rewrite Hm. }
    intros r h2 H2 He. apply HQ; [by transitivity h1| |by destruct He].
    assert (DeletionTimestamp (hrm_Meta hrm1) = None) as Hd1 by by rewrite Hm.
    apply machineStep_attempt in He as (Hk & H2s & H2r); [|done]. unfold machineStep, machineKept, specKept in *.
    rewrite Hd1, Hs in H2s. unfold isFlatcar in H2s |- *. rewrite Hm, Hsp in *. by rewrite Hd, <- Hr. }
  apply wp_bind, wp_checkTimeout; [intros; by eapply HG, safe_harmless|by intros _; apply Hrest|].
  intros _ now. destruct (mst_ProvisionStarted _) as [started|]; [destruct (_ <? _)|].
  - apply wp_ret, HQ; [extends_tac|apply machineStep_error; [done|apply Hrefl]|done].
  - by apply Hrest; [extends_tac|..].
  - by apply Hrest; [extends_tac|..].
Qed.

(** The reference to the machine with this metadata. *)
Definition metaReference (m : ObjectMeta) : MachineReference := MkMachineReference (Name m) (Namespace m).

(** A write of the machine object. *)
Definition machineWrite (X : Set) (e : Eff X) : Prop :=
  match e with EPatch KMachine _ _ => True | _ => False end.

(** The calls of a run of [Reconcile]: harmless ones, the write of the machine,
    and what is safe for the Machine that owns it according to the history. *)
Definition reconcileSafe : guard := fun h X e =>
  harmless X e \/ machineWrite X e \/
  exists meta machine, Ev (EOwnerMachine meta) (Ok (Some machine)) ∈ h /\ safeCall (metaReference meta) machine h X e.

(** How a run ends: with nothing but reads, or with the write, as its last call,
    of the machine it read as the body of the run ([reconcileMachine], after the
    reads [h0]) has left it. *)
Definition persisted `{Lib} (req : NamespacedName) (o : outcome) (h : hist) : Prop :=
  Forall readEvent h \/
  exists before after a h1,
    h = Ev (EPatch KMachine before after) a :: h1 /\ patches KMachine h1 = [] /\
    Ev (EGet KMachine req) (Ok before) ∈ h1 /\ machineStep before after /\
    (forall err, o <> Failed err) /\
    exists h0 hrc machine, Forall readEvent h0 /\ Ev (EOwnerMachine (hrm_Meta before)) (Ok (Some machine)) ∈ h0 /\
      exec (reconcileMachine before hrc machine) h0 h1 (after, o).

Lemma wp_Reconcile `{Lib} (G : guard) req (Q : outcome -> hist -> Prop) :
  (forall h X e, harmless X e -> G h X e) ->
  (forall h X e meta machine, Ev (EOwnerMachine meta) (Ok (Some machine)) ∈ h ->
     safeCall (metaReference meta) machine h X e -> G h X e) ->
  (forall h before after, machineStep before after -> G h _ (EPatch KMachine before after)) ->
  (forall o h', persisted req o h' -> Q o h') ->
  wp G (Reconcile req) Q [].
Proof.
  intros Hh Hs Hw HQ. unfold Reconcile.
  assert (forall o h', Forall readEvent h' -> wp G (Ret o) Q h') as Hret by (intros; by apply wp_ret, HQ; left).
  apply wp_bind, wp_trigger; [by apply Hh|]. intros [hrm|err]; [|by apply Hret; repeat constructor].
  apply wp_bind, wp_trigger; [by apply Hh|]. intros [[machine|]|err]; try by apply Hret; repeat constructor.
  apply wp_bind, wp_trigger; [by apply Hh|]. intros [[cluster|]|err]; try by apply Hret; repeat constructor.
  destruct (cl_Paused cluster); [by apply Hret; repeat constructor|].
  destruct (cl_InfrastructureRef cluster) as [ref|]; [|by apply Hret; repeat constructor].
  apply wp_bind, wp_trigger; [by apply Hh|]. intros [hrc|err]; [|by apply Hret; repeat constructor].
  apply wp_bind, wp_trigger; [by apply Hh|]. intros [err|]; [by apply Hret; repeat constructor|].
  clear Hret. set (h0 := _ :: _). assert (Ev (EOwnerMachine (hrm_Meta hrm)) (Ok (Some machine)) ∈ h0) as Hin.
  { unfold h0. do 3 (apply elem_of_cons; right). constructor. }
  assert (Ev (EGet KMachine req) (Ok hrm) ∈ h0) as Hget.
  { unfold h0. do 4 (apply elem_of_cons; right). constructor. }
  assert (patches KMachine h0 = []) as P0 by done.
  assert (Forall readEvent h0) as R0 by (unfold h0; repeat constructor).
  clearbody h0. apply wp_bind. eapply wp_mono; [|apply wp_with_exec, (wp_noPatch KMachine G _
    (fun r _ => machineStep hrm r.1 /\ forall err, r.2 <> Failed err)), wp_guard_extends, (wp_reconcileMachine _ (metaReference (hrm_Meta hrm)) machine)].
  - intros [hrm' o] h1 [((Hstep & Ho) & P1 & H1) Hrun]. apply wp_bind, wp_trigger; [by apply Hw|].
    intros a. apply wp_ret, HQ. right. exists hrm, hrm', a, h1. rewrite P1.
    split; [done|]. split; [done|]. split; [by eapply extends_elem|]. split; [done|]. split; [done|].
    by exists h0, hrc, machine.
  - done.
  - intros h1 X e Hx He. split; [|by destruct e as [| | | |[] b a| | | | | | | | | | | |]]. eapply Hs; [|exact Hx]. by eapply extends_elem.
  - done.
Qed.

(** * Properties *)

(** C1: no server is destroyed without permission.  In every run of the
    machine reconciler, provisioning and deletion alike, every POST to the
    Robot service (rescue activation, hardware reset), every Talos reset and
    every command on a server other than the fixed probes is preceded by the
    read of a host and by a policy decision that allows the CAPI Machine owning
    the reconciled object to destroy it (a disposable compute host, or a
    storage host with an unexpired release for that Machine), and goes to that
    host's server; commands run only after a check found the rescue system
    there.  Besides the machine the run writes only hosts, by a claim, a
    completed or confirmed ownership or a release for this machine, with spec and
    metadata as they were, and the first endpoint of the cluster. *)
Theorem destruction_needs_authorization `{Lib} (req : NamespacedName) h' o :
  exec (Reconcile req) [] h' o -> guarded reconcileSafe h'.
Proof.
  intros He. refine (proj2 (exec_guarded reconcileSafe _ (fun _ _ => True) _ _ He _)).
  apply wp_Reconcile; unfold reconcileSafe; [by left|..|done].
  - intros h X e meta machine Hin Hs. right; right. eauto.
  - intros h before after _. right; left. done.
Qed.

(** C2: the provisioning state only moves along the state machine.  Every
    write a run makes of a machine object (there is at most one kind of write:
    the deferred patch) takes a machine under deletion to Deleting, and any
    other machine to the same state, one of the documented successor states of
    its operating system, or Error; and a machine that becomes ready is in
    state Provisioned.  Of the machine's spec the write changes only the provider
    id, and of its metadata only the finalizers. *)
Theorem reconcile_transitions `{Lib} (req : NamespacedName) h' o :
  exec (Reconcile req) [] h' o ->
  Forall (fun p => machineStep p.1.1 p.1.2) (patches KMachine h').
Proof.
  intros He. apply (guarded_patches KMachine machineStep).
  refine (proj2 (exec_guarded (static (patchesOnly KMachine machineStep)) _ (fun _ _ => True) _ _ He _)).
  assert (forall X e, match e with EPatch k _ _ => k <> KMachine | _ => True end ->
    patchesOnly KMachine machineStep X e) as Hno.
  { intros X e Hk. destruct e; try done. cbn. by destruct (decide _). }
  apply wp_Reconcile; unfold static; [..|done].
  - intros h X e Hh. apply Hno. destruct e; try done. cbn in Hh. by destruct k.
  - intros h X e meta machine _ Hs. apply Hno. by destruct e as [| | | |[] b a| | | | | | | | | | | |].
  - intros h before after Hs. done.
Qed.

(** ** Witnesses *)

Import Demo.

Lemma destruction_needs_authorization_witness :
  let h := hist_of (goodWorld sampleHRM sampleHost) (Reconcile (MkNamespacedName "prod" "hrm-1")) in
  posts h = 2%nat /\ guarded reconcileSafe h.
Proof.
  split; [vm_compute; reflexivity|].
  exact (destruction_needs_authorization (MkNamespacedName "prod" "hrm-1") _ _ (exec_of _ _)).
Defined.

Lemma reconcile_transitions_witness :
  let h := hist_of (goodWorld sampleHRM sampleHost) (Reconcile (MkNamespacedName "prod" "hrm-1")) in
  length (patches KMachine h) = 1%nat /\ Forall (fun p => machineStep p.1.1 p.1.2) (patches KMachine h).
Proof.
  split; [vm_compute; reflexivity|].
  exact (reconcile_transitions (MkNamespacedName "prod" "hrm-1") _ _ (exec_of _ _)).
Defined.
