(* ===== verification/Lifecycle.v ===== *)
(** * The life of a machine

    What one reconciliation does around the handler of the machine's state: the
    deferred write, the provision timeout, the backoff between retries, the
    treatment of errors, the wait for the drain, and the mapping of releases to
    machines. *)

From S2P Require Import Prelude GoStrings GoTime Api Effects Lib Samples Policy Robot Rescue HostClaim Ignition Retry States Machine Safety.

Local Open Scope Z_scope.

(** * Facts *)

Lemma failTerminal_started `{Lib} reason msg hrm :
  mst_ProvisionStarted (hrm_Status (failTerminal reason msg hrm)) = mst_ProvisionStarted (hrm_Status hrm).
Proof. done. Qed.

(** No attempt touches the start of the provisioning. *)
Lemma attempt_started `{Lib} hrm h r :
  attemptEnd hrm h r -> mst_ProvisionStarted (hrm_Status r.1) = mst_ProvisionStarted (hrm_Status hrm).
Proof.
  intros He. destruct He; [done|..]; match goal with H : normalStep _ _ |- _ => by destruct H as (_ & _ & _ & <- & _) end.
Qed.

Lemma wp_attempt_any `{Lib} hrm hrc machine (Q : stepResult -> hist -> Prop) h :
  (forall r h', extends h' h -> attemptEnd hrm h' r -> Q r h') ->
  wp any (reconcileAttempt hrm hrc machine) Q h.
Proof. intros HQ. by eapply (wp_reconcileAttempt any _ machine). Qed.

Lemma extends_app h' ev : extends h' [ev] -> exists h1, h' = h1 ++ [ev].
Proof. intros [t ->]. by exists t. Qed.

(** The machine an attempt is made for: not deleted, with its finalizer. *)
Definition provisioning `{Lib} (hrm : HetznerRobotMachine) : Prop :=
  DeletionTimestamp (hrm_Meta hrm) = None /\
  ContainsFinalizer (Finalizers (hrm_Meta hrm)) MachineFinalizer = true.

Lemma wp_provisioning `{Lib} (G : guard) hrm hrc machine (Q : stepResult -> hist -> Prop) h :
  provisioning hrm ->
  wp G (t ← checkTimeout hrm;
        let '(hrm, timedOut) := t in
        if (timedOut : bool) then finish hrm else reconcileAttempt hrm hrc machine) Q h ->
  wp G (reconcileMachine hrm hrc machine) Q h.
Proof. intros [Hd Hf] Hwp. unfold reconcileMachine. by rewrite Hd, Hf. Qed.

(** * Properties *)

(** C19: a run always writes back what it did.  A run of the machine reconciler
    either only reads (the objects it needs are missing or paused), or its last
    call is the one write it makes of a machine: of the machine it read at the
    start, as exactly the object that the body of the run ended with, so with
    every assignment made on the way, also when the handler failed or panicked,
    and with the outcome of the body as its own.  After that write no error is returned to the work queue, so
    the delay before the next run is the one the reconciler chose. *)
Theorem reconcile_persists `{Lib} (req : NamespacedName) h' o :
  exec (Reconcile req) [] h' o -> persisted req o h'.
Proof. intros He. by_exec He. by apply wp_Reconcile. Qed.

(** C20: the provision timeout is terminal and its clock is never restarted.
    For a machine on its way to Provisioned, a run first asks the clock; the
    first run records the answer as the start; a run more than thirty minutes
    after the recorded start does nothing else and returns the machine in
    state Error, not ready, with failure reason ProvisionTimeout, without a
    requeue; any other run keeps the recorded start. *)
Theorem timeout_terminal `{Lib} hrm hrc machine h' r :
  exec (reconcileMachine hrm hrc machine) [] h' r ->
  provisioning hrm -> timeoutApplies (provisioningState hrm) = true ->
  exists now h1, h' = h1 ++ [Ev ENow now] /\
    match mst_ProvisionStarted (hrm_Status hrm) with
    | None => mst_ProvisionStarted (hrm_Status r.1) = Some now
    | Some started =>
        if 30 * Minute <? since now started then
          h1 = [] /\ r.2 = Returned noRequeue /\ provisioningState r.1 = StateError /\
          mst_Ready (hrm_Status r.1) = false /\
          mst_FailureReason (hrm_Status r.1) = Some "ProvisionTimeout" /\
          mst_FailureMessage (hrm_Status r.1) =
            Some (timeoutMessage started (provisioningState hrm))
        else mst_ProvisionStarted (hrm_Status r.1) = Some started
    end.
Proof.
  intros He Hp Ht. by_exec He. clear r h'. apply wp_provisioning; [done|].
  apply wp_bind, wp_checkTimeout; [done|congruence|]. intros _ now.
  destruct (mst_ProvisionStarted _) as [started|] eqn:Hs.
  - change provisionTimeout with (30 * Minute). destruct (_ <? _) eqn:Hlt.
    + apply wp_ret. exists now, []. by rewrite Hlt.
    + apply wp_attempt_any. intros r h' [h1 ->]%extends_app Hr. exists now, h1. rewrite Hlt.
      split; [done|]. by rewrite (attempt_started _ _ _ Hr).
  - apply wp_attempt_any. intros r h' [h1 ->]%extends_app Hr. exists now, h1.
    split; [done|]. by rewrite (attempt_started _ _ _ Hr).
Qed.

(** C21: a retry waits for its backoff.  For a machine with a failed attempt
    behind it, an attempt first asks the clock; before the backoff of the
    retry count has passed since the last failure it makes no other call,
    changes nothing and comes back when the backoff is over. *)
Theorem backoff_enforced `{Lib} hrm hrc machine t h' r :
  exec (reconcileAttempt hrm hrc machine) [] h' r ->
  0 < mst_RetryCount (hrm_Status hrm) -> mst_LastRetryTimestamp (hrm_Status hrm) = Some t ->
  exists now h1, h' = h1 ++ [Ev ENow now] /\
    (since now t < computeBackoff (mst_RetryCount (hrm_Status hrm)) ->
     h1 = [] /\
     r = (hrm, Returned (MkResult (wrap64 (computeBackoff (mst_RetryCount (hrm_Status hrm)) - since now t))))).
Proof.
  intros He Hc Ht. by_exec He. clear r h'. unfold reconcileAttempt, backoffRemaining. cbv zeta.
  rewrite Ht, (proj2 (Z.ltb_lt _ _) Hc). apply wp_bind, wp_bind, wp_trigger; [done|]. intros now.
  destruct (Z.ltb_spec (since now t) (computeBackoff (mst_RetryCount (hrm_Status hrm)))) as [Hlt|Hge].
  - apply wp_ret, wp_ret. by exists now, [].
  - apply wp_ret, wp_any. intros r h' [h1 ->]%extends_app. exists now, h1. split; [done|lia].
Qed.

(** C18: every attempt ends in one of five ways ([attemptEnd]): it waits and
    leaves the machine as it was; it succeeds and clears the retry count, its
    time and the failure fields; it meets a permanent error and goes to Error
    with that message, without a requeue; it meets a transient error, counts
    it, notes the time it just asked for and comes back after the backoff of
    the new count, with no failure reported; or it panics.  Apart from that, the
    machine only moved as its state's handler may move it. *)
Theorem attempt_outcomes `{Lib} hrm hrc machine h' r :
  exec (reconcileAttempt hrm hrc machine) [] h' r -> attemptEnd hrm h' r.
Proof. intros He. by_exec He. by apply wp_attempt_any. Qed.

(** The finalizer is on the machine before anything is done for it.  For a
    machine that is not deleted and lacks the finalizer, a run of the body makes
    no call at all: it adds the finalizer, which the deferred write then
    stores. *)
Theorem finalizer_first `{LibLaws} hrm hrc machine h' r :
  exec (reconcileMachine hrm hrc machine) [] h' r ->
  DeletionTimestamp (hrm_Meta hrm) = None ->
  ContainsFinalizer (Finalizers (hrm_Meta hrm)) MachineFinalizer = false ->
  h' = [] /\ ContainsFinalizer (Finalizers (hrm_Meta r.1)) MachineFinalizer = true /\
  hrm_Spec r.1 = hrm_Spec hrm /\ hrm_Status r.1 = hrm_Status hrm.
Proof.
  intros He Hd Hf. by_exec He. clear r h'. unfold reconcileMachine. rewrite Hd, Hf. cbn [negb].
  apply wp_ret. split; [done|]. split; [|done]. apply ContainsFinalizer_add.
Qed.

(** C23: a machine under deletion waits for its drain.  While the node of the
    Machine is still there and its drain neither succeeded nor failed, a run
    only reads, keeps the finalizer, and comes back in fifteen seconds. *)
Theorem delete_waits_for_drain `{Lib} hrm hrc machine h' r :
  exec (reconcileDelete hrm hrc machine) [] h' r -> waitsForDrain machine = true ->
  guarded (static isRead) h' /\ r = (setState StateDeleting hrm, Returned (MkResult (15 * Second))).
Proof.
  intros He Hw. cut (r = (setState StateDeleting hrm, Returned (MkResult (15 * Second))) /\
    guarded (static isRead) h'); [by intros []|].
  refine (exec_guarded (static isRead) _ (fun r _ => r = _) _ _ He _). clear He r h'.
  unfold reconcileDelete. cbv zeta. apply wp_bind, wp_resolveHostForDelete; [done|].
  intros r h1 _ _. rewrite Hw. by apply wp_ret.
Qed.

(** C22: a deletion is never held up.  Once the drain is decided, or there is
    no node to drain, one run finishes the deletion whatever the API server, the
    Robot service and the policy answer: it ends without an error or a requeue,
    and the machine it leaves to the deferred write lacks the controller's
    finalizer, keeps the finalizers of others, and is changed in nothing else
    but its state, which is Deleting. *)
Theorem deletion_completes `{LibLaws} hrm hrc machine h' r :
  exec (reconcileMachine hrm hrc machine) [] h' r ->
  DeletionTimestamp (hrm_Meta hrm) <> None -> waitsForDrain machine = false ->
  r.2 = Returned noRequeue /\
  ContainsFinalizer (Finalizers (hrm_Meta r.1)) MachineFinalizer = false /\
  (forall f, f ∈ Finalizers (hrm_Meta r.1) -> f ∈ Finalizers (hrm_Meta hrm)) /\
  r.1 = setState StateDeleting hrm
    <| hrm_Meta := (hrm_Meta hrm) <| Finalizers := Finalizers (hrm_Meta r.1) |> |>.
Proof.
  intros He Hd Hw. cut (r = (removeMachineFinalizer (setState StateDeleting hrm), Returned noRequeue)).
  { intros ->. split; [done|]. split; [apply ContainsFinalizer_remove|]. split; [|done].
    intros f. by intros [Hf _]%RemoveFinalizer_in. }
  by_exec He. clear r h'. unfold reconcileMachine. destruct (DeletionTimestamp _) as [t|]; [|done].
  unfold reconcileDelete. cbv zeta. apply wp_bind, wp_any. intros r h1 _. rewrite Hw.
  apply wp_bind, wp_any. intros [c|err] h2 _; [|done]. apply wp_bind, wp_any. intros [err|] h3 _; [done|].
  do 2 (apply wp_bind, wp_any; intros ? ? _). done.
Qed.

(** C39: a release wakes up exactly the machines it concerns: the keys returned
    for a release are those of the machines, of the list read in the release's
    namespace, that carry an owner reference to the CAPI Machine the release
    names, by API version, kind, name and UID. *)
Theorem release_mapping_exact `{Lib} release h' keys :
  exec (mapHostReleaseToMachines release) [] h' keys ->
  exists answer, h' = [Ev (EList KMachine (Namespace (rel_Meta release)) None) answer] /\
    match answer with
    | Err _ => keys = []
    | Ok hrms => forall key, key ∈ keys <->
        exists hrm owner, hrm ∈ (hrms : list HetznerRobotMachine) /\ owner ∈ OwnerReferences (hrm_Meta hrm) /\
          key = MkNamespacedName (Namespace (hrm_Meta hrm)) (Name (hrm_Meta hrm)) /\
          or_APIVersion owner = clusterGroupVersion /\ or_Kind owner = "Machine" /\
          or_Name owner = rm_Name (rl_MachineRef (rel_Spec release)) /\
          or_UID owner = rm_UID (rl_MachineRef (rel_Spec release))
    end.
Proof.
  intros He. by_exec He. clear keys h'. unfold mapHostReleaseToMachines.
  apply wp_bind, wp_trigger; [done|]. intros [hrms|err]; apply wp_ret; eexists; (split; [reflexivity|done || idtac]).
  intros key. rewrite list_elem_of_In, in_map_iff. setoid_rewrite List.filter_In.
  setoid_rewrite existsb_exists. unfold ownerMatches. setoid_rewrite andb_true_iff.
  setoid_rewrite andb_true_iff. setoid_rewrite andb_true_iff. setoid_rewrite String.eqb_eq.
  setoid_rewrite <- list_elem_of_In. split.
  - intros (hrm & <- & Hin & owner & Ho & ((? & ?) & ?) & ?). by exists hrm, owner.
  - intros (hrm & owner & Hin & Ho & -> & ? & ? & ? & ?). exists hrm. split; [done|].
    split; [done|]. by exists owner.
Qed.

(** ** Witnesses and observations *)

Import Demo.

Definition machineReq : NamespacedName := MkNamespacedName "prod" "hrm-1".

(** A machine whose provisioning started at a time, and one that failed. *)
Definition startedAt (t : Z) : HetznerRobotMachine := set_mst mst_ProvisionStarted (Some t) sampleHRM.

Definition failedAt (n t : Z) : HetznerRobotMachine :=
  set_mst mst_LastRetryTimestamp (Some t) (set_mst mst_RetryCount n sampleHRM).

Definition worldAt (now : Z) (hrm : HetznerRobotMachine) (releases : list HetznerRobotHostRelease)
    (host : HetznerRobotHost) : World :=
  MkWorld now hrm host releases sampleRemediation (fun _ => okResponse) (fun _ => None) sshAnswer None.

Lemma reconcile_persists_witness :
  let p := Reconcile machineReq in
  let w := goodWorld sampleHRM sampleHost in
  length (patches KMachine (hist_of w p)) = 1%nat /\ persisted machineReq (result_of w p) (hist_of w p).
Proof.
  split; [vm_compute; reflexivity|]. exact (reconcile_persists machineReq _ _ (exec_of _ _)).
Defined.

Lemma timeout_terminal_witness :
  let hrm := startedAt 0 in
  let p := reconcileMachine hrm sampleHRC sampleMachine in
  let w := worldAt (31 * Minute) hrm [] sampleHost in
  length (hist_of w p) = 1%nat /\
  exists now h1, hist_of w p = h1 ++ [Ev ENow now] /\
    if 30 * Minute <? since now 0 then
      h1 = [] /\ snd (result_of w p) = Returned noRequeue /\
      provisioningState (fst (result_of w p)) = StateError /\
      mst_Ready (hrm_Status (fst (result_of w p))) = false /\
      mst_FailureReason (hrm_Status (fst (result_of w p))) = Some "ProvisionTimeout" /\
      mst_FailureMessage (hrm_Status (fst (result_of w p))) = Some (timeoutMessage 0 StateNone)
    else mst_ProvisionStarted (hrm_Status (fst (result_of w p))) = Some 0.
Proof.
  split; [vm_compute; reflexivity|].
  exact (timeout_terminal (startedAt 0) sampleHRC sampleMachine _ _ (exec_of _ _) (conj eq_refl eq_refl) eq_refl).
Defined.

Lemma backoff_enforced_witness :
  let hrm := failedAt 3 0 in
  let p := reconcileAttempt hrm sampleHRC sampleMachine in
  let w := worldAt Minute hrm [] sampleHost in
  result_of w p = (hrm, Returned (MkResult Minute)) /\
  exists now h1, hist_of w p = h1 ++ [Ev ENow now] /\
    (since now 0 < computeBackoff 3 ->
     h1 = [] /\ result_of w p = (hrm, Returned (MkResult (wrap64 (computeBackoff 3 - since now 0))))).
Proof.
  split; [vm_compute; reflexivity|].
  exact (backoff_enforced (failedAt 3 0) sampleHRC sampleMachine 0 _ _ (exec_of _ _) eq_refl eq_refl).
Defined.

Lemma attempt_outcomes_witness :
  let p := reconcileAttempt sampleHRM sampleHRC sampleMachine in
  let w := goodWorld sampleHRM sampleHost in
  provisioningState (fst (result_of w p)) = StateActivatingRescue /\
  attemptEnd sampleHRM (hist_of w p) (result_of w p).
Proof.
  split; [vm_compute; reflexivity|].
  exact (attempt_outcomes sampleHRM sampleHRC sampleMachine _ _ (exec_of _ _)).
Defined.

Definition withoutFinalizer : HetznerRobotMachine :=
  sampleHRM <| hrm_Meta := (hrm_Meta sampleHRM) <| Finalizers := [] |> |>.

Lemma finalizer_first_witness :
  let p := reconcileMachine withoutFinalizer sampleHRC sampleMachine in
  let w := goodWorld withoutFinalizer sampleHost in
  hist_of w p = [] /\
  ContainsFinalizer (Finalizers (hrm_Meta (fst (result_of w p)))) MachineFinalizer = true.
Proof.
  split; [vm_compute; reflexivity|].
  exact (proj1 (proj2 (finalizer_first withoutFinalizer sampleHRC sampleMachine _ _ (exec_of _ _) eq_refl eq_refl))).
Defined.

Definition nodeUp : Machine := sampleMachine <| m_NodeRef := Some "node-1" |>.

Lemma delete_waits_for_drain_witness :
  let p := reconcileDelete sampleHRM sampleHRC nodeUp in
  let w := goodWorld sampleHRM sampleHost in
  waitsForDrain nodeUp = true /\ guarded (static isRead) (hist_of w p) /\
  result_of w p = (setState StateDeleting sampleHRM, Returned (MkResult (15 * Second))).
Proof.
  split; [vm_compute; reflexivity|].
  exact (delete_waits_for_drain sampleHRM sampleHRC nodeUp _ _ (exec_of _ _) eq_refl).
Defined.

(** A machine under deletion while the Robot service and the writes of the
    host fail. *)
Lemma deletion_completes_witness :
  let hrm := sampleHRM <| hrm_Meta := (hrm_Meta sampleHRM) <| DeletionTimestamp := Some 900 |> |> in
  let p := reconcileMachine hrm sampleHRC sampleMachine in
  let w := MkWorld 1000 hrm sampleHost [] sampleRemediation (fun _ => Err (errorf "unavailable"))
             (fun _ => None) sshAnswer None in
  Finalizers (hrm_Meta (result_of w p).1) = [] /\ (result_of w p).2 = Returned noRequeue.
Proof.
  split; [vm_compute; reflexivity|].
  exact (proj1 (deletion_completes
    (sampleHRM <| hrm_Meta := (hrm_Meta sampleHRM) <| DeletionTimestamp := Some 900 |> |>)
    sampleHRC sampleMachine _ _ (exec_of _ _) (@Some_ne_None Z 900) eq_refl)).
Defined.

Lemma release_mapping_exact_witness :
  let p := mapHostReleaseToMachines sampleRelease in
  let w := goodWorld sampleHRM sampleHost in
  result_of w p = [machineReq] /\
  exists answer, hist_of w p = [Ev (EList KMachine (Namespace (rel_Meta sampleRelease)) None) answer] /\
    match answer with
    | Err _ => result_of w p = []
    | Ok hrms => forall key, key ∈ result_of w p <->
        exists hrm owner, hrm ∈ (hrms : list HetznerRobotMachine) /\ owner ∈ OwnerReferences (hrm_Meta hrm) /\
          key = MkNamespacedName (Namespace (hrm_Meta hrm)) (Name (hrm_Meta hrm)) /\
          or_APIVersion owner = clusterGroupVersion /\ or_Kind owner = "Machine" /\
          or_Name owner = "m-1" /\ or_UID owner = "uid-1"
    end.
Proof.
  split; [vm_compute; reflexivity|].
  exact (release_mapping_exact sampleRelease _ _ (exec_of _ _)).
Defined.

(** A denied machine comes back after a minute, but the reason of the denial
    that [markDestructiveProvisioningDenied] records is gone: the success path
    overwrites the same condition. *)
Example denial_reason_lost :
  let r := result_of (worldAt 1000 sampleHRM [] storageHost)
             (reconcileAttempt sampleHRM sampleHRC sampleMachine) in
  snd r = Returned (MkResult Minute) /\
  option_map c_Reason (getCondition (mst_Conditions (hrm_Status (fst r))) ReadyCondition) = Some "Provisioning".
Proof. by vm_compute. Qed.

(** A machine in state Error loses its failure fields at the next run. *)
Example error_failure_cleared :
  let hrm := failTerminal "ProvisionTimeout" "too late" sampleHRM in
  let r := result_of (worldAt 1000 hrm [] sampleHost) (reconcileMachine hrm sampleHRC sampleMachine) in
  mst_FailureReason (hrm_Status hrm) = Some "ProvisionTimeout" /\
  provisioningState (fst r) = StateError /\ mst_FailureReason (hrm_Status (fst r)) = None /\
  option_map c_Reason (getCondition (mst_Conditions (hrm_Status (fst r))) ReadyCondition) = Some "Provisioning".
Proof. by vm_compute. Qed.
