(* ===== verification/Resets.v ===== *)
(** * The spacing of resets

    A reset of a server is expensive: it throws away what the server was doing.
    Every path through the handlers that ends in one goes through the cooldown
    of [stateActivateRescue], and leaves its time in the machine. *)

From S2P Require Import Prelude GoStrings GoTime Api Effects Lib Samples Policy Robot Rescue Talos HostClaim Inject Ignition Retry States Machine Safety.

Local Open Scope Z_scope.

(** * Specification *)

(** The cooldown after the last reset is over according to the clock. *)
Definition cooled (lastReset : option Z) (h : hist) : Prop :=
  match lastReset with
  | None => True
  | Some t => exists now, Ev ENow now ∈ h /\ resetCooldown <= since now t
  end.

Definition spacedCall (lastReset : option Z) : guard := fun h X e =>
  match e with EHttp rq => rq_Method rq = "POST" -> cooled lastReset h | _ => True end.

(** A reset the Robot service accepted. *)
Definition acceptedReset `{Lib} (ev : event) : bool :=
  match ev with
  | Ev e x =>
      match e in Eff X return X -> bool with
      | EHttp rq => fun a =>
          String.prefix (robotBaseURL +:+ "/reset/") (rq_URL rq) && String.eqb (rq_Method rq) "POST" &&
          is_ok (answered "POST" "" anyResult a)
      | _ => fun _ => false
      end x
  end.

Definition acceptedResets `{Lib} (h : hist) : nat := count acceptedReset h.

Definition lastResetOf (hrm : HetznerRobotMachine) : option Z := mst_LastResetTime (hrm_Status hrm).

(** Either no reset was accepted and the time of the last one is as it was, or
    one was, and its time is what the clock answered afterwards. *)
Definition noted `{Lib} (lastReset : option Z) (h : hist) (hrm : HetznerRobotMachine) (h' : hist) : Prop :=
  acceptedResets h' = acceptedResets h /\ lastResetOf hrm = lastReset \/
  acceptedResets h' = S (acceptedResets h) /\
    exists now h1 h2, h' = h2 ++ Ev ENow now :: h1 /\ acceptedResets h1 = S (acceptedResets h) /\
      lastResetOf hrm = Some now.

(** * Facts *)

Create HintDb quiet.

Definition noPost (X : Set) (e : Eff X) : Prop :=
  match e with EHttp rq => rq_Method rq <> "POST" | _ => True end.

Lemma harmless_noPost X e : harmless X e -> noPost X e.
Proof. by destruct e. Qed.

Lemma cluster_noPost ref X e : isCluster ref X e -> noPost X e.
Proof. destruct e; cbn; try done; by intros []. Qed.

Lemma read_noPost X e : isRead X e -> noPost X e.
Proof. intros ?. apply harmless_noPost. auto with guards. Qed.

Lemma configuring_noPost ip X e : configuring ip X e -> noPost X e.
Proof. by destruct e. Qed.

Lemma acceptedResets_quiet `{Lib} h' h : onlyCalls noPost h' h -> acceptedResets h' = acceptedResets h.
Proof.
  apply count_onlyCalls. intros [X e x] Hn. destruct e; try done. cbn in Hn |- *.
  apply String.eqb_neq in Hn. by rewrite Hn, andb_false_r.
Qed.

Lemma noPost_spaced lr h X e : noPost X e -> spacedCall lr h X e.
Proof. intros Hn. destruct e; try done. by intros ?. Qed.

Lemma emits_Run_quiet c cmd : emits noPost (Run c cmd).
Proof. unfold Run. repeat emits_step; done. Qed.

Lemma emits_quiet {A} P (p : prog A) :
  (forall X e, P X e -> noPost X e) -> emits P p -> emits noPost p.
Proof. apply emits_mono. Qed.

Ltac quiet_run :=
  repeat first [ done | apply emits_bind; [apply emits_Run_quiet|intros ?] | progress cbv zeta | emits_step ].

Lemma emits_DetectHardware_quiet c : emits noPost (DetectHardware c).
Proof. unfold DetectHardware. quiet_run. Qed.

Lemma emits_WipeAllDisks_quiet c disks : emits noPost (WipeAllDisks c disks).
Proof. unfold WipeAllDisks. quiet_run. Qed.

Lemma emits_InstallTalos_quiet c url s v d i : emits noPost (InstallTalos c url s v d i).
Proof. unfold InstallTalos. quiet_run. Qed.

Lemma emits_InstallFlatcar_quiet c ch d i j : emits noPost (InstallFlatcar c ch d i j).
Proof. unfold InstallFlatcar, runStep. quiet_run. Qed.

Lemma emits_Connect_quiet `{Lib} c : emits noPost (Connect c).
Proof. unfold Connect. quiet_run. Qed.

Lemma emits_IsRescueMode_quiet `{Lib} ip key : emits noPost (IsRescueMode ip key).
Proof.
  unfold IsRescueMode. apply emits_bind; [apply emits_Connect_quiet|]. intros [c [err|]]; quiet_run.
Qed.

Lemma emits_Wipe_quiet ip : emits noPost (WipeSystemDisk ip).
Proof. unfold WipeSystemDisk, newConn. repeat emits_step; done. Qed.

#[export] Hint Resolve emits_Run_quiet emits_DetectHardware_quiet emits_WipeAllDisks_quiet
  emits_InstallTalos_quiet emits_InstallFlatcar_quiet emits_Connect_quiet emits_IsRescueMode_quiet
  emits_Wipe_quiet : quiet.

(** ** Programs whose resets are spaced *)

Section Spaced.
Context `{Lib} (lr : option Z).

(** A handler for a machine whose last reset was at [lr]. *)
Definition spaced (p : prog stepResult) : Prop :=
  forall h, wp (spacedCall lr) p (fun r h' => noted lr h r.1 h') h.

Lemma spaced_ret hrm o : lastResetOf hrm = lr -> spaced (Ret (hrm, o)).
Proof. intros Hl h. apply wp_ret. by left. Qed.

Lemma noted_quiet h1 h hrm h' : onlyCalls noPost h1 h -> noted lr h1 hrm h' -> noted lr h hrm h'.
Proof. intros Hq%acceptedResets_quiet Hn. unfold noted. by rewrite <- Hq. Qed.

Lemma spaced_quiet {B} (p : prog B) (f : B -> prog stepResult) :
  emits noPost p -> (forall b, spaced (f b)) -> spaced (p ≫= f).
Proof.
  intros Hp Hf h. apply wp_bind, (wp_onlyCalls noPost); [done|intros; by apply noPost_spaced|].
  intros b h1 H1. eapply wp_mono; [|apply Hf]. intros r h2. by apply noted_quiet.
Qed.

(** The same for the part of an installation that may end early. *)
Definition spacedPart (p : prog (stepResult + installSession)) : Prop :=
  forall h, wp (spacedCall lr) p (fun r h' =>
    match r with
    | inl r => noted lr h r.1 h'
    | inr (hrm, _, _, _) => acceptedResets h' = acceptedResets h /\ lastResetOf hrm = lr
    end) h.

Lemma spacedPart_early p : spaced p -> spacedPart (early p).
Proof. intros Hp h. apply wp_bind. eapply wp_mono; [|apply Hp]. done. Qed.

Lemma spacedPart_quiet {B} (p : prog B) (f : B -> prog (stepResult + installSession)) :
  emits noPost p -> (forall b, spacedPart (f b)) -> spacedPart (p ≫= f).
Proof.
  intros Hp Hf h. apply wp_bind, (wp_onlyCalls noPost); [done|intros; by apply noPost_spaced|].
  intros b h1 H1. eapply wp_mono; [|apply Hf].
  intros [r|[[[hrm c] hw] disk]] h2; [by apply noted_quiet|]. by rewrite (acceptedResets_quiet _ _ H1).
Qed.

Lemma spaced_part (p : prog (stepResult + installSession)) (f : installSession -> prog stepResult) :
  spacedPart p -> (forall hrm c hw disk, lastResetOf hrm = lr -> spaced (f (hrm, c, hw, disk))) ->
  spaced (r ← p; match r with inl r => Ret r | inr s => f s end).
Proof.
  intros Hp Hf h. apply wp_bind. eapply wp_mono; [|apply Hp].
  intros [r|[[[hrm c] hw] disk]] h1; [done|]. intros [Hc Hl]. eapply wp_mono; [|by apply Hf].
  intros r h2. unfold noted. by rewrite Hc.
Qed.

(** ** The handlers *)

Context (hrm : HetznerRobotMachine) (Hlr : lastResetOf hrm = lr).
Context (hrc : HetznerRobotCluster) (robotClient : Client) (id : Z) (ip : string).
Context (Hbase : baseURL robotClient = robotBaseURL).

Lemma stay_spaced o : spaced (Ret (hrm, o)).
Proof. by apply spaced_ret. Qed.

Lemma acceptedResets_reset t a (r : option error) h :
  (r = None <-> accepted anyResult a tt) ->
  acceptedResets (Ev (EHttp (resetRequest robotClient id t)) a :: h) =
    ((if r is None then 1 else 0) + acceptedResets h)%nat.
Proof.
  intros Hr. unfold acceptedResets, count. cbn [List.filter acceptedReset rq_Method rq_URL resetRequest postRequest].
  rewrite Hbase. unfold resetPath. rewrite <- (app_assoc_str robotBaseURL), prefix_app. cbn [andb String.eqb].
  pose proof (answered_ok "POST" "" anyResult a) as Ha.
  destruct (answered "POST" "" anyResult a) as [[]|err]; cbn; destruct r as [err'|]; try done.
  - assert (Some err' = None) by by apply Hr, Ha. done.
  - assert (Err err = Ok tt) by by apply Ha, Hr. done.
Qed.

Lemma acceptedResets_activate fp a h :
  acceptedResets (Ev (EHttp (activateRequest robotClient id fp)) a :: h) = acceptedResets h.
Proof.
  unfold acceptedResets, count. cbn [List.filter acceptedReset rq_Method rq_URL activateRequest postRequest].
  by rewrite Hbase.
Qed.

(** Activation and reset, once the cooldown is over. *)
Lemma wp_activate_cooled h0 h :
  cooled lr h -> acceptedResets h = acceptedResets h0 ->
  wp (spacedCall lr) (
    r ← getSSHKeyFingerprint hrc;
    unwrap sshFingerprint := r orelse err => failw hrm "get SSH key fingerprint: " err;
    r ← ActivateRescue robotClient id sshFingerprint;
    unwrap info := r orelse err => failw hrm ("activate rescue on server " +:+ itoa id +:+ ": ") err;
    e ← ResetServer robotClient id ResetTypeHardware;
    ensure e orelse err => failw hrm ("reset server " +:+ itoa id +:+ ": ") err;
    now ← trigger ENow;
    let hrm := set_mst mst_LastResetTime (Some now) hrm in
    let hrm := setState StateActivatingRescue hrm in
    requeue hrm (4 * Minute)) (fun r h' => noted lr h0 r.1 h') h.
Proof.
  intros Hc H0. assert (forall o h', acceptedResets h' = acceptedResets h0 -> noted lr h0 (hrm, o : outcome).1 h')
    as Hsame by (intros; by left).
  apply wp_bind, (wp_onlyCalls noPost); [eapply emits_mono; [apply read_noPost|auto with guards]| |].
  { intros; by apply noPost_spaced. }
  intros fp h1 H1. pose proof (acceptedResets_quiet _ _ H1) as E1. rewrite H0 in E1.
  assert (cooled lr h1) as Hc1.
  { destruct lr as [t|]; [|done]. destruct Hc as (now & Hin & Hle). exists now. split; [|done].
    eapply extends_elem; [by eapply onlyCalls_extends|done]. }
  destruct fp as [fp|err]; [|by apply wp_ret, Hsame].
  unfold ActivateRescue. apply wp_bind, wp_bind, wp_post.
  { intros err _. by apply wp_ret, wp_ret, Hsame. }
  { by intros _. }
  intros a. change (postRequest robotClient (rescuePath id) (rescueValues fp)) with (activateRequest robotClient id fp).
  pose proof (acceptedResets_activate fp a h1) as E2. rewrite E1 in E2.
  destruct (answered _ _ _ a) as [info|err]; [|by apply wp_ret, wp_ret, Hsame].
  apply wp_ret, wp_bind, wp_ResetServer.
  { intros err. by apply wp_ret, Hsame. }
  { intros _. destruct lr as [t|]; [|done]. destruct Hc1 as (now & Hin & Hle). exists now.
    split; [|done]. apply elem_of_cons. by right. }
  intros a' r Hr. apply (acceptedResets_reset ResetTypeHardware a' r (Ev (EHttp (activateRequest robotClient id fp)) a :: h1)) in Hr.
  rewrite E2 in Hr. destruct r as [err|]; [by apply wp_ret, Hsame|].
  apply wp_bind, wp_trigger; [done|]. intros now. apply wp_ret. right. split; [exact Hr|].
  eexists now, _, []. by split.
Qed.

Lemma spaced_stateActivateRescue : spaced (stateActivateRescue hrm hrc robotClient id ip).
Proof.
  intros h. unfold stateActivateRescue, cooldown. apply wp_bind.
  remember (mst_LastResetTime (hrm_Status hrm)) as o eqn:Ho.
  assert (o = lr) as Hol by by rewrite Ho. clear Ho. destruct o as [t|].
  2: { apply wp_ret, wp_activate_cooled; [by rewrite <- Hol|done]. }
  apply wp_bind, wp_trigger; [done|]. intros now. cbv zeta.
  destruct (Z.ltb_spec (since now t) resetCooldown); apply wp_ret.
  - apply wp_ret. by left.
  - apply wp_activate_cooled; [|done]. rewrite <- Hol. exists now. split; [constructor|done].
Qed.

Ltac by_read := eapply emits_mono; [apply read_noPost|solve [auto with guards]].
Ltac by_harmless L := eapply emits_mono; [apply harmless_noPost|apply L].

Lemma spaced_pollRescue : spaced (pollRescue hrm hrc robotClient id ip).
Proof.
  unfold pollRescue. apply spaced_quiet; [by apply emits_GetRescueStatus|]. intros [rescue|err]; [|apply stay_spaced].
  apply spaced_quiet; [by unfold IsUp, tcpReachable; repeat emits_step|]. intros [|].
  - apply spaced_quiet; [apply emits_Wipe_quiet|]. intros _. apply spaced_stateActivateRescue.
  - destruct (ri_Active rescue); apply stay_spaced.
Qed.

Lemma spaced_stateCheckRescueActive : spaced (stateCheckRescueActive hrm hrc robotClient id ip).
Proof.
  pose proof spaced_pollRescue as Hpoll. unfold stateCheckRescueActive.
  apply spaced_quiet; [by_harmless emits_IsReachable|]. intros [|]; [|done].
  apply spaced_quiet; [by_read|]. intros [key|err]; [|done].
  apply spaced_quiet; [auto with quiet|]. intros [c [err|]]; [done|].
  apply spaced_quiet; [auto with quiet|]. intros [out e].
  destruct (String.eqb _ _); [by apply spaced_ret|apply spaced_stateActivateRescue].
Qed.

Lemma spacedPart_stop hrm' (o : outcome) : lastResetOf hrm' = lr -> spacedPart (early (Ret (hrm', o))).
Proof. intros Hl. by apply spacedPart_early, spaced_ret. Qed.

Lemma spacedPart_wipeInRescue key : spacedPart (wipeInRescue hrm ip key).
Proof.
  unfold wipeInRescue. apply spacedPart_quiet; [auto with quiet|]. intros [c [err|]]; [by apply spacedPart_stop|].
  apply spacedPart_quiet; [auto with quiet|]. intros [hw|err]; [|by apply spacedPart_stop]. cbv zeta.
  apply spacedPart_quiet.
  { eapply emits_mono; [|apply quiet_recordHostHardwareDetails]. intros X e Hc. by apply harmless_noPost, cluster_harmless. }
  intros _. destruct (ResolveInstallDiskFromInfo _ _) as [disk|err]; [|by apply spacedPart_stop].
  destruct (hw_NVMeDisks hw) as [|d ds]; [by apply spacedPart_stop|].
  apply spacedPart_quiet; [auto with quiet|]. intros [out [err|]]; [by apply spacedPart_stop|].
  intros h. by apply wp_ret.
Qed.

Lemma spacedPart_prepareDisks : spacedPart (prepareDisks hrm hrc robotClient id ip).
Proof.
  unfold prepareDisks. apply spacedPart_quiet; [by_harmless emits_IsReachable|].
  intros [|]; cbn [negb]; [|by apply spacedPart_stop].
  apply spacedPart_quiet; [by_read|]. intros [key|err]; [|by apply spacedPart_stop].
  apply spacedPart_quiet; [auto with quiet|]. intros [[|]|err]; cbn [negb].
  - apply spacedPart_wipeInRescue.
  - apply spacedPart_early, spaced_stateActivateRescue.
  - by apply spacedPart_stop.
Qed.

Lemma spaced_stateInstallTalos : spaced (stateInstallTalos hrm hrc robotClient id ip).
Proof.
  apply (spaced_part _ (fun s => installTalosImage s hrc robotClient id ip)); [apply spacedPart_prepareDisks|].
  intros hrm' c hw disk Hl. unfold installTalosImage. cbv zeta.
  apply spaced_quiet; [auto with quiet|]. intros [err|]; [by apply spaced_ret|].
  apply spaced_quiet; [auto with quiet|]. intros _.
  apply spaced_quiet; [by apply emits_DeactivateRescue|]. intros _.
  apply spaced_quiet; [auto with quiet|]. intros _. by apply spaced_ret.
Qed.

Lemma spaced_stateInstallFlatcar machine hrh : spaced (stateInstallFlatcar hrm machine hrc hrh robotClient id ip).
Proof.
  unfold stateInstallFlatcar. apply spaced_quiet; [by_read|]. intros [data|err]; [|apply stay_spaced].
  apply spaced_quiet; [by_read|]. intros [key|err]; [|apply stay_spaced].
  apply (spaced_part _ (fun s => installFlatcarImage s hrc hrh robotClient id ip data key));
    [apply spacedPart_prepareDisks|].
  intros hrm' c hw disk Hl. unfold installFlatcarImage, attempt. cbv zeta.
  destruct (injectFlatcarConfig _ _ _ _ _ _ _ _ _); try by apply spaced_ret.
  apply spaced_quiet; [auto with quiet|]. intros [err|]; [by apply spaced_ret|].
  apply spaced_quiet; [auto with quiet|]. intros _.
  apply spaced_quiet; [by apply emits_DeactivateRescue|]. intros _.
  apply spaced_quiet; [auto with quiet|]. intros _. by apply spaced_ret.
Qed.

Lemma spaced_stateWaitInstall : spaced (stateWaitInstall hrm hrc robotClient id ip).
Proof.
  unfold stateWaitInstall. apply spaced_quiet.
  { unfold IsInMaintenanceMode, newConn. cbv zeta. by repeat emits_step. }
  intros [|]; [by apply spaced_ret|].
  apply spaced_quiet; [by unfold IsUp, tcpReachable; repeat emits_step|].
  intros [|]; [apply spaced_stateActivateRescue|apply stay_spaced].
Qed.

Lemma spaced_runState machine hrh :
  hs_ServerID (hrh_Spec hrh) = id -> hs_ServerIP (hrh_Spec hrh) = ip ->
  spaced (runState hrm hrc machine hrh robotClient).
Proof.
  intros Hid Hip. unfold runState. rewrite Hid, Hip. cbv zeta.
  destruct (provisioningState hrm); try apply stay_spaced.
  - apply spaced_stateActivateRescue.
  - apply spaced_stateCheckRescueActive.
  - destruct (isFlatcar hrm); [apply spaced_stateInstallFlatcar|apply spaced_stateInstallTalos].
  - destruct (isFlatcar hrm); [|apply spaced_stateWaitInstall].
    unfold stateWaitFlatcarInstall. apply spaced_quiet; [by_read|]. intros [key|err]; [|apply stay_spaced].
    apply spaced_quiet; [by_harmless emits_IsFlatcarUp|]. intros [|]; [by apply spaced_ret|].
    apply spaced_quiet; [by_harmless emits_IsReachable|]. intros _. apply stay_spaced.
  - unfold stateWaitTalosMaintenanceMode. apply spaced_quiet.
    { unfold IsInMaintenanceMode, newConn. cbv zeta. by repeat emits_step. }
    intros [|]; cbn [negb]; [|apply stay_spaced]. destruct (_ && _); [|by apply spaced_ret].
    apply spaced_quiet; [done|]. intros [err|]; [apply stay_spaced|].
    apply spaced_quiet; [done|]. intros [err|]; [apply stay_spaced|by apply spaced_ret].
  - unfold stateApplyConfig, attempt. apply spaced_quiet; [by_read|]. intros [data|err]; [|apply stay_spaced].
    destruct (talosConfig _ _ _ _ _ _); try apply stay_spaced.
    apply spaced_quiet; [eapply emits_mono; [apply configuring_noPost|apply emits_ApplyConfig]|].
    intros [err|]; [apply stay_spaced|by apply spaced_ret].
  - unfold stateWaitForBoot. apply spaced_quiet; [by unfold IsUp, tcpReachable; repeat emits_step|].
    intros [|]; cbn [negb]; [by apply spaced_ret|apply stay_spaced].
  - unfold stateWaitFlatcarBoot. apply spaced_quiet; [by_read|]. intros [key|err]; [|apply stay_spaced].
    apply spaced_quiet; [by_harmless emits_CheckFlatcarBootstrapComplete|].
    intros [[|]|err]; cbn [negb]; [by apply spaced_ret|apply stay_spaced|apply stay_spaced].
Qed.
End Spaced.

(** ** The whole attempt *)

Section Attempt.
Context `{Lib} (lr : option Z) (machine : Machine) (hrc : HetznerRobotCluster).

Lemma spaced_after {B} (p : prog B) (f : B -> prog stepResult) (S : B -> Prop) :
  (forall G h Q, (forall h' X e, noPost X e -> G h' X e) -> (forall b h', S b -> Q b h') -> wp G p Q h) ->
  (forall b, S b -> spaced lr (f b)) -> spaced lr (p ≫= f).
Proof.
  intros Hp Hf h. apply wp_bind.
  eapply wp_mono; [|apply (wp_calls noPost _ p (fun b _ => S b)), Hp].
  - intros b h1 [Hb H1]. eapply wp_mono; [|by apply Hf]. intros r h2. by apply noted_quiet.
  - intros h' X e Hn. split; [by apply noPost_spaced|done].
  - done.
Qed.

Lemma spaced_reconcileProvisioned hrm : lastResetOf hrm = lr -> spaced lr (reconcileProvisioned hrm).
Proof.
  intros Hl. unfold reconcileProvisioned.
  assert (forall hrm', lastResetOf hrm' = lr ->
    spaced lr (let hrm0 := markReady hrm' in
          _ ← (if String.eqb (statusHostRef hrm0) "" then Ret None else ensureProvisionedHostStatus hrm0);
          if String.eqb (statusHostRef hrm0) "" then requeue hrm0 requeueAfterLong else finish hrm0)) as Hrest.
  { intros hrm' Hl'. cbv zeta. apply spaced_quiet.
    - destruct (String.eqb _ ""); [done|]. eapply emits_mono; [apply cluster_noPost|apply emits_ensureProvisionedHostStatus].
    - intros _. by destruct (String.eqb _ ""); apply spaced_ret. }
  apply (spaced_after _ _ (fun hrm' => lastResetOf hrm' = lr)); [|done].
  intros G h Q HG HQ. destruct (String.eqb _ ""); [|by apply wp_ret, HQ].
  apply wp_bind, (yields_wp (isCluster (machineReferenceFor hrm)) _ _ _ _ _ (yields_backfill hrm)).
  - intros h' X e _ Hc. by eapply HG, cluster_noPost.
  - intros [hrm' r] h' _ Hr. apply wp_ret, HQ. cbn in Hr |- *. by destruct Hr as [->|[n ->]].
Qed.

Lemma spaced_reconcileNormal hrm : lastResetOf hrm = lr -> spaced lr (reconcileNormal hrm hrc machine).
Proof.
  intros Hl. unfold reconcileNormal. destruct (decide _) as [|Hs]; [by apply spaced_reconcileProvisioned|].
  apply (spaced_after _ _ (fun r => lastResetOf r.1 = lr)).
  { intros G h Q HG HQ. apply claims_resolveHost.
    - intros h' X e _ Hc. by eapply HG, cluster_noPost, claims_cluster.
    - intros hrm1 r h1 _ _ [Hr _]. apply HQ. cbn. by destruct Hr as [->|[n ->]]. }
  intros [hrm1 [hrh|err]] Hl1; cbn in Hl1; [|by apply spaced_ret].
  cbv zeta. apply spaced_quiet.
  { unfold gate. destruct (provisioningMayBecomeDestructive _); [|done].
    eapply emits_mono; [apply read_noPost|apply emits_authorize]. }
  intros [err|]; [by apply spaced_ret|].
  apply (spaced_after _ _ (fun r => forall c, r = Ok c -> baseURL c = robotBaseURL)).
  { intros G h Q HG HQ. apply wp_NewFromCluster; [intros; by apply HG, read_noPost|]. intros; by apply HQ. }
  intros [c|err] Hc; [|by apply spaced_ret]. eapply spaced_runState; [exact Hl1|by apply Hc|done|done].
Qed.

Lemma spaced_reconcileAttempt hrm : lastResetOf hrm = lr -> spaced lr (reconcileAttempt hrm hrc machine).
Proof.
  intros Hl. unfold reconcileAttempt. apply spaced_quiet.
  { unfold backoffRemaining. cbv zeta. by repeat emits_step. }
  intros [remaining|]; [by apply spaced_ret|]. intros h. apply wp_bind.
  eapply wp_mono; [|by apply spaced_reconcileNormal]. intros [hrm1 [result|err|msg]] h1 Hn; cbn [fst] in Hn.
  - apply wp_ret. cbn [fst]. unfold noted, lastResetOf, handleSuccess in *. cbv zeta. by destruct (decide _).
  - unfold handleError. destruct (isPermanentError _); [by apply wp_ret|]. cbv zeta.
    apply wp_bind, wp_trigger; [done|]. intros now. apply wp_ret. cbn [fst].
    destruct Hn as [Hn|(Hc & t & h2 & h3 & -> & Ht)]; [by left|].
    right. split; [done|]. by exists t, h2, (Ev ENow now :: h3).
  - by apply wp_ret.
Qed.
End Attempt.

(** * Properties *)

(** C8: resets are at least two minutes apart.  In an attempt on a machine
    whose last reset is on record, every POST to the Robot service comes after
    the clock has shown that two minutes have passed since then; the attempt
    has at most one reset accepted, and then the machine it returns carries a
    time the clock gave after the service had accepted it; otherwise the record
    is as it was. *)
Theorem resets_are_spaced `{Lib} hrm hrc machine h' r :
  exec (reconcileAttempt hrm hrc machine) [] h' r ->
  guarded (spacedCall (mst_LastResetTime (hrm_Status hrm))) h' /\
  (acceptedResets h' = 0%nat /\ mst_LastResetTime (hrm_Status r.1) = mst_LastResetTime (hrm_Status hrm) \/
   acceptedResets h' = 1%nat /\ exists now h1 h2, h' = h2 ++ Ev ENow now :: h1 /\
     acceptedResets h1 = 1%nat /\ mst_LastResetTime (hrm_Status r.1) = Some now).
Proof.
  intros He.
  destruct (exec_guarded (spacedCall (lastResetOf hrm)) _ (fun r h' => noted (lastResetOf hrm) [] r.1 h') _ _ He)
    as [Hn Hg]; [by apply spaced_reconcileAttempt|]. by split.
Qed.

Import Demo.

Lemma resets_are_spaced_witness :
  let p := reconcileAttempt sampleHRM sampleHRC sampleMachine in
  let h := hist_of (goodWorld sampleHRM sampleHost) p in
  let r := result_of (goodWorld sampleHRM sampleHost) p in
  acceptedResets h = 1%nat /\ guarded (spacedCall None) h /\
  (acceptedResets h = 0%nat /\ mst_LastResetTime (hrm_Status (fst r)) = None \/
   acceptedResets h = 1%nat /\ exists now h1 h2, h = h2 ++ Ev ENow now :: h1 /\
     acceptedResets h1 = 1%nat /\ mst_LastResetTime (hrm_Status (fst r)) = Some now).
Proof.
  split; [vm_compute; reflexivity|].
  exact (resets_are_spaced sampleHRM sampleHRC sampleMachine _ _ (exec_of _ _)).
Defined.
