(* ===== verification/Evidence.v ===== *)
(** * What a machine's progress rests on

    The two steps that others rely on, the installation and readiness, are
    taken only after the server itself has shown, in the same reconciliation,
    what they need. *)

From S2P Require Import Prelude GoStrings GoTime Api Effects Lib Samples Policy Robot Rescue Talos HostClaim Inject Ignition Retry States Machine Safety.

Local Open Scope Z_scope.

(** * Specification *)

(** The server at an address printed this hardware. *)
Definition detected (addr : string) (hw : HardwareInfo) (h : hist) : Prop :=
  exists out, Ev (ESshExec addr "root" (wrapped detectScript)) (out, None) ∈ h /\
    ParseHardwareOutput out = Ok hw.

(** It was asked to wipe every NVMe disk it has, and confirmed each. *)
Definition cleaned (addr : string) (hw : HardwareInfo) (h : hist) : Prop :=
  detected addr hw h /\ hw_NVMeDisks hw <> [] /\
  exists out, Ev (ESshExec addr "root" (wrapped (wipeScript (hw_NVMeDisks hw)))) (out, None) ∈ h /\
    forall d, d ∈ hw_NVMeDisks hw -> d ∈ wipedDisks out.

(** Commands are probes, the wipe of the disks that were detected, or come
    after the confirmed wipe. *)
Definition wipeFirst : guard := fun h X e =>
  match e with
  | ESshExec addr user cmd =>
      cmd ∈ probeCommands \/
      exists hw, detected addr hw h /\ cmd = wrapped (wipeScript (hw_NVMeDisks hw)) \/ cleaned addr hw h
  | _ => True
  end.

(** The commands that write an operating system to a disk. *)
Definition writesImage (disk cmd : string) : Prop :=
  (exists url decompress, cmd = "curl -fsSL " +:+ quote url +:+ " | " +:+ decompress +:+ " | dd of="
     +:+ quote disk +:+ " bs=4M conv=notrunc status=progress 2>&1") \/
  (exists options, cmd = "/tmp/flatcar-install -d " +:+ disk +:+ options).

(** An operating system was written to the disk chosen for the machine on a
    server whose disks were wiped. *)
Definition installed (hrm : HetznerRobotMachine) (h : hist) : Prop :=
  exists addr hw disk cmd out,
    cleaned addr hw h /\ ResolveInstallDiskFromInfo hw (configuredDisk hrm) = Ok disk /\
    writesImage disk cmd /\ Ev (ESshExec addr "root" (wrapped cmd)) (out, None) ∈ h.

(** What a machine that becomes provisioned was seen to do: the Talos API of its
    server answered, or its Flatcar bootstrap left its sentinel. *)
Definition seenUp (hrm : HetznerRobotMachine) (server : string) (h : hist) : Prop :=
  provisioningState hrm = StateWaitingForBoot /\
    (exists timeout, Ev (ETcpDial (talosAddr server) timeout) None ∈ h) \/
  provisioningState hrm = StateBootingFlatcar /\
    (exists out, Ev (ESshExec (sshAddr server) "core" sentinelCommand) (out, None) ∈ h /\
       trimSpace out = "READY").

(** * Facts *)

(** Calls of which the only commands are probes. *)
Definition noExec (X : Set) (e : Eff X) : Prop :=
  match e with ESshExec _ _ cmd => cmd ∈ probeCommands | _ => True end.

Lemma noExec_wipeFirst h X e : noExec X e -> wipeFirst h X e.
Proof. destruct e; try done. by left. Qed.

Lemma rescuing_noExec id ip X e : rescuing id ip X e -> noExec X e.
Proof. by destruct e. Qed.

Lemma configuring_noExec ip X e : configuring ip X e -> noExec X e.
Proof. by destruct e. Qed.

Lemma harmless_noExec X e : harmless X e -> noExec X e.
Proof. by destruct e. Qed.

Lemma cluster_noExec ref X e : isCluster ref X e -> noExec X e.
Proof. destruct e; cbn; try done; by intros []. Qed.

Lemma read_noExec X e : isRead X e -> noExec X e.
Proof. intros ?. apply harmless_noExec. auto with guards. Qed.

#[export] Hint Resolve rescuing_noExec configuring_noExec harmless_noExec read_noExec : guards.

Lemma detected_extends addr hw h' h : extends h' h -> detected addr hw h -> detected addr hw h'.
Proof. intros He (out & Hin & Hp). exists out. split; [by eapply extends_elem|done]. Qed.

Lemma cleaned_extends addr hw h' h : extends h' h -> cleaned addr hw h -> cleaned addr hw h'.
Proof.
  intros He (Hd & Hn & out & Hin & Hw). split; [by eapply detected_extends|]. split; [done|].
  exists out. split; [by eapply extends_elem|done].
Qed.

Lemma installed_extends hrm h' h : extends h' h -> installed hrm h -> installed hrm h'.
Proof.
  intros He (a & hw & d & cmd & o & Hcl & Hr & Hw & Hin). exists a, hw, d, cmd, o.
  split; [by eapply cleaned_extends|]. split; [done|]. split; [done|]. by eapply extends_elem.
Qed.

(** Programs that run nothing but probes meet the guard. *)
Lemma wp_noExec {A} P (p : prog A) (Q : A -> hist -> Prop) h :
  emits P p -> (forall X e, P X e -> noExec X e) -> (forall a h', extends h' h -> Q a h') ->
  wp wipeFirst p Q h.
Proof. intros Hp HP HQ. apply (emits_wp P); [done| |done]. intros. by apply noExec_wipeFirst, HP. Qed.

Lemma wp_Run_first c addr cmd (Q : string * option error -> hist -> Prop) h :
  client c = Some addr ->
  (forall h', extends h' h -> wipeFirst h' _ (ESshExec addr "root" (wrapped cmd))) ->
  (forall r h', extends h' h ->
     (r.2 = None -> Ev (ESshExec addr "root" (wrapped cmd)) (r.1, None) ∈ h') -> Q r h') ->
  wp wipeFirst (Run c cmd) Q h.
Proof.
  intros Hc HG HQ. apply wp_Run.
  - done.
  - intros a h' Ha He. rewrite Hc in Ha. injection Ha as <-. by apply HG.
  - intros out err h' He. by apply HQ.
  - intros a out h' Ha He. rewrite Hc in Ha. injection Ha as <-.
    apply HQ; [by apply extends_cons_trans|]. intros _. constructor.
Qed.

Lemma wp_runStep_first c addr hw what cmd next (Q : option error -> hist -> Prop) h :
  client c = Some addr -> cleaned addr hw h ->
  (forall e h', extends h' h -> Q (Some e) h') ->
  (forall out h', extends h' h -> Ev (ESshExec addr "root" (wrapped cmd)) (out, None) ∈ h' ->
     wp wipeFirst next Q h') ->
  wp wipeFirst (runStep c what cmd next) Q h.
Proof.
  intros Hc Hcl He HQ. unfold runStep. apply wp_bind, (wp_Run_first _ addr); [done| |].
  { intros h' H1. right. exists hw. right. by eapply cleaned_extends. }
  intros [out [err|]] h1 H1 Hin; [by apply wp_ret, He|]. eapply HQ; [done|]. by apply Hin.
Qed.

(** The wipe, after a detection. *)
Lemma wp_WipeAllDisks_first c addr hw (Q : string * option error -> hist -> Prop) h :
  client c = Some addr -> detected addr hw h ->
  (forall r h', extends h' h -> (r.2 = None -> cleaned addr hw h') -> Q r h') ->
  wp wipeFirst (WipeAllDisks c (hw_NVMeDisks hw)) Q h.
Proof.
  intros Hc Hd HQ. unfold WipeAllDisks. destruct (hw_NVMeDisks hw) as [|d0 ds] eqn:Hdisks; [by apply wp_ret, HQ|].
  rewrite <- Hdisks. apply wp_bind, (wp_Run_first _ addr); [done| |].
  { intros h' H1. right. exists hw. left. split; [by eapply detected_extends|done]. }
  intros [out [err|]] h1 H1 Hin; [by apply wp_ret, HQ|]. cbv zeta.
  destruct (List.filter _ _) as [|m ms] eqn:Hm; apply wp_ret, HQ; try done. intros _.
  split; [by eapply detected_extends|]. split; [by rewrite Hdisks|]. exists out. split; [by apply Hin|].
  intros d Hd'. apply (filter_nil_elem _ _ Hm) in Hd'. by bool_prop.
Qed.

Lemma wp_InstallTalos_first c addr hw url schematic version disk custom (Q : option error -> hist -> Prop) h :
  client c = Some addr -> cleaned addr hw h ->
  (forall r h', extends h' h -> (r = None -> exists cmd out, writesImage disk cmd /\
     Ev (ESshExec addr "root" (wrapped cmd)) (out, None) ∈ h') -> Q r h') ->
  wp wipeFirst (InstallTalos c url schematic version disk custom) Q h.
Proof.
  intros Hc Hcl HQ. unfold InstallTalos. destruct (talosImage _ _ _ _) as [image decompress]. cbv zeta.
  apply wp_bind, (wp_Run_first _ addr); [done| |].
  { intros h' H1. right. exists hw. right. by eapply cleaned_extends. }
  intros [out [err|]] h1 H1 Hin; apply wp_ret, HQ; try done. intros _. eexists _, out.
  split; [|by apply Hin]. left. by eexists _, _.
Qed.

Lemma wp_InstallFlatcar_first c addr hw channel disk custom ign (Q : option error -> hist -> Prop) h :
  client c = Some addr -> cleaned addr hw h ->
  (forall r h', extends h' h -> (r = None -> exists cmd out, writesImage disk cmd /\
     Ev (ESshExec addr "root" (wrapped cmd)) (out, None) ∈ h') -> Q r h') ->
  wp wipeFirst (InstallFlatcar c channel disk custom ign) Q h.
Proof.
  intros Hc Hcl HQ. unfold InstallFlatcar. cbv zeta.
  assert (forall e h', extends h' h -> Q (Some e) h') as Herr by (intros; by apply HQ).
  assert (forall cmd h1, extends h1 h -> writesImage disk cmd -> wp wipeFirst
    (runStep c ("flatcar-install on " +:+ disk) cmd
      (runStep c ("create r-dm-data partition on " +:+ disk) (partitionScript disk) (Ret None))) Q h1) as Hinst.
  { intros cmd h1 H1 Hw. eapply wp_runStep_first; [done|by eapply cleaned_extends|by intros; apply Herr; etrans|].
    intros out h2 H2 Hin. assert (extends h2 h) as H2' by by etrans.
    eapply wp_runStep_first; [done|by eapply cleaned_extends|by intros; apply Herr; etrans|].
    intros out' h3 H3 _. apply wp_ret, HQ; [by etrans|]. intros _. exists cmd, out.
    split; [done|]. by eapply extends_elem. }
  eapply wp_runStep_first; [done..|]. intros o1 h1 H1 _.
  eapply wp_runStep_first; [done|by eapply cleaned_extends|by intros; apply Herr; etrans|].
  intros o2 h2 H2 _. assert (extends h2 h) as H2' by by etrans.
  destruct (negb _).
  - eapply wp_runStep_first; [done|by eapply cleaned_extends|by intros; apply Herr; etrans|].
    intros o3 h3 H3 _. apply Hinst; [by etrans|]. right. by eexists.
  - apply Hinst; [done|]. right. by eexists.
Qed.

(** ** The installation *)

Section Install.
Context `{Lib} (hrm : HetznerRobotMachine) (hrc : HetznerRobotCluster) (robotClient : Client).
Context (id : Z) (ip : string) (Hbase : baseURL robotClient = robotBaseURL).

(** The end of the prologue: an early return to another state, or a server
    whose disks are wiped. *)
Definition readyToInstall (r : stepResult + installSession) (h : hist) : Prop :=
  match r with
  | inl r => provisioningState r.1 = provisioningState hrm \/
             provisioningState r.1 = StateNone \/ provisioningState r.1 = StateActivatingRescue
  | inr (hrm', c, hw, disk) =>
      hrm_Spec hrm' = hrm_Spec hrm /\ client c = Some (sshAddr ip) /\ cleaned (sshAddr ip) hw h /\
      ResolveInstallDiskFromInfo hw (configuredDisk hrm) = Ok disk /\
      provisioningState hrm' = provisioningState hrm
  end.

Lemma wp_early_stay hrm' o (Q : stepResult + installSession -> hist -> Prop) h :
  provisioningState hrm' = provisioningState hrm ->
  (forall r h', extends h' h -> readyToInstall r h' -> Q r h') ->
  wp wipeFirst (early (Ret (hrm', o))) Q h.
Proof. intros Hs HQ. apply wp_bind, wp_ret, wp_ret, HQ; [done|by left]. Qed.

Lemma wp_wipeInRescue key (Q : stepResult + installSession -> hist -> Prop) h :
  (forall r h', extends h' h -> readyToInstall r h' -> Q r h') ->
  wp wipeFirst (wipeInRescue hrm ip key) Q h.
Proof.
  intros HQ. unfold wipeInRescue. apply wp_bind, wp_Connect; [done|done|..].
  { intros err h1 H1. apply wp_early_stay; [done|]. intros; by apply HQ; [etrans|]. }
  intros h1 H1. set (c := _ <| client := _ |>). assert (client c = Some (sshAddr ip)) as Hc by done. clearbody c.
  apply wp_bind. unfold DetectHardware. apply wp_bind, (wp_Run_first _ (sshAddr ip)); [done| |].
  { intros h' _. left. unfold probeCommands. set_solver. }
  intros [out [err|]] h2 H2 Hin; assert (extends h2 h) as H2' by by etrans.
  { apply wp_ret, wp_early_stay; [done|]. intros; by apply HQ; [etrans|]. }
  apply wp_ret. destruct (ParseHardwareOutput out) as [hw|err] eqn:Hp.
  2: { apply wp_early_stay; [done|]. intros; by apply HQ; [etrans|]. }
  assert (detected (sshAddr ip) hw h2) as Hd by (exists out; split; [by apply Hin|done]). clear Hin Hp out. cbv zeta.
  set (hrm2 := set_mst mst_GatewayIP _ _). assert (hrm_Spec hrm2 = hrm_Spec hrm /\
    provisioningState hrm2 = provisioningState hrm) as [Hspec Hst] by done. clearbody hrm2.
  apply wp_bind, (wp_noExec quietCluster); [apply quiet_recordHostHardwareDetails|auto with guards|].
  intros _ h3 H3. assert (extends h3 h) as H3' by by etrans.
  assert (configuredDisk hrm2 = configuredDisk hrm) as -> by (unfold configuredDisk; by rewrite Hspec).
  destruct (ResolveInstallDiskFromInfo hw (configuredDisk hrm)) as [disk|err] eqn:Hr.
  2: { apply wp_early_stay; [done|]. intros; by apply HQ; [etrans|]. }
  set (hrm3 := set_mst mst_ResolvedInstallDisk _ hrm2). assert (hrm_Spec hrm3 = hrm_Spec hrm /\
    provisioningState hrm3 = provisioningState hrm) as [Hspec3 Hst3] by done. clearbody hrm3.
  destruct (hw_NVMeDisks hw) as [|d ds] eqn:Hdisks.
  { apply wp_early_stay; [done|]. intros; by apply HQ; [etrans|]. }
  rewrite <- Hdisks. apply wp_bind, (wp_WipeAllDisks_first _ (sshAddr ip)); [done|by eapply (detected_extends _ _ _ h2)|].
  intros [out [err|]] h4 H4 Hcl; assert (extends h4 h) as H4' by by etrans.
  - apply wp_early_stay; [done|]. intros; by apply HQ; [etrans|].
  - apply wp_ret, HQ; [done|]. split; [done|]. split; [done|]. split; [by apply Hcl|]. done.
Qed.

Lemma wp_prepareDisks_first (Q : stepResult + installSession -> hist -> Prop) h :
  (forall r h', extends h' h -> readyToInstall r h' -> Q r h') ->
  wp wipeFirst (prepareDisks hrm hrc robotClient id ip) Q h.
Proof.
  intros HQ. unfold prepareDisks.
  apply wp_bind, (wp_noExec harmless); [apply emits_IsReachable|auto with guards|].
  intros [|] h1 H1; cbn [negb].
  2: { apply wp_bind, wp_ret, wp_ret, HQ; [done|]. right. by left. }
  apply wp_bind, (wp_noExec isRead); [auto with guards|auto with guards|].
  intros [key|err] h2 H2; assert (extends h2 h) as H2' by by etrans.
  2: { apply wp_early_stay; [done|]. intros; by apply HQ; [etrans|]. }
  apply wp_bind, wp_IsRescueMode.
  { intros h' X e _ Hx. apply noExec_wipeFirst. destruct e; try done.
    destruct Hx as (_ & _ & ->). cbn. unfold probeCommands. set_solver. }
  intros [[|]|err] h3 H3 _; cbn [negb]; assert (extends h3 h) as H3' by by etrans.
  - apply wp_wipeInRescue. intros; by apply HQ; [etrans|].
  - apply wp_bind, (yields_wp (rescuing id ip) _ _ _ _ _ (yields_stateActivateRescue hrc robotClient id ip Hbase hrm)).
    + intros h' X e _ Hx. by eapply noExec_wipeFirst, rescuing_noExec.
    + intros r h4 H4 (_ & _ & Hs). apply wp_ret, HQ; [by etrans|]. cbn.
      apply elem_of_cons in Hs as [Hs|Hs]; [by left|]. apply list_elem_of_singleton in Hs. auto.
  - apply wp_early_stay; [done|]. intros; by apply HQ; [etrans|].
Qed.

(** The end of an installation: scripts and the deactivation of rescue, whose
    failures are ignored, then the next state. *)
Definition afterImage (c : SSHClient) (script : string) (hrm' : HetznerRobotMachine) (d : Z) : prog stepResult :=
  _ ← Run c script;
  _ ← DeactivateRescue robotClient id;
  _ ← Run c "reboot";
  requeue hrm' d.

Lemma wp_Run_cleaned {A} c hw cmd (f : string * option error -> prog A) (Q : A -> hist -> Prop) h :
  client c = Some (sshAddr ip) -> cleaned (sshAddr ip) hw h ->
  (forall r h', extends h' h -> wp wipeFirst (f r) Q h') -> wp wipeFirst (r ← Run c cmd; f r) Q h.
Proof.
  intros Hc Hcl HQ. apply wp_bind, (wp_Run_first _ (sshAddr ip)); [done| |auto].
  intros h' H'. right. exists hw. right. by eapply cleaned_extends.
Qed.

Lemma wp_afterImage c hw script hrm' d (Q : stepResult -> hist -> Prop) h :
  client c = Some (sshAddr ip) -> cleaned (sshAddr ip) hw h ->
  (forall h', extends h' h -> Q (hrm', Returned (MkResult d)) h') ->
  wp wipeFirst (afterImage c script hrm' d) Q h.
Proof.
  intros Hc Hcl HQ. unfold afterImage. eapply wp_Run_cleaned; [done..|]. intros _ h1 H1.
  apply wp_bind, (wp_noExec harmless); [by apply emits_DeactivateRescue|auto with guards|]. intros _ h2 H2.
  assert (extends h2 h) as H2' by by etrans.
  eapply wp_Run_cleaned; [done|by eapply cleaned_extends|]. intros _ h3 H3. apply wp_ret, HQ. by etrans.
Qed.

Lemma wp_installTalosImage_first hrm' c hw disk (Q : stepResult -> hist -> Prop) h :
  readyToInstall (inr (hrm', c, hw, disk)) h ->
  (forall r h', extends h' h -> provisioningState r.1 = provisioningState hrm \/
     provisioningState r.1 = StateInstalling /\ installed hrm h' -> Q r h') ->
  wp wipeFirst (installTalosImage (hrm', c, hw, disk) hrc robotClient id ip) Q h.
Proof.
  intros (Hspec & Hc & Hcl & Hr & Hst) HQ. unfold installTalosImage. cbv zeta.
  apply wp_bind, (wp_InstallTalos_first _ (sshAddr ip) hw); [done..|].
  intros [err|] h1 H1 Hi; [apply wp_ret, HQ; [done|by left]|].
  destruct (Hi eq_refl) as (cmd & out & Hw & Hin). assert (cleaned (sshAddr ip) hw h1) as Hcl1 by by eapply cleaned_extends.
  eapply wp_afterImage; [done..|]. intros h2 H2. apply HQ; [by etrans|]. right. split; [done|].
  eapply installed_extends; [done|]. by exists (sshAddr ip), hw, disk, cmd, out.
Qed.

Lemma wp_installFlatcarImage_first hrm' c hw disk hrh data key (Q : stepResult -> hist -> Prop) h :
  readyToInstall (inr (hrm', c, hw, disk)) h ->
  (forall r h', extends h' h -> provisioningState r.1 = provisioningState hrm \/
     provisioningState r.1 = StateInstalling /\ installed hrm h' -> Q r h') ->
  wp wipeFirst (installFlatcarImage (hrm', c, hw, disk) hrc hrh robotClient id ip data key) Q h.
Proof.
  intros (Hspec & Hc & Hcl & Hr & Hst) HQ. unfold installFlatcarImage, attempt. cbv zeta.
  destruct (injectFlatcarConfig _ _ _ _ _ _ _ _ _) as [ign|err|msg]; try (apply wp_ret, HQ; [done|by left]).
  apply wp_bind, (wp_InstallFlatcar_first _ (sshAddr ip) hw); [done..|].
  intros [err|] h1 H1 Hi; [apply wp_ret, HQ; [done|by left]|].
  destruct (Hi eq_refl) as (cmd & out & Hw & Hin). assert (cleaned (sshAddr ip) hw h1) as Hcl1 by by eapply cleaned_extends.
  eapply wp_afterImage; [done..|]. intros h2 H2. apply HQ; [by etrans|]. right. split; [done|].
  eapply installed_extends; [done|]. by exists (sshAddr ip), hw, disk, cmd, out.
Qed.

(** The handler of InRescue: where it may end. *)
Definition installEnd (r : stepResult) (h : hist) : Prop :=
  provisioningState r.1 = provisioningState hrm \/ provisioningState r.1 = StateNone \/
  provisioningState r.1 = StateActivatingRescue \/ provisioningState r.1 = StateInstalling /\ installed hrm h.

Lemma wp_stateInstallTalos_first (Q : stepResult -> hist -> Prop) h :
  (forall r h', extends h' h -> installEnd r h' -> Q r h') ->
  wp wipeFirst (stateInstallTalos hrm hrc robotClient id ip) Q h.
Proof.
  intros HQ. unfold stateInstallTalos. apply wp_bind, wp_prepareDisks_first.
  intros [r|[[[hrm' c] hw] disk]] h1 H1 Hr.
  - apply wp_ret, HQ; [done|]. unfold installEnd. cbn in Hr. tauto.
  - eapply wp_installTalosImage_first; [exact Hr|]. intros r h2 H2 Hs. apply HQ; [by etrans|].
    unfold installEnd. tauto.
Qed.

Lemma wp_stateInstallFlatcar_first machine hrh (Q : stepResult -> hist -> Prop) h :
  (forall r h', extends h' h -> installEnd r h' -> Q r h') ->
  wp wipeFirst (stateInstallFlatcar hrm machine hrc hrh robotClient id ip) Q h.
Proof.
  intros HQ. unfold stateInstallFlatcar.
  apply wp_bind, (wp_noExec isRead); [auto with guards|auto with guards|].
  intros [data|err] h1 H1; [|apply wp_ret, HQ; [done|by left]].
  apply wp_bind, (wp_noExec isRead); [auto with guards|auto with guards|].
  intros [key|err] h2 H2; (assert (extends h2 h) as H2' by by etrans); [|apply wp_ret, HQ; [done|by left]].
  apply wp_bind, wp_prepareDisks_first. intros [r|[[[hrm' c] hw] disk]] h3 H3 Hr.
  - apply wp_ret, HQ; [by etrans|]. unfold installEnd. cbn in Hr. tauto.
  - eapply wp_installFlatcarImage_first; [exact Hr|]. intros r h4 H4 Hs.
    apply HQ; [etrans; [exact H4|]; by etrans|]. unfold installEnd. tauto.
Qed.

End Install.

(** ** Readiness *)

Section Ready.
Context `{Lib} (hrm : HetznerRobotMachine) (hrc : HetznerRobotCluster) (ip : string).

Lemma wp_stateWaitForBoot_seen (Q : stepResult -> hist -> Prop) h :
  provisioningState hrm = StateWaitingForBoot ->
  (forall r h', extends h' h -> provisioningState r.1 = provisioningState hrm \/
     provisioningState r.1 = StateProvisioned /\ seenUp hrm ip h' -> Q r h') ->
  wp wipeFirst (stateWaitForBoot hrm ip) Q h.
Proof.
  intros Hs HQ. unfold stateWaitForBoot, IsUp, tcpReachable. apply wp_bind, wp_bind, wp_trigger; [done|].
  intros [err|]; apply wp_ret; cbn [negb]; apply wp_ret, HQ; try extends_tac; [by left|].
  right. split; [done|]. left. split; [done|]. eexists. constructor.
Qed.

Lemma wp_stateWaitFlatcarBoot_seen (Q : stepResult -> hist -> Prop) h :
  provisioningState hrm = StateBootingFlatcar ->
  (forall r h', extends h' h -> provisioningState r.1 = provisioningState hrm \/
     provisioningState r.1 = StateProvisioned /\ seenUp hrm ip h' -> Q r h') ->
  wp wipeFirst (stateWaitFlatcarBoot hrm hrc ip) Q h.
Proof.
  intros Hs HQ. unfold stateWaitFlatcarBoot.
  apply wp_bind, (wp_noExec isRead); [auto with guards|auto with guards|].
  intros [key|err] h1 H1; [|apply wp_ret, HQ; [done|by left]].
  assert (forall h', extends h' h1 -> Q (hrm, Returned (MkResult requeueAfterMedium)) h') as Hstay.
  { intros h' H'. apply HQ; [by etrans|by left]. }
  unfold CheckFlatcarBootstrapComplete. apply wp_bind. destruct (ParsePrivateKey key); [|by apply wp_ret, wp_ret, Hstay].
  cbv zeta. apply wp_bind, wp_trigger; [done|]. intros [err|]; [apply wp_ret, wp_ret, Hstay; extends_tac|].
  apply wp_bind, wp_trigger; [done|]. intros [err|]; [apply wp_ret, wp_ret, Hstay; extends_tac|].
  apply wp_bind, wp_trigger; [done|]. intros [err|]; [apply wp_ret, wp_ret, Hstay; extends_tac|].
  apply wp_bind, wp_trigger; [left; unfold probeCommands; set_solver|].
  intros [buf [err|]]; [apply wp_ret, wp_ret, Hstay; extends_tac|]. apply wp_ret.
  destruct (String.eqb_spec (trimSpace buf) "READY") as [Ht|]; cbn [negb].
  - apply wp_ret, HQ; [repeat apply extends_cons_trans; done|]. right. split; [done|]. right. split; [done|].
    exists buf. split; [constructor|done].
  - apply wp_ret, Hstay. extends_tac.
Qed.
End Ready.

(** ** The whole attempt *)

(** What an attempt on [hrm] that ends in [r] has seen. *)
Definition progress (hrm : HetznerRobotMachine) (r : stepResult) (h : hist) : Prop :=
  (provisioningState r.1 = StateInstalling ->
   provisioningState hrm = StateInstalling \/ installed hrm h) /\
  (provisioningState r.1 = StateProvisioned ->
   provisioningState hrm = StateProvisioned \/
   exists host, fetched host h /\ seenUp hrm (hs_ServerIP (hrh_Spec host)) h).

Lemma progress_stay hrm r h : provisioningState r.1 = provisioningState hrm -> progress hrm r h.
Proof. intros Hs. unfold progress. rewrite Hs. auto. Qed.

(** A move to states other than the two. *)
Lemma progress_steps hrm to r h :
  stepsTo hrm to r -> StateInstalling ∉ to -> StateProvisioned ∉ to -> progress hrm r h.
Proof.
  intros (_ & _ & Hs) Hi Hp. apply elem_of_cons in Hs as [Hs|Hs]; [by apply progress_stay|].
  split; intros E; by rewrite E in Hs.
Qed.

Lemma progress_machine hrm hrm' r h :
  hrm_Spec hrm' = hrm_Spec hrm -> provisioningState hrm' = provisioningState hrm ->
  progress hrm' r h -> progress hrm r h.
Proof.
  intros Hspec Hs. unfold progress, installed, seenUp, configuredDisk. by rewrite Hspec, Hs.
Qed.

Section Attempt.
Context `{Lib} (hrc : HetznerRobotCluster) (machine : Machine).

Lemma wp_runState_progress hrm host (c : Client) (Q : stepResult -> hist -> Prop) h :
  baseURL c = robotBaseURL -> fetched host h ->
  (forall r h', extends h' h -> progress hrm r h' -> Q r h') ->
  wp wipeFirst (runState hrm hrc machine host c) Q h.
Proof.
  intros Hb Hf HQ. unfold runState. cbv zeta.
  assert (forall P to p, yields P p (stepsTo hrm to) -> (forall X e, P X e -> noExec X e) ->
    StateInstalling ∉ to -> StateProvisioned ∉ to -> wp wipeFirst p Q h) as Hy.
  { intros P to p Hp HP Hi Hv. eapply yields_wp; [exact Hp|intros; by eapply noExec_wipeFirst, HP|].
    intros r h' He Hr. apply HQ; [done|]. by eapply progress_steps. }
  assert (forall r h', extends h' h -> installEnd hrm r h' -> Q r h') as Hi.
  { intros r h' He Hr. apply HQ; [done|]. destruct Hr as [Hr|[Hr|[Hr|[Hr Hin]]]]; [by apply progress_stay|..];
      unfold progress; rewrite Hr; split; try done; auto. }
  assert (forall r h', extends h' h -> provisioningState r.1 = provisioningState hrm \/
    provisioningState r.1 = StateProvisioned /\ seenUp hrm (hs_ServerIP (hrh_Spec host)) h' -> Q r h') as Hs.
  { intros r h' He Hr. apply HQ; [done|]. destruct Hr as [Hr|[Hr Hup]]; [by apply progress_stay|].
    unfold progress; rewrite Hr; split; [done|]. intros _. right. exists host.
    split; [by eapply fetched_extends|done]. }
  destruct (provisioningState hrm) eqn:Est; try (apply wp_ret, HQ; [done|by apply progress_stay]).
  - eapply Hy; [by apply yields_stateActivateRescue|intros; by eapply rescuing_noExec|set_solver..].
  - eapply Hy; [by apply yields_stateCheckRescueActive|intros; by eapply rescuing_noExec|set_solver..].
  - destruct (isFlatcar hrm); [by apply wp_stateInstallFlatcar_first|by apply wp_stateInstallTalos_first].
  - destruct (isFlatcar hrm).
    + eapply Hy; [by eapply yields_stateWaitFlatcarInstall|auto with guards|set_solver..].
    + eapply Hy; [by apply yields_stateWaitInstall|intros; by eapply rescuing_noExec|set_solver..].
  - eapply Hy; [by eapply yields_stateWaitTalosMaintenanceMode|auto with guards|set_solver..].
  - eapply Hy; [by eapply yields_stateApplyConfig|intros; by eapply configuring_noExec|set_solver..].
  - apply wp_stateWaitForBoot_seen; [done|by rewrite Est].
  - apply wp_stateWaitFlatcarBoot_seen; [done|by rewrite Est].
Qed.

Lemma wp_reconcileProvisioned_progress hrm (Q : stepResult -> hist -> Prop) h :
  provisioningState hrm = StateProvisioned ->
  (forall r h', extends h' h -> progress hrm r h' -> Q r h') ->
  wp wipeFirst (reconcileProvisioned hrm) Q h.
Proof.
  intros Hs HQ. unfold reconcileProvisioned.
  assert (forall hrm' h1, extends h1 h -> provisioningState hrm' = StateProvisioned ->
    wp wipeFirst (let hrm0 := markReady hrm' in
          _ ← (if String.eqb (statusHostRef hrm0) "" then Ret None else ensureProvisionedHostStatus hrm0);
          if String.eqb (statusHostRef hrm0) "" then requeue hrm0 requeueAfterLong else finish hrm0) Q h1) as Hrest.
  { intros hrm' h1 H1 Hs'. cbv zeta. apply wp_bind, (wp_noExec (isCluster (machineReferenceFor (markReady hrm')))).
    - destruct (String.eqb _ ""); [done|apply emits_ensureProvisionedHostStatus].
    - apply cluster_noExec.
    - intros _ h2 H2. assert (extends h2 h) by by etrans.
      destruct (String.eqb _ ""); apply wp_ret, HQ; try done; apply progress_stay; by rewrite Hs. }
  apply wp_bind. destruct (String.eqb _ ""); [|by apply wp_ret, Hrest].
  apply wp_bind, (yields_wp (isCluster (machineReferenceFor hrm)) _ _ _ _ _ (yields_backfill hrm)).
  - intros h' X e _ Hc. by eapply noExec_wipeFirst, cluster_noExec.
  - intros [hrm' r] h1 H1 Hr. apply wp_ret, Hrest; [done|]. cbn in Hr |- *. by destruct Hr as [->|[n ->]].
Qed.

Lemma wp_reconcileNormal_progress hrm (Q : stepResult -> hist -> Prop) h :
  (forall r h', extends h' h -> progress hrm r h' -> Q r h') ->
  wp wipeFirst (reconcileNormal hrm hrc machine) Q h.
Proof.
  intros HQ. unfold reconcileNormal. destruct (decide _) as [Hs|Hs]; [by apply wp_reconcileProvisioned_progress|].
  apply wp_bind, claims_resolveHost.
  { intros h' X e _ Hc. by eapply noExec_wipeFirst, cluster_noExec, claims_cluster. }
  intros hrm1 r h1 H1 _ [Hhrm Hr].
  assert (hrm_Spec hrm1 = hrm_Spec hrm /\ provisioningState hrm1 = provisioningState hrm) as [Hspec Hst]
    by by destruct Hhrm as [->|[n ->]]. clear Hhrm.
  destruct r as [host|err]; [|apply wp_ret, HQ; [done|by apply progress_stay]].
  destruct (Hr host eq_refl) as [Hf _]. clear Hr. cbv zeta.
  set (hrm2 := set_mst mst_Addresses _ hrm1).
  assert (hrm_Spec hrm2 = hrm_Spec hrm /\ provisioningState hrm2 = provisioningState hrm) as [Hspec2 Hst2] by done.
  clearbody hrm2. clear Hspec Hst hrm1.
  apply wp_bind, (wp_noExec isRead); [|auto with guards|].
  { unfold gate. destruct (provisioningMayBecomeDestructive _); [apply emits_authorize|done]. }
  intros [err|] h2 H2; (assert (extends h2 h) as H2' by (by transitivity h1)).
  { apply wp_ret, HQ; [done|]. by apply progress_stay. }
  apply wp_bind, wp_NewFromCluster; [intros; by apply noExec_wipeFirst, read_noExec|].
  intros [c|err] h3 H3%onlyReads_extends Hc; (assert (extends h3 h) as H3' by (by transitivity h2)).
  - apply wp_runState_progress; [by apply Hc| |].
    + eapply fetched_extends; [|exact Hf]. by transitivity h2.
    + intros r h4 H4 Hp. apply HQ; [by transitivity h3|]. by eapply progress_machine.
  - apply wp_ret, HQ; [done|]. by apply progress_stay.
Qed.

Lemma wp_reconcileAttempt_progress hrm (Q : stepResult -> hist -> Prop) h :
  (forall r h', extends h' h -> progress hrm r h' -> Q r h') ->
  wp wipeFirst (reconcileAttempt hrm hrc machine) Q h.
Proof.
  intros HQ. unfold reconcileAttempt. apply wp_bind, (wp_noExec harmless); [|auto with guards|].
  { unfold backoffRemaining. cbv zeta. by repeat emits_step. }
  intros [remaining|] h1 H1; [apply wp_ret, HQ; [done|by apply progress_stay]|].
  apply wp_bind, wp_reconcileNormal_progress. intros [hrm1 [result|err|msg]] h2 H2 Hp;
    (assert (extends h2 h) as H2' by (by transitivity h1)); unfold progress in Hp; cbn [fst] in Hp.
  - apply wp_ret, HQ; [done|]. unfold progress. cbn [fst].
    assert (provisioningState (handleSuccess hrm1) = provisioningState hrm1) as ->
      by (unfold handleSuccess; cbv zeta; by destruct (decide _)). done.
  - unfold handleError. destruct (isPermanentError _); [by apply wp_ret, HQ|]. cbv zeta.
    apply wp_bind, wp_trigger; [done|]. intros now. apply wp_ret, HQ; [by apply extends_cons_trans|].
    unfold progress. cbn [fst]. destruct Hp as [Hi Hv]. split.
    + intros Hs. destruct (Hi Hs) as [?|?]; [by left|right]. by eapply installed_extends; [apply extends_cons|].
    + intros Hs. destruct (Hv Hs) as [?|(host & Hf & Hup)]; [by left|right]. exists host.
      split; [by eapply fetched_extends; [apply extends_cons|]|].
      destruct Hup as [[? (t & ?)]|[? (out & ? & ?)]]; [left|right]; (split; [done|]).
      * exists t. by apply elem_of_cons; right.
      * exists out. split; [by apply elem_of_cons; right|done].
  - by apply wp_ret, HQ.
Qed.
End Attempt.

(** * Properties *)

(** C6: nothing is installed before the wipe.  In an attempt, every command on
    a server is a probe, or the wipe of exactly the NVMe disks that a detection
    on that server has just printed, or comes after that server confirmed the
    wipe of every one of them. *)
Theorem wipe_comes_first `{Lib} hrm hrc machine h' r :
  exec (reconcileAttempt hrm hrc machine) [] h' r -> guarded wipeFirst h'.
Proof.
  intros He. refine (proj2 (exec_guarded wipeFirst _ (fun _ _ => True) _ _ He _)).
  by apply wp_reconcileAttempt_progress.
Qed.

(** C7: a machine moves on only on evidence.  An attempt that takes a machine
    to Installing has seen the server confirm the wipe of all its disks and
    then run without error the command that writes the operating system to the
    disk chosen for the machine's configuration and this hardware; an attempt
    that takes it to Provisioned has seen the Talos API of its host answer, or
    the Flatcar bootstrap sentinel on it. *)
Theorem progress_needs_evidence `{Lib} hrm hrc machine h' r :
  exec (reconcileAttempt hrm hrc machine) [] h' r -> progress hrm r h'.
Proof.
  intros He. refine (proj1 (exec_guarded wipeFirst _ (progress hrm) _ _ He _)).
  by apply wp_reconcileAttempt_progress.
Qed.

(** ** Witnesses *)

Import Demo.

Lemma wipe_comes_first_witness :
  let p := reconcileAttempt (inState StateInRescue) sampleHRC sampleMachine in
  let h := hist_of (goodWorld (inState StateInRescue) sampleHost) p in
  (4 <= length (commands h))%nat /\ guarded wipeFirst h.
Proof.
  split; [vm_compute; repeat constructor|].
  exact (wipe_comes_first (inState StateInRescue) sampleHRC sampleMachine _ _ (exec_of _ _)).
Defined.

Lemma progress_needs_evidence_witness :
  let p := reconcileAttempt (inState StateInRescue) sampleHRC sampleMachine in
  let w := goodWorld (inState StateInRescue) sampleHost in
  provisioningState (fst (result_of w p)) = StateInstalling /\
  progress (inState StateInRescue) (result_of w p) (hist_of w p).
Proof.
  split; [vm_compute; reflexivity|].
  exact (progress_needs_evidence (inState StateInRescue) sampleHRC sampleMachine _ _ (exec_of _ _)).
Defined.
