(* ===== verification/TalosConfig.v ===== *)
(** * What a Talos server is configured with

    Facts about the machineconfig the injections produce: the documents behind
    the first one are kept, what is injected is there, and nothing else
    changes. *)

From Stdlib Require Import Ascii.
From S2P Require Import Prelude GoStrings GoTime Api Codec Effects Lib Samples Rescue Inject Ignition Retry States.

Local Open Scope Z_scope.

(** * Specification *)

(** A piece of text between separators, and the document it is. *)
Definition document (text doc : string) : Prop :=
  trimSpace text = doc /\ doc <> "" /\ doc <> "---" /\ hasPrefix doc ("---" +:+ nl) = false /\
  contains (text +:+ nl +:+ "---") docSep = false.

(** The data has the map as its first document, and the others behind it. *)
Definition configures `{Lib} (data : string) (m : object) (docs : list string) : Prop :=
  exists text doc texts, data = join (text :: texts) docSep /\
    document text doc /\ yaml_Unmarshal doc = Ok (Some m) /\
    Forall2 (fun t d => document t d /\ document d d) texts docs.

(** The map at a path, empty where there is none. *)
Fixpoint mapAt (path : list string) (m : object) : object :=
  match path with [] => m | k :: path => mapAt path (childMap m k) end.

(** * Facts *)

(** ** Documents *)

Lemma prefix_within (p u v : string) :
  String.prefix p (u +:+ v) = true -> (strlen p <= strlen u)%nat -> String.prefix p u = true.
Proof.
  revert u. induction p as [|c p IH]; intros [|x u]; cbn; try done; try lia.
  destruct (ascii_dec c x); [|done]. intros Hp Hl. apply IH; [done|lia].
Qed.

(** The first separator is where it was put, when none starts earlier. *)
Lemma cut_at (p a b : string) (c : ascii) :
  contains (a +:+ p) (p +:+ String c "") = false ->
  cut (p +:+ String c "") (a +:+ (p +:+ String c "") +:+ b) = Some (a, b).
Proof.
  set (sep := p +:+ String c ""). intros Ha. induction a as [|x a IH].
  - cbn [String.append]. destruct (sep +:+ b) as [|y t] eqn:Hs.
    { apply app_eq_nil_str in Hs as [Hs _]. unfold sep in Hs. by destruct p. }
    assert (String.prefix sep (String y t) = true) as Hp by (rewrite <- Hs; apply prefix_app).
    cbn [cut]. rewrite Hp, <- Hs. by rewrite strdrop_app.
  - cbn [String.append contains] in Ha |- *. apply orb_false_iff in Ha as [Hpre Hrest].
    cbn [cut]. rewrite (IH Hrest).
    destruct (String.prefix sep (String x (a +:+ sep +:+ b))) eqn:Hp; [|done].
    exfalso. assert (String.prefix sep (String x (a +:+ p)) = true); [|congruence].
    apply (prefix_within _ _ (String c "" +:+ b)).
    + cbn [String.append]. rewrite app_assoc_str. unfold sep in Hp. by rewrite app_assoc_str in Hp.
    + unfold sep. rewrite strlen_app. cbn. rewrite strlen_app. lia.
Qed.

Lemma cut_none_app (s t sep : string) : contains (s +:+ t) sep = false -> cut sep s = None.
Proof.
  intros Hc. apply cut_none. destruct (contains s sep) eqn:Hs; [|done].
  by rewrite (contains_app_l _ _ _ Hs) in Hc.
Qed.

Lemma docSep_split : docSep = (nl +:+ "---") +:+ nl.
Proof. done. Qed.

(** Splitting what was joined. *)
Lemma split_texts text texts :
  contains (text +:+ nl +:+ "---") docSep = false ->
  Forall (fun t => contains (t +:+ nl +:+ "---") docSep = false) texts ->
  split (join (text :: texts) docSep) docSep = text :: texts.
Proof.
  intros Ht Hts. revert text Ht. induction Hts as [|t2 texts H2 _ IH]; intros text Ht.
  - cbn [join]. rewrite split_unfold by done. by rewrite (cut_none_app _ _ _ Ht).
  - rewrite join_cons by done. rewrite split_unfold by done.
    assert (cut docSep (text +:+ docSep +:+ join (t2 :: texts) docSep) =
      Some (text, join (t2 :: texts) docSep)) as Hcut by by apply (cut_at (nl +:+ "---") text _ (ascii_of_nat 10)).
    rewrite Hcut. by rewrite IH.
Qed.

Lemma cleanDocuments_cons text doc texts :
  document text doc -> cleanDocuments (text :: texts) = doc :: cleanDocuments texts.
Proof.
  intros (Ht & Hne & Hd & Hp & _). cbn [cleanDocuments]. rewrite Ht.
  apply String.eqb_neq in Hne, Hd. rewrite Hne, Hd. cbn [negb andb].
  unfold trimPrefix. by rewrite Hp.
Qed.

Lemma splitYAMLDocuments_join text doc texts docs :
  document text doc -> Forall2 (fun t d => document t d /\ document d d) texts docs ->
  splitYAMLDocuments (join (text :: texts) docSep) = doc :: docs.
Proof.
  intros Hd Hds. unfold splitYAMLDocuments. rewrite split_texts.
  - rewrite (cleanDocuments_cons _ doc) by done. f_equal. clear Hd.
    induction Hds as [|t d ts ds [Htd _] _ IH]; [done|]. by rewrite (cleanDocuments_cons _ d), IH.
  - apply Hd.
  - clear Hd. induction Hds as [|t d ts ds [Htd _] _ IH]; constructor; [apply Htd|done].
Qed.

Lemma appendDocuments_join first rest : appendDocuments first rest = join (first :: rest) docSep.
Proof.
  unfold appendDocuments. revert first. induction rest as [|d rest IH]; intros first; [done|].
  cbn [fold_left]. rewrite IH. rewrite (join_cons first) by done.
  destruct rest as [|d2 rest]; [by rewrite app_assoc_str|].
  rewrite !join_cons by done. by rewrite !app_assoc_str.
Qed.

(** ** One injection *)

Lemma plain_map_iff m :
  plain (VMap m) = true <-> map_Forall (fun k v => oneLine k = true /\ plain v = true) m.
Proof.
  rewrite plain_map, forallb_forall. split.
  - intros Hf k v Hkv. apply andb_true_iff, (Hf (k, v)), list_elem_of_In, elem_of_map_to_list, Hkv.
  - intros Hf [k v] Hin. apply andb_true_iff, (Hf k v), elem_of_map_to_list, list_elem_of_In, Hin.
Qed.

Lemma plain_insert m k v :
  oneLine k = true -> plain v = true -> plain (VMap m) = true -> plain (VMap (<[k:=v]> m)) = true.
Proof. rewrite !plain_map_iff. intros Hk Hv Hm. by apply map_Forall_insert_2. Qed.

Lemma plain_delete m k : plain (VMap m) = true -> plain (VMap (delete k m)) = true.
Proof. rewrite !plain_map_iff. apply map_Forall_delete. Qed.

Lemma plain_lookup m k v : plain (VMap m) = true -> m !! k = Some v -> plain v = true.
Proof. rewrite plain_map_iff. intros Hm Hk. by apply (Hm k v). Qed.

Lemma plain_empty : plain (VMap ∅) = true.
Proof. done. Qed.

Lemma plain_childMap m k : plain (VMap m) = true -> plain (VMap (childMap m k)) = true.
Proof.
  intros Hm. unfold childMap. destruct (m !! k) as [[]|] eqn:Hk; try done. by eapply plain_lookup.
Qed.

Lemma plain_ensureMap m k f :
  oneLine k = true -> (forall c, plain (VMap c) = true -> plain (VMap (f c)) = true) ->
  plain (VMap m) = true -> plain (VMap (ensureMap m k f)) = true.
Proof. intros Hk Hf Hm. apply plain_insert; [done| |done]. by apply Hf, plain_childMap. Qed.

Lemma plain_listAt m k : plain (VMap m) = true -> plain (VList (listAt m k)) = true.
Proof.
  intros Hm. unfold listAt. destruct (m !! k) as [[]|] eqn:Hk; try done. by eapply plain_lookup.
Qed.

Lemma plain_app l l' : plain (VList l) = true -> plain (VList l') = true -> plain (VList (l ++ l')) = true.
Proof. cbn. intros Hl Hl'. by rewrite forallb_app, Hl, Hl'. Qed.

Lemma plain_single v : plain v = true -> plain (VList [v]) = true.
Proof. intros Hv. change (plain v && true = true). by rewrite Hv. Qed.

Section Step.
Context `{YamlLaws}.

(** An injection into data that configures a map succeeds when its change of
    the map does, and configures the changed map with the same documents behind
    it. *)
Lemma modify_configures data m docs fn m' :
  configures data m docs -> fn (Some m) = GOk m' -> plain (VMap m') = true ->
  exists data', modifyFirstDocument data fn = GOk data' /\ configures data' m' docs.
Proof.
  intros (text & doc & texts & -> & Hd & Hu & Hds) Hfn Hp.
  unfold modifyFirstDocument. rewrite (splitYAMLDocuments_join _ doc _ docs) by done.
  rewrite Hu. cbn. rewrite Hfn. cbn. destruct (yaml_writes m' Hp) as (s & Hs). rewrite Hs. cbn.
  eexists. split; [done|]. rewrite appendDocuments_join.
  destruct (yaml_document m' s Hp Hs) as (Hc & Hne & Hdash & Hpre).
  exists s, (trimSpace s), docs. split; [done|]. split; [done|]. split; [by apply yaml_reads|].
  clear -Hds. induction Hds as [|t d ts ds [_ Hdd] _ IH]; by constructor.
Qed.
End Step.

(** ** The maps *)

Lemma childMap_ensureMap m k f : childMap (ensureMap m k f) k = f (childMap m k).
Proof. unfold childMap at 1, ensureMap. by rewrite lookup_insert_eq. Qed.

Lemma childMap_ensureMap_ne m k k' f : k <> k' -> childMap (ensureMap m k f) k' = childMap m k'.
Proof. intros Hne. unfold childMap, ensureMap. by rewrite lookup_insert_ne. Qed.

Lemma lookup_ensureMap_ne m k k' f : k <> k' -> ensureMap m k f !! k' = m !! k'.
Proof. intros Hne. unfold ensureMap. by rewrite lookup_insert_ne. Qed.

(** What each injection does to the document. *)
Definition diskSet (disk : string) (m : object) : object :=
  ensureMap m "machine" (fun machine => ensureMap machine "install" (fun install =>
    match install !! "disk" with Some _ => install | None => <["disk" := VString disk]> install end)).

Definition argSet (arg val : string) (m : object) : object :=
  ensureMap m "machine" (fun machine => ensureMap machine "kubelet" (fun kubelet =>
    ensureMap kubelet "extraArgs" (fun args => <[arg := VString val]> args))).

Definition vlanSet (vlan : VLANConfig) (ip mac : string) (m : object) : object :=
  ensureMap m "machine" (fun machine => ensureMap machine "network" (fun network =>
    <["interfaces" := VList (map stripVLANs (listAt network "interfaces") ++ [vlanInterface vlan ip mac])]> network)).

Definition ipv6Set (net mac : string) (m : object) : object :=
  ensureMap m "machine" (fun machine =>
    ensureMap (ensureMap machine "network" (fun network =>
      <["interfaces" := VList (listAt network "interfaces" ++ [ipv6Interface net mac])]> network))
    "sysctls" (fun sysctls => <["net.ipv6.conf.all.forwarding" := VString "1"]> sysctls)).

(** The document after all injections of a machine. *)
Definition talosDocument (hrm : HetznerRobotMachine) (hrc : HetznerRobotCluster) (hrh : HetznerRobotHost)
    (serverID : Z) (m : object) : object :=
  let mac := mst_PrimaryMAC (hrm_Status hrm) in
  let net := hs_ServerIPv6Net (hrh_Spec hrh) in
  let nodeIP := nodeIPOf (vlanInternalIP hrc hrh) net in
  let m := diskSet (configDisk hrm) m in
  let m := match cs_VLANConfig (hrc_Spec hrc) with
           | Some vlan => vlanSet vlan (hs_InternalIP (hrh_Spec hrh)) mac m
           | None => m
           end in
  let m := if String.eqb net "" then m else ipv6Set net mac m in
  let m := if String.eqb nodeIP "" then m else argSet "node-ip" nodeIP m in
  argSet "provider-id" (providerIDOf serverID) m.

(** What the machine must have for its configuration. *)
Definition configurable (hrm : HetznerRobotMachine) (hrc : HetznerRobotCluster) (hrh : HetznerRobotHost) : Prop :=
  mst_PrimaryMAC (hrm_Status hrm) <> "" /\
  match cs_VLANConfig (hrc_Spec hrc) with
  | Some _ => hs_InternalIP (hrh_Spec hrh) <> "" /\ mst_GatewayIP (hrm_Status hrm) <> ""
  | None => True
  end.

(** Its texts are printable ASCII, its VLAN numbers machine integers. *)
Definition plainMachine (hrm : HetznerRobotMachine) (hrc : HetznerRobotCluster) (hrh : HetznerRobotHost) : Prop :=
  oneLine (configDisk hrm) = true /\ oneLine (mst_PrimaryMAC (hrm_Status hrm)) = true /\
  oneLine (hs_InternalIP (hrh_Spec hrh)) = true /\
  oneLine (nodeIPOf (vlanInternalIP hrc hrh) (hs_ServerIPv6Net (hrh_Spec hrh))) = true /\
  oneLine (ipv6Prefix (hs_ServerIPv6Net (hrh_Spec hrh))) = true /\
  match cs_VLANConfig (hrc_Spec hrc) with Some vlan => in_int64 (vl_ID vlan) | None => True end.

Lemma plain_diskSet disk m : oneLine disk = true -> plain (VMap m) = true -> plain (VMap (diskSet disk m)) = true.
Proof.
  intros Hd Hm. apply plain_ensureMap; [done| |done]. intros c Hc. apply plain_ensureMap; [done| |done].
  intros i Hi. destruct (i !! "disk"); [done|]. by apply plain_insert.
Qed.

Lemma plain_argSet arg val m :
  oneLine arg = true -> oneLine val = true -> plain (VMap m) = true -> plain (VMap (argSet arg val m)) = true.
Proof.
  intros Ha Hv Hm. apply plain_ensureMap; [done| |done]. intros c Hc. apply plain_ensureMap; [done| |done].
  intros k Hk. apply plain_ensureMap; [done| |done]. intros a Ha'. by apply plain_insert.
Qed.

Lemma plain_stripVLANs l : plain (VList l) = true -> plain (VList (map stripVLANs l)) = true.
Proof.
  cbn. rewrite !forallb_forall. intros Hl v (w & <- & Hw)%in_map_iff. specialize (Hl w Hw).
  destruct w; try done. by apply plain_delete.
Qed.

Lemma plain_vlanSet vlan ip mac m :
  oneLine ip = true -> oneLine mac = true -> in_int64 (vl_ID vlan) ->
  plain (VMap m) = true -> plain (VMap (vlanSet vlan ip mac m)) = true.
Proof.
  intros Hip Hmac Hid Hm. apply plain_ensureMap; [done| |done]. intros c Hc. apply plain_ensureMap; [done| |done].
  intros n Hn. apply plain_insert; [done| |done]. apply plain_app; [by apply plain_stripVLANs, plain_listAt|].
  apply plain_single. unfold vlanInterface, obj. cbn [list_to_map foldr uncurry].
  assert (plain (VNum (vl_ID vlan)) = true) as Hnum by (cbn; unfold in_int64 in Hid; lia).
  assert (oneLine (ip +:+ "/" +:+ itoa (prefixLenOf vlan)) = true) as Haddr.
  { apply oneLine_app; [done|]. apply oneLine_app; [done|apply oneLine_itoa]. }
  apply plain_insert; [done|repeat apply plain_insert; done|].
  apply plain_insert; [done| |done]. apply plain_single.
  apply plain_insert; [done|done|]. apply plain_insert; [done| |done]. by apply plain_single.
Qed.

Lemma plain_ipv6Set net mac m :
  oneLine (ipv6Prefix net) = true -> oneLine mac = true -> plain (VMap m) = true ->
  plain (VMap (ipv6Set net mac m)) = true.
Proof.
  intros Hnet Hmac Hm. apply plain_ensureMap; [done| |done]. intros c Hc. apply plain_ensureMap; [done| |].
  { intros s Hs. by apply plain_insert. }
  apply plain_ensureMap; [done| |done]. intros n Hn. apply plain_insert; [done| |done].
  apply plain_app; [by apply plain_listAt|]. apply plain_single.
  unfold ipv6Interface, obj. cbn [list_to_map foldr uncurry].
  apply plain_insert; [done|destruct (String.eqb mac ""); repeat apply plain_insert; done|].
  apply plain_insert; [done| |].
  - apply plain_single. by apply oneLine_app.
  - by vm_compute.
Qed.

(** ** All injections *)

Lemma configDisk_nonempty hrm : configDisk hrm <> "".
Proof.
  unfold configDisk, configuredDisk.
  destruct (String.eqb_spec (mst_ResolvedInstallDisk (hrm_Status hrm)) ""); [|done].
  by destruct (String.eqb_spec (ms_InstallDisk (hrm_Spec hrm)) "").
Qed.

Lemma providerID_plain id : oneLine (providerIDOf id) = true.
Proof. apply oneLine_app; [done|apply oneLine_itoa]. Qed.

Section Chain.
Context `{YamlLaws} (hrm : HetznerRobotMachine) (hrc : HetznerRobotCluster) (hrh : HetznerRobotHost).

(** Each injection of the chain, on data that configures a plain map: it
    succeeds, and configures the map with its change. *)
Definition injects (r : gores string) (m : object) (docs : list string) : Prop :=
  exists data, r = GOk data /\ configures data m docs /\ plain (VMap m) = true.

Lemma injects_modify pre data m docs fn m' :
  configures data m docs -> fn (Some m) = GOk m' -> plain (VMap m') = true ->
  injects (gwrap pre (modifyFirstDocument data fn)) m' docs.
Proof.
  intros Hc Hf Hp. destruct (modify_configures data m docs fn m' Hc Hf Hp) as (data' & -> & Hc').
  by exists data'.
Qed.

Lemma injects_vlan serverIP data m docs :
  configurable hrm hrc hrh -> plainMachine hrm hrc hrh -> plain (VMap m) = true -> configures data m docs ->
  injects (applyVLAN hrm hrc hrh serverIP (mst_PrimaryMAC (hrm_Status hrm)) data)
    match cs_VLANConfig (hrc_Spec hrc) with
    | Some vlan => vlanSet vlan (hs_InternalIP (hrh_Spec hrh)) (mst_PrimaryMAC (hrm_Status hrm)) m
    | None => m
    end docs.
Proof.
  intros [Hmac Hvlan] (_ & Hmacl & Hip & _ & _ & Hid) Hm Hc. unfold applyVLAN.
  destruct (cs_VLANConfig (hrc_Spec hrc)) as [vlan|]; [|by exists data].
  destruct Hvlan as [Hipe Hgw]. apply String.eqb_neq in Hipe, Hgw, Hmac. cbv zeta. rewrite Hipe, Hgw.
  unfold injectVLANConfig. rewrite Hipe, Hmac. by eapply injects_modify, plain_vlanSet.
Qed.

Lemma injects_ipv6 data m docs :
  plainMachine hrm hrc hrh -> plain (VMap m) = true -> configures data m docs ->
  injects (if String.eqb (hs_ServerIPv6Net (hrh_Spec hrh)) "" then GOk data
           else gwrap "inject IPv6 config: " (injectIPv6Config data (hs_ServerIPv6Net (hrh_Spec hrh))
                  (mst_PrimaryMAC (hrm_Status hrm)) (hs_InternalIP (hrh_Spec hrh))))
    (if String.eqb (hs_ServerIPv6Net (hrh_Spec hrh)) "" then m
     else ipv6Set (hs_ServerIPv6Net (hrh_Spec hrh)) (mst_PrimaryMAC (hrm_Status hrm)) m) docs.
Proof.
  intros (_ & Hmacl & _ & _ & Hnet & _) Hm Hc. unfold injectIPv6Config.
  destruct (String.eqb _ ""); [by exists data|]. by eapply injects_modify, plain_ipv6Set.
Qed.

Lemma injects_arg pre arg val data m docs :
  oneLine arg = true -> oneLine val = true -> plain (VMap m) = true -> configures data m docs ->
  injects (gwrap pre (if String.eqb val "" then GOk data else modifyFirstDocument data (setKubeletArg arg val)))
    (if String.eqb val "" then m else argSet arg val m) docs.
Proof.
  intros Ha Hv Hm Hc. destruct (String.eqb val ""); [by exists data|]. by eapply injects_modify, plain_argSet.
Qed.

Lemma talosConfig_document serverID serverIP data m docs :
  configurable hrm hrc hrh -> plainMachine hrm hrc hrh -> plain (VMap m) = true -> configures data m docs ->
  injects (talosConfig hrm hrc hrh serverID serverIP data) (talosDocument hrm hrc hrh serverID m) docs.
Proof.
  intros Hconf Hplain Hm Hc. unfold talosConfig, injectInstallDisk.
  pose proof (configDisk_nonempty hrm) as Hne. apply String.eqb_neq in Hne. rewrite Hne. clear Hne.
  destruct (injects_modify "inject install disk into config: " data m docs (setInstallDisk (configDisk hrm))
    (diskSet (configDisk hrm) m)) as (data1 & -> & Hc1 & Hm1); [done|done|by apply plain_diskSet; [apply Hplain|]|].
  cbn [mbind gores_mbind]. cbv zeta. destruct Hconf as [Hmac Hvlan]. apply String.eqb_neq in Hmac as Hmace.
  rewrite Hmace.
  destruct (injects_vlan serverIP data1 _ docs (conj Hmac Hvlan) Hplain Hm1 Hc1) as (data2 & -> & Hc2 & Hm2).
  cbn [mbind gores_mbind].
  destruct (injects_ipv6 data2 _ docs Hplain Hm2 Hc2) as (data3 & -> & Hc3 & Hm3).
  cbn [mbind gores_mbind]. unfold injectKubeletNodeIP, injectProviderID. cbv zeta.
  destruct (injects_arg "inject kubelet nodeIP: " "node-ip"
    (nodeIPOf (vlanInternalIP hrc hrh) (hs_ServerIPv6Net (hrh_Spec hrh))) data3 _ docs eq_refl
    (proj1 (proj2 (proj2 (proj2 Hplain)))) Hm3 Hc3) as (data4 & -> & Hc4 & Hm4).
  cbn [mbind gores_mbind]. apply (injects_arg _ "provider-id" (providerIDOf serverID)); [done| |done|done].
  apply providerID_plain.
Qed.
End Chain.

(** ** What the document holds *)

Create HintDb maps.
#[export] Hint Rewrite childMap_ensureMap listAt_insert : maps.

Lemma childMap_insert_ne m k k' v : k <> k' -> childMap (<[k:=v]> m) k' = childMap m k'.
Proof. intros Hne. unfold childMap. by rewrite lookup_insert_ne. Qed.

Ltac map_eq_step :=
  first [ progress autorewrite with maps
        | rewrite childMap_ensureMap_ne by done
        | rewrite lookup_ensureMap_ne by done
        | rewrite lookup_insert_eq
        | rewrite lookup_insert_ne by done ].

(** The part of a document under [machine], and the rest. *)
Section Document.
Context (hrm : HetznerRobotMachine) (hrc : HetznerRobotCluster) (hrh : HetznerRobotHost) (serverID : Z) (m : object).

Ltac document :=
  unfold talosDocument, diskSet, vlanSet, ipv6Set, argSet; cbv zeta;
  destruct (cs_VLANConfig (hrc_Spec hrc)) as [vlan|];
  destruct (String.eqb_spec (hs_ServerIPv6Net (hrh_Spec hrh)) "") as [Hnet|Hnet];
  destruct (String.eqb_spec (nodeIPOf (vlanInternalIP hrc hrh) (hs_ServerIPv6Net (hrh_Spec hrh))) "") as [Hip|Hip];
  cbn [mapAt]; repeat map_eq_step.

Lemma document_disk :
  mapAt ["machine"; "install"] (talosDocument hrm hrc hrh serverID m) !! "disk" =
    Some (default (VString (configDisk hrm)) (mapAt ["machine"; "install"] m !! "disk")).
Proof.
  assert (forall install : object, match install !! "disk" with
      | Some _ => install | None => <["disk" := VString (configDisk hrm)]> install end !! "disk" =
    Some (default (VString (configDisk hrm)) (install !! "disk"))) as Hdisk.
  { intros install. destruct (install !! "disk") eqn:Hi; [done|]. by rewrite lookup_insert_eq. }
  document; apply Hdisk.
Qed.

Lemma document_providerID :
  mapAt ["machine"; "kubelet"; "extraArgs"] (talosDocument hrm hrc hrh serverID m) !! "provider-id" =
    Some (VString (providerIDOf serverID)).
Proof. by document. Qed.

Lemma document_nodeIP :
  nodeIPOf (vlanInternalIP hrc hrh) (hs_ServerIPv6Net (hrh_Spec hrh)) <> "" ->
  mapAt ["machine"; "kubelet"; "extraArgs"] (talosDocument hrm hrc hrh serverID m) !! "node-ip" =
    Some (VString (nodeIPOf (vlanInternalIP hrc hrh) (hs_ServerIPv6Net (hrh_Spec hrh)))).
Proof. intros Hne. by document. Qed.

Lemma document_interfaces :
  listAt (mapAt ["machine"; "network"] (talosDocument hrm hrc hrh serverID m)) "interfaces" =
    match cs_VLANConfig (hrc_Spec hrc) with
    | Some vlan =>
        map stripVLANs (listAt (mapAt ["machine"; "network"] m) "interfaces") ++
          [vlanInterface vlan (hs_InternalIP (hrh_Spec hrh)) (mst_PrimaryMAC (hrm_Status hrm))]
    | None => listAt (mapAt ["machine"; "network"] m) "interfaces"
    end ++
    (if String.eqb (hs_ServerIPv6Net (hrh_Spec hrh)) "" then []
     else [ipv6Interface (hs_ServerIPv6Net (hrh_Spec hrh)) (mst_PrimaryMAC (hrm_Status hrm))]).
Proof. document; by rewrite ?app_nil_r. Qed.

Lemma document_frame k : k <> "machine" -> talosDocument hrm hrc hrh serverID m !! k = m !! k.
Proof. intros Hk. assert ("machine" <> k) as Hk' by congruence. by document. Qed.

Lemma document_machine_frame k :
  k ∉ ["install"; "network"; "kubelet"; "sysctls"] ->
  mapAt ["machine"] (talosDocument hrm hrc hrh serverID m) !! k = mapAt ["machine"] m !! k.
Proof.
  intros Hk. assert ("install" <> k /\ "network" <> k /\ "kubelet" <> k /\ "sysctls" <> k) as (? & ? & ? & ?).
  { repeat split; intros <-; apply Hk; set_solver. }
  by document.
Qed.
End Document.

(** * Properties *)


(** ** Witnesses *)

Import Demo.

Definition detectedHRM : HetznerRobotMachine :=
  set_mst mst_GatewayIP "192.0.2.1" (set_mst mst_PrimaryMAC "aa:bb:cc:dd:ee:ff" (inState StateApplyingConfig)).

Definition vlanHRC : HetznerRobotCluster :=
  sampleHRC <| hrc_Spec := (hrc_Spec sampleHRC) <| cs_VLANConfig := Some (MkVLANConfig 4000 24) |> |>.

Definition sampleText : string := join [encode (VMap sampleConfig); "kind: HostnameConfig"] docSep.

(** What the sample codec writes is one document. *)
Lemma encode_document m : plain (VMap m) = true -> document (encode (VMap m)) (encode (VMap m)).
Proof.
  intros Hp. split; [apply encode_map_trim|]. destruct (encode_map_ends m) as [mid Hm].
  rewrite Hm. split; [done|]. split; [done|]. split; [done|]. rewrite <- Hm. by apply encode_map_document.
Qed.

Lemma encode_decodes m : plain (VMap m) = true -> yaml_Unmarshal (encode (VMap m)) = Ok (Some m).
Proof. intros Hp. rewrite <- (encode_map_trim m). by apply (yaml_reads m). Qed.

Lemma encode_configures m : plain (VMap m) = true -> configures (encode (VMap m)) m [].
Proof.
  intros Hp. exists (encode (VMap m)), (encode (VMap m)), []. split; [done|]. split; [by apply encode_document|].
  split; [by apply encode_decodes|constructor].
Qed.

Lemma sampleText_configures : configures sampleText sampleConfig ["kind: HostnameConfig"].
Proof.
  exists (encode (VMap sampleConfig)), (encode (VMap sampleConfig)), ["kind: HostnameConfig"].
  split; [done|]. split; [by apply encode_document|]. split; [by apply encode_decodes|].
  repeat constructor; by vm_compute.
Qed.

