(* ===== verification/Progress.v ===== *)
(** * Progress of a machine

    What the safety theorems leave open: that provisioning gets somewhere.  When
    the API server, the Robot service and the server cooperate, every run takes
    the machine one state further, until it is provisioned. *)

From S2P Require Import Prelude GoStrings GoTime Api Codec Effects Lib Samples Policy Robot Rescue Talos HostClaim Inject Ignition Retry States Machine TalosConfig Answers.

Local Open Scope Z_scope.

(** ** The environment *)

(** What stays the same while a machine is provisioned: its host, the secrets,
    the hardware of the server, and the time provisioning starts. *)
Record Site := MkSite {
  site_host : HetznerRobotHost;
  site_secrets : NamespacedName -> Secret;
  site_hardware : HardwareInfo;
  site_start : Z
}.

(** What the server runs. *)
Inductive Phase := Unknown | Rescue | Maintenance | Configured | FlatcarUp.

Section Environment.
Context `{Lib} (site : Site).

Definition site_ip : string := hs_ServerIP (hrh_Spec (site_host site)).
Definition site_id : Z := hs_ServerID (hrh_Spec (site_host site)).

(** The window of the provision timeout. *)
Definition inWindow (t : Z) : Prop := site_start site <= t <= site_start site + provisionTimeout.

(** The port a server listens on. *)
Definition listens (ph : Phase) (addr : string) : Prop :=
  match ph with
  | Unknown => False
  | Rescue | FlatcarUp => addr = sshAddr site_ip
  | Maintenance | Configured => addr = talosAddr site_ip
  end.

(** The account SSH opens. *)
Definition logsIn (ph : Phase) (addr user : string) : Prop :=
  match ph with
  | Rescue => addr = sshAddr site_ip /\ user = "root"
  | FlatcarUp => addr = sshAddr site_ip /\ user = "core"
  | _ => False
  end.

(** What the commands whose output is read print: on a rescue system the
    probes, the detection and the wipe, on Flatcar the sentinel. *)
Definition prints (ph : Phase) (cmd out : string) : Prop :=
  match ph with
  | Rescue =>
      (cmd = wrapped rescueHostnameScript -> trimSpace out = "RESCUE") /\
      (cmd = wrapped rescueCheckScript -> trimSpace out = "RESCUE") /\
      (cmd = wrapped detectScript -> ParseHardwareOutput out = Ok (site_hardware site)) /\
      (cmd = wrapped (wipeScript (hw_NVMeDisks (site_hardware site))) ->
       forall d, d ∈ hw_NVMeDisks (site_hardware site) -> d ∈ wipedDisks out)
  | FlatcarUp => cmd = sentinelCommand -> trimSpace out = "READY"
  | _ => True
  end.

(** A host of the site that the machine owns or may claim. *)
Definition availableTo (hrm : HetznerRobotMachine) (host : HetznerRobotHost) : Prop :=
  sameHost host (site_host site) /\
  hst_ConsumerRef (hrh_Status host) ∈ [None; Some (machineReferenceFor hrm)] /\
  hst_MachineRef (hrh_Status host) ∈ [None; Some (machineReferenceFor hrm)] /\
  (statusHostRef hrm = "" -> hst_State (hrh_Status host) = HostStateAvailable).

(** The answers of a cooperating environment in a run for the machine: reads
    and writes of the API server succeed, the Robot service accepts, the clock
    is within the provision timeout, and the server does what a server in its
    phase does. *)
Definition cooperates (hrm : HetznerRobotMachine) (ph : Phase) : answers := fun X e =>
  match e in Eff X return X -> Prop with
  | ENow => inWindow
  | EGet k key =>
      match k return res (Obj k) -> Prop with
      | KHost => fun r => key = hostKey hrm (hrh_Name (site_host site)) ->
          exists host, r = Ok host /\ availableTo hrm host
      | KSecret => fun r => r = Ok (site_secrets site key)
      | _ => fun _ => True
      end
  | ENewPatchHelper _ _ => fun e => e = None
  | EPatch _ _ _ => fun e => e = None
  | EHttp _ => fun a => (exists info, accepted json_Unmarshal_rescue a info) /\ accepted anyResult a tt
  | ETcpDial addr _ => fun e => listens ph addr -> e = None
  | ESshHandshake addr user _ _ => fun e => logsIn ph addr user -> e = None
  | ESshNewSession addr user => fun e => logsIn ph addr user -> e = None
  | ESshExec addr user cmd => fun r => logsIn ph addr user -> r.2 = None /\ prints ph cmd r.1
  | EGrpcDial addr => fun e => listens ph addr -> e = None
  | EGrpcApplyConfiguration addr data mode => fun e => ph = Maintenance -> addr = talosAddr site_ip ->
      match e with None => True | Some err => mode = None /\ applicationError err end
  | _ => fun _ => True
  end.

(** The phase a machine's state waits for. *)
Definition awaited (hrm : HetznerRobotMachine) : Phase :=
  match provisioningState hrm with
  | StateActivatingRescue | StateInRescue => Rescue
  | StateInstalling => if isFlatcar hrm then FlatcarUp else Maintenance
  | StateBootingTalos | StateApplyingConfig => Maintenance
  | StateWaitingForBoot => Configured
  | StateBootingFlatcar => FlatcarUp
  | _ => Unknown
  end.

(** The path of a machine's states. *)
Definition nextState (hrm : HetznerRobotMachine) : ProvisioningState :=
  match provisioningState hrm with
  | StateNone => StateActivatingRescue
  | StateActivatingRescue => StateInRescue
  | StateInRescue => StateInstalling
  | StateInstalling => if isFlatcar hrm then StateBootingFlatcar else StateBootingTalos
  | StateBootingTalos => StateApplyingConfig
  | StateApplyingConfig => StateWaitingForBoot
  | StateWaitingForBoot | StateBootingFlatcar => StateProvisioned
  | s => s
  end.

(** ** What provisioning needs *)

(** The disk the site's machine is installed to, by its stable name. *)
Definition siteDisk (hrm : HetznerRobotMachine) : string :=
  match ResolveInstallDiskFromInfo (site_hardware site) (configuredDisk hrm) with
  | Ok disk => default disk (hw_ByIDPaths (site_hardware site) !! disk)
  | Err _ => ""
  end.

(** The machine once its hardware is known. *)
Definition withHardware (hrm : HetznerRobotMachine) : HetznerRobotMachine :=
  set_mst mst_ResolvedInstallDisk (siteDisk hrm)
    (set_mst mst_GatewayIP (hw_GatewayIP (site_hardware site))
      (set_mst mst_PrimaryMAC (hw_PrimaryMAC (site_hardware site)) hrm)).

Definition sshSecretKey (hrc : HetznerRobotCluster) : NamespacedName :=
  MkNamespacedName (secretNamespace hrc (cs_SSHSecretRef (hrc_Spec hrc))) (sr_Name (cs_SSHSecretRef (hrc_Spec hrc))).

(** The bootstrap config can be injected into. *)
Definition injectable (hrm : HetznerRobotMachine) (hrc : HetznerRobotCluster) (sshPubKey boot : string) : Prop :=
  let host := site_host site in
  if isFlatcar hrm then
    exists ign, injectFlatcarConfig boot (providerIDOf site_id) (vlanInternalIP hrc host)
      (hs_ServerIPv6Net (hrh_Spec host)) (hw_PrimaryMAC (site_hardware site)) (cs_VLANConfig (hrc_Spec hrc))
      sshPubKey site_ip (hw_GatewayIP (site_hardware site)) = GOk ign
  else
    configurable (withHardware hrm) hrc host /\ plainMachine (withHardware hrm) hrc host /\
    exists m docs, plain (VMap m) = true /\ configures boot m docs.

(** The site has what the provisioning of a machine needs: a host it may use
    and destroy, named by the machine, with NVMe disks; an SSH key; bootstrap
    data; and a machine that is not deleted and has not started yet, or is
    within its timeout, and whose server was not just reset. *)
Record provisionable (hrm : HetznerRobotMachine) (hrc : HetznerRobotCluster) (machine : Machine) : Prop := {
  pr_finalizer : ContainsFinalizer (Finalizers (hrm_Meta hrm)) MachineFinalizer = true;
  pr_live : DeletionTimestamp (hrm_Meta hrm) = None;
  pr_name : hrh_Name (site_host site) <> "";
  pr_hostRef : directHostRef hrm = Some (hrh_Name (site_host site));
  pr_unclaimed : statusHostRef hrm = "" \/ statusHostRef hrm = hrh_Name (site_host site);
  pr_state : provisioningState hrm = StateNone;
  pr_retry : mst_RetryCount (hrm_Status hrm) = 0;
  pr_started t : mst_ProvisionStarted (hrm_Status hrm) = Some t -> inWindow t;
  pr_reset t : mst_LastResetTime (hrm_Status hrm) = Some t -> t + resetCooldown <= site_start site;
  pr_policy : authorizeDestructiveProvisioning (Some (site_host site)) = None;
  pr_disks : hw_NVMeDisks (site_hardware site) <> [];
  pr_urls path : path = rescuePath site_id \/ path = resetPath site_id ->
    NewRequestError "POST" (robotBaseURL +:+ path) = None;
  pr_secrets : exists key pub name boot,
    sec_Data (site_secrets site (sshSecretKey hrc)) !! "ssh-privatekey" = Some key /\ ParsePrivateKey key = Ok pub /\
    m_DataSecretName machine = Some name /\
    sec_Data (site_secrets site (MkNamespacedName (m_Namespace machine) name)) !! "value" = Some boot /\
    injectable hrm hrc (trimSpace pub) boot
}.

(** A run for a machine in a cooperating environment, whose server is in the
    phase the machine waits for; and the next one starts from what it wrote. *)
Definition goodRun (hrc : HetznerRobotCluster) (machine : Machine) (hrm hrm' : HetznerRobotMachine) : Prop :=
  exists h o, exec (reconcileMachine hrm hrc machine) [] h (hrm', o) /\
    answeredBy (cooperates hrm (awaited hrm)) h.
End Environment.

(** * Facts *)

(** Checks that end in one result when the calls they make are answered well. *)
Section Calls.
Context `{Lib} (site : Site) (hrm : HetznerRobotMachine) (ph : Phase).
Notation R := (cooperates site hrm ph).

Lemma awp_dial {B} addr timeout (f : option error -> prog B) Q :
  listens site ph addr -> awp R (f None) Q -> awp R (trigger (ETcpDial addr timeout) ≫= f) Q.
Proof. intros Hl Hf. apply awp_call. cbn. intros x Hx. by rewrite Hx. Qed.

Lemma awp_handshake {B} addr user key timeout (f : option error -> prog B) Q :
  logsIn site ph addr user -> awp R (f None) Q -> awp R (trigger (ESshHandshake addr user key timeout) ≫= f) Q.
Proof. intros Hl Hf. apply awp_call. cbn. intros x Hx. by rewrite Hx. Qed.

Lemma awp_session {B} addr user (f : option error -> prog B) Q :
  logsIn site ph addr user -> awp R (f None) Q -> awp R (trigger (ESshNewSession addr user) ≫= f) Q.
Proof. intros Hl Hf. apply awp_call. cbn. intros x Hx. by rewrite Hx. Qed.

Lemma awp_command {B} addr user cmd (f : string * option error -> prog B) Q :
  logsIn site ph addr user -> (forall out, prints site ph cmd out -> awp R (f (out, None)) Q) ->
  awp R (trigger (ESshExec addr user cmd) ≫= f) Q.
Proof. intros Hl Hf. apply awp_call. cbn. intros [out e] Hx. destruct (Hx Hl) as [He Hp]. cbn in He. subst e. auto. Qed.

Lemma awp_grpc {B} (f : option error -> prog B) Q :
  ph = Maintenance -> awp R (f None) Q -> awp R (newConn (site_ip site) ≫= f) Q.
Proof. intros Hp Hf. apply awp_call. cbn. intros x Hx. rewrite Hx; [done|by rewrite Hp]. Qed.

Lemma awp_secret {B} key (f : res Secret -> prog B) Q :
  awp R (f (Ok (site_secrets site key))) Q -> awp R (trigger (EGet KSecret key) ≫= f) Q.
Proof. intros Hf. apply awp_call. cbn. intros x ->. done. Qed.

Lemma awp_now {B} (f : Z -> prog B) Q :
  (forall now, inWindow site now -> awp R (f now) Q) -> awp R (trigger ENow ≫= f) Q.
Proof. intros Hf. apply awp_call. auto. Qed.

Lemma awp_write {B} k before after (f : option error -> prog B) Q :
  awp R (f None) Q -> awp R (trigger (EPatch k before after) ≫= f) Q.
Proof. intros Hf. apply awp_call. cbn. by intros x ->. Qed.

Lemma awp_helper {B} k o (f : option error -> prog B) Q :
  awp R (f None) Q -> awp R (trigger (ENewPatchHelper k o) ≫= f) Q.
Proof. intros Hf. apply awp_call. cbn. by intros x ->. Qed.

Lemma awp_host {B} name (f : res HetznerRobotHost -> prog B) Q :
  name = hrh_Name (site_host site) ->
  (forall host, availableTo site hrm host -> awp R (f (Ok host)) Q) ->
  awp R (trigger (EGet KHost (hostKey hrm name)) ≫= f) Q.
Proof. intros -> Hf. apply awp_call. cbn. intros x Hx. destruct (Hx eq_refl) as (host & -> & Ha). auto. Qed.

(** ** The rescue client *)

Lemma awp_Connect {B} key pub (f : SSHClient * option error -> prog B) Q :
  ph = Rescue -> ParsePrivateKey key = Ok pub ->
  (forall c, client c = Some (sshAddr (site_ip site)) -> awp R (f (c, None)) Q) ->
  awp R (Connect (NewSSH (site_ip site) key) ≫= f) Q.
Proof.
  intros Hp Hk Hf. apply awp_bind. unfold Connect. cbn [privateKey NewSSH]. rewrite Hk. cbv zeta.
  apply awp_dial; [by rewrite Hp|]. apply awp_handshake; [by rewrite Hp|]. by apply awp_ret, Hf.
Qed.

Lemma awp_Run {B} c cmd (f : string * option error -> prog B) Q :
  ph = Rescue -> client c = Some (sshAddr (site_ip site)) ->
  (forall out, prints site ph (wrapped cmd) out -> awp R (f (out, None)) Q) ->
  awp R (Run c cmd ≫= f) Q.
Proof.
  intros Hp Hc Hf. apply awp_bind. unfold Run. rewrite Hc. apply awp_session; [by rewrite Hp|].
  apply awp_command; [by rewrite Hp|]. intros out Ho. by apply awp_ret, Hf.
Qed.

Lemma awp_runStep c what cmd next Q :
  ph = Rescue -> client c = Some (sshAddr (site_ip site)) -> awp R next Q -> awp R (runStep c what cmd next) Q.
Proof. intros Hp Hc Hn. unfold runStep. by apply awp_Run. Qed.

Lemma awp_InstallFlatcar c channel disk image ign Q :
  ph = Rescue -> client c = Some (sshAddr (site_ip site)) -> Q None ->
  awp R (InstallFlatcar c channel disk image ign) Q.
Proof.
  intros Hp Hc HQ. unfold InstallFlatcar. cbv zeta. do 2 (apply awp_runStep; [done..|]).
  destruct (negb _); repeat (apply awp_runStep; [done..|]); done.
Qed.

Lemma awp_InstallTalos c url schematic version disk image Q :
  ph = Rescue -> client c = Some (sshAddr (site_ip site)) -> Q None ->
  awp R (InstallTalos c url schematic version disk image) Q.
Proof.
  intros Hp Hc HQ. unfold InstallTalos. destruct (talosImage _ _ _ _). cbv zeta. by apply awp_Run.
Qed.

Lemma awp_WipeAllDisks c Q :
  ph = Rescue -> client c = Some (sshAddr (site_ip site)) ->
  hw_NVMeDisks (site_hardware site) <> [] -> (forall out, Q (out, None)) ->
  awp R (WipeAllDisks c (hw_NVMeDisks (site_hardware site))) Q.
Proof.
  intros Hp Hc Hd HQ. unfold WipeAllDisks. destruct (hw_NVMeDisks (site_hardware site)) as [|d ds] eqn:Hds; [done|].
  rewrite <- Hds. apply awp_Run; [done..|]. intros out Ho. rewrite Hp in Ho. destruct Ho as (_ & _ & _ & Hw).
  specialize (Hw eq_refl). cbv zeta.
  destruct (List.filter _ _) as [|m ms] eqn:Hm; [by apply awp_ret|]. exfalso.
  assert (m ∈ List.filter (fun d0 => negb (bool_decide (d0 ∈ wipedDisks out))) (hw_NVMeDisks (site_hardware site))) as Hin
    by (rewrite Hm; constructor).
  apply list_elem_of_In, filter_In in Hin as [Hin%list_elem_of_In Hn]. bool_prop. auto.
Qed.

(** ** Talos *)

Lemma awp_IsUp Q : ph = Configured -> Q true -> awp R (IsUp (site_ip site)) Q.
Proof. intros Hp HQ. unfold IsUp, tcpReachable. by apply awp_dial; [rewrite Hp|]. Qed.

Lemma awp_IsInMaintenanceMode Q : ph = Maintenance -> Q true -> awp R (IsInMaintenanceMode (site_ip site)) Q.
Proof.
  intros Hp HQ. unfold IsInMaintenanceMode. apply awp_grpc; [done|]. apply awp_call. intros e He. cbn in He.
  specialize (He Hp eq_refl). destruct e as [err|]; [|by apply awp_ret]. destruct He as [_ [Hc Ht]].
  cbv zeta. rewrite Hc. apply transport_existsb in Ht. rewrite Ht. by apply awp_ret.
Qed.

Lemma awp_ApplyConfig data Q : ph = Maintenance -> Q None -> awp R (ApplyConfig (site_ip site) data) Q.
Proof.
  intros Hp HQ. unfold ApplyConfig. apply awp_grpc; [done|]. apply awp_call. intros e He. cbn in He.
  specialize (He Hp eq_refl). destruct e as [err|]; [by destruct He|by apply awp_ret].
Qed.

(** ** The Robot service *)

Lemma awp_post {A} c path data (result : string -> res A) (Q : res A -> Prop) :
  NewRequestError "POST" (baseURL c +:+ path) = None ->
  (forall a, cooperates site hrm ph _ (EHttp (postRequest c path data)) a -> Q (answered "POST" path result a)) ->
  awp R (post c path data result) Q.
Proof.
  intros Hu HQ. unfold post. rewrite Hu. apply awp_call. intros a Ha. specialize (HQ a Ha).
  unfold answered in HQ. repeat case_match; by apply awp_ret.
Qed.

Lemma awp_ActivateRescue c id fp Q :
  baseURL c = robotBaseURL -> NewRequestError "POST" (robotBaseURL +:+ rescuePath id) = None ->
  (forall info, Q (Ok info)) -> awp R (ActivateRescue c id fp) Q.
Proof.
  intros Hb Hu HQ. unfold ActivateRescue. apply awp_bind, awp_post; [by rewrite Hb|].
  intros a [[info Ha] _]. apply (answered_ok "POST" (rescuePath id)) in Ha. rewrite Ha. by apply awp_ret.
Qed.

Lemma awp_ResetServer c id t Q :
  baseURL c = robotBaseURL -> NewRequestError "POST" (robotBaseURL +:+ resetPath id) = None ->
  Q None -> awp R (ResetServer c id t) Q.
Proof.
  intros Hb Hu HQ. unfold ResetServer. apply awp_bind, awp_post; [by rewrite Hb|].
  intros a [_ Ha]. apply (answered_ok "POST" (resetPath id)) in Ha. rewrite Ha. by apply awp_ret.
Qed.
End Calls.

(** ** The handlers *)

Lemma configuredDisk_nonempty hrm : configuredDisk hrm <> "".
Proof. unfold configuredDisk. by destruct (String.eqb_spec (ms_InstallDisk (hrm_Spec hrm)) ""). Qed.

(** With a configured disk there is always a disk to install to. *)
Lemma resolve_ok hw disk : disk <> "" -> exists d, ResolveInstallDiskFromInfo hw disk = Ok d.
Proof.
  intros Hd. apply String.eqb_neq in Hd. unfold ResolveInstallDiskFromInfo. rewrite Hd. cbn [negb].
  repeat case_match; eauto.
Qed.

Section Handlers.
Context `{Lib} (site : Site) (start : HetznerRobotMachine) (ph : Phase) (hrc : HetznerRobotCluster).
Context (robotClient : Client) (key pub : string).
Context (Hbase : baseURL robotClient = robotBaseURL).
Context (Hurls : forall path, path = rescuePath (site_id site) \/ path = resetPath (site_id site) ->
  NewRequestError "POST" (robotBaseURL +:+ path) = None).
Context (Hkey : sec_Data (site_secrets site (sshSecretKey hrc)) !! "ssh-privatekey" = Some key).
Context (Hpub : ParsePrivateKey key = Ok pub).
Notation R := (cooperates site start ph).
Implicit Types (hrm : HetznerRobotMachine).

Lemma awp_getSSHPrivateKey {B} (f : res string -> prog B) Q :
  awp R (f (Ok key)) Q -> awp R (getSSHPrivateKey hrc ≫= f) Q.
Proof.
  intros Hf. apply awp_bind. unfold getSSHPrivateKey. cbv zeta. apply awp_secret.
  unfold sshSecretKey in Hkey. rewrite Hkey. by apply awp_ret.
Qed.

Lemma awp_cooldown {B} hrm (f : option Z -> prog B) Q :
  (forall t, mst_LastResetTime (hrm_Status hrm) = Some t -> t + resetCooldown <= site_start site) ->
  awp R (f None) Q -> awp R (cooldown hrm ≫= f) Q.
Proof.
  intros Ht Hf. apply awp_bind. unfold cooldown. destruct (mst_LastResetTime _) as [t|]; [|by apply awp_ret].
  apply awp_now. intros now [Hn _]. cbv zeta. specialize (Ht t eq_refl).
  destruct (Z.ltb_spec (since now t) resetCooldown) as [Hlt|]; [|by apply awp_ret].
  unfold since in Hlt. apply timeSub_lt in Hlt; [lia|done|done].
Qed.

Lemma awp_stateActivateRescue hrm (Q : stepResult -> Prop) :
  (forall t, mst_LastResetTime (hrm_Status hrm) = Some t -> t + resetCooldown <= site_start site) ->
  (forall now, Q (setState StateActivatingRescue (set_mst mst_LastResetTime (Some now) hrm), Returned (MkResult (4 * Minute)))) ->
  awp R (stateActivateRescue hrm hrc robotClient (site_id site) (site_ip site)) Q.
Proof.
  intros Ht HQ. unfold stateActivateRescue. apply awp_cooldown; [done|].
  apply awp_bind. unfold getSSHKeyFingerprint. cbv zeta. apply awp_secret, awp_ret.
  apply awp_bind, awp_ActivateRescue; [done|by apply Hurls; left|]. intros info.
  apply awp_bind, awp_ResetServer; [done|by apply Hurls; right|]. apply awp_now. intros now _. apply awp_ret, HQ.
Qed.

Lemma awp_stateCheckRescueActive hrm (Q : stepResult -> Prop) :
  ph = Rescue -> Q (setState StateInRescue hrm, Returned (MkResult requeueAfterShort)) ->
  awp R (stateCheckRescueActive hrm hrc robotClient (site_id site) (site_ip site)) Q.
Proof.
  intros Hp HQ. unfold stateCheckRescueActive. apply awp_bind. unfold IsReachable, isReachableAddr.
  apply awp_dial; [by rewrite Hp|]. apply awp_ret, awp_getSSHPrivateKey, (awp_Connect _ _ _ _ pub); [done..|].
  intros c Hc. apply awp_Run; [done..|]. intros out Ho. rewrite Hp in Ho. destruct Ho as [Ho _].
  rewrite Ho by done. by apply awp_ret.
Qed.

Lemma awp_prepareDisks {B} hrm (f : stepResult + installSession -> prog B) Q :
  ph = Rescue -> hw_NVMeDisks (site_hardware site) <> [] ->
  (forall c disk, client c = Some (sshAddr (site_ip site)) ->
     awp R (f (inr (withHardware site hrm, c, site_hardware site, disk))) Q) ->
  awp R (prepareDisks hrm hrc robotClient (site_id site) (site_ip site) ≫= f) Q.
Proof.
  intros Hp Hd Hf. apply awp_bind. unfold prepareDisks. apply awp_bind. unfold IsReachable, isReachableAddr.
  apply awp_dial; [by rewrite Hp|]. apply awp_ret. cbn [negb]. apply awp_getSSHPrivateKey.
  apply awp_bind. unfold IsRescueMode. apply (awp_Connect _ _ _ _ pub); [done..|]. intros c1 Hc1.
  apply awp_Run; [done..|]. intros o1 H1. rewrite Hp in H1. destruct H1 as (_ & H1 & _). rewrite H1 by done.
  apply awp_ret. change (negb (String.eqb "RESCUE" "RESCUE")) with false. cbv iota.
  unfold wipeInRescue. apply (awp_Connect _ _ _ _ pub); [done..|]. intros c Hc.
  apply awp_bind. unfold DetectHardware. apply awp_Run; [done..|]. intros o2 H2. rewrite Hp in H2.
  destruct H2 as (_ & _ & H2 & _). rewrite H2 by done. apply awp_ret. cbv zeta. apply awp_ignore. intros _.
  destruct (resolve_ok (site_hardware site) (configuredDisk hrm) (configuredDisk_nonempty hrm)) as [disk Hr].
  change (configuredDisk _) with (configuredDisk hrm). rewrite Hr.
  destruct (hw_NVMeDisks (site_hardware site)) as [|d ds] eqn:Hds; [done|]. rewrite <- Hds.
  apply awp_bind, awp_WipeAllDisks; [done|done|by rewrite Hds|]. intros out. apply awp_ret.
  specialize (Hf c disk Hc). unfold withHardware, siteDisk in Hf. by rewrite Hr in Hf.
Qed.

Lemma awp_installTalosImage hrm c hw disk (Q : stepResult -> Prop) :
  ph = Rescue -> client c = Some (sshAddr (site_ip site)) ->
  Q (setState StateInstalling hrm, Returned (MkResult (90 * Second))) ->
  awp R (installTalosImage (hrm, c, hw, disk) hrc robotClient (site_id site) (site_ip site)) Q.
Proof.
  intros Hp Hc HQ. unfold installTalosImage. cbv zeta. apply awp_bind, awp_InstallTalos; [done..|].
  do 3 (apply awp_ignore; intros _). by apply awp_ret.
Qed.

Lemma awp_installFlatcarImage hrm c hw disk host boot sshKey ign (Q : stepResult -> Prop) :
  ph = Rescue -> client c = Some (sshAddr (site_ip site)) ->
  injectFlatcarConfig boot (providerIDOf (site_id site)) (vlanInternalIP hrc host) (hs_ServerIPv6Net (hrh_Spec host))
    (hw_PrimaryMAC hw) (cs_VLANConfig (hrc_Spec hrc)) sshKey (site_ip site) (hw_GatewayIP hw) = GOk ign ->
  Q (setState StateInstalling (set_ms ms_ProviderID (Some (providerIDOf (site_id site))) hrm), Returned (MkResult (5 * Minute))) ->
  awp R (installFlatcarImage (hrm, c, hw, disk) hrc host robotClient (site_id site) (site_ip site) boot sshKey) Q.
Proof.
  intros Hp Hc Hi HQ. unfold installFlatcarImage, attempt. cbv zeta. rewrite Hi.
  apply awp_bind, awp_InstallFlatcar; [done..|]. do 2 (apply awp_ignore; intros _). apply awp_ignore. intros _.
  by apply awp_ret.
Qed.

Lemma awp_getSSHPublicKey {B} (f : res string -> prog B) Q :
  awp R (f (Ok (trimSpace pub))) Q -> awp R (getSSHPublicKey hrc ≫= f) Q.
Proof.
  intros Hf. apply awp_bind. unfold getSSHPublicKey. apply awp_getSSHPrivateKey. rewrite Hpub. by apply awp_ret.
Qed.

Lemma awp_getBootstrapData {B} machine name boot (f : res string -> prog B) Q :
  m_DataSecretName machine = Some name ->
  sec_Data (site_secrets site (MkNamespacedName (m_Namespace machine) name)) !! "value" = Some boot ->
  awp R (f (Ok boot)) Q -> awp R (getBootstrapData machine ≫= f) Q.
Proof.
  intros Hn Hb Hf. apply awp_bind. unfold getBootstrapData. rewrite Hn. apply awp_secret. rewrite Hb. by apply awp_ret.
Qed.

Lemma awp_stateWaitInstall hrm (Q : stepResult -> Prop) :
  ph = Maintenance -> Q (setState StateBootingTalos hrm, Returned (MkResult requeueAfterShort)) ->
  awp R (stateWaitInstall hrm hrc robotClient (site_id site) (site_ip site)) Q.
Proof. intros Hp HQ. unfold stateWaitInstall. by apply awp_bind, awp_IsInMaintenanceMode, awp_ret. Qed.

Lemma awp_stateWaitTalosMaintenanceMode hrm machine (Q : stepResult -> Prop) :
  ph = Maintenance -> Q (setState StateApplyingConfig hrm, Returned (MkResult requeueAfterShort)) ->
  awp R (stateWaitTalosMaintenanceMode hrm machine hrc (site_ip site)) Q.
Proof.
  intros Hp HQ. unfold stateWaitTalosMaintenanceMode. apply awp_bind, awp_IsInMaintenanceMode; [done|]. cbn [negb].
  destruct (_ && _); [|by apply awp_ret]. by apply awp_helper, awp_write, awp_ret.
Qed.

Lemma awp_stateApplyConfig hrm machine host name boot data (Q : stepResult -> Prop) :
  ph = Maintenance -> m_DataSecretName machine = Some name ->
  sec_Data (site_secrets site (MkNamespacedName (m_Namespace machine) name)) !! "value" = Some boot ->
  talosConfig hrm hrc host (site_id site) (site_ip site) boot = GOk data ->
  Q (setState StateWaitingForBoot (set_ms ms_ProviderID (Some (providerIDOf (site_id site))) hrm),
     Returned (MkResult requeueAfterMedium)) ->
  awp R (stateApplyConfig hrm machine hrc host (site_id site) (site_ip site)) Q.
Proof.
  intros Hp Hn Hb Hd HQ. unfold stateApplyConfig. eapply awp_getBootstrapData; [done..|]. unfold attempt.
  rewrite Hd. by apply awp_bind, awp_ApplyConfig, awp_ret.
Qed.

Lemma awp_stateWaitForBoot hrm (Q : stepResult -> Prop) :
  ph = Configured -> Q (markReady (setState StateProvisioned hrm), Returned noRequeue) ->
  awp R (stateWaitForBoot hrm (site_ip site)) Q.
Proof. intros Hp HQ. unfold stateWaitForBoot. by apply awp_bind, awp_IsUp, awp_ret. Qed.

Lemma awp_stateWaitFlatcarInstall hrm (Q : stepResult -> Prop) :
  ph = FlatcarUp -> Q (setState StateBootingFlatcar hrm, Returned (MkResult requeueAfterShort)) ->
  awp R (stateWaitFlatcarInstall hrm hrc (site_ip site)) Q.
Proof.
  intros Hp HQ. unfold stateWaitFlatcarInstall. apply awp_getSSHPrivateKey, awp_bind.
  unfold IsFlatcarUp. rewrite Hpub. cbv zeta. apply awp_dial; [by rewrite Hp|].
  apply awp_handshake; [by rewrite Hp|]. by apply awp_ret, awp_ret.
Qed.

Lemma awp_stateWaitFlatcarBoot hrm (Q : stepResult -> Prop) :
  ph = FlatcarUp -> Q (markReady (setState StateProvisioned hrm), Returned noRequeue) ->
  awp R (stateWaitFlatcarBoot hrm hrc (site_ip site)) Q.
Proof.
  intros Hp HQ. unfold stateWaitFlatcarBoot. apply awp_getSSHPrivateKey, awp_bind.
  unfold CheckFlatcarBootstrapComplete. rewrite Hpub. cbv zeta. apply awp_dial; [by rewrite Hp|].
  apply awp_handshake; [by rewrite Hp|]. apply awp_session; [by rewrite Hp|]. apply awp_command; [by rewrite Hp|].
  intros out Ho. rewrite Hp in Ho. rewrite Ho by done. by apply awp_ret, awp_ret.
Qed.
End Handlers.

(** ** The host *)

Section Resolve.
Context `{Lib} (site : Site) (hrm : HetznerRobotMachine) (ph : Phase).
Notation R := (cooperates site hrm ph).

Lemma matches_own host ref : ref ∈ [None; Some (machineReferenceFor hrm)] -> host = ref ->
  host = None \/ machineReferenceMatches host hrm = true.
Proof.
  intros Hr ->. apply elem_of_cons in Hr as [->|Hr]; [by left|]. apply list_elem_of_singleton in Hr as ->.
  right. by apply machineReferenceMatches_spec.
Qed.

(** Completing the references of the site's host succeeds. *)
Lemma awp_ensureHostConsumerRef {B} host (f : HetznerRobotHost * option error -> prog B) Q :
  availableTo site hrm host ->
  (forall host', sameHost host' (site_host site) -> awp R (f (host', None)) Q) ->
  awp R (ensureHostConsumerRef host hrm ≫= f) Q.
Proof.
  intros (Hs & Hc & Hm & _) Hf. apply awp_bind. unfold ensureHostConsumerRef.
  assert (currentHostConsumerRef host = None \/ machineReferenceMatches (currentHostConsumerRef host) hrm = true) as Hcur.
  { unfold currentHostConsumerRef. destruct (hst_ConsumerRef _) as [r|] eqn:Hr.
    - by apply (matches_own (Some r) (Some r)).
    - by apply (matches_own _ (hst_MachineRef (hrh_Status host))). }
  lazymatch goal with |- awp _ (match _ with Some _ => _ | None => ?p end) ?post => assert (awp R p post) as Hgo end.
  { destruct (_ && _); [by apply awp_ret, Hf|]. apply awp_helper. cbv zeta. by apply awp_write, awp_ret, Hf. }
  cbv zeta. destruct (currentHostConsumerRef host) as [ref|]; [|done].
  destruct Hcur as [?|Hcur]; [done|]. by rewrite Hcur.
Qed.

Lemma set_own_hostRef name : statusHostRef hrm = name -> set_mst mst_HostRef name hrm = hrm.
Proof. intros <-. by destruct hrm as [? ? []]. Qed.

Lemma awp_claimCandidate name (Q : HetznerRobotMachine * res HetznerRobotHost -> Prop) :
  name = hrh_Name (site_host site) -> statusHostRef hrm = "" -> hs_MaintenanceMode (hrh_Spec (site_host site)) = false ->
  (forall host, sameHost host (site_host site) -> Q (set_mst mst_HostRef name hrm, Ok host)) ->
  awp R (claimCandidate hrm name) Q.
Proof.
  intros Hn Hr Hmm HQ. unfold claimCandidate. apply awp_host; [done|]. intros host ([Hmeta Hspec] & _ & _ & Hav).
  rewrite (Hav Hr). rewrite bool_decide_true by done. cbn [negb]. rewrite Hspec, Hmm.
  apply awp_helper. cbv zeta. by apply awp_write, awp_ret, HQ.
Qed.

Lemma awp_resolveHost (Q : HetznerRobotMachine * res HetznerRobotHost -> Prop) :
  let name := hrh_Name (site_host site) in
  name <> "" -> directHostRef hrm = Some name -> statusHostRef hrm = "" \/ statusHostRef hrm = name ->
  hs_MaintenanceMode (hrh_Spec (site_host site)) = false ->
  (forall host, sameHost host (site_host site) -> Q (set_mst mst_HostRef name hrm, Ok host)) ->
  awp R (resolveHost hrm) Q.
Proof.
  intros name Hne Hd Hr Hmm HQ. unfold resolveHost. cbv zeta. destruct Hr as [Hr|Hr]; rewrite Hr.
  - cbn [String.eqb negb]. rewrite Hd. apply awp_host; [done|]. intros host Hav.
    pose proof Hav as ([Hmeta Hspec] & _). destruct (hostIsClaimedBy host hrm) eqn:Hcl.
    + unfold recoverClaim. assert (hrh_Name host = name) as -> by by rewrite Hmeta.
      change (ensureHostConsumerRef host _) with (ensureHostConsumerRef host hrm).
      apply awp_ensureHostConsumerRef; [done|]. intros host' Hs. by apply awp_ret, HQ.
    + rewrite Hspec, Hmm. by apply awp_claimCandidate.
  - apply String.eqb_neq in Hne. rewrite Hne. cbn [negb]. apply awp_host; [done|]. intros host Hav.
    apply awp_ensureHostConsumerRef; [done|]. intros host' Hs. apply awp_ret.
    specialize (HQ host' Hs). by rewrite set_own_hostRef in HQ.
Qed.
End Resolve.

(** ** One run *)

(** The states in which the hardware of the server is known. *)
Definition hardwareStates : list ProvisioningState := [StateInstalling; StateBootingTalos; StateApplyingConfig].

(** The states a machine of an operating system goes through. *)
Definition path (flatcar : bool) : list ProvisioningState :=
  [StateNone; StateActivatingRescue; StateInRescue; StateInstalling] ++
  (if flatcar then [StateBootingFlatcar] else [StateBootingTalos; StateApplyingConfig; StateWaitingForBoot]).

(** A machine on its way: it differs from the one provisioning started with in
    its provider id and its status only, it is not failing, and the hardware is
    recorded once it was detected. *)
Record onTrack (site : Site) (hrm0 hrm : HetznerRobotMachine) : Prop := {
  tr_meta : hrm_Meta hrm = hrm_Meta hrm0;
  tr_spec : (hrm_Spec hrm) <| ms_ProviderID := None |> = (hrm_Spec hrm0) <| ms_ProviderID := None |>;
  tr_retry : mst_RetryCount (hrm_Status hrm) = 0;
  tr_started t : mst_ProvisionStarted (hrm_Status hrm) = Some t -> inWindow site t;
  tr_reset t : provisioningState hrm = StateNone ->
    mst_LastResetTime (hrm_Status hrm) = Some t -> t + resetCooldown <= site_start site;
  tr_hostRef : statusHostRef hrm = hrh_Name (site_host site) \/
    statusHostRef hrm = "" /\ provisioningState hrm = StateNone;
  tr_hardware : provisioningState hrm ∈ hardwareStates ->
    mst_PrimaryMAC (hrm_Status hrm) = hw_PrimaryMAC (site_hardware site) /\
    mst_GatewayIP (hrm_Status hrm) = hw_GatewayIP (site_hardware site) /\
    mst_ResolvedInstallDisk (hrm_Status hrm) = siteDisk site hrm0
}.

(** The goal of a run: the next state, ready at the end, and still on track. *)
Definition advances (site : Site) (hrm0 hrm : HetznerRobotMachine) (r : stepResult) : Prop :=
  onTrack site hrm0 r.1 /\ provisioningState r.1 = nextState hrm /\
  (provisioningState r.1 = StateProvisioned -> mst_Ready (hrm_Status r.1) = true).

Section Step.
Context `{YamlLaws} (site : Site) (hrm0 : HetznerRobotMachine) (hrc : HetznerRobotCluster) (machine : Machine).
Context (Hpr : provisionable site hrm0 hrc machine).

Lemma track_flatcar hrm : onTrack site hrm0 hrm -> isFlatcar hrm = isFlatcar hrm0.
Proof. intros Ht. pose proof (f_equal ms_OSType (tr_spec _ _ _ Ht)) as Hs. unfold isFlatcar. cbn in Hs. by rewrite Hs. Qed.

Lemma track_disk hrm : onTrack site hrm0 hrm -> siteDisk site hrm = siteDisk site hrm0.
Proof.
  intros Ht. pose proof (f_equal ms_InstallDisk (tr_spec _ _ _ Ht)) as Hs. unfold siteDisk, configuredDisk.
  cbn in Hs. by rewrite Hs.
Qed.

(** The hardware of the machine is all its configuration depends on. *)
Lemma track_configurable hrm host :
  onTrack site hrm0 hrm -> provisioningState hrm ∈ hardwareStates -> sameHost host (site_host site) ->
  configurable (withHardware site hrm0) hrc (site_host site) -> plainMachine (withHardware site hrm0) hrc (site_host site) ->
  configurable hrm hrc host /\ plainMachine hrm hrc host.
Proof.
  intros Ht Hs [_ Hh] Hc Hp. destruct (tr_hardware _ _ _ Ht Hs) as (Hm & Hg & Hd).
  pose proof (f_equal ms_InstallDisk (tr_spec _ _ _ Ht)) as Hid. cbn in Hid.
  unfold configurable, plainMachine, configDisk, configuredDisk, vlanInternalIP in *. cbn in Hc, Hp.
  rewrite Hh, Hm, Hg, Hd, Hid. done.
Qed.

(** A handler's machine is on track when it moved from one that is. *)
Lemma track_move hrm hrm' s :
  onTrack site hrm0 hrm -> hrm_Meta hrm' = hrm_Meta hrm ->
  (hrm_Spec hrm') <| ms_ProviderID := None |> = (hrm_Spec hrm) <| ms_ProviderID := None |> ->
  mst_RetryCount (hrm_Status hrm') = mst_RetryCount (hrm_Status hrm) ->
  mst_ProvisionStarted (hrm_Status hrm') = mst_ProvisionStarted (hrm_Status hrm) ->
  statusHostRef hrm' = hrh_Name (site_host site) -> s <> StateNone ->
  (s ∈ hardwareStates ->
    mst_PrimaryMAC (hrm_Status hrm') = hw_PrimaryMAC (site_hardware site) /\
    mst_GatewayIP (hrm_Status hrm') = hw_GatewayIP (site_hardware site) /\
    mst_ResolvedInstallDisk (hrm_Status hrm') = siteDisk site hrm0) ->
  onTrack site hrm0 (setState s hrm').
Proof.
  intros [] Hm Hs Hr Hst Hh Hn Hw. split; cbn.
  - congruence.
  - congruence.
  - congruence.
  - intros t. rewrite Hst. auto.
  - done.
  - by left.
  - done.
Qed.

(** What a handler returns when it moves the machine it got. *)
Definition movesTo (hrm : HetznerRobotMachine) (r : stepResult) : Prop :=
  (exists d, r.2 = Returned d) /\ advances site hrm0 hrm r.

Lemma track_keep hrm hrm' s o :
  onTrack site hrm0 hrm -> hrm_Meta hrm' = hrm_Meta hrm ->
  (hrm_Spec hrm') <| ms_ProviderID := None |> = (hrm_Spec hrm) <| ms_ProviderID := None |> ->
  mst_RetryCount (hrm_Status hrm') = mst_RetryCount (hrm_Status hrm) ->
  mst_ProvisionStarted (hrm_Status hrm') = mst_ProvisionStarted (hrm_Status hrm) ->
  statusHostRef hrm' = hrh_Name (site_host site) ->
  s = nextState hrm -> s <> StateNone -> s <> StateProvisioned ->
  (s ∈ hardwareStates ->
    mst_PrimaryMAC (hrm_Status hrm') = hw_PrimaryMAC (site_hardware site) /\
    mst_GatewayIP (hrm_Status hrm') = hw_GatewayIP (site_hardware site) /\
    mst_ResolvedInstallDisk (hrm_Status hrm') = siteDisk site hrm0) ->
  movesTo hrm (setState s hrm', Returned o).
Proof.
  intros Ht Hm Hs Hr Hst Hh Hn Hne Hnp Hw. split; [by eexists|]. split; [by eapply track_move|].
  split; [done|]. cbn. by intros ->.
Qed.

(** A state that only waits for the next phase of the server. *)
Lemma track_wait hrm s o :
  onTrack site hrm0 hrm -> statusHostRef hrm = hrh_Name (site_host site) -> s = nextState hrm -> s <> StateNone -> s <> StateProvisioned ->
  (s ∈ hardwareStates -> provisioningState hrm ∈ hardwareStates) -> movesTo hrm (setState s hrm, Returned o).
Proof. intros Ht Hh Hn Hne Hnp Hw. apply track_keep; try done. intros Hs. apply Ht, Hw, Hs. Qed.

Lemma track_ready hrm o :
  onTrack site hrm0 hrm -> statusHostRef hrm = hrh_Name (site_host site) -> nextState hrm = StateProvisioned ->
  movesTo hrm (markReady (setState StateProvisioned hrm), Returned o).
Proof.
  intros Ht Hh Hn. split; [by eexists|]. split; [|done].
  assert (onTrack site hrm0 (setState StateProvisioned hrm)) as [] by (apply (track_move hrm hrm); try done; set_solver).
  by split.
Qed.

Lemma elem_hardware s : s ∈ hardwareStates <-> s = StateInstalling \/ s = StateBootingTalos \/ s = StateApplyingConfig.
Proof. unfold hardwareStates. set_solver. Qed.

Ltac waits Hs :=
  apply track_wait; [done|done| |done|done|];
  [unfold nextState; rewrite Hs; repeat case_match; congruence|rewrite !elem_hardware, Hs; intuition discriminate].

Lemma step_runState start hrm host robotClient :
  onTrack site hrm0 hrm -> provisioningState hrm ∈ path (isFlatcar hrm) -> sameHost host (site_host site) ->
  statusHostRef hrm = hrh_Name (site_host site) -> baseURL robotClient = robotBaseURL ->
  awp (cooperates site start (awaited hrm)) (runState hrm hrc machine host robotClient) (movesTo hrm).
Proof.
  intros Ht Hp [Hmeta Hspec] Hh Hb.
  destruct (pr_secrets _ _ _ _ Hpr) as (key & pub & name & boot & Hkey & Hpub & Hname & Hboot & Hinj).
  pose proof (pr_urls _ _ _ _ Hpr) as Hurls. pose proof (pr_disks _ _ _ _ Hpr) as Hdisks.
  pose proof (track_flatcar _ Ht) as Hos. pose proof (track_disk _ Ht) as Hdisk.
  unfold runState, awaited. cbv zeta. rewrite Hspec. fold (site_id site) (site_ip site).
  destruct (provisioningState hrm) eqn:Hs; 
    try (exfalso; destruct (isFlatcar hrm); apply (bool_decide_pack _) in Hp; exact Hp).
  - apply awp_stateActivateRescue; [done|done|by intros t; apply (tr_reset _ _ _ Ht)|]. intros now.
    apply track_keep; try done; [by unfold nextState; rewrite Hs|unfold hardwareStates; set_solver].
  - eapply awp_stateCheckRescueActive; [done..|]. waits Hs.
  - rewrite Hos in *. unfold injectable in Hinj. destruct (isFlatcar hrm0).
    + destruct Hinj as [ign Hign]. unfold stateInstallFlatcar. eapply awp_getBootstrapData; [done..|].
      eapply awp_getSSHPublicKey; [done..|]. eapply awp_prepareDisks; [done..|]. intros c disk Hc.
      eapply awp_installFlatcarImage; [done|done| |].
      { rewrite Hspec. unfold vlanInternalIP in *. rewrite Hspec. exact Hign. }
      apply track_keep; try done. unfold nextState. by rewrite Hs.
    + unfold stateInstallTalos. eapply awp_prepareDisks; [done..|]. intros c disk Hc.
      apply awp_installTalosImage; [done..|].
      apply track_keep; try done. unfold nextState. by rewrite Hs.
  - destruct (isFlatcar hrm) eqn:Hfl.
    + eapply awp_stateWaitFlatcarInstall; [done..|]. waits Hs.
    + eapply awp_stateWaitInstall; [done..|]. waits Hs.
  - eapply awp_stateWaitTalosMaintenanceMode; [done..|]. waits Hs.
  - unfold injectable in Hinj. rewrite Hos in Hp. destruct (isFlatcar hrm0); [cbn in Hp; set_solver|].
    destruct Hinj as (Hconf & Hplain & m & docs & Hm & Hc).
    destruct (track_configurable hrm host) as [Hconf' Hplain'];
      [done|rewrite Hs; unfold hardwareStates; set_solver|done|done|done|].
    destruct (talosConfig_document hrm hrc host (site_id site) (site_ip site) boot m docs Hconf' Hplain' Hm Hc)
      as (data & Hd & _).
    eapply awp_stateApplyConfig; [done..|]. apply track_keep; try done; [by unfold nextState; rewrite Hs|].
    unfold hardwareStates. set_solver.
  - eapply awp_stateWaitForBoot; [done..|]. apply track_ready; [done|done|]. unfold nextState. by rewrite Hs.
  - eapply awp_stateWaitFlatcarBoot; [done..|]. apply track_ready; [done|done|]. unfold nextState. by rewrite Hs.
Qed.

Lemma site_authorized host :
  sameHost host (site_host site) -> authorizeDestructiveProvisioning (Some host) = None.
Proof.
  intros [Hm Hs]. pose proof (pr_policy _ _ _ _ Hpr) as Hp. unfold authorizeDestructiveProvisioning in *.
  cbv zeta in *. by rewrite Hm, Hs.
Qed.

Lemma site_maintenance : hs_MaintenanceMode (hrh_Spec (site_host site)) = false.
Proof.
  pose proof (pr_policy _ _ _ _ Hpr) as Hp. unfold authorizeDestructiveProvisioning in Hp.
  cbv zeta in Hp. by destruct (hs_MaintenanceMode _).
Qed.

Lemma awp_gate R hrm host :
  sameHost host (site_host site) -> awp R (gate hrm machine host) (fun e => e = None).
Proof.
  intros Hs. apply site_authorized in Hs. unfold gate. destruct (provisioningMayBecomeDestructive _); [|done].
  unfold authorizeDestructiveProvisioningFor. cbv zeta. destruct (decide _) as [|Hst]; [done|]. exfalso.
  apply dec_stable in Hst. unfold authorizeDestructiveProvisioning in Hs. cbv zeta in Hs.
  rewrite Hst in Hs. by destruct (hs_MaintenanceMode _).
Qed.

(** The host is found, the gate opens, and the handler moves the machine. *)
Lemma step_reconcileNormal hrm :
  onTrack site hrm0 hrm -> provisioningState hrm ∈ path (isFlatcar hrm) ->
  awp (cooperates site hrm (awaited hrm)) (reconcileNormal hrm hrc machine) (movesTo hrm).
Proof.
  intros Ht Hp. unfold reconcileNormal.
  destruct (decide (provisioningState hrm = StateProvisioned)) as [Hs|_].
  { exfalso. rewrite Hs in Hp. destruct (isFlatcar hrm); apply (bool_decide_pack _) in Hp; exact Hp. }
  pose proof (f_equal ms_HostRef (tr_spec _ _ _ Ht)) as Hh. cbn in Hh.
  apply awp_bind, awp_resolveHost; [apply (pr_name _ _ _ _ Hpr)| |destruct (tr_hostRef _ _ _ Ht) as [?|[? _]]; auto|exact site_maintenance|].
  { unfold directHostRef. rewrite Hh. exact (pr_hostRef _ _ _ _ Hpr). }
  intros host Hsame. cbv zeta. set (hrm' := set_mst mst_Addresses _ _).
  assert (onTrack site hrm0 hrm') as Ht' by (destruct Ht; split; try done; by left).
  apply awp_bind. eapply awp_mono; [by apply awp_gate|]. intros e ->.
  apply awp_bind. unfold buildRobotClient, NewFromCluster. cbv zeta. apply awp_secret, awp_ret.
  by apply (step_runState hrm hrm' host).
Qed.

Lemma step_reconcileAttempt hrm :
  onTrack site hrm0 hrm -> provisioningState hrm ∈ path (isFlatcar hrm) ->
  awp (cooperates site hrm (awaited hrm)) (reconcileAttempt hrm hrc machine) (advances site hrm0 hrm).
Proof.
  intros Ht Hp. unfold reconcileAttempt. apply awp_bind.
  assert (backoffRemaining hrm = Ret None) as ->.
  { unfold backoffRemaining. rewrite (tr_retry _ _ _ Ht). by destruct (mst_LastRetryTimestamp _). }
  apply awp_ret, awp_bind. eapply awp_mono; [by apply step_reconcileNormal|].
  intros [hrm' o] [[d Ho] (Ht' & Hs & Hr)]. cbn in Ho, Ht', Hs, Hr |- *. rewrite Ho. apply awp_ret.
  unfold advances, handleSuccess. cbv zeta. cbn [fst]. destruct Ht'. case_decide; (split; [by split|by split]).
Qed.

Lemma step_reconcileMachine hrm :
  onTrack site hrm0 hrm -> provisioningState hrm ∈ path (isFlatcar hrm) ->
  awp (cooperates site hrm (awaited hrm)) (reconcileMachine hrm hrc machine) (advances site hrm0 hrm).
Proof.
  intros Ht Hp. unfold reconcileMachine. rewrite (tr_meta _ _ _ Ht), (pr_live _ _ _ _ Hpr), (pr_finalizer _ _ _ _ Hpr).
  cbn [negb]. apply awp_bind. unfold checkTimeout.
  destruct (timeoutApplies _); [|by apply awp_ret, step_reconcileAttempt].
  destruct (mst_ProvisionStarted (hrm_Status hrm)) as [t|] eqn:Hst.
  - apply awp_now. intros now [_ Hn]. pose proof (tr_started _ _ _ Ht t Hst) as [Ht0 _].
    destruct (Z.ltb_spec provisionTimeout (since now t)) as [Hlt|]; [|by apply awp_ret, step_reconcileAttempt].
    unfold since in Hlt. apply timeSub_gt in Hlt; [lia|done|done].
  - apply awp_now. intros now Hn. apply awp_ret. cbv zeta.
    assert (onTrack site hrm0 (set_mst mst_ProvisionStarted (Some now) hrm)) as Ht'
      by (destruct Ht; split; try done; by intros t [= <-]).
    pose proof (step_reconcileAttempt _ Ht' Hp) as Hstep. exact Hstep.
Qed.

Lemma start_onTrack : onTrack site hrm0 hrm0.
Proof.
  destruct Hpr. split; try done.
  - intros t _. auto.
  - destruct pr_unclaimed0; auto.
  - rewrite pr_state0. unfold hardwareStates. set_solver.
Qed.

(** Where the machine is after some runs. *)
Lemma runs_state n hrm :
  nsteps (goodRun site hrc machine) n hrm0 hrm -> (n <= length (path (isFlatcar hrm0)))%nat ->
  onTrack site hrm0 hrm /\
  nth_error (path (isFlatcar hrm0) ++ [StateProvisioned]) n = Some (provisioningState hrm) /\
  (provisioningState hrm = StateProvisioned -> mst_Ready (hrm_Status hrm) = true).
Proof.
  revert hrm. induction n as [|n IH]; intros hrm Hn Hl.
  - assert (hrm = hrm0) as -> by by inversion Hn. split; [apply start_onTrack|]. rewrite (pr_state _ _ _ _ Hpr).
    split; [by destruct (isFlatcar hrm0)|done].
  - apply nsteps_inv_r in Hn as (mid & Hn & h & o & He & Ha). destruct (IH mid Hn) as (Ht & Hs & _); [lia|].
    rewrite nth_error_app1 in Hs by done. pose proof (track_flatcar _ Ht) as Hos.
    pose proof (nth_error_In _ _ Hs) as Hin%list_elem_of_In. rewrite <- Hos in Hin.
    destruct (awp_exec _ _ _ _ _ _ He Ha (step_reconcileMachine mid Ht Hin)) as (Ht' & Hs' & Hr).
    split; [done|]. split; [|done]. cbn [fst] in Hs'. rewrite Hs'. unfold nextState. rewrite Hos.
    clear - Hs. destruct (isFlatcar hrm0); cbn [path app] in Hs |- *;
      do 7 (destruct n as [|n]; [cbn in Hs |- *; by inversion Hs|]); by destruct n.
Qed.
End Step.

(** * Properties *)

(** C5: provisioning completes.  Let a machine that names its host in its spec
    (not by a selector) be at the start of provisioning, with the host its own or
    free and disposable, and what the site must provide in place
    ([provisionable]): NVMe disks, an SSH key, net/http accepting the URLs of the
    rescue and reset endpoints of the server, and a bootstrap config of one of
    two kinds: for Flatcar one that the injection accepts, and for Talos one whose
    first document is [plain] (ASCII text without line breaks, 64-bit integers,
    booleans, lists and maps) in the form that [configures] describes, for a
    machine and host whose values are [configurable] and [plainMachine].  When the
    API server and the Robot service answer, and in every run the server is in
    the phase the machine waits for (the rescue system after the reset,
    maintenance mode after the installation, and so on), the machine is
    provisioned and ready after seven runs, or five for Flatcar, all within the
    provision timeout; before, it goes through the states of its operating system
    in order. *)
Theorem provisioning_completes `{YamlLaws} site hrc machine hrm0 hrm n :
  provisionable site hrm0 hrc machine -> nsteps (goodRun site hrc machine) n hrm0 hrm ->
  (n <= length (path (isFlatcar hrm0)))%nat ->
  nth_error (path (isFlatcar hrm0) ++ [StateProvisioned]) n = Some (provisioningState hrm) /\
  (n = length (path (isFlatcar hrm0)) ->
    provisioningState hrm = StateProvisioned /\ mst_Ready (hrm_Status hrm) = true /\
    mst_HostRef (hrm_Status hrm) = hrh_Name (site_host site)).
Proof.
  intros Hpr Hn Hl. destruct (runs_state _ _ _ _ Hpr _ _ Hn Hl) as (Ht & Hs & Hr). split; [done|].
  intros ->. rewrite nth_error_app2, Nat.sub_diag in Hs by done. cbn in Hs. injection Hs as Hs.
  split; [done|]. split; [by apply Hr|]. destruct (tr_hostRef _ _ _ Ht) as [?|[_ Hn']]; [done|]. by rewrite <- Hs in Hn'.
Qed.

(** ** Witness *)

Import Demo.

Definition sampleHardware : HardwareInfo :=
  MkHardwareInfo "aa:bb:cc:dd:ee:ff" "192.0.2.1" ["/dev/nvme0n1"] ∅ ∅.

Definition sampleSite : Site := MkSite sampleHost (fun _ => sampleSecret) sampleHardware 1000.

(** The world in which every call succeeds cooperates in every phase. *)
Lemma goodWorld_cooperates hrm ph (h : hist) (X : Set) (e : Eff X) :
  cooperates sampleSite hrm ph X e (answer (goodWorld hrm sampleHost) h X e).
Proof.
  destruct e; cbn; try done.
  - destruct k; try done. intros _. exists sampleHost. split; [done|]. split; [done|]. split; [by left|].
    split; [by left|]. done.
  - split; [eexists|]; exists (MkHttpResponse 200 "{}" None); by vm_compute.
  - intros _. split; [by unfold sshAnswer; repeat case_match|]. destruct ph; cbn [prints]; try done.
    + repeat split; try by intros ->; vm_compute. intros -> d ->%list_elem_of_singleton.
      apply (bool_decide_unpack _). by vm_compute.
    + intros ->. by vm_compute.
Qed.

(** One run after another in that world. *)
Definition sampleRun (hrm : HetznerRobotMachine) : HetznerRobotMachine :=
  (result_of (goodWorld hrm sampleHost) (reconcileMachine hrm sampleHRC sampleMachine)).1.

Lemma run_oracle_answered {A} (R : answers) (o : oracle) (p : prog A) h :
  (forall h X e, R X e (o h X e)) -> answeredBy R h -> answeredBy R (run_oracle o p h).1.
Proof.
  intros Ho. revert h. induction p as [a|X e k IH]; intros h Hh; cbn; [done|]. apply IH. constructor; [apply Ho|done].
Qed.

Lemma sampleRun_good hrm : goodRun sampleSite sampleHRC sampleMachine hrm (sampleRun hrm).
Proof.
  set (w := goodWorld hrm sampleHost). set (p := reconcileMachine hrm sampleHRC sampleMachine).
  exists (hist_of w p), (result_of w p).2. split.
  - unfold sampleRun. fold w p. rewrite <- surjective_pairing. apply exec_of.
  - apply run_oracle_answered; [apply goodWorld_cooperates|constructor].
Qed.

Lemma sampleRuns_good n hrm : nsteps (goodRun sampleSite sampleHRC sampleMachine) n hrm (Nat.iter n sampleRun hrm).
Proof. induction n as [|n IH]; [constructor|]. by eapply nsteps_r, sampleRun_good. Qed.

Lemma provisioning_completes_witness :
  provisioningState (Nat.iter 7 sampleRun sampleHRM) = StateProvisioned /\
  mst_Ready (hrm_Status (Nat.iter 7 sampleRun sampleHRM)) = true /\
  mst_HostRef (hrm_Status (Nat.iter 7 sampleRun sampleHRM)) = "host-1".
Proof.
  apply (provisioning_completes sampleSite sampleHRC sampleMachine sampleHRM _ 7); [|apply sampleRuns_good|done|done].
  split; try done.
  - by left.
  - exists "key", "ssh-ed25519 key", "bootstrap", (encode (VMap sampleConfig)).
    split; [done|]. split; [done|]. split; [done|]. split; [done|].
    split; [by vm_compute|]. split; [repeat split; by vm_compute|].
    exists sampleConfig, []. split; [by vm_compute|by apply encode_configures].
Defined.
