(* ===== verification/Remediation.v ===== *)
(** * The remediation reconciler

    controllers/hetznerrobotremediation_controller.go: hardware resets of
    unhealthy machines, with a retry limit. *)

From S2P Require Import Prelude GoStrings GoTime Api Effects Lib Samples Policy Robot Rescue HostClaim Retry States.

Local Open Scope Z_scope.

Abbreviation remResult := (HetznerRobotRemediation * outcome)%type.

Definition setPhase (p : RemediationPhase) (rem : HetznerRobotRemediation) : HetznerRobotRemediation :=
  set_rs rs_Phase p rem.

Definition getTimeout (rem : HetznerRobotRemediation) : Z :=
  let d := st_Timeout (hrr_Strategy rem) in
  if 0 <? d then d else 5 * Minute.

(** [NamespacedName.String] *)
Definition keyString (k : NamespacedName) : string := nn_Namespace k +:+ "/" +:+ nn_Name k.

(** [Get], with the two wrappings of its error. *)
Definition getOr (k : Kind) (kind : string) (key : NamespacedName) : prog (res (Obj k)) :=
  r ← trigger (EGet k key);
  unwrap o := r orelse err =>
    Ret (Err (if err_notfound err then wrapf (kind +:+ " " +:+ keyString key +:+ " not found: ") err ""
              else wrapf ("get " +:+ kind +:+ " " +:+ keyString key +:+ ": ") err ""));
  Ret (Ok o).

Definition resolveServerAndCluster (machine : Machine)
    : prog (res (Z * HetznerRobotHost * HetznerRobotCluster)) :=
  let machineName := m_Namespace machine +:+ "/" +:+ m_Name machine in
  if String.eqb (m_InfrastructureRefName machine) "" then
    Ret (Err (errorf ("Machine " +:+ machineName +:+ " has no InfrastructureRef")))
  else
    let hrmKey := MkNamespacedName (m_Namespace machine) (m_InfrastructureRefName machine) in
    r ← getOr KMachine "HetznerRobotMachine" hrmKey;
    unwrap hrm := r orelse err => Ret (Err err);
    let hostRef := mst_HostRef (hrm_Status (hrm : HetznerRobotMachine)) in
    if String.eqb hostRef "" then
      Ret (Err (errorf ("HetznerRobotMachine " +:+ keyString hrmKey
        +:+ " has no HostRef — machine may not be provisioned yet")))
    else
      r ← getOr KHost "HetznerRobotHost" (MkNamespacedName (m_Namespace machine) hostRef);
      unwrap host := r orelse err => Ret (Err err);
      r ← trigger (EClusterFromMetadata (m_Meta machine));
      unwrap cluster := r orelse err =>
        Ret (Err (wrapf "get Cluster from Machine metadata: " err ""));
      match cluster with
      | None => Ret (Err (errorf ("Cluster not found for Machine " +:+ machineName)))
      | Some cluster =>
          match cl_InfrastructureRef cluster with
          | None =>
              Ret (Err (errorf ("Cluster " +:+ Namespace (cl_Meta cluster) +:+ "/" +:+ Name (cl_Meta cluster)
                +:+ " has no InfrastructureRef")))
          | Some hrcKey =>
              r ← getOr KCluster "HetznerRobotCluster" hrcKey;
              unwrap hrc := r orelse err => Ret (Err err);
              Ret (Ok (hs_ServerID (hrh_Spec (host : HetznerRobotHost)), host, hrc))
          end
      end.

(** The reset both phases end in; [count] is the new retry count. *)
Definition resetServer `{Lib} (rem : HetznerRobotRemediation) (serverID : Z) (hrc : HetznerRobotCluster)
    (count : Z) : prog remResult :=
  r ← NewFromCluster hrc;
  unwrap robotClient := r orelse err => failw rem "build robot client: " err;
  e ← ResetServer robotClient serverID ResetTypeHardware;
  ensure e orelse err => failw rem ("hardware reset server " +:+ itoa serverID +:+ ": ") err;
  now ← trigger ENow;
  let rem := setPhase RemediationPhaseRunning rem in
  let rem := set_rs rs_LastRemediated (Some now) rem in
  let rem := set_rs rs_RetryCount count rem in
  requeue rem (getTimeout rem).

Definition reconcileInitial `{Lib} (rem : HetznerRobotRemediation) (serverID : Z)
    (host : HetznerRobotHost) (hrc : HetznerRobotCluster) : prog remResult :=
  ensure authorizeAutomatedHardwareReset (Some host) orelse err => requeue rem requeueAfterLong;
  resetServer rem serverID hrc 1.

Definition reconcileRunning (rem : HetznerRobotRemediation) : prog remResult :=
  Ret (setPhase RemediationPhaseWaiting rem, Returned (MkCtrlResult true 0)).

Definition reconcileWaiting `{Lib} (rem : HetznerRobotRemediation) (serverID : Z)
    (host : HetznerRobotHost) (hrc : HetznerRobotCluster) : prog remResult :=
  if st_RetryLimit (hrr_Strategy rem) <=? rs_RetryCount (hrr_Status rem) then
    finish (setPhase RemediationPhaseDeleting rem)
  else
    ensure authorizeAutomatedHardwareReset (Some host) orelse err => requeue rem requeueAfterLong;
    resetServer rem serverID hrc (wrap64 (rs_RetryCount (hrr_Status rem) + 1)).

(** From the terminal-phase check to the end of [Reconcile]. *)
Definition reconcileRemediation `{Lib} (rem : HetznerRobotRemediation) (machine : Machine)
    : prog remResult :=
  if decide (rs_Phase (hrr_Status rem) = RemediationPhaseDeleting) then finish rem
  else
    r ← resolveServerAndCluster machine;
    unwrap resolved := r orelse err => failw rem "resolve server and cluster: " err;
    let '(serverID, host, hrc) := resolved in
    match rs_Phase (hrr_Status rem) with
    | RemediationPhaseUnset => reconcileInitial rem serverID host hrc
    | RemediationPhaseRunning => reconcileRunning rem
    | RemediationPhaseWaiting => reconcileWaiting rem serverID host hrc
    | _ => finish rem
    end.

Definition ReconcileRemediation `{Lib} (req : NamespacedName) : prog outcome :=
  r ← trigger (EGet KRemediation req);
  unwrap rem := r orelse err =>
    Ret (if err_notfound err then Returned noRequeue else Failed err);
  r ← trigger (EOwnerMachine (hrr_Meta rem));
  unwrap machine := r orelse err => Ret (Failed (wrapf "get owner Machine: " err ""));
  match machine with
  | None => Ret (Returned (MkResult requeueAfterShort))
  | Some machine =>
      e ← trigger (ENewPatchHelper KRemediation rem);
      ensure e orelse err => Ret (Failed (wrapf "failed to init patch helper: " err ""));
      r ← reconcileRemediation rem machine;
      let '(rem', o) := r in
      _ ← trigger (EPatch KRemediation rem rem');
      Ret o
  end.

(** * Specification

    What a remediation promises, without the API server and the Robot service:
    its status and the resets it makes. *)

Inductive remMove (limit : Z) : HetznerRobotRemediationStatus -> nat -> HetznerRobotRemediationStatus -> Prop :=
| move_stay s : remMove limit s 0 s
| move_first n t l :
    remMove limit (MkRemediationStatus RemediationPhaseUnset n l) 1
      (MkRemediationStatus RemediationPhaseRunning 1 (Some t))
| move_wait n l :
    remMove limit (MkRemediationStatus RemediationPhaseRunning n l) 0
      (MkRemediationStatus RemediationPhaseWaiting n l)
| move_retry n t l :
    n < limit ->
    remMove limit (MkRemediationStatus RemediationPhaseWaiting n l) 1
      (MkRemediationStatus RemediationPhaseRunning (wrap64 (n + 1)) (Some t))
| move_giveup n l :
    limit <= n ->
    remMove limit (MkRemediationStatus RemediationPhaseWaiting n l) 0
      (MkRemediationStatus RemediationPhaseDeleting n l).

(** Sequences of moves, with the number of their resets. *)
Inductive remMoves (limit : Z) : HetznerRobotRemediationStatus -> nat -> HetznerRobotRemediationStatus -> Prop :=
| moves_none s : remMoves limit s 0 s
| moves_step s1 k1 s2 k2 s3 :
    remMove limit s1 k1 s2 -> remMoves limit s2 k2 s3 -> remMoves limit s1 (k1 + k2) s3.

(** A reset moves only these phases. *)
Definition mayReset (rem : HetznerRobotRemediation) : Prop :=
  rs_Phase (hrr_Status rem) = RemediationPhaseUnset \/
  rs_Phase (hrr_Status rem) = RemediationPhaseWaiting /\
    rs_RetryCount (hrr_Status rem) < st_RetryLimit (hrr_Strategy rem).

(** What the status says of the resets made so far. *)
Definition counted (limit : Z) (s : HetznerRobotRemediationStatus) (k : nat) : Prop :=
  match rs_Phase s with
  | RemediationPhaseUnset => k = 0%nat
  | RemediationPhaseOther _ => True
  | _ => rs_RetryCount s = Z.of_nat k
  end /\ Z.of_nat k <= Z.max 1 limit.

Lemma counted_move limit s s' k k' :
  limit <= maxInt64 -> counted limit s k -> remMove limit s k' s' -> counted limit s' (k + k').
Proof.
  intros Hl Hc Hm. destruct Hm; unfold counted in *; cbn in *; destruct Hc as [Hc Hk].
  - by rewrite Nat.add_0_r.
  - subst k. lia.
  - by rewrite Nat.add_0_r.
  - subst n. rewrite wrap64_id by (unfold in_int64, minInt64, maxInt64 in *; lia). lia.
  - by rewrite Nat.add_0_r.
Qed.

Lemma counted_moves limit s s' k k' :
  limit <= maxInt64 -> counted limit s k -> remMoves limit s k' s' -> counted limit s' (k + k').
Proof.
  intros Hl Hc Hm. revert k Hc. induction Hm as [s|s1 k1 s2 k2 s3 H12 _ IH]; intros k Hc.
  - by rewrite Nat.add_0_r.
  - rewrite Nat.add_assoc. apply IH. by eapply counted_move.
Qed.

(** * Facts *)

Lemma emits_getOr k kind key : emits isRead (getOr k kind key).
Proof. unfold getOr. repeat emits_step; done. Qed.

Lemma wp_getOr (G : guard) k kind key (Q : res (Obj k) -> hist -> Prop) h :
  (forall h' X e, isRead X e -> G h' X e) ->
  (forall r h', onlyReads h' h -> (forall o, r = Ok o -> Ev (EGet k key) (Ok o) ∈ h') -> Q r h') ->
  wp G (getOr k kind key) Q h.
Proof.
  intros HG HQ. unfold getOr. apply wp_bind, wp_trigger; [by apply HG|].
  assert (forall r, onlyReads (Ev (EGet k key) r :: h) h) as Hr by (intros r; by apply onlyReads_cons).
  intros [o|err]; apply wp_ret, HQ; [by apply Hr| |by apply Hr|done]. intros ? [= <-]. constructor.
Qed.

(** The host was reached from the Machine through the two references. *)
Definition hostOfMachine (machine : Machine) (host : HetznerRobotHost) (h : hist) : Prop :=
  exists hrm : HetznerRobotMachine,
    Ev (EGet KMachine (MkNamespacedName (m_Namespace machine) (m_InfrastructureRefName machine))) (Ok hrm) ∈ h /\
    Ev (EGet KHost (MkNamespacedName (m_Namespace machine) (mst_HostRef (hrm_Status hrm)))) (Ok host) ∈ h.

Lemma hostOfMachine_extends machine host h' h :
  extends h' h -> hostOfMachine machine host h -> hostOfMachine machine host h'.
Proof. intros He (hrm & Hm & Hh). exists hrm. split; by eapply extends_elem. Qed.

(** The object chain only reads. *)
Lemma wp_resolve (G : guard) machine (Q : res (Z * HetznerRobotHost * HetznerRobotCluster) -> hist -> Prop) h :
  (forall h' X e, isRead X e -> G h' X e) ->
  (forall r h', onlyReads h' h ->
     (forall id host hrc, r = Ok (id, host, hrc) ->
        hostOfMachine machine host h' /\ id = hs_ServerID (hrh_Spec host)) ->
     Q r h') ->
  wp G (resolveServerAndCluster machine) Q h.
Proof.
  intros HG HQ. unfold resolveServerAndCluster. cbv zeta.
  destruct (String.eqb _ ""); [by apply wp_ret, HQ|].
  apply wp_bind, wp_getOr; [done|]. intros [hrm|err] h1 H1 Hm; [|by apply wp_ret, HQ].
  destruct (String.eqb _ ""); [by apply wp_ret, HQ|].
  apply wp_bind, wp_getOr; [done|]. intros [host|err] h2 H2 Hh; [|by apply wp_ret, HQ; [transitivity h1|]].
  assert (hostOfMachine machine host h2) as Hf.
  { exists hrm. split; [|by apply Hh]. eapply extends_elem; [by apply onlyReads_extends|by apply Hm]. }
  assert (onlyReads h2 h) as H2' by by transitivity h1.
  apply wp_bind, wp_trigger; [by apply HG|]. intros c.
  set (h3 := _ :: _). assert (onlyReads h3 h2) as H3 by by apply onlyReads_cons.
  assert (onlyReads h3 h) as H3' by by transitivity h2. clearbody h3.
  destruct c as [[c|]|err]; try by apply wp_ret, HQ.
  destruct (cl_InfrastructureRef c); [|by apply wp_ret, HQ].
  apply wp_bind, wp_getOr; [done|]. intros [hrc|err] h4 H4 _; apply wp_ret, HQ; try by transitivity h3.
  - intros ? ? ? [= <- <- <-]. split; [|done].
    eapply hostOfMachine_extends; [|exact Hf]. apply onlyReads_extends. by transitivity h3.
  - done.
Qed.

(** A reset, for a machine whose host may be reset. *)
Lemma wp_resetServer `{Lib} (G : guard) rem id hrc n (Q : remResult -> hist -> Prop) h :
  (forall h' X e, isRead X e -> G h' X e) ->
  (forall h' c, onlyReads h' h -> baseURL c = robotBaseURL ->
     G h' _ (EHttp (resetRequest c id ResetTypeHardware))) ->
  (forall o h', acceptedPosts h' = acceptedPosts h -> Q (rem, o) h') ->
  (forall t o h', acceptedPosts h' = S (acceptedPosts h) ->
     Q (rem <| hrr_Status := MkRemediationStatus RemediationPhaseRunning n (Some t) |>, o) h') ->
  wp G (resetServer rem id hrc n) Q h.
Proof.
  intros HG Hr HQ Hs. unfold resetServer. apply wp_bind, wp_NewFromCluster; [done|].
  intros [c|err] h1 H1 Hc; apply acceptedPosts_reads in H1 as E1; [|by apply wp_ret, HQ].
  specialize (Hc c eq_refl). apply wp_bind, wp_ResetServer; [intros err; by apply wp_ret, HQ|by apply Hr|].
  intros a r Ha. apply (acceptedPosts_reset c id ResetTypeHardware a r h1) in Ha. rewrite E1 in Ha.
  destruct r as [err|]; [by apply wp_ret, HQ|].
  apply wp_bind, wp_trigger; [by apply HG|]. intros now. by apply (Hs now).
Qed.

(** One reconciliation moves the status as the specification says, and resets
    only a disposable host of the machine. *)
Lemma wp_reconcileRemediation `{Lib} (G : guard) rem machine (Q : remResult -> hist -> Prop) h :
  (forall h' X e, isRead X e -> G h' X e) ->
  (forall h' host c, onlyReads h' h -> baseURL c = robotBaseURL -> mayReset rem ->
     hostOfMachine machine host h' -> disposable host ->
     G h' _ (EHttp (resetRequest c (hs_ServerID (hrh_Spec host)) ResetTypeHardware))) ->
  (forall s k o h', remMove (st_RetryLimit (hrr_Strategy rem)) (hrr_Status rem) k s ->
     acceptedPosts h' = (k + acceptedPosts h)%nat -> Q (rem <| hrr_Status := s |>, o) h') ->
  wp G (reconcileRemediation rem machine) Q h.
Proof.
  intros HG Hr HQ. unfold reconcileRemediation. destruct rem as [meta strategy [phase n l]]. cbn in Hr, HQ |- *.
  pose proof (fun o h' => HQ _ 0%nat o h' (move_stay _ _)) as Hstay. cbn in Hstay.
  destruct (decide _); [by apply wp_ret, Hstay|].
  apply wp_bind, wp_resolve; [done|].
  intros [[[id host] hrc]|err] h1 H1 Hf; apply acceptedPosts_reads in H1 as E1; [|by apply wp_ret, Hstay].
  destruct (Hf id host hrc eq_refl) as [Hc ->]. clear Hf.
  assert (disposable host -> mayReset (MkRemediation meta strategy (MkRemediationStatus phase n l)) ->
    forall h' c, onlyReads h' h1 -> baseURL c = robotBaseURL ->
    G h' _ (EHttp (resetRequest c (hs_ServerID (hrh_Spec host)) ResetTypeHardware))) as Hreset.
  { intros Hd Hm h' c He Hb. apply Hr; [by transitivity h1|done|done| |done].
    eapply hostOfMachine_extends; [by apply onlyReads_extends|done]. }
  destruct phase; cbn; try by apply Hstay.
  - unfold reconcileInitial. destruct (authorizeAutomatedHardwareReset _) as [err|] eqn:Ha; [by apply wp_ret, Hstay|].
    apply reset_disposable in Ha. apply wp_resetServer; [done|by apply Hreset; [|left]|..].
    + intros o h' E. apply Hstay. congruence.
    + intros t o h' E. apply (HQ _ 1%nat); [apply move_first|]. cbn. congruence.
  - apply (HQ _ 0%nat); [apply move_wait|done].
  - unfold reconcileWaiting. cbn [hrr_Status hrr_Strategy rs_RetryCount]. destruct (Z.leb_spec (st_RetryLimit strategy) n) as [Hle|Hlt].
    { apply (HQ _ 0%nat); [by apply move_giveup|done]. }
    destruct (authorizeAutomatedHardwareReset _) as [err|] eqn:Ha; [by apply wp_ret, Hstay|].
    apply reset_disposable in Ha. apply wp_resetServer; [done|by apply Hreset; [|right]|..].
    + intros o h' E. apply Hstay. congruence.
    + intros t o h' E. apply (HQ _ 1%nat); [by apply move_retry|]. cbn. congruence.
Qed.

(** What a run may call: reads, the write of the remediation, and a hardware
    reset of the machine's own host when that is disposable. *)
Definition remSafe (req : NamespacedName) : guard := fun h X e =>
  match e with
  | EHttp rq =>
      exists rem machine host c,
        Ev (EGet KRemediation req) (Ok rem) ∈ h /\ mayReset rem /\
        Ev (EOwnerMachine (hrr_Meta rem)) (Ok (Some machine)) ∈ h /\
        hostOfMachine machine host h /\ disposable host /\
        baseURL c = robotBaseURL /\ rq = resetRequest c (hs_ServerID (hrh_Spec host)) ResetTypeHardware
  | EPatch k _ _ => k = KRemediation
  | _ => isRead X e
  end.

(** What a run leaves in the API server: nothing, or the remediation it read
    with a status the specification allows for its resets. *)
Definition remWritten `{Lib} (req : NamespacedName) (h : hist) : Prop :=
  match patches KRemediation h with
  | [] => acceptedPosts h = 0%nat
  | [(before, after, _)] =>
      Ev (EGet KRemediation req) (Ok before) ∈ h /\
      exists s, after = before <| hrr_Status := s |> /\
        remMove (st_RetryLimit (hrr_Strategy before)) (hrr_Status before) (acceptedPosts h) s
  | _ => False
  end.

Lemma wp_ReconcileRemediation `{Lib} (G : guard) req (Q : outcome -> hist -> Prop) :
  (forall h X e, isRead X e -> G h X e) ->
  (forall h before s, G h _ (EPatch KRemediation before (before <| hrr_Status := s |>))) ->
  (forall h rem machine host c, Ev (EGet KRemediation req) (Ok rem) ∈ h -> mayReset rem ->
     Ev (EOwnerMachine (hrr_Meta rem)) (Ok (Some machine)) ∈ h -> hostOfMachine machine host h ->
     disposable host -> baseURL c = robotBaseURL ->
     G h _ (EHttp (resetRequest c (hs_ServerID (hrh_Spec host)) ResetTypeHardware))) ->
  (forall o h, remWritten req h -> Q o h) ->
  wp G (ReconcileRemediation req) Q [].
Proof.
  intros HG Hp Hr HQ. unfold ReconcileRemediation.
  apply wp_bind, wp_trigger; [by apply HG|]. intros [rem|err]; [|by apply wp_ret, HQ].
  apply wp_bind, wp_trigger; [by apply HG|]. intros [[machine|]|err]; try by apply wp_ret, HQ.
  apply wp_bind, wp_trigger; [by apply HG|]. intros [err|]; [by apply wp_ret, HQ|].
  set (h0 := _ :: _).
  assert (Ev (EGet KRemediation req) (Ok rem) ∈ h0) as Hrem by (do 2 (apply elem_of_cons; right); constructor).
  assert (Ev (EOwnerMachine (hrr_Meta rem)) (Ok (Some machine)) ∈ h0) as Hm
    by (apply elem_of_cons; right; constructor).
  assert (acceptedPosts h0 = 0%nat /\ patches KRemediation h0 = []) as [E0 P0] by done. clearbody h0.
  apply wp_bind. eapply wp_mono; [|apply (wp_noPatch KRemediation G _ (fun r h' => exists s,
      r.1 = rem <| hrr_Status := s |> /\
      remMove (st_RetryLimit (hrr_Strategy rem)) (hrr_Status rem) (acceptedPosts h') s)), wp_guard_extends,
      wp_reconcileRemediation].
  - intros [rem' o] h1 ((s & Hs & Hmove) & P1 & H1). cbn in Hs. subst rem'.
    apply wp_bind, wp_trigger; [by apply Hp|]. intros a. apply wp_ret, HQ.
    unfold remWritten. rewrite patches_cons. cbn [patchOf]. destruct (decide _) as [e|]; [|done].
    rewrite P1, P0, (proof_irrel e eq_refl). cbn [castObj eq_rect]. split; [|by exists s].
    apply elem_of_cons. right. by eapply extends_elem.
  - intros h' X e Hx _. split; [by apply HG|]. by destruct e.
  - intros h' host c H' Hb Hmay Hc Hd He. split; [|done]. apply (Hr h' rem machine); try done; by eapply extends_elem.
  - intros s k o h' Hmove E. exists s. split; [done|]. by rewrite E, E0, Nat.add_0_r.
Qed.

(** * Properties *)

(** C12: remediation resets only what may be reset.  The only thing a run of
    the remediation reconciler ever asks of the Robot service is a hardware
    reset, and only for a remediation that is new, or waiting with retries
    left, of the server of the host that the owning Machine's references lead
    to, when that host is a compute host out of maintenance with policy
    AlwaysCleanSlate; it runs no command, sends no machineconfig and writes
    nothing but remediations. *)
Theorem remediation_resets_disposable `{Lib} (req : NamespacedName) h' o :
  exec (ReconcileRemediation req) [] h' o -> guarded (remSafe req) h'.
Proof.
  intros He. refine (proj2 (exec_guarded (remSafe req) _ (fun _ _ => True) _ _ He _)).
  apply wp_ReconcileRemediation; [| |by cbn; eauto 12|done]; cbn.
  - intros h X e Hx. by destruct e.
  - done.
Qed.

(** C14: a run refines the specification of a remediation.  A run writes the
    remediation at most once, and then the one it read, changed in nothing but
    the status, which made a move of [remMove] with as many resets as the
    Robot service accepted in the run (at most one); a run that writes nothing
    had no reset accepted. *)
Theorem remediation_refines `{Lib} (req : NamespacedName) h' o :
  exec (ReconcileRemediation req) [] h' o -> remWritten req h'.
Proof. intros He. by_exec He. by apply wp_ReconcileRemediation. Qed.

(** What the API server holds after a run, when it held [rem] before. *)
Definition stored (rem : HetznerRobotRemediation) (h : hist) (rem' : HetznerRobotRemediation) : Prop :=
  match patches KRemediation h with
  | [] => rem' = rem
  | (_, after, answer) :: _ => answer = None /\ rem' = after
  end.

(** Runs one after the other, each of which reads what the one before it left,
    with the number of resets the Robot service accepted in all of them. *)
Inductive remRuns `{Lib} (req : NamespacedName) :
  HetznerRobotRemediation -> nat -> HetznerRobotRemediation -> Prop :=
| runs_none rem : remRuns req rem 0 rem
| runs_step rem h o rem' n rem'' :
    exec (ReconcileRemediation req) [] h o ->
    (forall read, Ev (EGet KRemediation req) (Ok read) ∈ h -> read = rem) ->
    stored rem h rem' -> remRuns req rem' n rem'' ->
    remRuns req rem (acceptedPosts h + n) rem''.

(** C13: the retry limit holds over the whole life of a remediation.  Over any
    sequence of runs that starts with a new remediation and in which every run
    reads what the last one wrote, the Robot service accepts at most
    [retryLimit] hardware resets (at most one when the limit is below one); the
    retry count is exactly their number; and the strategy never changes. *)
Theorem remediation_retry_limit `{Lib} (req : NamespacedName) rem n rem' :
  remRuns req rem n rem' ->
  rs_Phase (hrr_Status rem) = RemediationPhaseUnset ->
  st_RetryLimit (hrr_Strategy rem) <= maxInt64 ->
  Z.of_nat n <= Z.max 1 (st_RetryLimit (hrr_Strategy rem)) /\
  counted (st_RetryLimit (hrr_Strategy rem)) (hrr_Status rem') n /\
  hrr_Strategy rem' = hrr_Strategy rem.
Proof.
  intros Hruns Hp Hl.
  cut (exists s, rem' = rem <| hrr_Status := s |> /\
    remMoves (st_RetryLimit (hrr_Strategy rem)) (hrr_Status rem) n s).
  { intros (s & -> & Hm). apply (counted_moves _ _ _ 0) in Hm; [|done|by unfold counted; rewrite Hp; split; [|lia]].
    split; [apply Hm|done]. }
  clear Hp Hl. induction Hruns as [rem|rem h o rem1 n rem2 Hrun Hread Hst _ IH].
  { exists (hrr_Status rem). split; [by destruct rem|constructor]. }
  apply (exec_wp _ (fun _ h => remWritten req h)) in Hrun; [|by apply wp_ReconcileRemediation].
  unfold remWritten, stored in *. destruct (patches KRemediation h) as [|[[before after] a] [|? ?]]; [|..|done].
  - subst rem1. by rewrite Hrun.
  - destruct Hrun as (Hin & s1 & -> & Hmove). destruct Hst as [_ ->].
    apply Hread in Hin as ->. destruct IH as (s & -> & Hmoves). exists s. split; [done|].
    by eapply moves_step.
Qed.

(** ** Witnesses *)

Import Demo.

Definition remediationWorld (rem : HetznerRobotRemediation) : World :=
  MkWorld 1000 (set_mst mst_HostRef "host-1" sampleHRM) sampleHost [] rem (fun _ => okResponse)
    (fun _ => None) sshAnswer None.

Definition remediationRun (rem : HetznerRobotRemediation) : hist :=
  hist_of (remediationWorld rem) (ReconcileRemediation (MkNamespacedName "prod" "m-1")).

Definition remediationAfter (rem : HetznerRobotRemediation) : HetznerRobotRemediation :=
  match patches KRemediation (remediationRun rem) with p :: _ => p.1.2 | [] => rem end.

Lemma remediation_resets_disposable_witness :
  acceptedPosts (remediationRun sampleRemediation) = 1%nat /\
  guarded (remSafe (MkNamespacedName "prod" "m-1")) (remediationRun sampleRemediation).
Proof.
  split; [vm_compute; reflexivity|].
  exact (remediation_resets_disposable (MkNamespacedName "prod" "m-1") _ _ (exec_of _ _)).
Defined.

Lemma remediation_refines_witness :
  acceptedPosts (remediationRun sampleRemediation) = 1%nat /\
  remWritten (MkNamespacedName "prod" "m-1") (remediationRun sampleRemediation).
Proof.
  split; [vm_compute; reflexivity|].
  exact (remediation_refines (MkNamespacedName "prod" "m-1") _ _ (exec_of _ _)).
Defined.

Lemma remediation_run_step (rem : HetznerRobotRemediation) n rem' :
  stored rem (remediationRun rem) (remediationAfter rem) ->
  remRuns (MkNamespacedName "prod" "m-1") (remediationAfter rem) n rem' ->
  remRuns (MkNamespacedName "prod" "m-1") rem (acceptedPosts (remediationRun rem) + n) rem'.
Proof.
  intros Hs Hn. eapply runs_step; [apply exec_of| |exact Hs|exact Hn].
  intros read Hr. by apply remediation_read in Hr.
Qed.

(** A whole life with limit two: two resets, then the terminal phase. *)
Definition remediationEnd : HetznerRobotRemediation :=
  Nat.iter 5 remediationAfter sampleRemediation.

Lemma remediation_retry_limit_witness :
  remRuns (MkNamespacedName "prod" "m-1") sampleRemediation 2 remediationEnd /\
  rs_Phase (hrr_Status remediationEnd) = RemediationPhaseDeleting /\
  counted 2 (hrr_Status remediationEnd) 2.
Proof.
  assert (Hruns : remRuns (MkNamespacedName "prod" "m-1") sampleRemediation 2 remediationEnd).
  { do 5 (refine (remediation_run_step _ _ _ _ _); [vm_compute; by split|]). constructor. }
  split; [exact Hruns|]. split; [vm_compute; reflexivity|].
  refine (proj1 (proj2 (remediation_retry_limit _ sampleRemediation 2 remediationEnd Hruns _ _))); vm_compute; done.
Defined.
