(* ===== verification/HostCtl.v ===== *)
(** * The host reconciler

    controllers/hetznerrobothost_controller.go: finalizer, initial state,
    detection of the addresses and deletion of a HetznerRobotHost. *)

From S2P Require Import Prelude GoStrings GoTime Api Effects Lib Samples Robot Rescue HostClaim Inject Retry States.

Local Open Scope Z_scope.

Definition clusterNameLabel : string := "cluster.x-k8s.io/cluster-name".

(** Indexing a map of strings. *)
Definition label (m : ObjectMeta) (key : string) : string := default "" (Labels m !! key).

Definition getRobotClient (host : HetznerRobotHost) : prog (res Client) :=
  let clusterName := label (hrh_Meta host) clusterNameLabel in
  if String.eqb clusterName "" then
    Ret (Err (errorf ("host " +:+ hrh_Name host +:+ " has no cluster-name label")))
  else
    r ← trigger (EList KCluster (hrh_Namespace host) None);
    unwrap hrcList := r orelse err => Ret (Err (wrapf "list HetznerRobotClusters: " err ""));
    match List.find (fun hrc : HetznerRobotCluster =>
            String.eqb (label (hrc_Meta hrc) clusterNameLabel) clusterName) hrcList with
    | None => Ret (Err (errorf ("no HetznerRobotCluster found for cluster " +:+ clusterName)))
    | Some hrc =>
        let ref := cs_RobotSecretRef (hrc_Spec hrc) in
        r ← trigger (EGet KSecret (MkNamespacedName (secretNamespace hrc ref) (sr_Name ref)));
        unwrap secret := r orelse err => Ret (Err (wrapf "get robot credentials secret: " err ""));
        Ret (Ok (New (secretValue secret "robot-user") (secretValue secret "robot-password")))
    end.

(** The assignments of the addresses that are missing and were answered. *)
Definition fillAddresses (host : HetznerRobotHost) (info : ServerInfo) : HetznerRobotHost :=
  let host :=
    if String.eqb (hs_ServerIP (hrh_Spec host)) "" && negb (String.eqb (si_ServerIP info) "") then
      set_hs hs_ServerIP (si_ServerIP info) host
    else host in
  if String.eqb (hs_ServerIPv6Net (hrh_Spec host)) "" && negb (String.eqb (si_ServerIPv6Net info) "") then
    set_hs hs_ServerIPv6Net (trimSuffix (si_ServerIPv6Net info) "::" +:+ "::/64") host
  else host.

Definition detectAddresses `{Lib} (host : HetznerRobotHost) : prog HetznerRobotHost :=
  let spec := hrh_Spec host in
  if (String.eqb (hs_ServerIP spec) "" || String.eqb (hs_ServerIPv6Net spec) "") && (0 <? hs_ServerID spec)
  then
    r ← getRobotClient host;
    unwrap robotClient := r orelse err => Ret host;
    r ← GetServer robotClient (hs_ServerID spec);
    unwrap serverInfo := r orelse err => Ret host;
    Ret (fillAddresses host serverInfo)
  else Ret host.

(** The body of [Reconcile] between the patch helper and the deferred patch. *)
Definition reconcileHost `{Lib} (host : HetznerRobotHost) : prog (HetznerRobotHost * outcome) :=
  if negb (ContainsFinalizer (Finalizers (hrh_Meta host)) HostFinalizer) then
    finish (host <| hrh_Meta := (hrh_Meta host)
      <| Finalizers := AddFinalizer (Finalizers (hrh_Meta host)) HostFinalizer |> |>)
  else
    let host := if decide (hst_State (hrh_Status host) = HostStateUnset)
                then set_hst hst_State HostStateAvailable host else host in
    host ← detectAddresses host;
    match DeletionTimestamp (hrh_Meta host) with
    | Some _ =>
        match hst_ConsumerRef (hrh_Status host), hst_MachineRef (hrh_Status host) with
        | None, None =>
            finish (host <| hrh_Meta := (hrh_Meta host)
              <| Finalizers := RemoveFinalizer (Finalizers (hrh_Meta host)) HostFinalizer |> |>)
        | _, _ => requeue host requeueAfterShort
        end
    | None => finish host
    end.

Definition ReconcileHost `{Lib} (req : NamespacedName) : prog outcome :=
  r ← trigger (EGet KHost req);
  unwrap host := r orelse err =>
    Ret (if err_notfound err then Returned noRequeue else Failed err);
  e ← trigger (ENewPatchHelper KHost host);
  ensure e orelse err => Ret (Failed err);
  r ← reconcileHost host;
  let '(host', o) := r in
  _ ← trigger (EPatch KHost host host');
  Ret o.

(** * Facts *)

(** What a run may do to the host it read. *)
Definition hostStep `{Lib} (before after : HetznerRobotHost) : Prop :=
  exists ip net st fs,
    after = MkHRH ((hrh_Meta before) <| Finalizers := fs |>)
              ((hrh_Spec before) <| hs_ServerIP := ip |> <| hs_ServerIPv6Net := net |>)
              ((hrh_Status before) <| hst_State := st |>) /\
    (hs_ServerIP (hrh_Spec before) = "" \/ ip = hs_ServerIP (hrh_Spec before)) /\
    (hs_ServerIPv6Net (hrh_Spec before) = "" \/ net = hs_ServerIPv6Net (hrh_Spec before)) /\
    (st = hst_State (hrh_Status before) \/
     hst_State (hrh_Status before) = HostStateUnset /\ st = HostStateAvailable) /\
    (fs = Finalizers (hrh_Meta before) \/
     ContainsFinalizer (Finalizers (hrh_Meta before)) HostFinalizer = false /\
       fs = AddFinalizer (Finalizers (hrh_Meta before)) HostFinalizer \/
     DeletionTimestamp (hrh_Meta before) <> None /\
       hst_ConsumerRef (hrh_Status before) = None /\ hst_MachineRef (hrh_Status before) = None /\
       fs = RemoveFinalizer (Finalizers (hrh_Meta before)) HostFinalizer).

(** The same host but for the two addresses, which are kept when set. *)
Definition addressesFilled (host host' : HetznerRobotHost) : Prop :=
  exists ip net,
    host' = host <| hrh_Spec := (hrh_Spec host) <| hs_ServerIP := ip |> <| hs_ServerIPv6Net := net |> |> /\
    (hs_ServerIP (hrh_Spec host) = "" \/ ip = hs_ServerIP (hrh_Spec host)) /\
    (hs_ServerIPv6Net (hrh_Spec host) = "" \/ net = hs_ServerIPv6Net (hrh_Spec host)).

Lemma filled_refl host : addressesFilled host host.
Proof.
  exists (hs_ServerIP (hrh_Spec host)), (hs_ServerIPv6Net (hrh_Spec host)).
  split; [by destruct host as [? [] ?]|auto].
Qed.

Lemma fillAddresses_filled host info : addressesFilled host (fillAddresses host info).
Proof.
  destruct host as [m [id ip net iip name cl mm pol] st]. unfold fillAddresses. cbn.
  destruct (String.eqb_spec ip "") as [->|Hip], (negb (String.eqb (si_ServerIP info) "")); cbn;
  destruct (String.eqb_spec net "") as [->|Hnet], (negb (String.eqb (si_ServerIPv6Net info) "")); cbn;
  match goal with |- addressesFilled _ ?h => exists (hs_ServerIP (hrh_Spec h)), (hs_ServerIPv6Net (hrh_Spec h)) end;
  (split; [reflexivity|]); cbn; auto.
Qed.

(** Calls of the host reconciler: reads, and GETs of the Robot service. *)
Definition hostCall (X : Set) (e : Eff X) : Prop :=
  match e with EHttp rq => rq_Method rq = "GET" | _ => isRead X e end.

Lemma emits_getRobotClient host : emits isRead (getRobotClient host).
Proof. unfold getRobotClient. cbv zeta. repeat emits_step; done. Qed.

Lemma read_hostCall X e : isRead X e -> hostCall X e.
Proof. by destruct e. Qed.

Lemma yields_detectAddresses `{Lib} host :
  yields hostCall (detectAddresses host) (addressesFilled host).
Proof.
  unfold detectAddresses. cbv zeta. destruct (_ && _); [|apply filled_refl].
  apply yields_emits; [eapply emits_mono; [apply read_hostCall|apply emits_getRobotClient]|].
  intros [c|err]; [|apply filled_refl].
  apply yields_emits; [by apply emits_GetServer|].
  intros [info|err]; [apply fillAddresses_filled|apply filled_refl].
Qed.

Lemma yields_reconcileHost `{Lib} host :
  yields hostCall (reconcileHost host) (fun r => hostStep host r.1).
Proof.
  unfold reconcileHost. destruct host as [m sp st].
  destruct (ContainsFinalizer _ _) eqn:Hf; cbn.
  2: { exists (hs_ServerIP sp), (hs_ServerIPv6Net sp), (hst_State st), (AddFinalizer (Finalizers m) HostFinalizer).
       split; [by destruct sp, st|auto 8]. }
  set (host1 := if decide _ then _ else _).
  assert (exists s, host1 = MkHRH m sp (st <| hst_State := s |>) /\
    (s = hst_State st \/ hst_State st = HostStateUnset /\ s = HostStateAvailable)) as (s & H1 & Hs).
  { unfold host1. destruct (decide _) as [He|]; [exists HostStateAvailable|exists (hst_State st)]; [by auto|].
    split; [by destruct st|by left]. }
  clearbody host1. subst host1.
  eapply yields_bind; [apply yields_detectAddresses|]. intros host2 (ip & net & -> & Hip & Hnet). cbn in Hip, Hnet |- *.
  assert (forall fs, (fs = Finalizers m \/ DeletionTimestamp m <> None /\ hst_ConsumerRef st = None /\
      hst_MachineRef st = None /\ fs = RemoveFinalizer (Finalizers m) HostFinalizer) ->
    hostStep (MkHRH m sp st) (MkHRH (m <| Finalizers := fs |>)
      (sp <| hs_ServerIP := ip |> <| hs_ServerIPv6Net := net |>) (st <| hst_State := s |>))) as Hstep.
  { intros fs Hfs. exists ip, net, s, fs. split; [done|]. cbn. split; [done|]. split; [done|]. split; [done|].
    destruct Hfs; auto. }
  assert (m <| Finalizers := Finalizers m |> = m) as Hm by by destruct m.
  pose proof (Hstep _ (or_introl eq_refl)) as Hsame. rewrite Hm in Hsame.
  destruct (DeletionTimestamp m) as [t|] eqn:Hd; [|exact Hsame].
  destruct (hst_ConsumerRef st) eqn:Hc, (hst_MachineRef st) eqn:Hr; try exact Hsame.
  apply Hstep. by right.
Qed.

(** The calls of a run: its write is the only one, of the object it read. *)
Definition hostSafe `{Lib} (req : NamespacedName) : guard := fun h X e =>
  match e with
  | EPatch k before after => exists H : k = KHost,
      Ev (EGet KHost req) (Ok (castObj H before)) ∈ h /\ patches KHost h = [] /\
      hostStep (castObj H before) (castObj H after)
  | _ => hostCall X e
  end.

(** * Properties *)

(** C31: the host reconciler is harmless.  Whatever the API server and the Robot
    service answer, a run reads, sends GET requests to the Robot service and
    writes the host it read at most once; the write keeps an address that is
    set and every other field of the spec, moves the state only from unset to
    Available, leaves the references of the owner alone, and takes the
    finalizer away only from a host that is being deleted and that no machine
    refers to. *)
Theorem host_reconcile_harmless `{Lib} (req : NamespacedName) h' o :
  exec (ReconcileHost req) [] h' o ->
  guarded (hostSafe req) h'.
Proof.
  set (G := hostSafe req). intros He. refine (proj2 (exec_guarded G _ (fun _ _ => True) _ _ He _)).
  unfold ReconcileHost. apply wp_bind, wp_trigger; [done|]. intros [host|err]; [|done].
  apply wp_bind, wp_trigger; [done|]. intros [err|]; [done|].
  set (h0 := _ :: _). assert (Ev (EGet KHost req) (Ok host) ∈ h0) as Hin
    by (apply elem_of_cons; right; constructor).
  assert (patches KHost h0 = []) as Hp by done. clearbody h0.
  apply wp_bind. eapply wp_mono; [|apply (wp_noPatch KHost G _ (fun r _ => hostStep host r.1)),
    (yields_wp hostCall _ _ _ _ h0 (yields_reconcileHost host))]; [|..|done].
  - intros [host' o'] h1 (Hs & P1 & H1). apply wp_bind, wp_trigger; [|done].
    exists eq_refl. cbn. split; [by eapply extends_elem|]. by rewrite P1.
  - intros h1 X e _ Hc. by destruct e.
Qed.

(** ** Witnesses *)

Import Demo.

Definition freshHost : HetznerRobotHost :=
  set_hst hst_State HostStateUnset
    (sampleHost <| hrh_Meta := (hrh_Meta sampleHost) <| Finalizers := [HostFinalizer] |>
                                                     <| DeletionTimestamp := Some 900 |> |>).

Lemma host_reconcile_harmless_witness :
  let h := hist_of (goodWorld sampleHRM freshHost) (ReconcileHost (MkNamespacedName "prod" "host-1")) in
  map (fun p => (hst_State (hrh_Status p.1.2), Finalizers (hrh_Meta p.1.2))) (patches KHost h) =
    [(HostStateAvailable, [])] /\
  guarded (hostSafe (MkNamespacedName "prod" "host-1")) h.
Proof.
  split; [vm_compute; reflexivity|].
  exact (host_reconcile_harmless (MkNamespacedName "prod" "host-1") _ _ (exec_of _ _)).
Defined.
