(* ===== verification/ClusterCtl.v ===== *)
(** * The cluster reconciler

    controllers/hetznerrobotcluster_controller.go: readiness and deletion of a
    HetznerRobotCluster. *)

From S2P Require Import Prelude GoStrings GoTime Api Effects Lib Samples Rescue HostClaim Retry HostCtl.

Local Open Scope Z_scope.

Abbreviation clusterResult := (HetznerRobotCluster * outcome)%type.

Definition set_cst_conditions (v : list Condition) (hrc : HetznerRobotCluster) : HetznerRobotCluster :=
  hrc <| hrc_Status := (hrc_Status hrc) <| cst_Conditions := v |> |>.

Definition reconcileClusterNormal `{Lib} (hrc : HetznerRobotCluster) : prog clusterResult :=
  let conditions := cst_Conditions (hrc_Status hrc) in
  if String.eqb (cs_EndpointHost (hrc_Spec hrc)) "" then
    requeue (set_cst_conditions
      (MarkFalse conditions ClusterReadyCondition "WaitingForControlPlaneEndpoint" ConditionSeverityInfo
         "Control plane endpoint not yet available") hrc) requeueAfterShort
  else
    let hrc := hrc <| hrc_Status := (hrc_Status hrc) <| cst_Ready := true |>
                                                     <| cst_Initialization := Some true |> |> in
    finish (set_cst_conditions (MarkTrue conditions ClusterReadyCondition) hrc).

Definition filterMachinesByCluster `{Lib} (machines : list HetznerRobotMachine) (clusterName : string)
    : list HetznerRobotMachine :=
  List.filter (fun m => String.eqb (label (hrm_Meta m) ClusterNameLabel) clusterName) machines.

Definition reconcileClusterDelete `{Lib} (hrc : HetznerRobotCluster) : prog clusterResult :=
  r ← trigger (EList KMachine (Namespace (hrc_Meta hrc)) None);
  unwrap machines := r orelse err => fail hrc err;
  match filterMachinesByCluster machines (Name (hrc_Meta hrc)) with
  | [] =>
      finish (hrc <| hrc_Meta := (hrc_Meta hrc)
        <| Finalizers := RemoveFinalizer (Finalizers (hrc_Meta hrc)) ClusterFinalizer |> |>)
  | _ => requeue hrc requeueAfterShort
  end.

Definition reconcileCluster `{Lib} (hrc : HetznerRobotCluster) : prog clusterResult :=
  match DeletionTimestamp (hrc_Meta hrc) with
  | Some _ => reconcileClusterDelete hrc
  | None =>
      if negb (ContainsFinalizer (Finalizers (hrc_Meta hrc)) ClusterFinalizer) then
        finish (hrc <| hrc_Meta := (hrc_Meta hrc)
          <| Finalizers := AddFinalizer (Finalizers (hrc_Meta hrc)) ClusterFinalizer |> |>)
      else reconcileClusterNormal hrc
  end.

Definition ReconcileCluster `{Lib} (req : NamespacedName) : prog outcome :=
  r ← trigger (EGet KCluster req);
  unwrap hrc := r orelse err =>
    Ret (if err_notfound err then Returned noRequeue else Failed err);
  r ← trigger (EOwnerCluster (hrc_Meta hrc));
  unwrap cluster := r orelse err => Ret (Failed err);
  match cluster with
  | None => Ret (Returned (MkResult requeueAfterShort))
  | Some cluster =>
      if cl_Paused cluster then Ret (Returned noRequeue)
      else
        e ← trigger (ENewPatchHelper KCluster hrc);
        ensure e orelse err => Ret (Failed (wrapf "failed to init patch helper: " err ""));
        r ← reconcileCluster hrc;
        let '(hrc', o) := r in
        _ ← trigger (EPatch KCluster hrc hrc');
        Ret o
  end.

(** * Facts *)

(** What a run may do to the cluster it read. *)
Definition clusterStep `{Lib} (before after : HetznerRobotCluster) (h : hist) : Prop :=
  hrc_Spec after = hrc_Spec before /\
  match DeletionTimestamp (hrc_Meta before) with
  | Some _ =>
      after = before \/
      (hrc_Status after = hrc_Status before /\
       hrc_Meta after = (hrc_Meta before)
         <| Finalizers := RemoveFinalizer (Finalizers (hrc_Meta before)) ClusterFinalizer |> /\
       exists machines : list HetznerRobotMachine,
         Ev (EList KMachine (Namespace (hrc_Meta before)) None) (Ok machines) ∈ h /\
         forall m, m ∈ machines -> label (hrm_Meta m) ClusterNameLabel <> Name (hrc_Meta before))
  | None =>
      if negb (ContainsFinalizer (Finalizers (hrc_Meta before)) ClusterFinalizer) then
        hrc_Status after = hrc_Status before /\
        hrc_Meta after = (hrc_Meta before)
          <| Finalizers := AddFinalizer (Finalizers (hrc_Meta before)) ClusterFinalizer |>
      else
        hrc_Meta after = hrc_Meta before /\
        if String.eqb (cs_EndpointHost (hrc_Spec before)) "" then
          cst_Ready (hrc_Status after) = cst_Ready (hrc_Status before) /\
          exists c, getCondition (cst_Conditions (hrc_Status after)) ClusterReadyCondition = Some c /\
            c_Status c = "False" /\ c_Reason c = "WaitingForControlPlaneEndpoint"
        else
          cst_Ready (hrc_Status after) = true /\
          cst_Initialization (hrc_Status after) = Some true /\
          exists c, getCondition (cst_Conditions (hrc_Status after)) ClusterReadyCondition = Some c /\
            c_Status c = "True"
  end.

Lemma wp_reconcileCluster `{LibLaws} (G : guard) hrc (Q : clusterResult -> hist -> Prop) h :
  (forall h' X e, isRead X e -> G h' X e) ->
  (forall r h', onlyReads h' h -> clusterStep hrc r.1 h' -> Q r h') ->
  wp G (reconcileCluster hrc) Q h.
Proof.
  intros HG HQ. unfold reconcileCluster. unfold clusterStep in HQ.
  destruct hrc as [meta spec [ready init conds]]. cbn in HQ.
  cbn [hrc_Meta hrc_Spec hrc_Status]. destruct (DeletionTimestamp meta) as [t|].
  - unfold reconcileClusterDelete. cbn [hrc_Meta]. apply wp_bind, wp_trigger; [by apply HG|].
    intros [machines|err]; (assert (forall a, onlyReads (Ev (EList KMachine (Namespace meta) None) a :: h) h)
      as Hr by (intros a; by apply onlyReads_cons)); [|apply wp_ret, HQ; [by apply Hr|auto]].
    destruct (filterMachinesByCluster _ _) as [|m ms] eqn:Hf; apply wp_ret, HQ; try by apply Hr; cbn.
    + split; [done|]. right. split; [done|]. split; [done|]. exists machines. split; [constructor|].
      intros m Hm. unfold filterMachinesByCluster in Hf.
      apply (filter_nil_elem _ _ Hf), String.eqb_neq in Hm. exact Hm.
    + auto.
  - destruct (negb _); [by apply wp_ret, HQ|].
    unfold reconcileClusterNormal. cbn [hrc_Spec hrc_Status]. destruct (String.eqb _ ""); apply wp_ret, HQ; try done; cbn.
    + split; [done|]. split; [done|]. split; [done|].
      edestruct MarkFalse_get as (c & Hc & Hs & Hreason & _). by exists c.
    + split; [done|]. split; [done|]. split; [done|]. split; [done|]. apply MarkTrue_get.
Qed.

(** The calls of a run: its write is the only one, of the object it read. *)
Definition clusterSafe `{Lib} (req : NamespacedName) : guard := fun h X e =>
  match e with
  | EPatch k before after => exists H : k = KCluster,
      Ev (EGet KCluster req) (Ok (castObj H before)) ∈ h /\ patches KCluster h = [] /\
      clusterStep (castObj H before) (castObj H after) h
  | _ => isRead X e
  end.

(** * Properties *)

(** C32: the cluster is ready exactly when it has an endpoint, and outlives its
    machines.  A run reads and writes the cluster at most once; the write never
    touches the spec; a cluster that is not deleted gets its finalizer first,
    and later becomes ready, initialized, with condition Ready true when a
    control plane endpoint is set, and condition Ready false otherwise; the
    finalizer of a deleted cluster is removed only after a list of machines in
    which none carries, as its cluster label, the name of the HetznerRobotCluster
    (the label carries the name of the CAPI Cluster, so machines can be left when
    the two names differ). *)
Theorem cluster_reconcile_exact `{LibLaws} (req : NamespacedName) h' o :
  exec (ReconcileCluster req) [] h' o ->
  guarded (clusterSafe req) h'.
Proof.
  set (G := clusterSafe req). intros He. refine (proj2 (exec_guarded G _ (fun _ _ => True) _ _ He _)).
  unfold ReconcileCluster. apply wp_bind, wp_trigger; [done|]. intros [hrc|err]; [|done].
  apply wp_bind, wp_trigger; [done|]. intros [[cluster|]|err]; try done.
  destruct (cl_Paused cluster); [done|].
  apply wp_bind, wp_trigger; [done|]. intros [err|]; [done|].
  set (h0 := _ :: _). assert (Ev (EGet KCluster req) (Ok hrc) ∈ h0) as Hin
    by (do 2 (apply elem_of_cons; right); constructor).
  assert (patches KCluster h0 = []) as Hp by done. clearbody h0.
  apply wp_bind. eapply wp_mono; [|apply (wp_noPatch KCluster G _ (fun r h => clusterStep hrc r.1 h)), wp_reconcileCluster].
  - intros [hrc' o'] h1 (Hs & P1 & H1). apply wp_bind, wp_trigger; [|done].
    exists eq_refl. cbn. split; [by eapply extends_elem|]. by rewrite P1.
  - intros h1 X e Hc. by destruct e.
  - done.
Qed.

Import Demo.

Lemma cluster_reconcile_exact_witness :
  let h := hist_of (goodWorld sampleHRM sampleHost) (ReconcileCluster (MkNamespacedName "prod" "hrc")) in
  length (patches KCluster h) = 1%nat /\
  guarded (clusterSafe (MkNamespacedName "prod" "hrc")) h.
Proof.
  split; [vm_compute; reflexivity|].
  exact (cluster_reconcile_exact (MkNamespacedName "prod" "hrc") _ _ (exec_of _ _)).
Defined.
