(* ===== verification/Writes.v ===== *)
(** * What the reconcilers write

    A run of any of the four reconcilers, and what may change between an object
    it reads and the object it writes in its place.  The files about the API
    server (Validation) and the permissions of the controller (Manager) start
    from [run_calls]. *)

From S2P Require Import Prelude GoStrings GoTime Api Effects Lib Samples Policy Robot Rescue Talos HostClaim.
From S2P Require Import Inject Ignition Retry States Machine Safety Remediation HostCtl ClusterCtl.

Local Open Scope Z_scope.

(** A run of one of the controller's reconcilers. *)
Inductive reconcilerRun `{Lib} : hist -> Prop :=
| run_machine req h o : exec (Reconcile req) [] h o -> reconcilerRun h
| run_host req h o : exec (ReconcileHost req) [] h o -> reconcilerRun h
| run_cluster req h o : exec (ReconcileCluster req) [] h o -> reconcilerRun h
| run_remediation req h o : exec (ReconcileRemediation req) [] h o -> reconcilerRun h.

(** Of a machine: its state moves, of its spec only the provider id, of its
    metadata only the finalizers.  Of a host: a machine's move, which keeps
    metadata and spec, or a step of the host reconciler.  Of a cluster: the first
    endpoint, or not the spec.  Of a remediation: only the status.  Nothing else
    is written. *)
Definition writes `{Lib} (k : Kind) : Obj k -> Obj k -> Prop :=
  match k with
  | KMachine => machineStep
  | KHost => fun before after => (exists ref, hostMove ref before after) \/ hostStep before after
  | KCluster => fun before after => endpointWrite before after \/ hrc_Spec after = hrc_Spec before
  | KRemediation => fun before after => exists s, after = before <| hrr_Status := s |>
  | KRelease | KSecret => fun _ _ => False
  end.

Definition writeCall `{Lib} (X : Set) (e : Eff X) : Prop :=
  match e with EPatch k before after => writes k before after | _ => True end.

Section Calls.
Context `{Lib}.

Lemma writeCall_noPatch X e : match e with EPatch _ _ _ => False | _ => True end -> writeCall X e.
Proof. by destruct e. Qed.

Lemma writeCall_harmless X e : harmless X e -> writeCall X e.
Proof.
  destruct e as [| | | |[] b a| | | | | | | | | | | |]; try done; intros Hh; [|by left].
  left. exists (MkMachineReference "" ""). by apply move_quiet; apply Hh.
Qed.

Lemma writeCall_safe ref machine h X e : safeCall ref machine h X e -> writeCall X e.
Proof. destruct e as [| | | |[] b a| | | | | | | | | | | |]; try done; intros Hs; [left; by exists ref|by left]. Qed.

Lemma calls_machine req h o : exec (Reconcile req) [] h o -> guarded (static writeCall) h.
Proof.
  intros He. refine (proj2 (exec_guarded (static writeCall) _ (fun _ _ => True) _ _ He _)).
  apply wp_Reconcile; [intros; by apply writeCall_harmless| |done..].
  intros h1 X e meta machine _ Hs. by eapply writeCall_safe.
Qed.

Lemma calls_host req h o : exec (ReconcileHost req) [] h o -> guarded (static writeCall) h.
Proof.
  intros He. refine (proj2 (exec_guarded (static writeCall) _ (fun _ _ => True) _ _ He _)).
  unfold ReconcileHost. apply wp_bind, wp_trigger; [done|]. intros [host|err]; [|done].
  apply wp_bind, wp_trigger; [done|]. intros [err|]; [done|].
  apply wp_bind, (yields_wp hostCall _ _ _ _ _ (yields_reconcileHost host)).
  - intros h1 X e _ Hc. apply writeCall_noPatch. by destruct e.
  - intros [host' o'] h1 _ Hs. apply wp_bind, wp_trigger; [by right|done].
Qed.

(** The writes of hosts by the host reconciler. *)
Lemma host_patches req h o :
  exec (ReconcileHost req) [] h o -> Forall (fun p => hostStep p.1.1 p.1.2) (patches KHost h).
Proof.
  intros He. apply (guarded_patches KHost hostStep).
  refine (proj2 (exec_guarded (static (patchesOnly KHost hostStep)) _ (fun _ _ => True) _ _ He _)).
  unfold ReconcileHost. apply wp_bind, wp_trigger; [done|]. intros [host|err]; [|done].
  apply wp_bind, wp_trigger; [done|]. intros [err|]; [done|].
  apply wp_bind, (yields_wp hostCall _ _ _ _ _ (yields_reconcileHost host)).
  - intros h1 X e _ Hc. by destruct e.
  - intros [host' o'] h1 _ Hs. apply wp_bind, wp_trigger; [|done]. unfold static, patchesOnly.
    destruct (decide _) as [eq|]; [|done]. by rewrite (proof_irrel eq eq_refl).
Qed.

Lemma calls_remediation req h o : exec (ReconcileRemediation req) [] h o -> guarded (static writeCall) h.
Proof.
  intros He. refine (proj2 (exec_guarded (static writeCall) _ (fun _ _ => True) _ _ He _)).
  apply wp_ReconcileRemediation; [|intros h1 rem s; by exists s|done..].
  intros h1 X e Hr. apply writeCall_noPatch. by destruct e.
Qed.
End Calls.

Lemma calls_cluster `{LibLaws} req h o : exec (ReconcileCluster req) [] h o -> guarded (static writeCall) h.
Proof.
  intros He. refine (proj2 (exec_guarded (static writeCall) _ (fun _ _ => True) _ _ He _)).
  unfold ReconcileCluster. apply wp_bind, wp_trigger; [done|]. intros [hrc|err]; [|done].
  apply wp_bind, wp_trigger; [done|]. intros [[cluster|]|err]; try done.
  destruct (cl_Paused cluster); [done|]. apply wp_bind, wp_trigger; [done|]. intros [err|]; [done|].
  apply wp_bind, wp_reconcileCluster.
  - intros h1 X e Hr. apply writeCall_noPatch. by destruct e.
  - intros [hrc' o'] h1 _ [Hs _]. apply wp_bind, wp_trigger; [by right|done].
Qed.

Lemma run_calls `{LibLaws} h : reconcilerRun h -> guarded (static writeCall) h.
Proof.
  intros [req h' o He|req h' o He|req h' o He|req h' o He];
    [by eapply calls_machine|by eapply calls_host|by eapply calls_cluster|by eapply calls_remediation].
Qed.
