(* ===== verification/Validation.v ===== *)
(** * What the API server admits

    The kubebuilder markers of api/v1alpha1: defaults, enumerations, bounds and
    the rules that make fields immutable, as the API server applies them to an
    object that is written: fields left out get their defaults, then the object
    is validated, and compared with the one it replaces.  A string field is left
    out when it is empty, a number when it is zero ([omitempty]).

    The theorem says which writes of the controllers are admitted: all but those
    that give a machine another provider id. *)

From S2P Require Import Prelude GoStrings GoTime Api Effects Store Lib Samples Policy Robot Rescue Talos HostClaim.
From S2P Require Import Inject Ignition Retry States Machine Safety Remediation HostCtl ClusterCtl Writes.

Local Open Scope Z_scope.

(** ** Markers *)

(** +kubebuilder:default on a string and on a number *)
Definition defaultTo (d s : string) : string := if String.eqb s "" then d else s.
Definition defaultToZ (d n : Z) : Z := if n =? 0 then d else n.

(** +kubebuilder:validation:Enum; a field that is left out is not validated. *)
Definition enum (values : list string) (s : string) : bool :=
  String.eqb s "" || existsb (String.eqb s) values.

(** !has(old) || size(old) == 0 || (has(self) && self == old) *)
Definition immutableOncePopulated (old self : string) : bool := String.eqb old "" || String.eqb self old.

(** The same for a field that is a pointer to a string. *)
Definition immutablePointer (old self : option string) : bool :=
  match old with
  | None => true
  | Some s => String.eqb s "" || bool_decide (self = Some s)
  end.

(** Equality of selectors, whose [matchLabels] is a map. *)
Definition sameSelector (a b : LabelSelector) : bool :=
  bool_decide (list_to_map (sel_MatchLabels a) =@{gmap string string} list_to_map (sel_MatchLabels b)) &&
  bool_decide (sel_MatchExpressions a = sel_MatchExpressions b).

(** ** Hosts *)

Definition hostSpecDefault (s : HetznerRobotHostSpec) : HetznerRobotHostSpec :=
  s <| hs_InstallDisk := defaultTo "/dev/nvme0n1" (hs_InstallDisk s) |>.

Definition hostSpecValid (s : HetznerRobotHostSpec) : bool :=
  (1 <=? hs_ServerID s) &&
  enum ["compute"; "control-plane"; "storage"] (lifecycleString (hs_LifecycleClass s)) &&
  enum ["AlwaysCleanSlate"; "NeverDestructiveByDefault"; "RequiresExternalRelease"]
    (policyString (hs_DestructiveProvisioningPolicy s)).

Definition hostSpecUpdate (old self : HetznerRobotHostSpec) : bool :=
  (hs_ServerID self =? hs_ServerID old) &&
  immutableOncePopulated (hs_ServerIP old) (hs_ServerIP self) &&
  immutableOncePopulated (hs_ServerIPv6Net old) (hs_ServerIPv6Net self) &&
  immutableOncePopulated (hs_InternalIP old) (hs_InternalIP self) &&
  immutableOncePopulated (hs_InstallDisk old) (hs_InstallDisk self).

(** ** Machines, and the machines of a template *)

Definition machineSpecDefault (s : HetznerRobotMachineSpec) : HetznerRobotMachineSpec :=
  s <| ms_OSType := defaultTo "talos" (ms_OSType s) |>
    <| ms_FlatcarChannel := defaultTo "stable" (ms_FlatcarChannel s) |>
    <| ms_InstallDisk := defaultTo "/dev/nvme0n1" (ms_InstallDisk s) |>.

Definition machineSpecValid (s : HetznerRobotMachineSpec) : bool :=
  negb (bool_decide (is_Some (ms_HostRef s)) && bool_decide (is_Some (ms_HostSelector s))) &&
  enum ["talos"; "flatcar"] (ms_OSType s) &&
  enum ["stable"; "beta"; "alpha"] (ms_FlatcarChannel s).

Definition machineSpecUpdate (old self : HetznerRobotMachineSpec) : bool :=
  immutablePointer (ms_ProviderID old) (ms_ProviderID self) &&
  immutablePointer (ms_HostRef old) (ms_HostRef self) &&
  match ms_HostSelector old, ms_HostSelector self with
  | None, _ => true
  | Some sel, Some sel' => sameSelector sel' sel
  | Some _, None => false
  end.

(** ** Clusters *)

Definition vlanDefault (v : VLANConfig) : VLANConfig := v <| vl_PrefixLength := defaultToZ 24 (vl_PrefixLength v) |>.

Definition vlanValid (v : VLANConfig) : bool :=
  (1 <=? vl_ID v) && (vl_ID v <=? 4094) &&
  ((vl_PrefixLength v =? 0) || (1 <=? vl_PrefixLength v) && (vl_PrefixLength v <=? 128)).

Definition clusterSpecDefault (s : HetznerRobotClusterSpec) : HetznerRobotClusterSpec :=
  s <| cs_VLANConfig := vlanDefault <$> cs_VLANConfig s |>.

Definition clusterSpecValid (s : HetznerRobotClusterSpec) : bool :=
  match cs_VLANConfig s with Some v => vlanValid v | None => true end.

(** ** Remediations and releases *)

(** The timeout is a struct, which is never left out. *)
Definition strategyDefault (s : RemediationStrategy) : RemediationStrategy :=
  s <| st_Type := defaultTo "Reboot" (st_Type s) |>
    <| st_RetryLimit := defaultToZ 1 (st_RetryLimit s) |>.

Definition strategyValid (s : RemediationStrategy) : bool :=
  enum ["Reboot"] (st_Type s) && ((st_RetryLimit s =? 0) || (1 <=? st_RetryLimit s)).

Definition releaseSpecValid (s : HetznerRobotHostReleaseSpec) : bool :=
  bool_decide (actionString (rl_ApprovedAction s) = "WipeAndReinstall").

(** ** Admission *)

Definition defaulted (k : Kind) : Obj k -> Obj k :=
  match k with
  | KMachine => fun o => o <| hrm_Spec := machineSpecDefault (hrm_Spec o) |>
  | KHost => fun o => o <| hrh_Spec := hostSpecDefault (hrh_Spec o) |>
  | KCluster => fun o => o <| hrc_Spec := clusterSpecDefault (hrc_Spec o) |>
  | KRemediation => fun o => o <| hrr_Strategy := strategyDefault (hrr_Strategy o) |>
  | KRelease | KSecret => fun o => o
  end.

Definition schemaValid (k : Kind) : Obj k -> bool :=
  match k with
  | KMachine => fun o => machineSpecValid (hrm_Spec o)
  | KHost => fun o => hostSpecValid (hrh_Spec o)
  | KCluster => fun o => clusterSpecValid (hrc_Spec o)
  | KRemediation => fun o => strategyValid (hrr_Strategy o)
  | KRelease => fun o => releaseSpecValid (rel_Spec o)
  | KSecret => fun _ => true
  end.

Definition updateValid (k : Kind) : Obj k -> Obj k -> bool :=
  match k with
  | KMachine => fun old self => machineSpecUpdate (hrm_Spec old) (hrm_Spec self)
  | KHost => fun old self => hostSpecUpdate (hrh_Spec old) (hrh_Spec self)
  | _ => fun _ _ => true
  end.

(** Whether the API server takes an object in place of the one it has. *)
Definition admits (k : Kind) (old self : Obj k) : bool :=
  schemaValid k (defaulted k self) && updateValid k old (defaulted k self).

(** A machine that has a provider id would get another one. *)
Definition rebound (k : Kind) : Obj k -> Obj k -> bool :=
  match k with
  | KMachine => fun old self =>
      negb (immutablePointer (ms_ProviderID (hrm_Spec old)) (ms_ProviderID (hrm_Spec self)))
  | _ => fun _ _ => false
  end.

(** * Facts *)

Lemma enum_default d values s : enum values d = true -> enum values s = true -> enum values (defaultTo d s) = true.
Proof. unfold defaultTo. by destruct (String.eqb s ""). Qed.

Lemma immutable_refl s : immutableOncePopulated s s = true.
Proof. unfold immutableOncePopulated. by rewrite String.eqb_refl, orb_true_r. Qed.

Lemma immutable_default d s : immutableOncePopulated s (defaultTo d s) = true.
Proof. unfold immutableOncePopulated, defaultTo. destruct (String.eqb s "") eqn:Hs; [done|]. apply String.eqb_refl. Qed.

Lemma immutable_filled s s' : s = "" \/ s' = s -> immutableOncePopulated s s' = true.
Proof. intros [->| ->]; [done|apply immutable_refl]. Qed.

Lemma immutablePointer_refl p : immutablePointer p p = true.
Proof. destruct p as [s|]; [|done]. cbn. by rewrite bool_decide_eq_true_2, orb_true_r. Qed.

Lemma sameSelector_refl sel : sameSelector sel sel = true.
Proof. unfold sameSelector. by rewrite !bool_decide_eq_true_2. Qed.

Lemma vlanValid_default v : vlanValid v = true -> vlanValid (vlanDefault v) = true.
Proof.
  destruct v as [id n]. unfold vlanValid, vlanDefault, defaultToZ. cbn -[Z.eqb Z.leb].
  intros [-> Hn]%andb_prop. destruct (n =? 0) eqn:Hz; [done|]. by rewrite Hz.
Qed.

Lemma strategyValid_default s : strategyValid s = true -> strategyValid (strategyDefault s) = true.
Proof.
  destruct s as [t n d]. unfold strategyValid, strategyDefault, defaultToZ. cbn -[Z.eqb Z.leb enum].
  intros [Ht Hn]%andb_prop. rewrite enum_default by done. destruct (n =? 0) eqn:Hz; [done|]. by rewrite Hz.
Qed.

(** Defaults keep a valid object valid. *)
Lemma schemaValid_defaulted k (o : Obj k) : schemaValid k o = true -> schemaValid k (defaulted k o) = true.
Proof.
  destruct k; cbn; try done.
  - unfold machineSpecValid. cbn. rewrite !andb_true_iff. intros [[? ?] ?].
    split_and!; [done|by apply enum_default..].
  - unfold clusterSpecValid. cbn. destruct (cs_VLANConfig _) as [[id n]|]; [|done]. apply vlanValid_default.
  - apply strategyValid_default.
Qed.

Lemma hostSpecValid_same s s' :
  hs_ServerID s' = hs_ServerID s -> hs_LifecycleClass s' = hs_LifecycleClass s ->
  hs_DestructiveProvisioningPolicy s' = hs_DestructiveProvisioningPolicy s ->
  hostSpecValid s' = hostSpecValid s.
Proof. unfold hostSpecValid. by intros -> -> ->. Qed.

(** A host keeps its identity: an address that is set stays. *)
Lemma host_admitted (b a : HetznerRobotHost) ip net :
  hostSpecValid (hrh_Spec b) = true ->
  hrh_Spec a = (hrh_Spec b) <| hs_ServerIP := ip |> <| hs_ServerIPv6Net := net |> ->
  hs_ServerIP (hrh_Spec b) = "" \/ ip = hs_ServerIP (hrh_Spec b) ->
  hs_ServerIPv6Net (hrh_Spec b) = "" \/ net = hs_ServerIPv6Net (hrh_Spec b) ->
  admits KHost b a = true.
Proof.
  intros Hv Ha Hip Hnet. unfold admits. cbn [schemaValid defaulted updateValid].
  replace (hrh_Spec (a <| hrh_Spec := hostSpecDefault (hrh_Spec a) |>)) with (hostSpecDefault (hrh_Spec a)) by done.
  rewrite Ha. rewrite (hostSpecValid_same (hrh_Spec b)) by done. rewrite Hv. unfold hostSpecUpdate. cbn.
  by rewrite Z.eqb_refl, (immutable_filled _ ip), (immutable_filled _ net), immutable_refl, immutable_default.
Qed.

Lemma host_same_admitted (b a : HetznerRobotHost) :
  hostSpecValid (hrh_Spec b) = true -> hrh_Spec a = hrh_Spec b -> admits KHost b a = true.
Proof.
  intros Hv Ha. apply (host_admitted b a (hs_ServerIP (hrh_Spec b)) (hs_ServerIPv6Net (hrh_Spec b))); auto.
  rewrite Ha. by destruct (hrh_Spec b).
Qed.

(** A machine is rejected exactly for its provider id. *)
Lemma machine_admitted (b a : HetznerRobotMachine) :
  machineSpecValid (hrm_Spec b) = true -> specKept b a ->
  admits KMachine b a = negb (rebound KMachine b a).
Proof.
  intros Hv [Hs _]. unfold admits, rebound. rewrite negb_involutive.
  assert (schemaValid KMachine (defaulted KMachine a) = true) as ->.
  { apply schemaValid_defaulted. cbn. unfold machineSpecValid in *.
    pose proof (f_equal ms_HostRef Hs) as H1. pose proof (f_equal ms_HostSelector Hs) as H2.
    pose proof (f_equal ms_OSType Hs) as H3. pose proof (f_equal ms_FlatcarChannel Hs) as H4.
    cbn in H1, H2, H3, H4. by rewrite H1, H2, H3, H4. }
  pose proof (f_equal ms_HostRef Hs) as H1. pose proof (f_equal ms_HostSelector Hs) as H2. cbn in H1, H2.
  cbn [updateValid defaulted andb]. unfold machineSpecUpdate. cbn. rewrite H1, H2, immutablePointer_refl, andb_true_r.
  destruct (ms_HostSelector (hrm_Spec b)) as [sel|]; [rewrite sameSelector_refl|]; apply andb_true_r.
Qed.

Lemma writes_admitted `{Lib} k (b a : Obj k) :
  writes k b a -> schemaValid k b = true -> admits k b a = negb (rebound k b a).
Proof.
  destruct k; cbn [writes]; [| |done| | |done].
  - intros [[Hs _] _] Hv. by apply machine_admitted.
  - intros [[ref Hm]|(ip & net & st & fs & -> & Hip & Hnet & _)] Hv; cbn [rebound negb].
    + apply host_same_admitted; [done|]. symmetry. by apply (hostMove_same ref b a Hm).
    + by eapply host_admitted.
  - intros Hw Hv. unfold admits. cbn [updateValid rebound negb]. rewrite andb_true_r.
    apply (schemaValid_defaulted KCluster). cbn in Hv |- *. unfold clusterSpecValid in *.
    destruct Hw as [(_ & ip & ->)|Hs]; [done|by rewrite Hs].
  - intros [s ->] Hv. unfold admits. cbn [updateValid rebound negb]. rewrite andb_true_r.
    by apply (schemaValid_defaulted KRemediation).
Qed.

(** The API server's defaults are the ones the controllers use where a field is
    left out. *)
Lemma defaults_agree hrm v rem (c : SSHClient) disk image ign :
  configuredDisk (defaulted KMachine hrm) = configuredDisk hrm /\
  isFlatcar (defaulted KMachine hrm) = isFlatcar hrm /\
  InstallFlatcar c (ms_FlatcarChannel (hrm_Spec (defaulted KMachine hrm))) disk image ign =
    InstallFlatcar c (ms_FlatcarChannel (hrm_Spec hrm)) disk image ign /\
  prefixLenOf (vlanDefault v) = prefixLenOf v /\
  getTimeout (defaulted KRemediation rem) = getTimeout rem.
Proof.
  split; [|split; [|split; [|split; [|done]]]].
  - unfold configuredDisk. cbn. unfold defaultTo. by destruct (String.eqb (ms_InstallDisk _) "") eqn:Hd; [|rewrite Hd].
  - unfold isFlatcar. cbn. unfold defaultTo. destruct (String.eqb_spec (ms_OSType (hrm_Spec hrm)) "") as [->|]; done.
  - unfold InstallFlatcar. cbn [defaulted hrm_Spec ms_FlatcarChannel]. cbn. unfold defaultTo.
    by destruct (String.eqb (ms_FlatcarChannel _) "") eqn:Hd; [|rewrite Hd].
  - unfold prefixLenOf, vlanDefault, defaultToZ. destruct v as [id n]. cbn -[Z.eqb].
    by destruct (n =? 0) eqn:Hd; [|rewrite Hd].
Qed.

(** * Properties *)

(** A write of an object that is valid, and what the API server says of it. *)
Definition admittedWrite (X : Set) (e : Eff X) : Prop :=
  match e with
  | EPatch k old self => schemaValid k old = true -> admits k old self = negb (rebound k old self)
  | _ => True
  end.

(** C10: the controllers write what the API server admits.  Whatever it and
    the servers answer, every object that a run of any of the four reconcilers
    writes in place of a valid one passes the defaults, enumerations, bounds and
    immutability rules of the API types (a host keeps its server number and the
    addresses it has; a machine keeps its host reference and its selector), with
    one exception: a machine whose provider id is set, and would be another
    one, is rejected. *)
Theorem writes_pass_validation `{LibLaws} h : reconcilerRun h -> guarded (static admittedWrite) h.
Proof.
  intros Hr%run_calls. revert Hr. apply guarded_static. intros X e Hw. destruct e; try done. exact (writes_admitted _ _ _ Hw).
Qed.

(** ** Witnesses *)

Import Demo.

(** A Flatcar machine in the rescue system, whose installation is the next
    step. *)
Definition rescued (providerID : option string) : HetznerRobotMachine :=
  set_ms ms_OSType "flatcar" (set_ms ms_ProviderID providerID (inState StateInRescue)).

Definition installRun (providerID : option string) : hist :=
  hist_of (goodWorld (rescued providerID) sampleHost) (Reconcile (MkNamespacedName "prod" "hrm-1")).

(** Of each machine a run writes: whether the machine it read is valid, whether
    the written one is admitted, and its state. *)
Definition verdicts (h : hist) : list (bool * bool * ProvisioningState) :=
  map (fun p => (schemaValid KMachine p.1.1, admits KMachine p.1.1 p.1.2, provisioningState p.1.2)) (patches KMachine h).

Lemma writes_pass_validation_witness :
  verdicts (installRun None) = [(true, true, StateInstalling)] /\
  guarded (static admittedWrite) (installRun None).
Proof.
  split; [vm_compute; reflexivity|].
  apply writes_pass_validation, (run_machine (MkNamespacedName "prod" "hrm-1") _ _ (exec_of _ _)).
Defined.

(** ** Another provider id

    A machine that carries the provider id of another server is installed all
    the same, and its status moves on; the write of its new provider id is
    rejected. *)
Lemma other_provider_id_rejected :
  verdicts (installRun (Some "hetzner-robot://4711")) = [(true, true, StateInstalling)] /\
  verdicts (installRun (Some "hetzner-robot://1")) = [(true, false, StateInstalling)].
Proof. split; vm_compute; reflexivity. Qed.
