(* ===== verification/Manager.v ===== *)
(** * The controller manager

    main.go and what it wires together: the scheme, the four controllers with
    the kinds they watch (their [SetupWithManager]), the permissions the
    markers above the reconcilers ask for, and the start.  What the libraries do
    when they are called is a parameter of [main]. *)

From S2P Require Import Prelude GoStrings GoTime Api Effects Lib Samples Policy Robot Rescue Talos HostClaim.
From S2P Require Import Inject Ignition Retry States Machine Safety Remediation HostCtl ClusterCtl Writes.

Local Open Scope Z_scope.

(** ** The scheme *)

(** Group and version, and the names of types. *)
Abbreviation groupVersion := (string * string)%type.
Abbreviation Scheme := (list (groupVersion * string)).

Definition infraGroupVersion : groupVersion := ("infrastructure.cluster.x-k8s.io", "v1alpha1").

(** [scheme.Builder]: the types that were registered, and the group they are
    added to a scheme in. *)
Record Builder := MkBuilder { b_GroupVersion : groupVersion; b_Types : list string }.

Definition Register (types : list string) (b : Builder) : Builder :=
  MkBuilder (b_GroupVersion b) (b_Types b ++ types).

Definition AddToScheme (b : Builder) (s : Scheme) : Scheme := s ++ map (pair (b_GroupVersion b)) (b_Types b).

(** The [init] functions of the API types. *)
Definition registerCluster : Builder -> Builder := Register ["HetznerRobotCluster"; "HetznerRobotClusterList"].
Definition registerHost : Builder -> Builder := Register ["HetznerRobotHost"; "HetznerRobotHostList"].
Definition registerHostRelease : Builder -> Builder :=
  Register ["HetznerRobotHostRelease"; "HetznerRobotHostReleaseList"].
Definition registerMachine : Builder -> Builder := Register ["HetznerRobotMachine"; "HetznerRobotMachineList"].
Definition registerMachineTemplate : Builder -> Builder :=
  Register ["HetznerRobotMachineTemplate"; "HetznerRobotMachineTemplateList"].
Definition registerRemediation : Builder -> Builder :=
  Register ["HetznerRobotRemediation"; "HetznerRobotRemediationList";
            "HetznerRobotRemediationTemplate"; "HetznerRobotRemediationTemplateList"].

(** They run in the order of the files' names. *)
Definition SchemeBuilder : Builder :=
  registerRemediation (registerMachineTemplate (registerMachine (registerHostRelease (registerHost
    (registerCluster (MkBuilder infraGroupVersion [])))))).

(** The [init] of main.go: the types of client-go and of the Cluster API, then
    those of this program; [Must] panics at the first error. *)
Definition initScheme (clientgo clusterv1 : Scheme -> res Scheme) : res Scheme :=
  match clientgo [] with
  | Err err => Err err
  | Ok s =>
      match clusterv1 s with
      | Err err => Err err
      | Ok s => Ok (AddToScheme SchemeBuilder s)
      end
  end.

(** ** The controllers *)

(** What [SetupWithManager] asks for: the kind the reconciler is run for, what
    else it watches, and the reconciler. *)
Record Controller := MkController {
  ct_Name : string;
  ct_For : Kind;
  ct_Releases : option (HetznerRobotHostRelease -> prog (list NamespacedName));
  ct_Reconcile : NamespacedName -> prog outcome
}.

Definition clusterController `{Lib} : Controller :=
  MkController "HetznerRobotCluster" KCluster None ReconcileCluster.
Definition machineController `{Lib} : Controller :=
  MkController "HetznerRobotMachine" KMachine (Some mapHostReleaseToMachines) Reconcile.
Definition hostController `{Lib} : Controller :=
  MkController "HetznerRobotHost" KHost None ReconcileHost.
Definition remediationController `{Lib} : Controller :=
  MkController "HetznerRobotRemediation" KRemediation None ReconcileRemediation.

(** The requests that an event for an object makes. *)
Definition objectMeta (k : Kind) : Obj k -> ObjectMeta :=
  match k with
  | KMachine => hrm_Meta | KHost => hrh_Meta | KRelease => rel_Meta
  | KCluster => hrc_Meta | KRemediation => hrr_Meta | KSecret => sec_Meta
  end.

Definition requests (c : Controller) (k : Kind) (o : Obj k) : prog (list NamespacedName) :=
  if decide (k = ct_For c) then
    Ret [MkNamespacedName (Namespace (objectMeta k o)) (Name (objectMeta k o))]
  else
    match k return Obj k -> prog (list NamespacedName) with
    | KRelease => fun release =>
        match ct_Releases c with Some f => f release | None => Ret [] end
    | _ => fun _ => Ret []
    end o.

(** ** The start *)

Record Flags := MkFlags {
  fl_metricsAddr : string;
  fl_enableLeaderElection : bool;
  fl_probeAddr : string;
  fl_leaderElectionNamespace : string
}.

(** The flags' defaults. *)
Definition defaultFlags : Flags := MkFlags ":8080" false ":8081" "".

(** [ctrl.Options] *)
Record Options := MkOptions {
  op_MetricsBindAddress : string;
  op_HealthProbeBindAddress : string;
  op_LeaderElection : bool;
  op_LeaderElectionID : string;
  op_LeaderElectionNamespace : string
}.

Definition managerOptions (f : Flags) : Options :=
  MkOptions (fl_metricsAddr f) (fl_probeAddr f) (fl_enableLeaderElection f)
    "caphr.infrastructure.cluster.x-k8s.io" (fl_leaderElectionNamespace f).

(** The calls of [main] to controller-runtime. *)
Inductive SetupCall :=
| NewManager (o : Options)
| SetupController (c : Controller)
| AddHealthzCheck (name : string)
| AddReadyzCheck (name : string)
| StartManager.

(** [main] makes a call, and exits with status 1 when it returns an error. *)
Definition orExit (fails : SetupCall -> bool) (c : SetupCall) (rest : list SetupCall * Z) : list SetupCall * Z :=
  if fails c then ([c], 1) else (c :: rest.1, rest.2).

(** The calls made, and the exit status. *)
Definition main `{Lib} (f : Flags) (fails : SetupCall -> bool) : list SetupCall * Z :=
  let call := orExit fails in
  call (NewManager (managerOptions f)) (
  call (SetupController clusterController) (
  call (SetupController machineController) (
  call (SetupController hostController) (
  call (SetupController remediationController) (
  call (AddHealthzCheck "healthz") (
  call (AddReadyzCheck "readyz") (
  call StartManager ([], 0)))))))).

(** ** Permissions

    The +kubebuilder:rbac markers.  The manager runs all four controllers under
    one role, the union of their markers. *)
Record PolicyRule := MkRule { pr_Group : string; pr_Resources : list string; pr_Verbs : list string }.

Definition infraGroup : string := infraGroupVersion.1.
Definition capiGroup : string := "cluster.x-k8s.io".

Definition allVerbs : list string := ["get"; "list"; "watch"; "create"; "update"; "patch"; "delete"].
Definition readVerbs : list string := ["get"; "list"; "watch"].

Definition machineRules : list PolicyRule :=
  [ MkRule infraGroup ["hetznerrobotmachines"] allVerbs;
    MkRule infraGroup ["hetznerrobotmachines/status"] ["get"; "update"; "patch"];
    MkRule infraGroup ["hetznerrobotmachines/finalizers"] ["update"];
    MkRule infraGroup ["hetznerrobothostreleases"] readVerbs;
    MkRule capiGroup ["clusters"; "clusters/status"; "machines"; "machines/status"] readVerbs;
    MkRule "" ["secrets"] readVerbs;
    MkRule "" ["events"] ["create"; "patch"] ].

Definition remediationRules : list PolicyRule :=
  [ MkRule infraGroup ["hetznerrobotremediations"] ["get"; "list"; "watch"; "update"; "patch"];
    MkRule infraGroup ["hetznerrobotremediations/status"] ["get"; "update"; "patch"];
    MkRule infraGroup ["hetznerrobotremediations/finalizers"] ["update"];
    MkRule infraGroup ["hetznerrobotmachines"] readVerbs;
    MkRule infraGroup ["hetznerrobothosts"] readVerbs;
    MkRule infraGroup ["hetznerrobotclusters"] readVerbs;
    MkRule capiGroup ["machines"; "machines/status"] readVerbs;
    MkRule capiGroup ["clusters"] readVerbs;
    MkRule "" ["secrets"] readVerbs ].

Definition hostRules : list PolicyRule :=
  [ MkRule infraGroup ["hetznerrobothosts"] allVerbs;
    MkRule infraGroup ["hetznerrobothosts/status"] ["get"; "update"; "patch"];
    MkRule infraGroup ["hetznerrobothosts/finalizers"] ["update"] ].

Definition clusterRules : list PolicyRule :=
  [ MkRule infraGroup ["hetznerrobotclusters"] allVerbs;
    MkRule infraGroup ["hetznerrobotclusters/status"] ["get"; "update"; "patch"];
    MkRule infraGroup ["hetznerrobotclusters/finalizers"] ["update"];
    MkRule capiGroup ["clusters"; "clusters/status"] readVerbs ].

Definition managerRole : list PolicyRule := machineRules ++ remediationRules ++ hostRules ++ clusterRules.

(** A request to the API server: group, resource and verb. *)
Abbreviation apiRequest := (string * string * string)%type.

Definition memberOf (s : string) (l : list string) : bool := existsb (String.eqb s) l.

Definition granted (role : list PolicyRule) (rq : apiRequest) : bool :=
  let '(group, resource, verb) := rq in
  existsb (fun r => String.eqb (pr_Group r) group && memberOf resource (pr_Resources r) && memberOf verb (pr_Verbs r))
    role.

(** The group and the path of the resource of a kind. *)
Definition resourceOf (k : Kind) : string * string :=
  match k with
  | KMachine => (infraGroup, "hetznerrobotmachines")
  | KHost => (infraGroup, "hetznerrobothosts")
  | KRelease => (infraGroup, "hetznerrobothostreleases")
  | KCluster => (infraGroup, "hetznerrobotclusters")
  | KRemediation => (infraGroup, "hetznerrobotremediations")
  | KSecret => ("", "secrets")
  end.

Definition requestsTo (r : string * string) (verbs : list string) : list apiRequest := map (pair r) verbs.

(** What a call asks of the API server.  The manager's client reads from a
    cache, which lists and watches every kind that is read; the patch helper
    patches the object and its status. *)
Definition apiRequests (X : Set) (e : Eff X) : list apiRequest :=
  match e with
  | EGet k _ | EList k _ _ => requestsTo (resourceOf k) readVerbs
  | EPatch k _ _ =>
      requestsTo (resourceOf k) ["patch"] ++
      requestsTo ((resourceOf k).1, (resourceOf k).2 +:+ "/status") ["patch"]
  | EOwnerMachine _ => requestsTo (capiGroup, "machines") readVerbs
  | EClusterFromMetadata _ | EOwnerCluster _ => requestsTo (capiGroup, "clusters") readVerbs
  | _ => []
  end.

(** * Facts *)

Definition permitted (X : Set) (e : Eff X) : Prop :=
  Forall (fun rq => granted managerRole rq = true) (apiRequests X e).

Lemma reads_permitted k : Forall (fun rq => granted managerRole rq = true) (requestsTo (resourceOf k) readVerbs).
Proof. destruct k; repeat constructor. Qed.

Lemma writes_permitted `{Lib} k (b a : Obj k) : writes k b a -> permitted _ (EPatch k b a).
Proof. destruct k; try done; intros _; repeat constructor. Qed.

Lemma call_permitted `{Lib} X e : writeCall X e -> permitted X e.
Proof.
  destruct e; cbn; try (intros _; repeat constructor; done); try (intros _; apply reads_permitted).
  apply writes_permitted.
Qed.

(** The type of a kind, and of its lists. *)
Definition typeOf (k : Kind) : groupVersion * string :=
  match k with
  | KMachine => (infraGroupVersion, "HetznerRobotMachine")
  | KHost => (infraGroupVersion, "HetznerRobotHost")
  | KRelease => (infraGroupVersion, "HetznerRobotHostRelease")
  | KCluster => (infraGroupVersion, "HetznerRobotCluster")
  | KRemediation => (infraGroupVersion, "HetznerRobotRemediation")
  | KSecret => (("", "v1"), "Secret")
  end.

(** The scheme knows the types of this program, and keeps those of the
    libraries. *)
Lemma scheme_knows clientgo clusterv1 s :
  initScheme clientgo clusterv1 = Ok s ->
  (forall k, k <> KSecret -> In (typeOf k) s /\ In (infraGroupVersion, (typeOf k).2 +:+ "List") s) /\
  exists s1 s2, clientgo [] = Ok s1 /\ clusterv1 s1 = Ok s2 /\ forall t, In t s2 -> In t s.
Proof.
  unfold initScheme. destruct (clientgo []) as [s1|err] eqn:H1; [|done].
  destruct (clusterv1 s1) as [s2|err] eqn:H2; [|done]. intros [= <-]. unfold AddToScheme. split.
  - intros k Hk. split; apply List.in_or_app; right; destruct k; try done; cbn; auto 20.
  - exists s1, s2. split; [done|]. split; [done|]. intros t Ht. apply List.in_or_app. by left.
Qed.

(** The calls of a start that nothing interrupts. *)
Definition startup `{Lib} (f : Flags) : list SetupCall :=
  [NewManager (managerOptions f); SetupController clusterController; SetupController machineController;
   SetupController hostController; SetupController remediationController;
   AddHealthzCheck "healthz"; AddReadyzCheck "readyz"; StartManager].

Lemma orExit_calls fails calls :
  let r := fold_right (orExit fails) ([], 0) calls in
  (r.2 = 0 /\ r.1 = calls /\ forall c, In c calls -> fails c = false) \/
  (r.2 = 1 /\ exists pre c post, calls = pre ++ c :: post /\ r.1 = pre ++ [c] /\ fails c = true /\
     forall c', In c' pre -> fails c' = false).
Proof.
  induction calls as [|c calls IH]; cbn; [by left|]. unfold orExit at 1 3 5 7. destruct (fails c) eqn:Hc; cbn.
  - right. split; [done|]. by exists [], c, calls.
  - destruct IH as [(-> & -> & Hall)|(-> & pre & d & post & -> & -> & Hd & Hpre)].
    + left. split; [done|]. split; [done|]. by intros c' [<-|Hin]; [|apply Hall].
    + right. split; [done|]. exists (c :: pre), d, post. split; [done|]. split; [done|]. split; [done|].
      by intros c' [<-|Hin]; [|apply Hpre].
Qed.

(** * Properties *)

(** C11: the controllers may make every call they make.  Each call to the API
    server in each run of each of the four reconcilers, with the lists and
    watches of the cache behind the reads and the patches of object and status
    behind a write, is granted by the role that the markers of the four
    reconcilers make together. *)
Theorem permissions_suffice `{LibLaws} h : reconcilerRun h -> guarded (static permitted) h.
Proof. intros Hr%run_calls. revert Hr. apply guarded_static. apply call_permitted. Qed.

(** The start is all or nothing.  [main] makes its calls in one order,
    with all four controllers between the creation of the manager and its start;
    it exits with status 1 right after the first call that fails, so that a
    manager that runs has every controller, and with status 0 only when none
    failed. *)
Theorem main_all_or_nothing `{Lib} (f : Flags) (fails : SetupCall -> bool) :
  let r := main f fails in
  (r.2 = 0 /\ r.1 = startup f /\ forall c, In c (startup f) -> fails c = false) \/
  (r.2 = 1 /\ exists pre c post, startup f = pre ++ c :: post /\ r.1 = pre ++ [c] /\ fails c = true /\
     forall c', In c' pre -> fails c' = false).
Proof. exact (orExit_calls fails (startup f)). Qed.

(** ** Witnesses *)

Import Demo.

(** The markers of the machine reconciler alone would not do: they grant no
    write of the host it claims. *)
Definition denied (role : list PolicyRule) (h : hist) : list apiRequest :=
  List.filter (fun rq => negb (granted role rq)) (concat (map (fun ev => apiRequests _ (ev_eff ev)) h)).

Lemma permissions_suffice_witness :
  let h := hist_of (goodWorld sampleHRM sampleHost) (Reconcile (MkNamespacedName "prod" "hrm-1")) in
  denied managerRole h = [] /\
  existsb (fun rq => bool_decide (rq = (infraGroup, "hetznerrobothosts/status", "patch"))) (denied machineRules h) = true /\
  guarded (static permitted) h.
Proof.
  split; [vm_compute; reflexivity|]. split; [vm_compute; reflexivity|].
  apply permissions_suffice, (run_machine (MkNamespacedName "prod" "hrm-1") _ _ (exec_of _ _)).
Defined.
