(* ===== verification/Wakeups.v ===== *)
(** * No machine is forgotten

    A reconciler only runs again when it asks for it, when it fails, or when an
    event arrives for an object it watches (see [Manager.requests]).  Here: how a
    run of the machine reconciler ends that asks for no further run. *)

From S2P Require Import Prelude GoStrings GoTime Api Effects Lib Samples Policy Robot Rescue Talos HostClaim.
From S2P Require Import Inject Ignition Retry States Machine Safety Remediation HostCtl ClusterCtl Writes Manager.

Local Open Scope Z_scope.

(** Whether the work queue runs the request again: after an error or a panic,
    at once, or after a delay; a delay that is not positive counts as none. *)
Definition comesBack (o : outcome) : bool :=
  match o with
  | Returned r => Requeue r || (0 <? RequeueAfter r)
  | Failed _ | Panicked _ => true
  end.

(** States that end the provisioning of a machine. *)
Definition parked (s : ProvisioningState) : bool :=
  match s with StateProvisioned | StateDeleting | StateError | StateOther _ => true | _ => false end.

(** The clock and the times a machine records are less than a century and a half
    apart, so that the differences of times do not overflow. *)
Definition clockSane (h : hist) : Prop := forall now, Ev ENow now ∈ h -> 0 <= now.

Definition timesSane (hrm : HetznerRobotMachine) : Prop :=
  (forall t, mst_LastResetTime (hrm_Status hrm) = Some t -> t <= 2 ^ 62) /\
  (forall t, mst_LastRetryTimestamp (hrm_Status hrm) = Some t -> t <= 2 ^ 62).

(** The run ends in one of the states above, or is followed by another. *)
Definition goesOn (hrm : HetznerRobotMachine) (r : stepResult) (h : hist) : Prop :=
  clockSane h -> timesSane hrm -> comesBack r.2 = true \/ parked (provisioningState r.1) = true.

(** The machine was given its finalizer. *)
Definition finalized `{Lib} (before after : HetznerRobotMachine) : Prop :=
  ContainsFinalizer (Finalizers (hrm_Meta before)) MachineFinalizer = false /\
  Finalizers (hrm_Meta after) = AddFinalizer (Finalizers (hrm_Meta before)) MachineFinalizer.

(** * Facts *)

(** A wait that is left is positive. *)
Lemma remaining_positive total now t :
  0 < total <= 2 ^ 61 -> 0 <= now -> t <= 2 ^ 62 -> since now t < total -> 0 < wrap64 (total - since now t).
Proof.
  intros Ht Hn Hl Hlt. unfold since, timeSub in *. rewrite wrap64_id; [lia|].
  unfold in_int64, minInt64, maxInt64 in *. lia.
Qed.

Lemma backoff_positive n : 0 < computeBackoff n <= 5 * Minute.
Proof.
  unfold computeBackoff. cbv zeta. rewrite clamp_below, !clamp_above.
  remember (Z.min 10 (Z.max 0 (wrap64 (n - 1)))) as k eqn:Hk. assert (0 <= k <= 10) as Hb by lia. clear Hk n.
  assert (0 < 2 ^ k) by (apply Z.pow_pos_nonneg; lia). assert (2 ^ k <= 2 ^ 10) by (apply Z.pow_le_mono_r; lia).
  rewrite wrap64_id by (unfold in_int64, minInt64, maxInt64, Second; lia). unfold Minute, Second. lia.
Qed.

(** Goes through a handler: every call may answer anything. *)
Ltac handler_step :=
  lazymatch goal with
  | |- wp _ (Ret _) _ _ => apply wp_ret; intros _ _; first [by left|by right]
  | |- wp _ (requeue _ _) _ _ => apply wp_ret; intros _ _; by left
  | |- wp _ (failw _ _ _) _ _ => apply wp_ret; intros _ _; by left
  | |- wp _ (fail _ _) _ _ => apply wp_ret; intros _ _; by left
  | |- wp _ (finish _) _ _ => apply wp_ret; intros _ _; by right
  | |- wp _ (_ ≫= _) _ _ => apply wp_bind, wp_any; intros ? ? _
  | |- wp _ (match ?x with _ => _ end) _ _ => destruct x
  | |- wp _ (let _ := _ in _) _ _ => cbv zeta
  end.

Section Handlers.
Context `{Lib} (hrc : HetznerRobotCluster) (robotClient : Client) (id : Z) (ip : string).
Implicit Types (h : hist).

Lemma goesOn_activate hrm h :
  wp any (stateActivateRescue hrm hrc robotClient id ip) (goesOn hrm) h.
Proof.
  unfold stateActivateRescue, cooldown.
  destruct (mst_LastResetTime _) as [t|] eqn:Ht; [|apply wp_bind, wp_ret; repeat handler_step].
  apply wp_bind, wp_bind, wp_trigger; [done|]. intros now.
  destruct (Z.ltb_spec (since now t) resetCooldown) as [Hlt|_]; [|apply wp_ret; repeat handler_step].
  apply wp_ret, wp_ret. intros Hc [Hr _]. left. cbn. apply Z.ltb_lt, remaining_positive; [by compute| |by apply Hr|done].
  apply Hc. constructor.
Qed.

(** The machine changed in nothing that times a reset. *)
Lemma goesOn_same hrm hrm' h (p : prog stepResult) :
  mst_LastResetTime (hrm_Status hrm') = mst_LastResetTime (hrm_Status hrm) ->
  mst_LastRetryTimestamp (hrm_Status hrm') = mst_LastRetryTimestamp (hrm_Status hrm) ->
  wp any p (goesOn hrm') h -> wp any p (goesOn hrm) h.
Proof.
  intros H1 H2. apply wp_mono. intros r h' Hg Hc Ht. apply Hg; [done|]. unfold timesSane in *. by rewrite H1, H2.
Qed.

Lemma goesOn_poll hrm h : wp any (pollRescue hrm hrc robotClient id ip) (goesOn hrm) h.
Proof. unfold pollRescue. repeat first [apply goesOn_activate|handler_step]. Qed.

Lemma goesOn_check hrm h : wp any (stateCheckRescueActive hrm hrc robotClient id ip) (goesOn hrm) h.
Proof. unfold stateCheckRescueActive. repeat first [apply goesOn_poll|apply goesOn_activate|handler_step]. Qed.

(** The preparation of the disks ends the run early, or goes on. *)
Definition earlyGoesOn (hrm : HetznerRobotMachine) (r : stepResult + installSession) (h : hist) : Prop :=
  match r with inl r => goesOn hrm r h | inr _ => True end.

Lemma goesOn_early hrm p h : wp any p (goesOn hrm) h -> wp any (early p) (earlyGoesOn hrm) h.
Proof. intros Hp. unfold early. by apply wp_bind. Qed.

Lemma goesOn_prepare hrm h : wp any (prepareDisks hrm hrc robotClient id ip) (earlyGoesOn hrm) h.
Proof.
  unfold prepareDisks, wipeInRescue.
  repeat first [apply goesOn_early|apply goesOn_activate|done|handler_step].
Qed.

Lemma goesOn_installTalos hrm h : wp any (stateInstallTalos hrm hrc robotClient id ip) (goesOn hrm) h.
Proof.
  unfold stateInstallTalos. apply wp_bind. eapply wp_mono; [|apply goesOn_prepare].
  intros [r|[[[hrm' c] hw] disk]] h1 Hr; [by apply wp_ret|]. unfold installTalosImage. repeat handler_step.
Qed.

Lemma goesOn_installFlatcar hrm machine hrh h :
  wp any (stateInstallFlatcar hrm machine hrc hrh robotClient id ip) (goesOn hrm) h.
Proof.
  unfold stateInstallFlatcar.
  apply wp_bind, wp_any. intros [data|err] h1 _; [|by repeat handler_step].
  apply wp_bind, wp_any. intros [key|err] h2 _; [|by repeat handler_step].
  apply wp_bind. eapply wp_mono; [|apply goesOn_prepare].
  intros [r|[[[hrm' c] hw] disk]] h3 Hr; [by apply wp_ret|]. unfold installFlatcarImage, attempt. repeat handler_step.
Qed.

End Handlers.

Section Runs.
Context `{Lib} (hrc : HetznerRobotCluster).
Implicit Types (h : hist).

Lemma goesOn_runState hrm robotClient machine hrh h :
  wp any (runState hrm hrc machine hrh robotClient) (goesOn hrm) h.
Proof.
  unfold runState. cbv zeta.
  assert (forall s, provisioningState hrm = s -> parked s = true -> wp any (finish hrm) (goesOn hrm) h) as Hpark.
  { intros s <- Hs. apply wp_ret. intros _ _. by right. }
  destruct (provisioningState hrm) eqn:Hs; try by apply (Hpark _ eq_refl).
  - apply goesOn_activate.
  - apply goesOn_check.
  - destruct (isFlatcar hrm); [apply goesOn_installFlatcar|apply goesOn_installTalos].
  - destruct (isFlatcar hrm); [unfold stateWaitFlatcarInstall|unfold stateWaitInstall];
      repeat first [apply goesOn_activate|handler_step].
  - unfold stateWaitTalosMaintenanceMode. repeat handler_step.
  - unfold stateApplyConfig, attempt. repeat handler_step.
  - unfold stateWaitForBoot. repeat handler_step.
  - unfold stateWaitFlatcarBoot. repeat handler_step.
Qed.

Lemma goesOn_provisioned hrm h :
  provisioningState hrm = StateProvisioned -> wp any (reconcileProvisioned hrm) (goesOn hrm) h.
Proof.
  intros Hs. apply (wp_reconcileProvisioned any (machineReferenceFor hrm) (MkMachine (hrm_Meta hrm) None "" None []));
    [done..|]. intros r h' _ (_ & _ & _ & _ & _ & Hin) _ _. right. rewrite Hs in Hin. cbn in Hin.
  apply elem_of_cons in Hin as [->|Hin]; [done|by apply elem_of_nil in Hin].
Qed.

Lemma goesOn_normal hrm machine h : wp any (reconcileNormal hrm hrc machine) (goesOn hrm) h.
Proof.
  unfold reconcileNormal. destruct (decide _) as [Hs|Hs]; [by apply goesOn_provisioned|].
  apply wp_bind, (claims_resolveHost any hrm h); [done|]. intros hrm1 r h1 _ _ [Hhrm _].
  destruct r as [host|err]; [|by repeat handler_step]. cbv zeta. set (hrm2 := set_mst mst_Addresses _ hrm1).
  assert (forall h2, wp any (r ← buildRobotClient hrc;
      unwrap robotClient := r orelse err => failw hrm2 "build robot client: " err;
      runState hrm2 hrc machine host robotClient) (goesOn hrm) h2) as Hrun.
  { intros h2. apply wp_bind, wp_any. intros [c|err] h3 _; [|by repeat handler_step].
    apply (goesOn_same hrm hrm2); [by destruct Hhrm as [->|[n ->]]..|]. apply goesOn_runState. }
  apply wp_bind, wp_any. intros [err|] h2 _; [by repeat handler_step|apply Hrun].
Qed.

Lemma goesOn_attempt hrm machine h : wp any (reconcileAttempt hrm hrc machine) (goesOn hrm) h.
Proof.
  unfold reconcileAttempt, backoffRemaining. cbv zeta.
  assert (forall h1, wp any (r ← reconcileNormal hrm hrc machine;
      let '(hrm, o) := r in
      match o with
      | Failed err => handleError hrm err
      | Returned result => Ret (handleSuccess hrm, Returned result)
      | Panicked msg => Ret (hrm, Panicked msg)
      end) (goesOn hrm) h1) as Hrun.
  { intros h1. apply wp_bind. eapply wp_mono; [|apply goesOn_normal]. intros [hrm' [result|err|msg]] h2 Hg.
    - apply wp_ret. intros Hc Ht. destruct (Hg Hc Ht) as [Hr|Hr]; [by left|right].
      unfold handleSuccess. cbv zeta. by destruct (decide _).
    - unfold handleError. destruct (isPermanentError _); [apply wp_ret; intros _ _; by right|]. cbv zeta.
      apply wp_bind, wp_trigger; [done|]. intros now. apply wp_ret. intros _ _. left. apply Z.ltb_lt, backoff_positive.
    - apply wp_ret. intros _ _. by left. }
  destruct (mst_LastRetryTimestamp _) as [t|] eqn:Ht; [|by apply wp_bind, wp_ret].
  destruct (0 <? _); [|by apply wp_bind, wp_ret]. apply wp_bind, wp_bind, wp_trigger; [done|]. intros now.
  destruct (Z.ltb_spec (since now t) (computeBackoff (mst_RetryCount (hrm_Status hrm)))) as [Hlt|_]; [|by apply wp_ret].
  apply wp_ret, wp_ret. intros Hc [_ Hr]. left. apply Z.ltb_lt, remaining_positive; [|apply Hc; constructor|by apply Hr|done].
  pose proof (backoff_positive (mst_RetryCount (hrm_Status hrm))). unfold Minute, Second in *. lia.
Qed.

Lemma goesOn_machine hrm machine h :
  wp any (reconcileMachine hrm hrc machine) (fun r h' => goesOn hrm r h' \/ finalized hrm r.1) h.
Proof.
  unfold reconcileMachine. destruct (DeletionTimestamp (hrm_Meta hrm)) as [t|] eqn:Hd.
  { apply (wp_reconcileDelete any (machineReferenceFor hrm)); [done|]. intros r h' _ Hr _. left. intros _ _. right.
    by destruct Hr as [->| ->]. }
  destruct (ContainsFinalizer _ _) eqn:Hf; cbn [negb]; [|apply wp_ret; by right].
  assert (forall hrm1 h1, mst_LastResetTime (hrm_Status hrm1) = mst_LastResetTime (hrm_Status hrm) ->
    mst_LastRetryTimestamp (hrm_Status hrm1) = mst_LastRetryTimestamp (hrm_Status hrm) ->
    wp any (reconcileAttempt hrm1 hrc machine) (fun r h' => goesOn hrm r h' \/ finalized hrm r.1) h1) as Hrun.
  { intros hrm1 h1 H1 H2. eapply wp_mono; [|apply (goesOn_same hrm hrm1); [done|done|apply goesOn_attempt]]. by left. }
  apply wp_bind, wp_checkTimeout; [done|by intros _; apply Hrun|]. intros _ now.
  destruct (mst_ProvisionStarted _) as [started|]; [destruct (_ <? _)|]; [|by apply Hrun..].
  apply wp_ret. left. intros _ _. by right.
Qed.
End Runs.

(** What a run of the machine reconciler has done that asks for no other: the
    machine is gone, its cluster is paused, or it was written, in a final
    state or with its new finalizer. *)
Definition restsBecause `{Lib} (req : NamespacedName) (h : hist) : Prop :=
  (exists err, Ev (EGet KMachine req) (Err err) ∈ h /\ err_notfound err = true) \/
  (exists meta cluster, Ev (EClusterFromMetadata meta) (Ok (Some cluster)) ∈ h /\ cl_Paused cluster = true) \/
  (exists before after a h1, h = Ev (EPatch KMachine before after) a :: h1 /\
     Ev (EGet KMachine req) (Ok before) ∈ h1 /\
     (parked (provisioningState after) = true \/ finalized before after)).

(** The event of the write of a machine runs its reconciler again. *)
Lemma own_event_wakes `{Lib} (hrm : HetznerRobotMachine) :
  requests machineController KMachine hrm = Ret [machineKey hrm].
Proof. reflexivity. Qed.

(** * Properties *)

(** C9: no machine is forgotten.  Whatever the API server, the Robot service
    and the servers answer, as long as the clock and the recorded times are less
    than 146 years apart, a run of the machine reconciler either comes back (it
    fails, or asks for a run at once or after a positive delay), or the machine
    does not exist, its cluster is paused, or the run has just written the
    machine, in state Provisioned, Error or Deleting (or one that no release
    of the controller knows), or with the finalizer it was missing; the event of
    that write, when it succeeds, runs the reconciler again. *)
Theorem machine_not_forgotten `{LibLaws} (req : NamespacedName) h o :
  exec (Reconcile req) [] h o -> clockSane h ->
  (forall hrm : HetznerRobotMachine, Ev (EGet KMachine req) (Ok hrm) ∈ h -> timesSane hrm) ->
  comesBack o = true \/ restsBecause req h.
Proof.
  intros He. by_exec He. clear h o. unfold Reconcile.
  assert (forall r h', comesBack r = true -> wp any (Ret r) (fun r h => clockSane h ->
    (forall hrm : HetznerRobotMachine, Ev (EGet KMachine req) (Ok hrm) ∈ h -> timesSane hrm) ->
    comesBack r = true \/ restsBecause req h) h') as Hret by (intros; apply wp_ret; by left).
  apply wp_bind, wp_trigger; [done|]. intros [hrm|err].
  2: { destruct (err_notfound err) eqn:Hn; [|by apply Hret]. apply wp_ret. intros _ _. right. left.
       exists err. split; [constructor|done]. }
  apply wp_bind, wp_trigger; [done|]. intros [[machine|]|err]; try by apply Hret.
  apply wp_bind, wp_trigger; [done|]. intros [[cluster|]|err]; try by apply Hret.
  destruct (cl_Paused cluster) eqn:Hp.
  { apply wp_ret. intros _ _. right. right. left. exists (m_Meta machine), cluster. split; [constructor|done]. }
  destruct (cl_InfrastructureRef cluster) as [ref|]; [|by apply Hret].
  apply wp_bind, wp_trigger; [done|]. intros [hrc|err]; [|by apply Hret].
  apply wp_bind, wp_trigger; [done|]. intros [err|]; [by apply Hret|]. clear Hret.
  set (h0 := _ :: _). assert (Ev (EGet KMachine req) (Ok hrm) ∈ h0) as Hget.
  { unfold h0. do 4 (apply elem_of_cons; right). constructor. }
  clearbody h0. apply wp_bind. eapply wp_mono; [|apply (wp_extends any), goesOn_machine].
  intros [hrm' o] h1 [Hr H1]. apply wp_bind, wp_trigger; [done|]. intros a. apply wp_ret. intros Hc Ht.
  assert (Ev (EGet KMachine req) (Ok hrm) ∈ h1) as Hin by (by eapply extends_elem).
  assert (forall h2, parked (provisioningState hrm') = true \/ finalized hrm hrm' ->
    h2 = Ev (EPatch KMachine hrm hrm') a :: h1 -> restsBecause req h2) as Hrest.
  { intros h2 Hw ->. right. right. by exists hrm, hrm', a, h1. }
  destruct Hr as [Hg|Hf]; [|right; by apply Hrest; [right|]].
  destruct Hg as [Hg|Hg]; [| |by left|right; by apply Hrest; [left|]].
  - intros now Hnow. apply Hc. by apply elem_of_cons; right.
  - apply Ht. by apply elem_of_cons; right.
Qed.

(** ** Witnesses *)

Import Demo.

(** A second failure was 100 nanoseconds ago. *)
Definition failedTwice : HetznerRobotMachine :=
  set_mst mst_LastRetryTimestamp (Some 900) (set_mst mst_RetryCount 2 (inState StateInRescue)).

Lemma machine_not_forgotten_witness :
  let w := goodWorld failedTwice sampleHost in
  let p := Reconcile (MkNamespacedName "prod" "hrm-1") in
  clockSane (hist_of w p) /\ timesSane failedTwice /\
  result_of w p = Returned (MkResult (Minute - 100)) /\
  (comesBack (result_of w p) = true \/ restsBecause (MkNamespacedName "prod" "hrm-1") (hist_of w p)).
Proof.
  intros w p. assert (clockSane (hist_of w p)) as Hc by (by intros now ->%clock_read).
  assert (timesSane failedTwice) as Ht by (split; intros t; [done|intros [= <-]; done]).
  split; [exact Hc|]. split; [exact Ht|]. split; [vm_compute; reflexivity|].
  apply (machine_not_forgotten (MkNamespacedName "prod" "hrm-1") (hist_of w p) (result_of w p)); [apply exec_of|exact Hc|].
  intros hrm ->%machine_read. exact Ht.
Defined.

(** A paused cluster ends a run without another, and the controllers watch no
    Cluster of the Cluster API: its end of the pause wakes nobody. *)
Definition pausedWorld : oracle := fun h X e =>
  match e in Eff X return X with
  | EClusterFromMetadata _ => Ok (Some (sampleCluster <| cl_Paused := true |>))
  | e => answer (goodWorld sampleHRM sampleHost) h _ e
  end.

Lemma paused_not_resumed :
  (run_oracle pausedWorld (Reconcile (MkNamespacedName "prod" "hrm-1")) []).2 = Returned noRequeue.
Proof. vm_compute. reflexivity. Qed.
