(* ===== verification/RemediationLife.v ===== *)
(** * The life of a remediation

    What Remediation leaves open: that a remediation gets to its end.  When the
    objects it needs are there, the host may be reset and the Robot service
    accepts, its status after every run is known, and after two runs per reset
    and one more it is in its terminal phase. *)

From S2P Require Import Prelude GoStrings GoTime Api Effects Answers Lib Samples Policy Robot HostClaim.
From S2P Require Import Rescue Retry States Remediation Machine Safety HostCtl ClusterCtl Writes Wakeups.

Local Open Scope Z_scope.

(** The answers of a run for the remediation [rem] in which the objects it needs
    are there, the host may be reset, and writes and requests succeed. *)
Definition remServes `{Lib} (rem : HetznerRobotRemediation) : answers := fun X e =>
  match e in Eff X return X -> Prop with
  | EGet k _ =>
      match k return res (Obj k) -> Prop with
      | KRemediation => fun r => r = Ok rem
      | KMachine => fun r => exists hrm : HetznerRobotMachine, r = Ok hrm /\ statusHostRef hrm <> ""
      | KHost => fun r => exists host, r = Ok host /\ disposable host
      | KCluster | KSecret => fun r => exists o, r = Ok o
      | KRelease => fun _ => True
      end
  | EOwnerMachine _ => fun r => exists machine, r = Ok (Some machine) /\ m_InfrastructureRefName machine <> ""
  | EClusterFromMetadata _ => fun r => exists cluster, r = Ok (Some cluster) /\ is_Some (cl_InfrastructureRef cluster)
  | ENewPatchHelper _ _ | EPatch _ _ _ => fun e => e = None
  | EHttp _ => fun a => accepted anyResult a tt
  | _ => fun _ => True
  end.

(** The phase and the number of resets after so many of these runs of a new
    remediation with this retry limit. *)
Definition lifeAt (limit : Z) (runs : nat) : RemediationPhase * nat :=
  let m := Z.to_nat (Z.max 1 limit) in
  match runs with
  | O => (RemediationPhaseUnset, 0%nat)
  | S i =>
      if Nat.ltb i (2 * m) then
        (if Nat.even i then RemediationPhaseRunning else RemediationPhaseWaiting, S (Nat.div2 i))
      else (RemediationPhaseDeleting, m)
  end.

(** Such runs one after the other, each of which reads what the one before it
    left: how many there were, the resets the Robot service accepted, the
    remediation at the end, and whether the last one asks for another. *)
Inductive lifeRuns `{Lib} (req : NamespacedName) (rem : HetznerRobotRemediation) :
  nat -> nat -> HetznerRobotRemediation -> bool -> Prop :=
| life_new : lifeRuns req rem 0 0 rem true
| life_run n k rem1 again h o rem2 :
    lifeRuns req rem n k rem1 again ->
    exec (ReconcileRemediation req) [] h o -> answeredBy (remServes rem1) h -> stored rem1 h rem2 ->
    lifeRuns req rem (S n) (k + acceptedPosts h) rem2 (comesBack o).

(** * Facts *)

(** The status after one such run, and its resets. *)
Definition remStep (limit : Z) (s : HetznerRobotRemediationStatus) (now : Z) : HetznerRobotRemediationStatus * nat :=
  match rs_Phase s with
  | RemediationPhaseUnset => (MkRemediationStatus RemediationPhaseRunning 1 (Some now), 1%nat)
  | RemediationPhaseRunning => (MkRemediationStatus RemediationPhaseWaiting (rs_RetryCount s) (rs_LastRemediated s), 0%nat)
  | RemediationPhaseWaiting =>
      if limit <=? rs_RetryCount s then
        (MkRemediationStatus RemediationPhaseDeleting (rs_RetryCount s) (rs_LastRemediated s), 0%nat)
      else (MkRemediationStatus RemediationPhaseRunning (wrap64 (rs_RetryCount s + 1)) (Some now), 1%nat)
  | _ => (s, 0%nat)
  end.

Lemma getTimeout_positive rem : 0 < getTimeout rem.
Proof. unfold getTimeout. cbv zeta. destruct (Z.ltb_spec 0 (st_Timeout (hrr_Strategy rem))); [done|by compute]. Qed.

Section Run.
Context `{Lib} (Hurl : forall id, NewRequestError "POST" (robotBaseURL +:+ resetPath id) = None).
Context (rem : HetznerRobotRemediation).

Lemma known_getOr k kind key (Q : res (Obj k) -> hist -> Prop) h :
  (forall r, remServes rem _ (EGet k key) r ->
     exists o, r = Ok o /\ Q (Ok o) (Ev (EGet k key) r :: h)) ->
  known (remServes rem) (getOr k kind key) Q h.
Proof. intros HQ. unfold getOr. apply known_call. intros r Hr. destruct (HQ r Hr) as (o & -> & Ho). by apply known_ret. Qed.

(** The object chain is there. *)
Lemma known_resolve machine (Q : res (Z * HetznerRobotHost * HetznerRobotCluster) -> hist -> Prop) h :
  m_InfrastructureRefName machine <> "" ->
  (forall host hrc h', onlyReads h' h -> disposable host -> Q (Ok (hs_ServerID (hrh_Spec host), host, hrc)) h') ->
  known (remServes rem) (resolveServerAndCluster machine) Q h.
Proof.
  intros Hm HQ. unfold resolveServerAndCluster. cbv zeta.
  destruct (String.eqb_spec (m_InfrastructureRefName machine) "") as [|_]; [done|].
  apply known_bind, known_getOr. intros r (hrm & -> & Hr). exists hrm. split; [done|].
  destruct (String.eqb_spec (statusHostRef hrm) "") as [|_]; [done|].
  apply known_bind, known_getOr. intros r (host & -> & Hd). exists host. split; [done|].
  apply known_call. intros r (cluster & -> & [ref Href]). rewrite Href.
  apply known_bind, known_getOr. intros r (hrc & ->). exists hrc. split; [done|].
  apply known_ret, HQ; [|done]. repeat (apply onlyReads_cons; [done|]). reflexivity.
Qed.

(** A reset is accepted. *)
Lemma known_resetServer id hrc n (Q : remResult -> hist -> Prop) h :
  (forall now o h', acceptedPosts h' = S (acceptedPosts h) -> comesBack o = true ->
     Q (rem <| hrr_Status := MkRemediationStatus RemediationPhaseRunning n (Some now) |>, o) h') ->
  known (remServes rem) (resetServer rem id hrc n) Q h.
Proof.
  intros HQ. unfold resetServer. apply known_bind. unfold NewFromCluster. cbv zeta.
  apply known_call. intros r (secret & ->). apply known_ret. unfold ResetServer, post. apply known_bind, known_bind.
  rewrite Hurl. apply known_call. intros a Ha. set (c := New _ _).
  assert (forall h1, acceptedPosts (Ev (EHttp (resetRequest c id ResetTypeHardware)) a :: h1) = S (acceptedPosts h1)) as Hacc.
  { intros h1. by apply (acceptedPosts_reset c id ResetTypeHardware a None). }
  destruct Ha as (resp & -> & -> & Hs & ->). destruct (Z.leb_spec 400 (rsp_StatusCode resp)) as [|_]; [lia|].
  apply known_ret, known_ret. apply known_call. intros now _. apply known_ret, HQ.
  - transitivity (S (acceptedPosts (Ev (EGet KSecret (MkNamespacedName (secretNamespace hrc (cs_RobotSecretRef (hrc_Spec hrc))) (sr_Name (cs_RobotSecretRef (hrc_Spec hrc))))) (Ok secret) :: h))); [apply Hacc|done].
  - apply Z.ltb_lt, getTimeout_positive.
Qed.

(** The run's body makes the step of the status. *)
Definition stepDone (h : hist) (r : remResult) (h' : hist) : Prop :=
  exists now, let step := remStep (st_RetryLimit (hrr_Strategy rem)) (hrr_Status rem) now in
    r.1 = rem <| hrr_Status := step.1 |> /\ acceptedPosts h' = (step.2 + acceptedPosts h)%nat /\
    match rs_Phase step.1 with
    | RemediationPhaseRunning | RemediationPhaseWaiting => comesBack r.2 = true
    | _ => comesBack r.2 = false
    end.

Lemma known_reconcileRemediation machine h :
  m_InfrastructureRefName machine <> "" ->
  known (remServes rem) (reconcileRemediation rem machine) (stepDone h) h.
Proof.
  intros Hm. unfold reconcileRemediation. destruct (decide _) as [Hd|_].
  { apply known_ret. exists 0. unfold remStep. rewrite Hd. cbn. rewrite Hd. split; [by destruct rem|done]. }
  apply known_bind, known_resolve; [done|]. intros host hrc h1 H1 Hdisp.
  apply acceptedPosts_reads in H1. apply reset_disposable in Hdisp.
  assert (forall id n, (forall now, remStep (st_RetryLimit (hrr_Strategy rem)) (hrr_Status rem) now =
    (MkRemediationStatus RemediationPhaseRunning n (Some now), 1%nat)) ->
    known (remServes rem) (resetServer rem id hrc n) (stepDone h) h1) as Hreset.
  { intros id n Hstep. apply known_resetServer. intros now o h' Hacc Hb. exists now. rewrite Hstep. cbn.
    split; [done|]. split; [congruence|done]. }
  unfold stepDone, remStep in *. destruct (rs_Phase (hrr_Status rem)) eqn:Hp.
  - unfold reconcileInitial. rewrite Hdisp. by apply Hreset.
  - apply known_ret. exists 0. done.
  - unfold reconcileWaiting. destruct (_ <=? _).
    + apply known_ret. exists 0. done.
    + rewrite Hdisp. by apply Hreset.
  - apply known_ret. exists 0. cbn. rewrite Hp. split; [by destruct rem|done].
  - apply known_ret. exists 0. cbn. rewrite Hp. split; [by destruct rem|done].
Qed.

(** The whole run writes the remediation with that status. *)
Lemma run_step req h o rem' :
  exec (ReconcileRemediation req) [] h o -> answeredBy (remServes rem) h -> stored rem h rem' ->
  exists now, let step := remStep (st_RetryLimit (hrr_Strategy rem)) (hrr_Status rem) now in
    rem' = rem <| hrr_Status := step.1 |> /\ acceptedPosts h = step.2 /\
    comesBack o = match rs_Phase step.1 with RemediationPhaseRunning | RemediationPhaseWaiting => true | _ => false end.
Proof.
  intros He HR. pattern o, h. refine (known_exec _ _ _ _ _ _ He HR _). clear He HR h o.
  unfold ReconcileRemediation. apply known_call. intros r ->.
  apply known_call. intros r (machine & -> & Hm). apply known_call. intros e ->.
  set (h0 := _ :: _). assert (acceptedPosts h0 = 0%nat) as Hacc by done. clearbody h0.
  apply known_bind. eapply known_mono; [by apply known_reconcileRemediation|].
  intros [rem1 o] h1 (now & H1 & Hposts & Hb). cbn [fst snd] in H1, Hb. apply known_call. intros e ->. apply known_ret.
  intros Hst. exists now. unfold stored in Hst. rewrite patches_cons in Hst. cbn [patchOf] in Hst.
  destruct (decide _) as [eq|]; [|done]. rewrite (proof_irrel eq eq_refl) in Hst. cbn [castObj eq_rect] in Hst.
  destruct Hst as [_ ->]. split; [done|]. split; [|by destruct (rs_Phase _)].
  rewrite Hacc in Hposts. rewrite Nat.add_0_r in Hposts. exact Hposts.
Qed.
End Run.

(** The trajectory, with the retry count. *)
Definition onTrack (limit : Z) (n k : nat) (s : HetznerRobotRemediationStatus) : Prop :=
  lifeAt limit n = (rs_Phase s, k) /\ (n <> 0%nat -> rs_RetryCount s = Z.of_nat k).

Lemma onTrack_step limit n k s now :
  limit <= maxInt64 -> onTrack limit n k s ->
  onTrack limit (S n) (k + (remStep limit s now).2) (remStep limit s now).1.
Proof.
  intros Hl [Ht Hc]. unfold onTrack. destruct s as [phase count last]. cbn in Ht, Hc.
  unfold lifeAt in *. set (m := Z.to_nat (Z.max 1 limit)) in *. assert (1 <= m)%nat as Hm by lia.
  destruct n as [|i]; [injection Ht as <- <-; destruct (Nat.ltb_spec 0 (2 * m)); [done|lia]|].
  specialize (Hc ltac:(done)). subst count. destruct (Nat.ltb_spec i (2 * m)) as [Hi|Hi].
  2: { injection Ht as <- <-. cbn [remStep rs_Phase fst snd]. destruct (Nat.ltb_spec (S i) (2 * m)); [lia|].
    by rewrite Nat.add_0_r. }
  destruct (Nat.Even_or_Odd i) as [[j ->]|[j ->]].
  - rewrite Nat.even_even, Nat.div2_double in Ht. injection Ht as <- <-. cbn [remStep rs_Phase rs_RetryCount fst snd].
    destruct (Nat.ltb_spec (S (2 * j)) (2 * m)); [|lia].
    rewrite <- Nat.add_1_r, Nat.even_odd, Nat.add_1_r, Nat.div2_succ_double. by rewrite Nat.add_0_r.
  - rewrite Nat.even_odd in Ht. rewrite Nat.add_1_r, Nat.div2_succ_double in Ht. injection Ht as <- <-.
    unfold remStep. cbn [rs_Phase rs_RetryCount]. replace (S (2 * j + 1)) with (2 * S j)%nat by lia.
    rewrite Nat.even_even, Nat.div2_double.
    destruct (Z.leb_spec limit (Z.of_nat (S j))) as [Hg|Hg]; cbn [fst snd rs_Phase rs_RetryCount].
    + destruct (Nat.ltb_spec (2 * S j) (2 * m)); [lia|]. rewrite Nat.add_0_r. replace m with (S j) by lia. done.
    + destruct (Nat.ltb_spec (2 * S j) (2 * m)); [|lia]. rewrite Nat.add_1_r. split; [done|]. intros _.
      rewrite wrap64_id; [lia|]. unfold in_int64, minInt64, maxInt64 in *. lia.
Qed.

Lemma onTrack_phase limit n k s :
  onTrack limit (S n) k s ->
  rs_Phase s = RemediationPhaseRunning \/ rs_Phase s = RemediationPhaseWaiting \/ rs_Phase s = RemediationPhaseDeleting.
Proof.
  intros [Ht _]. cbn [lifeAt] in Ht. destruct (Nat.ltb _ _); [destruct (Nat.even n)|]; injection Ht as <- _; auto.
Qed.

(** * Properties *)

(** C15: a remediation gets to its end.  Of a new remediation, in runs in which
    the objects it needs are there, the host may be reset and writes and requests
    succeed, each reading what the one before wrote, and when net/http accepts
    the URLs of the reset endpoint of the Robot service for a POST: the phase and the number of
    resets after every run are those of [lifeAt] (Running and Waiting in turn,
    two runs per reset), the retry count is the number of resets, and as long as
    the remediation has not ended the run asks for another.  So after two runs
    for each of the [retryLimit] resets (one when the limit is below one) and
    one more it is in its terminal phase, and stays there. *)
Theorem remediation_ends `{Lib} (req : NamespacedName) rem n k rem' again :
  (forall id, NewRequestError "POST" (robotBaseURL +:+ resetPath id) = None) ->
  rs_Phase (hrr_Status rem) = RemediationPhaseUnset ->
  st_RetryLimit (hrr_Strategy rem) <= maxInt64 ->
  lifeRuns req rem n k rem' again ->
  lifeAt (st_RetryLimit (hrr_Strategy rem)) n = (rs_Phase (hrr_Status rem'), k) /\
  (n <> 0%nat -> rs_RetryCount (hrr_Status rem') = Z.of_nat k) /\
  again = bool_decide (rs_Phase (hrr_Status rem') <> RemediationPhaseDeleting) /\
  (2 * Z.max 1 (st_RetryLimit (hrr_Strategy rem)) < Z.of_nat n ->
   rs_Phase (hrr_Status rem') = RemediationPhaseDeleting).
Proof.
  intros Hurl Hp Hl Hruns. set (limit := st_RetryLimit (hrr_Strategy rem)) in *.
  assert (onTrack limit n k (hrr_Status rem') /\ hrr_Strategy rem' = hrr_Strategy rem /\
    again = bool_decide (rs_Phase (hrr_Status rem') <> RemediationPhaseDeleting)) as ([Ht Hc] & _ & Ha).
  { induction Hruns as [|n k rem1 again h o rem2 _ IH He HR Hst].
    - split; [split; [by rewrite Hp|done]|]. split; [done|]. by rewrite Hp.
    - destruct IH as (IH & Hs & _). destruct (run_step Hurl rem1 req h o rem2 He HR Hst) as (now & -> & -> & ->).
      cbn [hrr_Status hrr_Strategy]. rewrite Hs. fold limit.
      apply (onTrack_step limit n k (hrr_Status rem1) now Hl) in IH. split; [exact IH|]. split; [exact Hs|].
      apply onTrack_phase in IH. cbn -[remStep]. by destruct IH as [->|[->| ->]]. }
  split; [done|]. split; [done|]. split; [done|]. intros Hn. unfold lifeAt in Ht. destruct n as [|i]; [lia|].
  destruct (Nat.ltb_spec i (2 * Z.to_nat (Z.max 1 limit))) as [Hi|Hi]; [lia|]. by injection Ht as <- _.
Qed.

(** ** Witnesses *)

Import Demo.

Lemma world_serves rem : answeredBy (remServes rem) (remediationRun rem).
Proof.
  unfold answeredBy. rewrite Forall_forall. intros [X e x] Hin%list_elem_of_In.
  apply run_oracle_answers in Hin as [Hn|[h' ->]]; [by apply elem_of_nil in Hn|]. cbn [ev_eff ev_resp ev_type].
  destruct e as [|[] key|[] ? ?| | | | | | | | | | | | | |]; cbn; try done;
    repeat eexists; try done.
Qed.

(** One run of the sample remediation in its world. *)
Lemma remediation_life_step n k rem rem1 again :
  lifeRuns (MkNamespacedName "prod" "m-1") rem n k rem1 again ->
  stored rem1 (remediationRun rem1) (remediationAfter rem1) ->
  lifeRuns (MkNamespacedName "prod" "m-1") rem (S n) (k + acceptedPosts (remediationRun rem1)) (remediationAfter rem1)
    (comesBack (result_of (remediationWorld rem1) (ReconcileRemediation (MkNamespacedName "prod" "m-1")))).
Proof. intros Hr Hs. eapply life_run; [exact Hr|apply exec_of|apply world_serves|exact Hs]. Qed.

(** The sample remediation, with limit two, after five runs. *)
Lemma remediation_ends_witness :
  lifeRuns (MkNamespacedName "prod" "m-1") sampleRemediation 5 2 remediationEnd false /\
  lifeAt 2 5 = (rs_Phase (hrr_Status remediationEnd), 2%nat) /\
  (5%nat <> 0%nat -> rs_RetryCount (hrr_Status remediationEnd) = 2) /\
  false = bool_decide (rs_Phase (hrr_Status remediationEnd) <> RemediationPhaseDeleting) /\
  (2 * Z.max 1 2 < 5 -> rs_Phase (hrr_Status remediationEnd) = RemediationPhaseDeleting).
Proof.
  assert (Hruns : lifeRuns (MkNamespacedName "prod" "m-1") sampleRemediation 5 2 remediationEnd false).
  { pose proof (life_new (MkNamespacedName "prod" "m-1") sampleRemediation) as Hr.
    do 5 (apply remediation_life_step in Hr; [|vm_compute; by split]). exact Hr. }
  split; [exact Hruns|].
  apply (remediation_ends (MkNamespacedName "prod" "m-1") sampleRemediation 5 2 remediationEnd false); done.
Defined.
