(* ===== verification/Leases.v ===== *)
(** * The lease book

    What the controllers promise about hosts, without the API server, the
    reconcilers and the patches: a book of leases.  A host is leased to at most
    one machine, and a machine writes down the host it has.  [leaseStep] is what
    one reconciliation may enter in the book; nobody else enters anything.
    OwnershipRuns shows that every run of the machine reconciler does only that. *)

From S2P Require Import Prelude Api Store.

(** The machine of each leased host, and the host each machine has written
    down, both by namespace and name. *)
Record Book := MkBook {
  leases : gmap okey okey;
  recorded : gmap okey string
}.

(** What the machine [self] may do; [dying] says that it is being deleted while
    its controller holds it. *)
Inductive leaseStep (self : okey) (dying : Prop) : Book -> Book -> Prop :=
(** it takes a host nobody has, *)
| lease_acquire h g r : g !! h = None -> leaseStep self dying (MkBook g r) (MkBook (<[h := self]> g) r)
(** or that of a machine that has not written down any host; *)
| lease_succeed h m g r :
    g !! h = Some m -> r !! m = None -> leaseStep self dying (MkBook g r) (MkBook (<[h := self]> g) r)
(** it writes down, once, a host that is its own; *)
| lease_record n g r :
    g !! (self.1, n) = Some self -> r !! self = None ->
    leaseStep self dying (MkBook g r) (MkBook g (<[self := n]> r))
(** while it is deleted it is struck off, and it gives back what it has, as it
    may when it has written down nothing. *)
| lease_release h g r :
    dying \/ r !! self = None -> g !! h = Some self -> leaseStep self dying (MkBook g r) (MkBook (delete h g) r)
| lease_forget g r :
    dying -> leaseStep self dying (MkBook g r) (MkBook g (delete self r)).

(** Every machine has the host it has written down. *)
Definition bookOK (b : Book) : Prop := forall m n, recorded b !! m = Some n -> leases b !! (m.1, n) = Some m.

(** * Facts *)

Lemma MkBook_eta b : MkBook (leases b) (recorded b) = b.
Proof. by destruct b. Qed.

Lemma leaseStep_mono self (P P' : Prop) b b' : (P -> P') -> leaseStep self P b b' -> leaseStep self P' b b'.
Proof.
  intros HP [h g r Hh|h m g r Hh Hm|n g r Hn Hr|h g r Hp Hh|g r Hp];
    [by apply lease_acquire|by eapply lease_succeed|by apply lease_record|apply lease_release; tauto|apply lease_forget; auto].
Qed.

Lemma leaseSteps_mono self (P P' : Prop) b b' :
  (P -> P') -> rtc (leaseStep self P) b b' -> rtc (leaseStep self P') b b'.
Proof.
  intros HP Hr. induction Hr as [b|b1 b2 b3 H12 _ IH]; [done|].
  eapply rtc_l; [by eapply leaseStep_mono|exact IH].
Qed.

(** What another machine has written down is not touched. *)
Lemma leaseStep_others self dying b b' m :
  leaseStep self dying b b' -> m <> self -> recorded b' !! m = recorded b !! m.
Proof.
  intros [h g r Hh|h m' g r Hh Hm|n g r Hn Hr|h g r Hp Hh|g r Hp] Hne; cbn; try done.
  - by rewrite lookup_insert_ne.
  - by rewrite lookup_delete_ne.
Qed.

(** A machine that is not deleted keeps the host it has written down. *)
Lemma leaseStep_keeps self (dying : Prop) b b' m n :
  leaseStep self dying b b' -> (m = self -> ~ dying) -> recorded b !! m = Some n -> recorded b' !! m = Some n.
Proof.
  intros Hs Hd Hr. destruct (decide (m = self)) as [->|Hne].
  - specialize (Hd eq_refl). destruct Hs; cbn in *; congruence.
  - by rewrite (leaseStep_others self dying b b').
Qed.

Lemma leaseSteps_keep self (dying : Prop) b b' m n :
  rtc (leaseStep self dying) b b' -> (m = self -> ~ dying) -> recorded b !! m = Some n -> recorded b' !! m = Some n.
Proof. intros Hr Hd. induction Hr as [b|b1 b2 b3 H12 _ IH]; [done|]. intros Hb. apply IH. by eapply leaseStep_keeps. Qed.

(** The leases of machines that have written them down stay consistent, up to
    those of a machine that is going. *)
Lemma leaseStep_ok self b b' : leaseStep self False b b' -> bookOK b -> bookOK b'.
Proof.
  intros [h g r Hh|h m g r Hh Hm|n g r Hn Hr|h g r Hp Hh|g r Hp] Hok k n' Hk; cbn in *; try done.
  - rewrite lookup_insert_ne; [by apply Hok|]. intros ->. specialize (Hok k n' Hk). cbn in Hok. congruence.
  - rewrite lookup_insert_ne; [by apply Hok|]. intros ->. specialize (Hok k n' Hk). cbn in Hok, Hk. congruence.
  - apply lookup_insert_Some in Hk as [[<- <-]|[_ Hk]]; [done|by apply Hok].
  - rewrite lookup_delete_ne; [by apply Hok|]. intros ->. specialize (Hok k n' Hk). cbn in Hok. naive_solver.
Qed.
