(* ===== verification/Ownership.v ===== *)
(** * Hosts have one owner

    The invariant that ties machines to hosts, on the store of Store, what
    others may do between the calls of a run, and the writes of a run that keep
    the invariant; OwnershipRuns follows whole runs.  A host whose [status] names an owner names one
    machine; a machine whose [status.hostRef] names a host is the owner of that
    host.  So no two machines of a namespace record the same host.  At the end
    the store is read as a lease book ([book]).

    [interferes] is what others may do: they keep the invariant, leave hosts
    that have an owner to their owner, and do not touch what the reconciler
    records.  A deletion that releases the host and then does not remove the
    machine, because its last write fails or somebody else has a finalizer on
    the machine, leaves a machine behind whose host is free ([leftBehind]); the
    invariant holds after a run that has not done that ([finished]).
    [System.stale_deletion_takes_host] shows what the next run of such a machine
    does. *)

From S2P Require Import Prelude GoStrings GoTime Api Effects Store Lib Samples Policy.
From S2P Require Import Robot Rescue Talos HostClaim Inject Ignition Retry States Machine.
From S2P Require Import Safety Remediation HostCtl ClusterCtl Leases.

Local Open Scope Z_scope.

(** ** The invariant *)

Abbreviation claim := (HostState * option MachineReference * option MachineReference)%type.

(** The state of a host without an owner. *)
Definition freeState (s : HostState) : Prop := s = HostStateAvailable \/ s = HostStateUnset.

(** The two references agree, and a host that is Available, or not yet
    initialised, is one that has none. *)
Definition claimOK (c : claim) : Prop :=
  let '(state, consumer, machine) := c in
  (forall r1 r2, consumer = Some r1 -> machine = Some r2 -> r1 = r2) /\
  (freeState state <-> consumer = None /\ machine = None).

Definition ownerOf (c : claim) : option MachineReference :=
  match c.1.2 with Some r => Some r | None => c.2 end.

Definition hostsOK (s : Sys) : Prop :=
  forall k h, sy_hosts s !! k = Some h -> keyOf (hrh_Meta h) = k /\ claimOK (claimOf h).

Definition refKey (r : MachineReference) : okey := (mr_Namespace r, mr_Name r).

(** The host a machine records is its own. *)
Definition holds (s : Sys) (m : HetznerRobotMachine) : Prop :=
  statusHostRef m <> "" ->
  exists h, sy_hosts s !! (hrm_Namespace m, statusHostRef m) = Some h /\
    ownerOf (claimOf h) = Some (machineReferenceFor m).

(** A machine as the API server keeps it: under its name, in a namespace. *)
Definition wellFormed (k : okey) (m : HetznerRobotMachine) : Prop :=
  keyOf (hrm_Meta m) = k /\ k.1 <> "".

(** The invariant, up to a machine that is being deleted. *)
Definition ownershipBut (gone : option okey) (s : Sys) : Prop :=
  hostsOK s /\
  forall k m, sy_machines s !! k = Some m -> wellFormed k m /\ (gone <> Some k -> holds s m).

Definition ownership : Sys -> Prop := ownershipBut None.

(** A machine under deletion that still is there, and records a host that has
    been given up. *)
Definition leftBehind (s : Sys) (m : HetznerRobotMachine) : Prop :=
  DeletionTimestamp (hrm_Meta m) <> None /\ statusHostRef m <> "" /\
  forall h, sy_hosts s !! (hrm_Namespace m, statusHostRef m) = Some h -> ownerOf (claimOf h) = None.

(** No deletion is half done: none has given up the host and left the machine. *)
Definition finished (s : Sys) : Prop := forall k m, sy_machines s !! k = Some m -> ~ leftBehind s m.

Lemma ownerOf_current h : ownerOf (claimOf h) = currentHostConsumerRef h.
Proof. done. Qed.

Lemma machineReference_key m : refKey (machineReferenceFor m) = keyOf (hrm_Meta m).
Proof. done. Qed.

Lemma claimed_owner host m :
  claimOK (claimOf host) -> hostIsClaimedBy host m = true -> ownerOf (claimOf host) = Some (machineReferenceFor m).
Proof.
  unfold claimOK, claimOf, ownerOf, hostIsClaimedBy. cbn. intros [Heq _] [Hc|Hm]%orb_prop.
  - apply machineReferenceMatches_spec in Hc. by rewrite Hc.
  - apply machineReferenceMatches_spec in Hm. rewrite Hm.
    destruct (hst_ConsumerRef _) as [r|] eqn:Hc; [|done]. f_equal. by apply Heq.
Qed.

(** A host has an owner exactly when its state is not one of a free host. *)
Lemma free_state host : claimOK (claimOf host) -> freeState (hst_State (hrh_Status host)) <-> ownerOf (claimOf host) = None.
Proof.
  unfold claimOK, claimOf, ownerOf. cbn. intros [_ Hs]. rewrite Hs.
  split; [by intros [-> ->]|]. by destruct (hst_ConsumerRef _).
Qed.

Lemma owned_busy host r :
  claimOK (claimOf host) -> ownerOf (claimOf host) = Some r -> ~ freeState (hst_State (hrh_Status host)).
Proof. intros Hok Ho Hf. apply free_state in Hf; [congruence|done]. Qed.

(** ** What others may do *)

(** What may become of a host: one with an owner keeps it; one without may
    come, go and be initialised. *)
Definition evolved (o o' : option HetznerRobotHost) : Prop :=
  match o, o' with
  | Some h, Some h' =>
      claimOf h' = claimOf h \/ ownerOf (claimOf h) = None /\ ownerOf (claimOf h') = None
  | Some h, None | None, Some h => ownerOf (claimOf h) = None
  | None, None => True
  end.

(** What may become of a machine: it keeps the host it records and the
    controller's finalizer, whatever becomes of the other finalizers; it may be
    put under deletion; it may go when it does not have that finalizer, and come
    without recording a host. *)
Definition evolvedMachine (o o' : option HetznerRobotMachine) : Prop :=
  match o, o' with
  | Some m, Some m' =>
      (statusHostRef m' = statusHostRef m /\ (held m <-> held m') /\
       (DeletionTimestamp (hrm_Meta m) <> None -> DeletionTimestamp (hrm_Meta m') <> None)) \/
      ~ held m /\ statusHostRef m' = ""
  | Some m, None => ~ held m
  | None, Some m => statusHostRef m = ""
  | None, None => True
  end.

#[export] Instance evolved_preorder : PreOrder evolved.
Proof.
  split; [intros [h|]; cbn; auto|]. intros [h1|] [h2|] [h3|]; cbn; intuition congruence.
Qed.

#[export] Instance evolvedMachine_preorder : PreOrder evolvedMachine.
Proof.
  split; [intros [m|]; cbn; auto|]. intros [m1|] [m2|] [m3|]; cbn; intuition congruence.
Qed.

Definition interferes (s s' : Sys) : Prop :=
  forall gone, ownershipBut gone s ->
    ownershipBut gone s' /\ (forall k, evolved (sy_hosts s !! k) (sy_hosts s' !! k)) /\
    (forall k, evolvedMachine (sy_machines s !! k) (sy_machines s' !! k)).

#[export] Instance interferes_preorder : PreOrder interferes.
Proof.
  split; [intros s gone Hi; split; [done|]; split; intros k; reflexivity|]. intros s1 s2 s3 H1 H2 gone Hi.
  destruct (H1 gone Hi) as (Hi2 & E1 & M1). destruct (H2 gone Hi2) as (Hi3 & E2 & M2).
  split; [done|]. split; intros k; etransitivity; first [apply E1|apply M1|apply E2|apply M2].
Qed.

Lemma holds_key s m m' :
  keyOf (hrm_Meta m') = keyOf (hrm_Meta m) -> statusHostRef m' = statusHostRef m -> holds s m -> holds s m'.
Proof. intros [= Hns Hn] Hr Hh. unfold holds, machineReferenceFor in *. by rewrite Hr, Hns, Hn. Qed.

(** A host the reconciler may rely on: it has an owner. *)
Lemma interferes_owned gone s s' k h r :
  ownershipBut gone s -> interferes s s' -> sy_hosts s !! k = Some h -> ownerOf (claimOf h) = Some r ->
  exists h', sy_hosts s' !! k = Some h' /\ claimOf h' = claimOf h.
Proof.
  intros Hi HI Hk Ho. destruct (HI gone Hi) as (_ & He & _). specialize (He k). rewrite Hk in He.
  destruct (sy_hosts s' !! k) as [h'|]; cbn in He; [|congruence]. exists h'. split; [done|].
  destruct He as [He|[He _]]; congruence.
Qed.

Lemma interferes_holds gone s s' m : ownershipBut gone s -> interferes s s' -> holds s m -> holds s' m.
Proof.
  intros Hi HI Hm Href. destruct (Hm Href) as (h & Hh & Ho).
  destruct (interferes_owned gone s s' _ h _ Hi HI Hh Ho) as (h' & Hh' & Hc). exists h'. split; [done|]. by rewrite Hc.
Qed.

Lemma sameClaims_holds s s' m : sameClaims s s' -> holds s m -> holds s' m.
Proof.
  intros [_ Hs] Hm Href. destruct (Hm Href) as (h & Hh & Ho). specialize (Hs (hrm_Namespace m, statusHostRef m)).
  rewrite Hh in Hs. destruct (sy_hosts s' !! _) as [h'|]; [|done]. exists h'. split; [done|].
  destruct Hs as [_ Hc]. by rewrite Hc.
Qed.

(** Quiet writes are such an interference. *)
Lemma sameClaims_interferes s s' : sameClaims s s' -> interferes s s'.
Proof.
  intros Hs gone [Hh Hm]. split_and!.
  - split.
    + intros k h' Hl. specialize (proj2 Hs k). rewrite Hl. destruct (sy_hosts s !! k) as [h|] eqn:Hk; [|done].
      intros [Hkey Hc]. rewrite Hkey, Hc. by apply Hh.
    + intros k m Hl. rewrite (proj1 Hs) in Hl. destruct (Hm k m Hl) as [Hw Hho]. split; [done|].
      intros Hg. by eapply sameClaims_holds, Hho.
  - intros k. specialize (proj2 Hs k). destruct (sy_hosts s !! k), (sy_hosts s' !! k); cbn; try done.
    intros [_ Hc]. by left.
  - intros k. by rewrite (proj1 Hs).
Qed.

(** ** Writes of hosts *)

Definition setHost (k : okey) (h : HetznerRobotHost) (s : Sys) : Sys := s <| sy_hosts := <[k := h]> (sy_hosts s) |>.

(** The ownership a write takes away belongs to nobody who records a host. *)
Definition mayTake (gone : option okey) (s : Sys) (b a : claim) : Prop :=
  forall r, ownerOf b = Some r -> ownerOf a <> Some r ->
    gone = Some (refKey r) \/ forall m, sy_machines s !! refKey r = Some m -> statusHostRef m = "".

Lemma mayTake_same gone s b a : ownerOf b = ownerOf a -> mayTake gone s b a.
Proof. intros Heq r Hb Ha. congruence. Qed.

Lemma mayTake_free gone s b a : ownerOf b = None -> mayTake gone s b a.
Proof. intros Heq r Hb Ha. congruence. Qed.

Lemma interferes_mayTake gone s s' b a :
  ownershipBut gone s -> interferes s s' -> mayTake gone s b a -> mayTake gone s' b a.
Proof.
  intros Hi HI Ht r Hb Ha. destruct (Ht r Hb Ha) as [|Hm]; [by left|right]. intros m' Hm'.
  destruct (HI gone Hi) as (_ & _ & He). specialize (He (refKey r)). rewrite Hm' in He.
  destruct (sy_machines s !! refKey r) as [m|]; cbn in He; [|done]. specialize (Hm m eq_refl).
  destruct He as [[He _]|[_ He]]; congruence.
Qed.

Lemma holds_setHost s k b new m :
  sy_hosts s !! k = Some b -> holds s m ->
  (ownerOf (claimOf b) = Some (machineReferenceFor m) -> ownerOf (claimOf new) = Some (machineReferenceFor m)) ->
  holds (setHost k new s) m.
Proof.
  intros Hb Hm Ho Href. destruct (Hm Href) as (h & Hh & Hown). unfold setHost. cbn.
  destruct (decide (k = (hrm_Namespace m, statusHostRef m))) as [->|Hk].
  - exists new. rewrite lookup_insert_eq. split; [done|]. apply Ho. congruence.
  - exists h. by rewrite lookup_insert_ne.
Qed.

Lemma ownership_setHost gone s k b new :
  ownershipBut gone s -> sy_hosts s !! k = Some b -> keyOf (hrh_Meta new) = k -> claimOK (claimOf new) ->
  mayTake gone s (claimOf b) (claimOf new) -> ownershipBut gone (setHost k new s).
Proof.
  intros [Hh Hm] Hb Hk Hc Ht. split.
  - intros k' h. unfold setHost. cbn. intros [[<- <-]|[_ Hl]]%lookup_insert_Some; [done|by apply Hh].
  - intros k' m Hl. change (sy_machines s !! k' = Some m) in Hl. destruct (Hm k' m Hl) as [Hw Hho]. split; [done|].
    intros Hg Href. apply (holds_setHost s k b new m); [done|by apply Hho| |done]. intros Hown.
    destruct (decide (ownerOf (claimOf new) = Some (machineReferenceFor m))) as [|Hne]; [done|].
    exfalso. specialize (Ht _ Hown Hne). rewrite machineReference_key, (proj1 Hw) in Ht.
    destruct Ht as [|Ht]; [done|]. by apply Href, Ht.
Qed.

(** A claim of a host that was read without an owner sets all three fields. *)
Definition fullClaim (c : claim) : Prop :=
  let '(state, consumer, machine) := c in ~ freeState state /\ consumer <> None /\ machine <> None.

(** The merge of a write into a host that evolved since it was read. *)
Lemma merge_evolved main b a cur :
  claimOK (claimOf b) -> evolved (Some b) (Some cur) -> (ownerOf (claimOf b) = None -> fullClaim (claimOf a)) ->
  claimOf (mergeHost main true cur b a) = claimOf a.
Proof.
  intros Hok [Hc|[Hb _]] Hfull; [by apply mergeHost_claim|].
  destruct (Hfull Hb) as (Hst & Hcons & Hm). apply (free_state b Hok) in Hb as Hs.
  destruct (proj1 (proj2 Hok) Hs) as [Hc1 Hc2]. unfold claimOf. cbn -[mergeField].
  rewrite !mergeField_changed; [done|..].
  - by rewrite Hc2.
  - by rewrite Hc1.
  - intros Heq. apply Hst. by rewrite Heq.
Qed.

(** One write of a host by the run of a machine.  It fails, or another host was
    written in its place. *)
Lemma swp_hostWrite {B} gone (b a : HetznerRobotHost) (f : option error -> prog B) Q s :
  ownershipBut gone s -> evolved (Some b) (sy_hosts s !! keyOf (hrh_Meta b)) -> claimOK (claimOf b) ->
  Finalizers (hrh_Meta a) = Finalizers (hrh_Meta b) -> claimOK (claimOf a) ->
  (ownerOf (claimOf b) = None -> fullClaim (claimOf a)) -> mayTake gone s (claimOf b) (claimOf a) ->
  (forall x s', x <> None -> interferes s s' -> swp interferes (f x) Q s') ->
  (forall x s' cur new, interferes s s' -> sy_hosts s' !! keyOf (hrh_Meta b) = Some cur ->
     claimOf new = claimOf a -> mayTake gone s' (claimOf cur) (claimOf new) ->
     ownershipBut gone (setHost (keyOf (hrh_Meta b)) new s') ->
     swp interferes (f x) Q (setHost (keyOf (hrh_Meta b)) new s')) ->
  swp interferes (trigger (EPatch KHost b a) ≫= f) Q s.
Proof.
  intros Hi Hb Hokb Hfin Hok Hfull Ht Herr Hdone. apply swp_bind. intros s1 x s2 HI _ (hosts & Hp & ->).
  destruct (HI gone Hi) as (Hi1 & He & _).
  assert (evolved (Some b) (sy_hosts s1 !! keyOf (hrh_Meta b))) as Hb1 by (etrans; [exact Hb|apply He]).
  unfold patched in Hp. destruct (sy_hosts s1 !! keyOf (hrh_Meta b)) as [cur|] eqn:Hcur.
  2: { destruct Hp as [Hx ->]. apply Herr; [done|]. by destruct s1. }
  destruct Hp as (main & status & Hx & ->). unfold put.
  rewrite removed_same by (cbn; by rewrite Hfin, mergeField_same).
  change (set_sy_hosts _ s1) with (setHost (keyOf (hrh_Meta b)) (mergeHost main status cur b a) s1).
  destruct (proj1 Hi1 _ _ Hcur) as [Hkey Hokc]. destruct status.
  - pose proof (merge_evolved main b a cur Hokb Hb1 Hfull) as Hnew.
    assert (mayTake gone s1 (claimOf cur) (claimOf (mergeHost main true cur b a))) as Ht1.
    { rewrite Hnew. apply (interferes_mayTake _ _ s1) in Ht; [|done..]. intros r Hr.
      apply Ht. destruct Hb1 as [Hc|[_ Hc]]; congruence. }
    apply (Hdone x s1 cur); [done..|].
    eapply ownership_setHost; [done|exact Hcur|by rewrite <- Hkey|by rewrite Hnew|done].
  - apply Herr; [intros ->; by destruct (Hx eq_refl)|]. transitivity s1; [done|]. apply sameClaims_interferes.
    split; [done|]. intros k. unfold setHost. cbn -[mergeHost].
    destruct (decide (k = keyOf (hrh_Meta b))) as [->|Hk].
    + by rewrite Hcur, lookup_insert_eq.
    + rewrite lookup_insert_ne by done. by destruct (sy_hosts s1 !! k).
Qed.

(** ** The book

    The leases of a store are the owners of its hosts; a machine with the
    controller's finalizer, which cannot go without its controller, has written
    down the host of its status. *)
Definition leaseOf (h : HetznerRobotHost) : option okey := refKey <$> ownerOf (claimOf h).

Definition recordOf (m : HetznerRobotMachine) : option string :=
  if decide (statusHostRef m = "" \/ ~ held m) then None else Some (statusHostRef m).

Definition book (s : Sys) : Book := MkBook (omap leaseOf (sy_hosts s)) (omap recordOf (sy_machines s)).

Lemma book_leases s k : leases (book s) !! k = sy_hosts s !! k ≫= leaseOf.
Proof. apply lookup_omap. Qed.

Lemma book_recorded s k : recorded (book s) !! k = sy_machines s !! k ≫= recordOf.
Proof. apply lookup_omap. Qed.

Lemma recordOf_none m : statusHostRef m = "" \/ ~ held m -> recordOf m = None.
Proof. unfold recordOf. by destruct (decide _). Qed.

Lemma recordOf_some m n : recordOf m = Some n <-> n = statusHostRef m /\ n <> "" /\ held m.
Proof.
  unfold recordOf. destruct (decide _) as [H|H]; [naive_solver|]. destruct (decide (held m)); naive_solver.
Qed.

Lemma recordOf_same m m' :
  statusHostRef m' = statusHostRef m -> (held m <-> held m') -> recordOf m' = recordOf m.
Proof. unfold recordOf. intros -> Hf. repeat destruct (decide _); tauto. Qed.

Lemma evolved_lease o o' : evolved o o' -> o' ≫= leaseOf = o ≫= leaseOf.
Proof.
  unfold leaseOf. destruct o as [h|], o' as [h'|]; cbn; try done.
  - by intros [->|[-> ->]].
  - by intros ->.
  - by intros ->.
Qed.

Lemma evolved_record o o' : evolvedMachine o o' -> o' ≫= recordOf = o ≫= recordOf.
Proof.
  destruct o as [m|], o' as [m'|]; cbn; try done.
  - intros [(Hr & Hf & _)|[Hf Hr]]; [by apply recordOf_same|]. by rewrite !recordOf_none by auto.
  - intros Hf. by rewrite recordOf_none by auto.
  - intros Hr. by rewrite recordOf_none by auto.
Qed.

(** Others enter nothing in the book. *)
Lemma interferes_book gone s s' : ownershipBut gone s -> interferes s s' -> book s' = book s.
Proof.
  intros Hi HI. destruct (HI gone Hi) as (_ & Hh & Hm). unfold book.
  f_equal; apply map_eq; intros k; rewrite !lookup_omap; [apply evolved_lease, Hh|apply evolved_record, Hm].
Qed.

Lemma book_setHost k h s :
  book (setHost k h s) =
    MkBook (match leaseOf h with Some m => <[k := m]> (leases (book s)) | None => delete k (leases (book s)) end)
      (recorded (book s)).
Proof. unfold book, setHost. cbn. f_equal. rewrite omap_insert. by destruct (leaseOf h). Qed.

Definition putMachine (k : okey) (m : HetznerRobotMachine) (s : Sys) : Sys :=
  s <| sy_machines := <[k := m]> (sy_machines s) |>.

Lemma book_putMachine k m s :
  book (putMachine k m s) =
    MkBook (leases (book s))
      (match recordOf m with Some n => <[k := n]> (recorded (book s)) | None => delete k (recorded (book s)) end).
Proof. unfold book, putMachine. cbn. f_equal. rewrite omap_insert. by destruct (recordOf m). Qed.

Lemma book_dropMachine k s :
  book (s <| sy_machines := delete k (sy_machines s) |>) = MkBook (leases (book s)) (delete k (recorded (book s))).
Proof. unfold book. cbn. f_equal. apply omap_delete. Qed.

(** The ownership of a consistent store is a consistent book. *)
Lemma ownership_book s : ownership s -> bookOK (book s).
Proof.
  intros [_ Hm] k n. rewrite book_recorded, book_leases. destruct (sy_machines s !! k) as [m|] eqn:Hk; [|done].
  cbn. intros (-> & Hn & _)%recordOf_some. destruct (Hm k m Hk) as [[<- _] Hh].
  destruct (Hh ltac:(done) Hn) as (h & Hl & Ho). cbn. rewrite Hl. cbn. unfold leaseOf. by rewrite Ho.
Qed.
