(* ===== verification/OwnershipRuns.v ===== *)
(** * Runs of a machine keep ownership

    Every part of a run of the machine reconciler (claiming, adoption,
    provisioning, deletion, the last write) preserves the invariant of
    Ownership while others interfere between its calls, and what it changes in
    the ownership of hosts are steps of its machine in the lease book. *)

From S2P Require Import Prelude GoStrings GoTime Api Effects Store Lib Samples Policy.
From S2P Require Import Robot Rescue Talos HostClaim Inject Ignition Retry States Machine.
From S2P Require Import Safety Remediation HostCtl ClusterCtl Leases Ownership.

Local Open Scope Z_scope.

(** * Runs of one machine

    A run of the machine [m0], as it was read, that started with the book
    [b0]. *)
Section Run.
Context (m0 : HetznerRobotMachine) (b0 : Book).

(** ** Runs that keep the invariant *)

Definition self : okey := keyOf (hrm_Meta m0).
Definition dying : Prop := DeletionTimestamp (hrm_Meta m0) <> None /\ held m0.

(** The machine of the store is gone, or is under deletion. *)
Definition going (k : okey) (s : Sys) : Prop :=
  forall cur, sy_machines s !! k = Some cur -> DeletionTimestamp (hrm_Meta cur) <> None.

(** What the run has entered in the book. *)
Definition ledger (s : Sys) : Prop := rtc (leaseStep self dying) b0 (book s).

(** The machine of the store is the one that was read, or its successor. *)
Definition tracked (m : HetznerRobotMachine) (s : Sys) : Prop :=
  keyOf (hrm_Meta m) = self /\ evolvedMachine (Some m0) (sy_machines s !! self) /\ ledger s.

(** The invariant holds, and the machine the run works on, with its assignments
    so far, owns the host it records. *)
Definition running (hrm : HetznerRobotMachine) (s : Sys) : Prop :=
  ownership s /\ holds s hrm /\ tracked hrm s.

Lemma interferes_tracked gone s s' m : ownershipBut gone s -> interferes s s' -> tracked m s -> tracked m s'.
Proof.
  intros Hi HI (Hk & Hev & Hl). pose proof (interferes_book gone s s' Hi HI) as Hb.
  destruct (HI gone Hi) as (_ & _ & He). split; [done|]. split; [|unfold ledger; by rewrite Hb].
  etransitivity; [exact Hev|apply He].
Qed.

(** Under deletion, and held by its controller, it stays there. *)
Lemma tracked_going m s : dying -> tracked m s -> going self s.
Proof.
  intros [Hd Hh] (_ & Hev & _) cur Hcur. rewrite Hcur in Hev. cbn in Hev. destruct Hev as [(_ & _ & Hdc)|[Hn _]]; auto.
Qed.

Lemma interferes_running s s' hrm : interferes s s' -> running hrm s -> running hrm s'.
Proof.
  intros HI (Hi & Hh & Ht). split; [by apply (HI None)|].
  split; [by eapply interferes_holds|by eapply interferes_tracked].
Qed.

(** A host as it was read, in a store where it may have evolved. *)
Definition fresh (b : HetznerRobotHost) (s : Sys) : Prop :=
  evolved (Some b) (sy_hosts s !! keyOf (hrh_Meta b)) /\ claimOK (claimOf b).

Lemma fresh_read gone s k host :
  ownershipBut gone s -> found seenHost (sy_hosts s) k (Ok host) ->
  keyOf (hrh_Meta host) = k /\ fresh host s /\
  exists cur, sy_hosts s !! k = Some cur /\ claimOf cur = claimOf host.
Proof.
  intros [Hh _] (cur & Hk & Hkey & Hc). destruct (Hh k cur Hk) as [Hkc Hok].
  split; [congruence|]. split; [|by exists cur]. split; [|by rewrite Hc].
  rewrite Hkey, Hkc, Hk. by left.
Qed.

Lemma interferes_fresh gone s s' b : ownershipBut gone s -> interferes s s' -> fresh b s -> fresh b s'.
Proof. intros Hi HI [Hb Hok]. split; [|done]. etransitivity; [exact Hb|]. by apply (HI gone). Qed.

Lemma fresh_owned b s r :
  fresh b s -> ownerOf (claimOf b) = Some r ->
  exists h, sy_hosts s !! keyOf (hrh_Meta b) = Some h /\ ownerOf (claimOf h) = Some r.
Proof.
  intros [Hb _] Ho. destruct (sy_hosts s !! _) as [h|]; cbn in Hb; [|congruence]. exists h. split; [done|].
  destruct Hb as [Hc|[Hc _]]; congruence.
Qed.

(** A call that is no write, by the run of a machine. *)
Lemma swp_step {X : Set} {B} hrm (e : Eff X) (f : X -> prog B) (Q : B -> Sys -> Prop) s :
  noWrite X e -> running hrm s ->
  (forall x s', interferes s s' -> running hrm s' -> Store.answered s' e x -> swp interferes (f x) Q s') ->
  swp interferes (trigger e ≫= f) Q s.
Proof. intros He Hr Hf. apply swp_call; [done|]. intros x s' HI Ha. apply Hf; [done| |done]. by eapply interferes_running. Qed.

(** The machine takes a host, or has it already. *)
Lemma ledger_take k cur new s :
  ownership s -> sy_hosts s !! k = Some cur -> leaseOf new = Some self ->
  mayTake None s (claimOf cur) (claimOf new) -> ledger s -> ledger (setHost k new s).
Proof.
  intros Hi Hk Hn Ht Hl. unfold ledger. rewrite book_setHost, Hn.
  assert (leases (book s) !! k = leaseOf cur) as Hb by (rewrite book_leases, Hk; done).
  destruct (decide (leaseOf cur = Some self)) as [Hc|Hc].
  { rewrite insert_id by congruence. by rewrite MkBook_eta. }
  eapply rtc_r; [exact Hl|]. rewrite <- (MkBook_eta (book s)) at 1. destruct (ownerOf (claimOf cur)) as [r|] eqn:Ho.
  2: { apply lease_acquire. rewrite Hb. unfold leaseOf. by rewrite Ho. }
  apply lease_succeed with (m := refKey r); [rewrite Hb; unfold leaseOf; by rewrite Ho|].
  rewrite book_recorded. destruct (sy_machines s !! refKey r) as [m|] eqn:Hm; [|done]. apply recordOf_none. left.
  destruct (Ht r Ho) as [Hg|Hg]; [|done|by apply Hg].
  intros Ho'. apply Hc. unfold leaseOf in *. rewrite Ho' in Hn. by rewrite Ho.
Qed.

(** The machine, which is being deleted, gives a host back. *)
Lemma ledger_release k cur new s :
  dying \/ recorded (book s) !! self = None -> sy_hosts s !! k = Some cur -> leaseOf cur = Some self -> ownerOf (claimOf new) = None ->
  ledger s -> ledger (setHost k new s).
Proof.
  intros Hd Hk Hc Hn Hl. unfold ledger. rewrite book_setHost.
  assert (leaseOf new = None) as -> by (unfold leaseOf; by rewrite Hn).
  eapply rtc_r; [exact Hl|]. rewrite <- (MkBook_eta (book s)) at 1.
  apply lease_release; [done|]. by rewrite book_leases, Hk.
Qed.

(** A write by the run of a machine that makes or leaves the machine the owner
    of a host that is free or its own. *)
Lemma swp_claimWrite {B} hrm (b a : HetznerRobotHost) (f : option error -> prog B) (Q : B -> Sys -> Prop) s :
  running hrm s -> fresh b s -> Finalizers (hrh_Meta a) = Finalizers (hrh_Meta b) -> claimOK (claimOf a) ->
  (ownerOf (claimOf b) = None -> fullClaim (claimOf a)) ->
  ownerOf (claimOf a) = Some (machineReferenceFor hrm) -> mayTake None s (claimOf b) (claimOf a) ->
  (forall x s', running hrm s' ->
     (x = None -> exists new, sy_hosts s' !! keyOf (hrh_Meta b) = Some new /\
        ownerOf (claimOf new) = Some (machineReferenceFor hrm)) -> swp interferes (f x) Q s') ->
  swp interferes (trigger (EPatch KHost b a) ≫= f) Q s.
Proof.
  intros Hr [Hb Hokb] Hfin Hok Hfull Ho Ht Hf. eapply (swp_hostWrite None); [apply Hr|done..| |].
  - intros x s' Hx HI. apply Hf; [by eapply interferes_running|done].
  - intros x s' cur new HI Hcur Hnew Ht' Hi'. apply (interferes_running _ _ hrm HI) in Hr as (Hi1 & Hh' & Htr). apply Hf.
    + split; [done|]. split; [|].
      * apply (holds_setHost s' _ cur); [done..|]. by rewrite Hnew.
      * destruct Htr as (Hk & Hev & Hl). split; [done|]. split; [exact Hev|].
        eapply ledger_take; [done|exact Hcur| |exact Ht'|done].
        unfold leaseOf. by rewrite Hnew, Ho, <- Hk.
    + intros _. exists new. unfold setHost. cbn. rewrite lookup_insert_eq. split; [done|]. by rewrite Hnew.
Qed.

(** A host that is recorded stays recorded. *)
Definition keepsRecord (m m' : HetznerRobotMachine) : Prop :=
  hrm_Meta m' = hrm_Meta m /\ (statusHostRef m <> "" -> statusHostRef m' = statusHostRef m).

#[local] Instance keepsRecord_preorder : PreOrder keepsRecord.
Proof.
  split; [done|]. intros m1 m2 m3 [Hm1 H1] [Hm2 H2]. split; [congruence|]. intros Hr. rewrite H2, H1; [done..|]. by rewrite H1.
Qed.

Lemma keepsRecord_first m n : statusHostRef m = "" -> keepsRecord m (set_mst mst_HostRef n m).
Proof. intros Hr. by split. Qed.

(** ** Claiming *)

Lemma running_at s hrm name h :
  running hrm s -> sy_hosts s !! (hrm_Namespace hrm, name) = Some h ->
  ownerOf (claimOf h) = Some (machineReferenceFor hrm) -> running (set_mst mst_HostRef name hrm) s.
Proof. intros (Hi & _ & Ht) Hh Ho. split; [done|]. split; [|done]. intros _. by exists h. Qed.

Lemma setRefs_claim host r :
  ~ freeState (hst_State (hrh_Status host)) -> claimOK (claimOf (setHostConsumerRef host r)).
Proof. unfold claimOK, claimOf. cbn. intros Hs. split; [congruence|]. split; [done|]. by intros [? ?]. Qed.

Lemma swp_ensure hrm host (Q : HetznerRobotHost * option error -> Sys -> Prop) s :
  running hrm s -> fresh host s -> ownerOf (claimOf host) = Some (machineReferenceFor hrm) ->
  (forall r s', running hrm s' -> Q r s') -> swp interferes (ensureHostConsumerRef host hrm) Q s.
Proof.
  intros Hr Hh Ho HQ. unfold ensureHostConsumerRef. rewrite <- ownerOf_current, Ho.
  replace (negb (machineReferenceMatches (Some (machineReferenceFor hrm)) hrm)) with false
    by (symmetry; apply negb_false_iff; by apply machineReferenceMatches_spec).
  destruct (_ && _); [by apply swp_ret, HQ|].
  apply (swp_step hrm); [done..|]. intros [err|] s1 HI Hr1 _; [by apply swp_ret, HQ|]. cbv zeta.
  apply (swp_claimWrite hrm host); [done| |done| | |done|by apply mayTake_same|].
  - eapply interferes_fresh; [apply Hr|done..].
  - eapply setRefs_claim, owned_busy; [apply Hh|done].
  - congruence.
  - intros x s' Hr' _. destruct x; by apply swp_ret, HQ.
Qed.

Section Claim.
Context `{Lib} (hrm : HetznerRobotMachine).
Implicit Types (s : Sys).

(** What a resolution does to the machine. *)
Definition resolved {A} (r : HetznerRobotMachine * A) (s : Sys) : Prop :=
  running r.1 s /\ keepsRecord hrm r.1.

Lemma resolved_same {A} (a : A) s : running hrm s -> swp interferes (Ret (hrm, a)) resolved s.
Proof. by intros Hr. Qed.

Lemma resolved_at {A} (a : A) name h s :
  statusHostRef hrm = "" -> running hrm s -> sy_hosts s !! (hrm_Namespace hrm, name) = Some h ->
  ownerOf (claimOf h) = Some (machineReferenceFor hrm) -> resolved (set_mst mst_HostRef name hrm, a) s.
Proof. intros Hn Hr Hh Ho. split; [by eapply running_at|by apply keepsRecord_first]. Qed.

Lemma swp_adopted hrm' host s :
  running hrm' s -> fresh host s -> ownerOf (claimOf host) = Some (machineReferenceFor hrm') ->
  keepsRecord hrm hrm' ->
  swp interferes (r ← ensureHostConsumerRef host hrm';
       let '(hrh, e) := r in
       ensure e orelse err => Ret (hrm', Err err);
       Ret (hrm', Ok hrh)) resolved s.
Proof.
  intros Hr Hh Ho Hm. apply swp_bind, (swp_ensure hrm'); [done..|].
  intros [hrh [err|]] s' Hs'; apply swp_ret; by split.
Qed.

(** A host, as it was read, that names the machine. *)
Lemma swp_recover host k s :
  statusHostRef hrm = "" -> running hrm s -> found seenHost (sy_hosts s) k (Ok host) -> k.1 = hrm_Namespace hrm ->
  hostIsClaimedBy host hrm = true -> swp interferes (recoverClaim hrm host) resolved s.
Proof.
  intros Hn Hr Hh Hns Hc. destruct (fresh_read None s k host) as (Hk & Hf & cur & Hcur & Heq); [apply Hr|done|].
  pose proof (claimed_owner _ _ (proj2 Hf) Hc) as Ho. subst k. cbn in Hns. unfold recoverClaim. cbv zeta.
  apply swp_adopted; [|done..|by apply keepsRecord_first]. unfold keyOf in Hcur. rewrite Hns in Hcur.
  eapply running_at; [done|exact Hcur|by rewrite Heq].
Qed.

Lemma swp_candidate name s :
  statusHostRef hrm = "" -> running hrm s -> swp interferes (claimCandidate hrm name) resolved s.
Proof.
  intros Hn Hr. unfold claimCandidate. apply (swp_step hrm); [done..|].
  intros [host|err] s1 _ Hr1 Hf; [|by apply resolved_same]. cbn in Hf.
  destruct (fresh_read None s1 _ host (proj1 Hr1) Hf) as (Hk & Hfr & _).
  destruct (bool_decide _) eqn:Hst; cbn [negb]; [|by apply resolved_same]. bool_prop.
  destruct (hs_MaintenanceMode _); [by apply resolved_same|].
  apply (swp_step hrm); [done..|]. intros [err|] s2 HI Hr2 _; [by apply resolved_same|]. cbv zeta.
  apply (swp_claimWrite hrm host); [done| |done|..].
  - eapply interferes_fresh; [apply Hr1|done..].
  - unfold claimOK, claimOf, freeState. cbn. split; [congruence|]. naive_solver.
  - intros _. unfold fullClaim, freeState. cbn. naive_solver.
  - done.
  - apply mayTake_free, free_state; [apply Hfr|]. by left.
  - intros [err|] s' Hr' Hnew; [by apply resolved_same|].
    destruct (Hnew eq_refl) as (new & Hnew' & Ho). rewrite Hk in Hnew'. by eapply swp_ret, resolved_at.
Qed.

Lemma swp_resolveHost s : running hrm s -> swp interferes (resolveHost hrm) resolved s.
Proof.
  intros Hr. unfold resolveHost. cbv zeta.
  destruct (String.eqb_spec (statusHostRef hrm) "") as [Hs|Hs]; cbn [negb].
  - destruct (directHostRef hrm) as [name|].
    + apply (swp_step hrm); [done..|]. intros [host|err] s1 _ Hr1 Hf; [|by apply resolved_same]. cbn in Hf.
      destruct (hostIsClaimedBy host hrm) eqn:Hc; [by eapply swp_recover|].
      destruct (hs_MaintenanceMode _); [by apply resolved_same|by apply swp_candidate].
    + destruct (ms_HostSelector _) as [sel|]; [|by apply resolved_same].
      destruct (LabelSelectorAsSelector sel); [by apply resolved_same|].
      apply (swp_step hrm); [done..|]. intros [items|err] s1 _ Hr1 Hf; [|by apply resolved_same]. cbn in Hf.
      destruct (List.find (fun h0 : HetznerRobotHost => hostIsClaimedBy h0 hrm) items) as [host|] eqn:Hfind.
      { apply List.find_some in Hfind as [Hin Hc]. rewrite List.Forall_forall in Hf.
        destruct (Hf host Hin) as [Hns Hl]. by eapply swp_recover. }
      destruct (String.eqb _ ""); [by apply resolved_same|by apply swp_candidate].
  - apply (swp_step hrm); [done..|]. intros [host|err] s1 _ Hr1 Hf; [|by apply resolved_same]. cbn in Hf.
    destruct (fresh_read None s1 _ host (proj1 Hr1) Hf) as (Hk & Hfr & cur & Hcur & Heq).
    destruct (proj1 (proj2 Hr1) Hs) as (host' & Hh' & Ho).
    assert (host' = cur) as -> by (unfold nnKey in Hcur; cbn in Hcur; congruence).
    apply swp_adopted; [done..| |done]. by rewrite <- Heq.
Qed.
End Claim.

(** ** Adoption *)

Section Adoption.
Context `{Lib} (hrm : HetznerRobotMachine).
Implicit Types (s : Sys).

(** Adoption takes a host from nobody who is there. *)
Lemma swp_blocking host (Q : option MachineReference * option error -> Sys -> Prop) s :
  running hrm s -> fresh host s ->
  (forall r s', running hrm s' -> fresh host s' ->
     (r = (None, None) -> forall a, ownerOf a = Some (machineReferenceFor hrm) -> mayTake None s' (claimOf host) a) ->
     Q r s') ->
  swp interferes (blockingHostOwnerRef host hrm) Q s.
Proof.
  intros Hr Hh HQ. unfold blockingHostOwnerRef.
  assert (forall a s', ownerOf (claimOf host) = Some (machineReferenceFor hrm) ->
    ownerOf a = Some (machineReferenceFor hrm) -> mayTake None s' (claimOf host) a) as Hown.
  { intros a s' Hb Ha. apply mayTake_same. congruence. }
  destruct (hst_ConsumerRef _) as [ref|] eqn:Hc.
  { destruct (machineReferenceMatches (Some ref) hrm) eqn:Hm; apply swp_ret, HQ; try done.
    intros _ a. apply Hown. apply machineReferenceMatches_spec in Hm. unfold ownerOf, claimOf. cbn. by rewrite Hc. }
  destruct (hst_MachineRef _) as [ref|] eqn:Hmr.
  2: { apply swp_ret, HQ; [done..|]. intros _ a _. apply mayTake_free. unfold ownerOf, claimOf. cbn. by rewrite Hc. }
  assert (ownerOf (claimOf host) = Some ref) as Ho by (unfold ownerOf, claimOf; cbn; by rewrite Hc).
  destruct (machineReferenceMatches (Some ref) hrm) eqn:Hm.
  { apply swp_ret, HQ; [done..|]. intros _ a. apply Hown. apply machineReferenceMatches_spec in Hm. congruence. }
  destruct (robotServerIDFromProviderID _) as [id|]; [|by apply swp_ret, HQ].
  destruct (negb _); [by apply swp_ret, HQ|]. cbv zeta.
  apply (swp_step hrm); [done..|]. intros r s1 HI Hr1 Hf.
  assert (fresh host s1) as Hh1 by (eapply interferes_fresh; [apply Hr|done..]).
  destruct r as [m|err]; [by apply swp_ret, HQ|]. cbn in Hf.
  destruct (err_notfound err); apply swp_ret, HQ; try done.
  intros _ a _ r Hr' _. right. rewrite Ho in Hr'. injection Hr' as <-. unfold refKey. intros m Hl. exfalso.
  destruct (String.eqb_spec (mr_Namespace ref) "") as [Hns|Hns].
  - rewrite Hns in Hl. destruct (proj2 (proj1 Hr1) _ _ Hl) as [(_ & Hne) _]. done.
  - specialize (Hf eq_refl). unfold nnKey in Hf. cbn in Hf. congruence.
Qed.

Lemma swp_adoptionHost id (Q : res HetznerRobotHost -> Sys -> Prop) s :
  running hrm s ->
  (forall r s', running hrm s' ->
     (forall host, r = Ok host -> fresh host s' /\ keyOf (hrh_Meta host) = (hrm_Namespace hrm, hrh_Name host)) ->
     Q r s') ->
  swp interferes (resolveProvisionedAdoptionHost hrm id) Q s.
Proof.
  intros Hr HQ. unfold resolveProvisionedAdoptionHost. cbv zeta.
  destruct (directHostRef hrm) as [name|].
  - apply (swp_step hrm); [done..|]. intros [host|err] s1 _ Hr1 Hf; apply swp_ret, HQ; try done.
    intros h [= <-]. cbn in Hf. destruct (fresh_read None s1 _ host (proj1 Hr1) Hf) as (Hk & Hfr & _). split; [done|].
    injection Hk as Hns _. unfold keyOf. by rewrite Hns.
  - destruct (ms_HostSelector _) as [sel|]; [|by apply swp_ret, HQ].
    destruct (LabelSelectorAsSelector sel); [by apply swp_ret, HQ|].
    apply (swp_step hrm); [done..|]. intros [items|err] s1 _ Hr1 Hf; [|by apply swp_ret, HQ]. cbn in Hf.
    destruct (List.filter _ items) as [|host [|host' rest]] eqn:Hfil; apply swp_ret, HQ; try done.
    intros h [= <-]. assert (In host items) as Hin by (eapply List.filter_In; rewrite Hfil; by left).
    rewrite List.Forall_forall in Hf. destruct (Hf host Hin) as [Hns Hl].
    destruct (fresh_read None s1 _ host (proj1 Hr1) Hl) as (_ & Hfr & _). split; [done|]. unfold keyOf. by rewrite Hns.
Qed.

Lemma markProvisioned_claim host : claimOK (claimOf (markProvisioned hrm host)).
Proof. unfold claimOK, claimOf, freeState. cbn. split; [congruence|]. naive_solver. Qed.

Lemma markProvisioned_full host : fullClaim (claimOf (markProvisioned hrm host)).
Proof. unfold fullClaim, claimOf, freeState. cbn. naive_solver. Qed.

Lemma swp_backfill s :
  statusHostRef hrm = "" -> running hrm s -> swp interferes (backfillProvisionedHostClaim hrm) (resolved hrm) s.
Proof.
  intros Hn Hr. unfold backfillProvisionedHostClaim.
  destruct (negb _); [by apply resolved_same|].
  destruct (robotServerIDFromProviderID _) as [id|]; [|by apply resolved_same].
  apply swp_bind, swp_adoptionHost; [done|]. intros [host|err] s1 Hr1 Hh; [|by apply resolved_same].
  destruct (Hh host eq_refl) as [Hfr Hk]. clear Hh.
  destruct (hs_MaintenanceMode _); [by apply resolved_same|]. destruct (negb _); [by apply resolved_same|].
  apply swp_bind, swp_blocking; [done..|]. intros [[ref|] [err|]] s2 Hr2 Hf2 Ht; try by apply resolved_same.
  destruct (bool_decide _); [by apply resolved_same|].
  apply (swp_step hrm); [done..|]. intros [err|] s3 HI Hr3 _; [by apply resolved_same|]. cbv zeta.
  apply (swp_claimWrite hrm host); [done| |done|apply markProvisioned_claim|intros _; apply markProvisioned_full|done| |].
  - eapply interferes_fresh; [apply Hr2|done..].
  - eapply interferes_mayTake; [apply Hr2|done|]. by apply Ht.
  - intros [err|] s' Hr' Hnew; [by apply resolved_same|].
    destruct (Hnew eq_refl) as (new & Hnew' & Ho). rewrite Hk in Hnew'. by eapply swp_ret, resolved_at.
Qed.

Lemma swp_provisionedStatus (Q : option error -> Sys -> Prop) s :
  running hrm s -> (forall r s', running hrm s' -> Q r s') ->
  swp interferes (ensureProvisionedHostStatus hrm) Q s.
Proof.
  intros Hr HQ. unfold ensureProvisionedHostStatus. cbv zeta. destruct (String.eqb _ ""); [by apply swp_ret, HQ|].
  apply (swp_step hrm); [done..|]. intros [host|err] s1 _ Hr1 Hf; [|by apply swp_ret, HQ]. cbn in Hf.
  destruct (fresh_read None s1 _ host (proj1 Hr1) Hf) as (_ & Hfr & _).
  apply swp_bind, swp_blocking; [done..|]. intros [[ref|] [err|]] s2 Hr2 Hf2 Ht; try by apply swp_ret, HQ.
  destruct (_ && _); [by apply swp_ret, HQ|].
  apply (swp_step hrm); [done..|]. intros [err|] s3 HI Hr3 _; [by apply swp_ret, HQ|].
  apply (swp_claimWrite hrm host); [done| |done|apply markProvisioned_claim|intros _; apply markProvisioned_full|done| |].
  - eapply interferes_fresh; [apply Hr2|done..].
  - eapply interferes_mayTake; [apply Hr2|done|]. by apply Ht.
  - intros [err|] s' Hr' _; by apply swp_ret, HQ.
Qed.
End Adoption.

(** ** A run of provisioning *)

Lemma harmless_quiet X e : harmless X e -> quiet X e.
Proof.
  destruct e as [| | | |[] b a| | | | | | | | | | | |]; try done. cbn. intros [[Hm _] Hc]. by split; [|rewrite Hm].
Qed.

Lemma rescuing_quiet id ip X e : rescuing id ip X e -> quiet X e.
Proof. destruct e; try done; apply harmless_quiet. Qed.

Lemma installing_quiet id ip X e : installing id ip X e -> quiet X e.
Proof. destruct e; try done; apply harmless_quiet. Qed.

Lemma configuring_quiet ip X e : configuring ip X e -> quiet X e.
Proof. destruct e; try done; apply harmless_quiet. Qed.

(** The machine is the same for everything the invariant looks at. *)
Definition sameRecord (m m' : HetznerRobotMachine) : Prop :=
  hrm_Meta m' = hrm_Meta m /\ statusHostRef m' = statusHostRef m.

Lemma running_same s m m' : sameRecord m m' -> running m s -> running m' s.
Proof.
  intros [Hm Hr] (Hi & Hh & Ht). split; [done|]. split; [|unfold tracked in *; by rewrite Hm].
  apply (holds_key s m); [by rewrite Hm|done..].
Qed.

Section Normal.
Context `{Lib}.
Implicit Types (s : Sys) (hrm : HetznerRobotMachine).

(** The end of an attempt: the invariant holds, and the machine owns what it
    records. *)
Definition attempted (hrm : HetznerRobotMachine) (r : stepResult) (s : Sys) : Prop :=
  running r.1 s /\ keepsRecord hrm r.1.

Lemma attempted_ret hrm hrm' o s :
  running hrm' s -> keepsRecord hrm hrm' -> swp interferes (Ret (hrm', o)) (attempted hrm) s.
Proof. intros Hr Hm. by apply swp_ret. Qed.

(** A quiet part of a run. *)
Lemma swp_quietly {A} (T : A -> Prop) (p : prog A) (Q : A -> Sys -> Prop) hrm s :
  running hrm s -> emits quiet p -> wp any p (fun a _ => T a) [] ->
  (forall a s', running hrm s' -> T a -> Q a s') -> swp interferes p Q s.
Proof.
  intros Hr Hp Hw HQ. apply (swp_quiet interferes T _ Q s []); [apply sameClaims_interferes|done..|].
  intros a s' HI. apply HQ. by eapply interferes_running.
Qed.

Lemma swp_buildRobotClient hrc (Q : res Client -> Sys -> Prop) hrm s :
  running hrm s ->
  (forall r s', running hrm s' -> (forall c, r = Ok c -> baseURL c = robotBaseURL) -> Q r s') ->
  swp interferes (buildRobotClient hrc) Q s.
Proof.
  intros Hr HQ. apply (swp_quietly (fun r => forall c, r = Ok c -> baseURL c = robotBaseURL) _ Q hrm s); [done|..|done].
  - eapply emits_mono; [apply read_quiet|]. apply emits_NewFromCluster.
  - apply wp_NewFromCluster; [done|]. intros r h' _ Hc. exact Hc.
Qed.

Lemma swp_runState hrm hrc machine host robotClient s :
  running hrm s -> baseURL robotClient = robotBaseURL ->
  swp interferes (runState hrm hrc machine host robotClient) (attempted hrm) s.
Proof.
  intros Hr Hb.
  assert (forall G : guard, (forall h X e, quiet X e -> G h X e) ->
    wp G (runState hrm hrc machine host robotClient)
      (fun r _ => stepsTo hrm (nextStates (isFlatcar hrm) (provisioningState hrm)) r) []) as Hwp.
  { intros G HG. apply wp_runState_steps; [done| | |done].
    - intros _. split; intros h' X e _; [|intros _]; intros Hx; apply HG;
        [by eapply rescuing_quiet|by eapply installing_quiet].
    - intros h' X e _ Hx. apply HG. by eapply configuring_quiet. }
  eapply (swp_quietly _ _ _ hrm s); [done|by eapply emits_of_wp, (Hwp (static quiet))|by apply Hwp|].
  intros r s' Hr' (Hk & _ & _). destruct Hk as (Hm & _ & Hh & _).
  split; [by eapply running_same|by split].
Qed.

Lemma swp_reads {A} (p : prog A) Q s hrm :
  emits isRead p -> running hrm s -> (forall a s', running hrm s' -> Q a s') -> swp interferes p Q s.
Proof.
  intros Hp Hr HQ. apply swp_noWrite; [apply _| |].
  - eapply emits_mono; [|exact Hp]. by intros X e; destruct e.
  - intros a s' HI. apply HQ. by eapply interferes_running.
Qed.

Lemma swp_reconcileProvisioned hrm s :
  running hrm s -> swp interferes (reconcileProvisioned hrm) (attempted hrm) s.
Proof.
  intros Hr. unfold reconcileProvisioned.
  assert (forall hrm' s', running hrm' s' -> keepsRecord hrm hrm' ->
    swp interferes (let hrm := markReady hrm' in
         _ ← (if String.eqb (statusHostRef hrm) "" then Ret None else ensureProvisionedHostStatus hrm);
         if String.eqb (statusHostRef hrm) "" then requeue hrm requeueAfterLong else finish hrm)
      (attempted hrm) s') as Hrest.
  { intros hrm' s' Hr' Hm. cbv zeta. assert (running (markReady hrm') s') as Hr2 by (by apply (running_same _ hrm')).
    apply swp_bind. destruct (String.eqb (statusHostRef (markReady hrm')) "").
    - by apply swp_ret, attempted_ret.
    - apply swp_provisionedStatus; [done|]. intros r s2 Hs2. by apply attempted_ret. }
  destruct (String.eqb_spec (statusHostRef hrm) ""); [|by apply swp_bind, swp_ret, Hrest].
  apply swp_bind, swp_bind. eapply swp_mono; [|by apply swp_backfill].
  intros r s' [Hr' Hm]. by apply swp_ret, Hrest.
Qed.

Lemma swp_reconcileNormal hrm hrc machine s :
  running hrm s -> swp interferes (reconcileNormal hrm hrc machine) (attempted hrm) s.
Proof.
  intros Hr. unfold reconcileNormal. destruct (decide _) as [_|_]; [by apply swp_reconcileProvisioned|].
  apply swp_bind. eapply swp_mono; [|by apply swp_resolveHost].
  intros [hrm1 r] s1 [Hr1 Hmeta]. cbn [fst] in Hr1, Hmeta. destruct r as [host|err]; [|by apply attempted_ret]. cbv zeta.
  set (hrm2 := set_mst mst_Addresses _ hrm1).
  assert (running hrm2 s1) as Hr2 by (by apply (running_same _ hrm1)).
  assert (keepsRecord hrm hrm2) as Hmeta2 by done. clearbody hrm2. clear Hr1 Hmeta hrm1 Hr.
  apply swp_bind. unfold gate.
  assert (forall s2, running hrm2 s2 -> swp interferes (r ← buildRobotClient hrc;
               unwrap robotClient := r orelse err => failw hrm2 "build robot client: " err;
               runState hrm2 hrc machine host robotClient) (attempted hrm) s2) as Hrun.
  { intros s2 Hs2. apply swp_bind, (swp_buildRobotClient _ _ hrm2); [done|].
    intros [c|err] s3 Hs3 Hc; [|by apply attempted_ret].
    eapply swp_mono; [|apply swp_runState; [done|by apply Hc]].
    intros r s4 [Hr4 Hm4]. split; [done|]. by transitivity hrm2. }
  destruct (provisioningMayBecomeDestructive _); [|by apply swp_ret, Hrun].
  apply (swp_reads _ _ _ hrm2); [apply emits_authorize|done|]. intros [err|] s2 Hs2; [|by apply Hrun].
  apply attempted_ret; [|done]. by apply (running_same _ hrm2).
Qed.
End Normal.

(** ** A run of deletion *)

Lemma ownership_but gone s : ownership s -> ownershipBut gone s.
Proof. intros [Hh Hm]. split; [done|]. intros k m Hl. destruct (Hm k m Hl) as [Hw Hho]. split; [done|]. intros _. by apply Hho. Qed.

Section Delete.
Context `{Lib} (hrm : HetznerRobotMachine) (Hdel : DeletionTimestamp (hrm_Meta m0) <> None).
Implicit Types (s : Sys).

(** The host of this name is the machine's. *)
Definition ownHost (name : string) (s : Sys) : Prop :=
  exists h, sy_hosts s !! (hrm_Namespace hrm, name) = Some h /\
    ownerOf (claimOf h) = Some (machineReferenceFor hrm).

Lemma swp_resolveHostForDelete (Q : res (option HetznerRobotHost) -> Sys -> Prop) s :
  running hrm s ->
  (forall r s', running hrm s' -> (forall host, r = Ok (Some host) -> ownHost (hrh_Name host) s') -> Q r s') ->
  swp interferes (resolveHostForDelete hrm) Q s.
Proof.
  intros Hr HQ. unfold resolveHostForDelete. cbv zeta.
  assert (forall s' k host, running hrm s' -> found seenHost (sy_hosts s') k (Ok host) -> k.1 = hrm_Namespace hrm ->
    ownerOf (claimOf host) = Some (machineReferenceFor hrm) -> ownHost (hrh_Name host) s') as Hown.
  { intros s' k host Hr' Hl Hns Ho. destruct (fresh_read None s' k host (proj1 Hr') Hl) as (<- & _ & cur & Hcur & Heq).
    cbn in Hns. exists cur. unfold keyOf in Hcur. rewrite Hns in Hcur. by rewrite Heq. }
  assert (forall s' k host, running hrm s' -> found seenHost (sy_hosts s') k (Ok host) -> k.1 = hrm_Namespace hrm ->
    hostIsClaimedBy host hrm = true -> ownHost (hrh_Name host) s') as Hclaimed.
  { intros s' k host Hr' Hl Hns Hc. eapply Hown, claimed_owner, Hc; [done..|].
    eapply fresh_read; [apply Hr'|done]. }
  destruct (String.eqb_spec (statusHostRef hrm) "") as [Hs|Hs]; cbn [negb].
  - destruct (directHostRef hrm) as [name|].
    + apply (swp_step hrm); [done..|]. intros [host|err] s1 _ Hr1 Hf; [|by apply swp_ret, HQ]. cbn in Hf.
      destruct (hostIsClaimedBy host hrm) eqn:Hc; apply swp_ret, HQ; try done. intros h [= <-]. by eapply Hclaimed.
    + destruct (ms_HostSelector _) as [sel|]; [|by apply swp_ret, HQ].
      destruct (LabelSelectorAsSelector sel); [by apply swp_ret, HQ|].
      apply (swp_step hrm); [done..|]. intros [items|err] s1 _ Hr1 Hf; apply swp_ret, HQ; try done. cbn in Hf.
      intros h [= Hfind]. apply List.find_some in Hfind as [Hin Hc]. rewrite List.Forall_forall in Hf.
      destruct (Hf h Hin) as [Hns Hl]. by eapply Hclaimed.
  - apply (swp_step hrm); [done..|]. intros [host|err] s1 _ Hr1 Hf; apply swp_ret, HQ; try done.
    intros h [= <-]. cbn in Hf. destruct (proj1 (proj2 Hr1) Hs) as (host' & Hh' & Ho).
    destruct (fresh_read None s1 _ host (proj1 Hr1) Hf) as (_ & _ & cur & Hcur & Heq).
    eapply Hown; [done|exact Hf|done|]. unfold nnKey in Hcur. cbn in Hcur. congruence.
Qed.

Definition nameOf (host : HetznerRobotHost) : string := hrh_Name host.

(** Nobody else has the host that the machine records. *)
Definition notTaken (s : Sys) : Prop :=
  statusHostRef hrm <> "" -> forall h r, sy_hosts s !! (hrm_Namespace hrm, statusHostRef hrm) = Some h ->
    ownerOf (claimOf h) = Some r -> r = machineReferenceFor hrm.

Lemma holds_notTaken s : holds s hrm -> notTaken s.
Proof. intros Hh Href h r Hl Ho. destruct (Hh Href) as (h' & Hl' & Ho'). congruence. Qed.

Lemma interferes_notTaken gone s s' : ownershipBut gone s -> interferes s s' -> notTaken s -> notTaken s'.
Proof.
  intros Hi HI Hn Href h' r Hl' Ho. destruct (HI gone Hi) as (_ & He & _).
  specialize (He (hrm_Namespace hrm, statusHostRef hrm)). rewrite Hl' in He.
  destruct (sy_hosts s !! _) as [h|] eqn:Hl; cbn in He; [|congruence].
  apply (Hn Href h r); [done|]. destruct He as [He|[_ He]]; congruence.
Qed.

(** Between the choice of the host and its release. *)
Definition deleting (name : option string) (s : Sys) : Prop :=
  ownershipBut (Some (keyOf (hrm_Meta hrm))) s /\ (tracked hrm s /\ notTaken s) /\
  match name with Some n => ownHost n s | None => True end.

Lemma interferes_deleting name s s' : interferes s s' -> deleting name s -> deleting name s'.
Proof.
  intros HI (Hi & [Ht Hn] & Ho). split; [by apply HI|].
  split; [split; [by eapply interferes_tracked|by eapply interferes_notTaken]|].
  destruct name as [n|]; [|done]. destruct Ho as (h & Hh & Ho).
  destruct (interferes_owned _ s s' _ h _ Hi HI Hh Ho) as (h' & Hh' & Hc). exists h'. split; [done|]. by rewrite Hc.
Qed.

Lemma swp_deleting {A} (T : A -> Prop) (p : prog A) (Q : A -> Sys -> Prop) name s :
  emits quiet p -> wp any p (fun a _ => T a) [] -> deleting name s ->
  (forall a s', T a -> deleting name s' -> Q a s') -> swp interferes p Q s.
Proof.
  intros Hp Hw Hd HQ. apply (swp_quiet interferes T _ Q s []); [apply sameClaims_interferes|done..|].
  intros a s' HI Ha. apply HQ; [done|]. by eapply interferes_deleting.
Qed.

Lemma swp_deleting_call {X : Set} {B} name (e : Eff X) (f : X -> prog B) (Q : B -> Sys -> Prop) s :
  noWrite X e -> deleting name s ->
  (forall x s', interferes s s' -> deleting name s' -> Store.answered s' e x -> swp interferes (f x) Q s') ->
  swp interferes (trigger e ≫= f) Q s.
Proof. intros He Hd Hf. apply swp_call; [done|]. intros x s' HI Ha. apply Hf; [done| |done]. by eapply interferes_deleting. Qed.

Lemma deleting_none name s : deleting name s -> deleting None s.
Proof. by intros (? & ? & _). Qed.

(** What the machine may give back. *)
Lemma tracked_release s : tracked hrm s -> dying \/ recorded (book s) !! self = None.
Proof using Hdel.
  intros (_ & Hev & _). destruct (decide (held m0)) as [Hh|Hh]; [by left|right].
  rewrite book_recorded, (evolved_record _ _ Hev). cbn. apply recordOf_none. by right.
Qed.

Lemma swp_releaseHost name (Q : option error -> Sys -> Prop) s :
  deleting (Some name) s -> (forall r s', deleting None s' -> Q r s') ->
  swp interferes (releaseHost (hrm_Namespace hrm) name) Q s.
Proof.
  intros Hd HQ. unfold releaseHost.
  apply (swp_deleting_call (Some name)); [done..|]. intros [host|err] s1 _ Hd1 Hf; [|by eapply swp_ret, HQ, deleting_none].
  cbn in Hf. destruct (fresh_read _ s1 _ host (proj1 Hd1) Hf) as (Hk & Hfr & seen & Hseen & Heq).
  assert (ownerOf (claimOf host) = Some (machineReferenceFor hrm)) as Ho.
  { destruct Hd1 as (_ & _ & h & Hh & Ho). unfold nnKey in Hseen. cbn in Hseen. congruence. }
  apply (swp_deleting_call (Some name)); [done..|]. intros [err|] s2 HI Hd2 _; [by eapply swp_ret, HQ, deleting_none|].
  eapply (swp_hostWrite (Some (keyOf (hrm_Meta hrm))) host); [apply Hd2| |apply Hfr|done|..].
  - eapply interferes_fresh; [apply Hd1|done..].
  - unfold claimOK, claimOf, freeState. cbn. naive_solver.
  - congruence.
  - intros r Hr _. left. rewrite Ho in Hr. by injection Hr as <-.
  - intros x s3 _ HI3. assert (deleting None s3) by (eapply interferes_deleting, deleting_none; done).
    destruct x; by apply swp_ret, HQ.
  - intros x s3 cur new HI3 Hcur Hnew _ Hi'. destruct (interferes_deleting _ _ _ HI3 Hd2) as (_ & Ht & Hown).
    assert (deleting None (setHost (keyOf (hrh_Meta host)) new s3)).
    { split; [done|]. split; [|done]. destruct Ht as [Ht Hnt]. pose proof (tracked_release _ Ht) as Hrel. split.
      - destruct Ht as (Hself & Hev & Hl). split; [done|]. split; [exact Hev|]. destruct Hown as (h & Hh & Hoh).
        assert (cur = h) as -> by (rewrite Hk in Hcur; unfold nnKey in Hcur; cbn in Hcur; congruence).
        apply (ledger_release _ h); [done|exact Hcur| |by rewrite Hnew|done]. unfold leaseOf. by rewrite Hoh, <- Hself.
      - intros Href h r. unfold setHost. cbn. intros [[_ <-]|[_ Hl]]%lookup_insert_Some Hr; [|by apply (Hnt Href h r)].
        rewrite Hnew in Hr. done. }
    destruct x; by apply swp_ret, HQ.
Qed.

Lemma quiet_resetOnDelete hrc robotClient serverID :
  baseURL robotClient = robotBaseURL -> emits quiet (resetOnDelete hrc robotClient serverID).
Proof.
  intros Hb. unfold resetOnDelete.
  apply emits_bind; [eapply emits_mono; [apply read_quiet|auto with guards]|]. intros r. cbv zeta.
  apply emits_bind; [eapply emits_mono; [apply (rescuing_quiet serverID "")|by apply emits_activate]|]. intros _.
  apply emits_bind; [eapply emits_mono; [apply (rescuing_quiet serverID "")|by apply emits_reset]|]. done.
Qed.

(** The end of a deleting run: it waits for the drain and has changed nothing,
    or it has given the host up and removes the finalizer. *)
Definition deleted (r : stepResult) (s : Sys) : Prop :=
  running r.1 s /\ sameRecord hrm r.1 \/
  deleting None s /\ r.1 = removeMachineFinalizer (setState StateDeleting hrm).

(** From the reset to the end. *)
Lemma swp_resetAndRelease hrc c host (denied : option error) s :
  baseURL c = robotBaseURL -> deleting (nameOf <$> host) s ->
  let hrm' := removeMachineFinalizer (setState StateDeleting hrm) in
  let serverID := match host with Some hrh => hs_ServerID (hrh_Spec hrh) | None => 0 end in
  swp interferes
    (ensure denied orelse err => finish hrm';
     _ ← (if serverID =? 0 then Ret tt else resetOnDelete hrc c serverID);
     _ ← match host with
         | Some hrh => releaseHost (hrm_Namespace (setState StateDeleting hrm)) (hrh_Name hrh)
         | None => Ret None
         end; finish hrm') deleted s.
Proof.
  intros Hc Hd. cbv zeta.
  assert (forall s' o, deleting None s' ->
    swp interferes (Ret (removeMachineFinalizer (setState StateDeleting hrm), o)) deleted s') as Hfin
    by (intros; apply swp_ret; by right).
  destruct denied as [err|]; [by eapply Hfin, deleting_none|].
  assert (forall s', deleting (nameOf <$> host) s' -> swp interferes
    (_ ← match host with
         | Some hrh => releaseHost (hrm_Namespace (setState StateDeleting hrm)) (hrh_Name hrh)
         | None => Ret None
         end; finish (removeMachineFinalizer (setState StateDeleting hrm))) deleted s') as Hend.
  { intros s' Hs'. apply swp_bind. destruct host as [hrh|]; [|by apply swp_ret, Hfin].
    apply swp_releaseHost; [done|]. intros r s2 Hs2. by apply Hfin. }
  apply swp_bind. destruct (_ =? 0); [by apply swp_ret, Hend|].
  eapply (swp_deleting (fun _ => True)); [by apply quiet_resetOnDelete|by apply wp_any|exact Hd|].
  intros _ s2 _ Hs2. by apply Hend.
Qed.

Lemma swp_reconcileDelete hrc machine s :
  running hrm s -> swp interferes (reconcileDelete hrm hrc machine) deleted s.
Proof.
  intros Hr. unfold reconcileDelete. cbv zeta. apply swp_bind.
  apply swp_resolveHostForDelete; [by apply (running_same _ hrm)|]. intros r s0 Hr0 Hres.
  assert (forall host, match r with Ok hrh => hrh | Err _ => None end = Some host -> ownHost (hrh_Name host) s0) as Ho.
  { intros host Hh. destruct r as [o|err]; [|done]. subst o. by apply Hres. }
  revert Ho. generalize (match r with Ok hrh => hrh | Err _ => None end). clear Hres r. intros host Ho.
  destruct (waitsForDrain machine); [by apply swp_ret; left|].
  assert (deleting (nameOf <$> host) s0) as Hd.
  { destruct Hr0 as (Hi & Hh & Ht). split; [by apply ownership_but|]. split; [by split; [|apply holds_notTaken]|].
    destruct host as [hrh|]; [by apply Ho|done]. }
  clear Ho Hr Hr0.
  apply swp_bind. unfold buildRobotClient. eapply (swp_deleting (fun r => forall c, r = Ok c -> baseURL c = robotBaseURL)).
  { eapply emits_mono; [apply read_quiet|]. apply emits_NewFromCluster. }
  { apply wp_NewFromCluster; [done|]. intros r h' _ Hc. exact Hc. }
  { exact Hd. }
  intros [c|err] s1 Hc Hd1; [|apply swp_ret; right; split; [by eapply deleting_none|done]]. specialize (Hc c eq_refl).
  pose proof (fun denied s' => swp_resetAndRelease hrc c host denied s' Hc) as Hreset. cbv zeta in Hreset.
  apply swp_bind. destruct (_ =? 0); [apply swp_ret; exact (Hreset None s1 Hd1)|].
  destruct host as [hrh|]; [|apply swp_ret; exact (Hreset None s1 Hd1)].
  eapply (swp_deleting (fun _ => True)); [|by apply wp_any|exact Hd1|intros e s2 _ Hs2; exact (Hreset e s2 Hs2)].
  eapply emits_mono; [apply read_quiet|]. apply emits_authorize.
Qed.
End Delete.

(** ** A run of a machine *)

(** The write that ends a run: of a machine that stays, or of one that goes. *)
Lemma ownership_setMachine gone s k new :
  ownershipBut gone s -> (gone = None \/ gone = Some k) -> wellFormed k new -> holds s new ->
  ownership (s <| sy_machines := <[k := new]> (sy_machines s) |>).
Proof.
  intros [Hh Hm] Hg Hw Hn. split; [done|]. intros k' m. cbn. intros [[<- <-]|[Hk Hl]]%lookup_insert_Some; [done|].
  destruct (Hm k' m Hl) as [Hw' Hho]. split; [done|]. intros _. apply Hho. destruct Hg; congruence.
Qed.

Lemma ownership_dropMachine gone s k :
  ownershipBut gone s -> (gone = None \/ gone = Some k) ->
  ownership (s <| sy_machines := delete k (sy_machines s) |>).
Proof.
  intros [Hh Hm] Hg. split; [done|]. intros k' m. cbn. intros [Hk Hl]%lookup_delete_Some.
  destruct (Hm k' m Hl) as [Hw' Hho]. split; [done|]. intros _. apply Hho. destruct Hg; congruence.
Qed.

Lemma ownership_absent s k : ownershipBut (Some k) s -> sy_machines s !! k = None -> ownership s.
Proof.
  intros [Hh Hm] Hk. split; [done|]. intros k' m Hl. destruct (Hm k' m Hl) as [Hw Hho]. split; [done|].
  intros _. apply Hho. congruence.
Qed.

Section Finalizers.
Context `{LibLaws}.

Lemma AddFinalizer_nonempty fs f : AddFinalizer fs f <> [].
Proof. intros Hn. pose proof (AddFinalizer_self fs f) as Hf. rewrite Hn in Hf. by apply elem_of_nil in Hf. Qed.

Lemma RemoveFinalizer_self fs f : f ∉ RemoveFinalizer fs f.
Proof. intros Hf. by apply RemoveFinalizer_in in Hf as [_ ?]. Qed.
End Finalizers.

Section Machine.
Context `{LibLaws}.
Implicit Types (s : Sys).

(** The end of a run's body: the machine stays, or its deletion is finished. *)
Definition settled (m : HetznerRobotMachine) (s : Sys) : Prop :=
  (exists fs, hrm_Meta m = (hrm_Meta m0) <| Finalizers := fs |> /\ running m s /\
     (statusHostRef m0 <> "" -> statusHostRef m = statusHostRef m0) /\
     (fs = Finalizers (hrm_Meta m0) \/
      fs = AddFinalizer (Finalizers (hrm_Meta m0)) MachineFinalizer)) \/
  deleting m0 None s /\ DeletionTimestamp (hrm_Meta m0) <> None /\
  m = removeMachineFinalizer (setState StateDeleting m0).

Lemma settled_attempt m m' s :
  running m s -> keepsRecord m0 m -> sameRecord m m' -> settled m' s.
Proof.
  intros Hr [Hm Hk] Hs. left. exists (Finalizers (hrm_Meta m0)).
  split; [|split; [by eapply running_same|split; [|by left]]].
  - rewrite (proj1 Hs), Hm. by destruct (hrm_Meta m0).
  - intros Hn. rewrite (proj2 Hs). auto.
Qed.

Lemma handleSuccess_record m : sameRecord m (handleSuccess m).
Proof. unfold handleSuccess. cbv zeta. by destruct (decide _). Qed.

Lemma swp_backoff m s :
  running m s -> swp interferes (backoffRemaining m) (fun _ s' => running m s') s.
Proof.
  intros Hr. apply swp_noWrite; [apply _| |intros a s' HI; by eapply interferes_running].
  unfold backoffRemaining. cbv zeta. repeat emits_step; done.
Qed.

Lemma swp_attempt hrm' hrc machine s :
  running hrm' s -> keepsRecord m0 hrm' ->
  swp interferes (reconcileAttempt hrm' hrc machine) (fun r => settled r.1) s.
Proof.
  intros Hr Hm. unfold reconcileAttempt. apply swp_bind. eapply swp_mono; [|by apply swp_backoff].
  intros [remaining|] s0 Hr0; [by apply swp_ret, (settled_attempt hrm')|].
  apply swp_bind. eapply swp_mono; [|by apply swp_reconcileNormal]. intros [m o] s1 [Hr1 Hm1]. cbn [fst] in Hr1, Hm1.
  apply (transitivity Hm) in Hm1. destruct o as [result|err|msg].
  - apply swp_ret. by eapply settled_attempt, handleSuccess_record.
  - unfold handleError. destruct (isPermanentError _); [by apply swp_ret, (settled_attempt m)|].
    cbv zeta. apply (swp_step m); [done..|]. intros now s2 _ Hr2 _. by apply swp_ret, (settled_attempt m).
  - by apply swp_ret, (settled_attempt m).
Qed.

Lemma swp_checkTimeout s :
  running m0 s -> swp interferes (checkTimeout m0) (fun t s' => running m0 s' /\ sameRecord m0 t.1) s.
Proof.
  intros Hr. unfold checkTimeout. destruct (timeoutApplies _); [|done].
  destruct (mst_ProvisionStarted _); (apply (swp_step m0); [done..|]; intros now s1 _ Hr1 _); [|done].
  by destruct (_ <? _).
Qed.

Lemma swp_reconcileMachine hrc machine s :
  running m0 s -> swp interferes (reconcileMachine m0 hrc machine) (fun r => settled r.1) s.
Proof.
  intros Hr. unfold reconcileMachine. destruct (DeletionTimestamp (hrm_Meta m0)) as [t|] eqn:Hd.
  - eapply swp_mono; [|apply swp_reconcileDelete; [by rewrite Hd|done]]. intros r s1 [[Hr1 [Hm Href]]|[Hd1 Hm]].
    + by apply (settled_attempt r.1).
    + right. by rewrite Hd.
  - destruct (ContainsFinalizer _ _); cbn [negb].
    + apply swp_bind. eapply swp_mono; [|by apply swp_checkTimeout]. intros [m []] s1 [Hr1 Hm]; cbn [fst] in Hm.
      * by apply swp_ret, (settled_attempt m0).
      * apply swp_attempt; [by eapply running_same|]. destruct Hm as [Hm Href]. by split.
    + apply swp_ret. left. eexists. split; [done|]. split; [|split; [done|by right]].
      destruct Hr as (Hi & Hh & Ht). split; [done|]. by split.
Qed.

(** The last write leaves the finalizers, or adds the controller's. *)
Lemma merged_finalizers main status cur m fs :
  hrm_Meta m = (hrm_Meta m0) <| Finalizers := fs |> ->
  (fs = Finalizers (hrm_Meta m0) \/ fs = AddFinalizer (Finalizers (hrm_Meta m0)) MachineFinalizer) ->
  let new := mergeMachine main status cur m0 m in
  Finalizers (hrm_Meta new) = Finalizers (hrm_Meta cur) \/
  Finalizers (hrm_Meta new) = AddFinalizer (Finalizers (hrm_Meta m0)) MachineFinalizer.
Proof.
  intros Hm Hfs new. assert (Finalizers (hrm_Meta m) = fs) as Hf by (by rewrite Hm).
  unfold new. cbn -[mergeField]. rewrite Hf. destruct Hfs as [->| ->]; [left; apply mergeField_same|].
  destruct (mergeField_in main (Finalizers (hrm_Meta cur)) (Finalizers (hrm_Meta m0))
    (AddFinalizer (Finalizers (hrm_Meta m0)) MachineFinalizer)); auto.
Qed.

(** The finalizers and the host of the stored machine after the last write of a
    run that leaves the machine. *)
Lemma merged_stays k main status cur m fs s :
  wellFormed k m0 -> wellFormed k cur -> holds s cur -> holds s m ->
  hrm_Meta m = (hrm_Meta m0) <| Finalizers := fs |> ->
  (fs = Finalizers (hrm_Meta m0) \/ fs = AddFinalizer (Finalizers (hrm_Meta m0)) MachineFinalizer) ->
  let new := mergeMachine main status cur m0 m in
  removed (hrm_Meta cur) (hrm_Meta new) = false /\ wellFormed k new /\ holds s new.
Proof.
  intros [Hk _] [Hkc Hns] Hhc Hhm Hm Hfs new. split; [|split; [by split|]].
  - destruct (merged_finalizers main status cur m fs Hm Hfs) as [Hf|Hf]; [by apply removed_same|]. unfold removed.
    rewrite (bool_decide_eq_false_2 (Finalizers (hrm_Meta new) = [])); [by rewrite andb_false_r|].
    unfold new. rewrite Hf. apply AddFinalizer_nonempty.
  - destruct (mergeField_in status (statusHostRef cur) (statusHostRef m0) (statusHostRef m)
      : statusHostRef new = _ \/ statusHostRef new = _) as [He|He].
    + by apply (holds_key s cur).
    + apply (holds_key s m); [|done..]. rewrite Hm. change (keyOf (hrm_Meta cur) = keyOf (hrm_Meta m0)). congruence.
Qed.

(** What the last write enters in the book: nothing, or the host of the machine. *)
Lemma merged_ledger main status cur m fs s :
  sy_machines s !! self = Some cur -> evolvedMachine (Some m0) (Some cur) ->
  (statusHostRef m0 <> "" -> statusHostRef m = statusHostRef m0) ->
  hrm_Meta m = (hrm_Meta m0) <| Finalizers := fs |> ->
  (fs = Finalizers (hrm_Meta m0) \/ fs = AddFinalizer (Finalizers (hrm_Meta m0)) MachineFinalizer) ->
  let new := mergeMachine main status cur m0 m in
  wellFormed self new -> holds s new -> ledger s -> ledger (putMachine self new s).
Proof.
  intros Hcur Hev Href Hm Hfs new Hw Hn Hl. unfold ledger. rewrite book_putMachine.
  assert (recorded (book s) !! self = recordOf cur) as Hrec by (rewrite book_recorded, Hcur; done).
  assert (held cur -> held new) as Hfin.
  { unfold held, new. intros Hc. destruct (merged_finalizers main status cur m fs Hm Hfs) as [->| ->]; [done|].
    apply AddFinalizer_self. }
  assert (statusHostRef cur <> "" -> statusHostRef new = statusHostRef cur) as Hkeep.
  { intros Hc. destruct Hev as [(Heq & _)|[_ Heq]]; [|done]. unfold new. cbn -[mergeField].
    rewrite Href by congruence. apply mergeField_same. }
  destruct (recordOf cur) as [n|] eqn:Hc.
  - apply recordOf_some in Hc as (-> & Hne & Hf).
    assert (recordOf new = Some (statusHostRef cur)) as -> by (apply recordOf_some; rewrite Hkeep by done; auto).
    rewrite insert_id by done. by rewrite MkBook_eta.
  - destruct (recordOf new) as [n|] eqn:Hr; [|rewrite delete_id by done; by rewrite MkBook_eta].
    apply recordOf_some in Hr as (-> & Hne & Hf). eapply rtc_r; [exact Hl|].
    rewrite <- (MkBook_eta (book s)) at 1.
    apply lease_record; [|done]. destruct (Hn Hne) as (h & Hh & Ho). rewrite book_leases.
    assert ((self.1, statusHostRef new) = (hrm_Namespace new, statusHostRef new)) as -> by (by rewrite <- (proj1 Hw)).
    rewrite Hh. cbn. unfold leaseOf. rewrite Ho. cbn. by rewrite machineReference_key, (proj1 Hw).
Qed.

(** The machine is struck off the book, if it is there. *)
Lemma ledger_forget s :
  DeletionTimestamp (hrm_Meta m0) <> None -> tracked m0 s ->
  rtc (leaseStep self dying) b0 (MkBook (leases (book s)) (delete self (recorded (book s)))).
Proof.
  intros Hdel Ht. destruct (tracked_release m0 Hdel s Ht) as [Hd|Hr].
  - eapply rtc_r; [apply Ht|]. rewrite <- (MkBook_eta (book s)) at 1. by apply lease_forget.
  - rewrite delete_id by done. rewrite MkBook_eta. apply Ht.
Qed.

(** The write that ends a deletion may leave the machine, when it fails in part
    or somebody else has a finalizer there. *)
Lemma merged_leaves main status cur s :
  let m := removeMachineFinalizer (setState StateDeleting m0) in
  let new := mergeMachine main status cur m0 m in
  wellFormed self m0 -> DeletionTimestamp (hrm_Meta m0) <> None ->
  sy_machines s !! self = Some cur -> wellFormed self cur -> deleting m0 None s ->
  (finished (putMachine self new s) -> holds s new) /\ ledger (putMachine self new s).
Proof.
  intros m new [Hk Hns] Hdel Hcur [Hkc _] (Hi & [Ht Hnt] & _). assert (statusHostRef new = statusHostRef cur) as Href
    by (unfold new; cbn -[mergeField]; apply mergeField_same). split.
  - intros Hfin Hne. rewrite Href in Hne. destruct Ht as (_ & Hev & _). rewrite Hcur in Hev.
    destruct Hev as [(Heq & _ & Hdc)|[_ Heq]]; [|congruence]. specialize (Hdc Hdel).
    assert ((hrm_Namespace new, statusHostRef new) = (hrm_Namespace m0, statusHostRef m0)) as Hkey.
    { rewrite Href, Heq. f_equal. change (hrm_Namespace new) with (hrm_Namespace cur). unfold keyOf in *. congruence. }
    assert (machineReferenceFor new = machineReferenceFor m0) as ->.
    { unfold machineReferenceFor. change (hrm_Meta new) with (mergeMeta main (hrm_Meta cur) (hrm_Meta m0) (hrm_Meta m)).
      cbn. unfold keyOf in *. congruence. }
    rewrite Hkey. destruct (sy_hosts s !! (hrm_Namespace m0, statusHostRef m0)) as [h|] eqn:Hh.
    + destruct (ownerOf (claimOf h)) as [r|] eqn:Ho.
      * exists h. split; [done|]. rewrite Ho. f_equal. by apply (Hnt ltac:(congruence) h).
      * exfalso. apply (Hfin self new); [unfold putMachine; cbn; by rewrite lookup_insert_eq|].
        split; [exact Hdc|]. split; [congruence|]. intros h' Hh'. rewrite Hkey in Hh'. cbn in Hh'. congruence.
    + exfalso. apply (Hfin self new); [unfold putMachine; cbn; by rewrite lookup_insert_eq|].
      split; [exact Hdc|]. split; [congruence|]. intros h' Hh'. rewrite Hkey in Hh'. cbn in Hh'. congruence.
  - unfold ledger. rewrite book_putMachine. assert (recorded (book s) !! self = recordOf cur) as Hrec
      by (rewrite book_recorded, Hcur; done).
    destruct (decide (held new)) as [Hh|Hh]; [|rewrite (recordOf_none new) by auto; by apply ledger_forget].
    assert (Finalizers (hrm_Meta new) = Finalizers (hrm_Meta cur)) as Hf.
    { unfold held, new in *. cbn -[mergeField] in *. destruct (mergeField_in main (Finalizers (hrm_Meta cur))
        (Finalizers (hrm_Meta m0)) (RemoveFinalizer (Finalizers (hrm_Meta m0)) MachineFinalizer)) as [He|He]; [done|].
      rewrite He in Hh. by apply RemoveFinalizer_self in Hh. }
    rewrite (recordOf_same cur new) by (done || unfold held; by rewrite Hf).
    destruct (recordOf cur); [rewrite insert_id by done|rewrite delete_id by done]; rewrite MkBook_eta; apply Ht.
Qed.

(** The last write of the run. *)
Lemma patch_settled m x s0 s s1 :
  wellFormed self m0 -> settled m s0 -> interferes s0 s -> effect s (EPatch KMachine m0 m) x s1 ->
  (finished s1 -> ownership s1) /\ ledger s1 /\ (dying -> going self s1).
Proof.
  intros Hw Hm HI (machines & Hp & ->). pose proof (proj1 Hw) as Hkey. unfold patched in Hp. rewrite Hkey in Hp.
  destruct Hm as [(fs & Hmeta & Hr & Href & Hfs)|(Hd0 & Hdel & ->)].
  - apply (interferes_running _ _ _ HI) in Hr as (Hi & Hh & Ht). pose proof (fun Hd => tracked_going _ s Hd Ht) as Hgo.
    destruct Ht as (_ & Hev & Hl). destruct (sy_machines s !! self) as [cur|] eqn:Hcur.
    2: { destruct Hp as [_ ->]. by replace (s <| sy_machines := sy_machines s |>) with s by by destruct s. }
    destruct Hp as (main & status & _ & ->). destruct (proj2 Hi self cur Hcur) as [Hwc Hhc].
    destruct (merged_stays self main status cur m fs s) as (Hrem & Hwn & Hhn); auto.
    unfold put. rewrite Hrem. split; [intros _; eapply ownership_setMachine; [done|by left|done..]|].
    split; [by eapply (merged_ledger main status cur)|].
    intros Hd cur'. cbn -[mergeMachine]. rewrite lookup_insert_eq. intros [= <-]. exact (Hgo Hd cur Hcur).
  - apply (interferes_deleting _ _ _ _ HI) in Hd0. pose proof Hd0 as (Hi & [Ht _] & _).
    pose proof (fun Hd => tracked_going _ s Hd Ht) as Hgo.
    destruct (sy_machines s !! self) as [cur|] eqn:Hcur.
    2: { destruct Hp as [_ ->]. replace (s <| sy_machines := sy_machines s |>) with s by by destruct s.
      split; [intros _; by eapply ownership_absent|]. split; [apply Ht|done]. }
    destruct Hp as (main & status & _ & ->). unfold put.
    set (new := mergeMachine main status cur m0 _). destruct (removed (hrm_Meta cur) (hrm_Meta new)).
    + split; [intros _; eapply ownership_dropMachine; [done|]; by right|].
      split; [unfold ledger; rewrite book_dropMachine; by apply ledger_forget|].
      intros _ c. cbn. by rewrite lookup_delete_eq.
    + destruct (proj2 Hi self cur Hcur) as [Hwc _].
      destruct (merged_leaves main status cur s Hw Hdel Hcur Hwc Hd0) as [Hhn Hl]. fold new in Hhn, Hl.
      split; [intros Hf; eapply ownership_setMachine; [done|by right|exact Hwc|by apply Hhn]|]. split; [exact Hl|].
      intros Hd cur'. cbn -[mergeMachine]. rewrite lookup_insert_eq. intros [= <-]. exact (Hgo Hd cur Hcur).
Qed.
End Machine.
End Run.

(** What a whole run has done: steps of its machine, which gives something back
    only when it is going. *)
Definition runDone (k : okey) (s s' : Sys) : Prop :=
  (finished s' -> ownership s') /\ rtc (leaseStep k (going k s')) (book s) (book s').

Lemma runDone_quiet k s s' : ownership s -> interferes s s' -> runDone k s s'.
Proof.
  intros Hi HI. destruct (HI None Hi) as [Hi' _]. split; [done|]. by rewrite (interferes_book None s s' Hi HI).
Qed.

Lemma running_done hrm s s' : running hrm (book s) hrm s' -> runDone (keyOf (hrm_Meta hrm)) s s'.
Proof.
  intros (Hi & _ & Ht). split; [done|]. eapply leaseSteps_mono; [|apply Ht]. intros Hd. by eapply tracked_going.
Qed.

Lemma swp_Reconcile `{LibLaws} req s :
  ownership s -> swp interferes (Reconcile req) (fun _ s' => runDone (nnKey req) s s') s.
Proof.
  intros Hi. unfold Reconcile. apply swp_call; [done|]. intros r s1 HI Hf.
  destruct (HI None Hi) as (Hi1 & _). destruct r as [hrm|err]; [|by apply runDone_quiet]. cbn in Hf.
  destruct Hf as (cur & Hf & Hkey & Href & Hheld & Hdel).
  destruct (proj2 Hi1 _ _ Hf) as [[Hkc Hns] Hh]. assert (keyOf (hrm_Meta hrm) = nnKey req) as Hk by congruence.
  assert (wellFormed (keyOf (hrm_Meta hrm)) hrm) as Hw by (split; [done|by rewrite Hk]).
  rewrite <- Hk in Hf |- *. assert (running hrm (book s) hrm s1) as Hr1.
  { split; [done|]. split; [by apply (holds_key s1 cur); [..|apply Hh]|]. split; [done|split].
    - unfold self. rewrite Hf. left. by rewrite Href.
    - unfold ledger. by rewrite (interferes_book None s s1 Hi HI). }
  clear HI Hi1 Hh Hf Hkc Hk Hkey. apply (swp_step hrm (book s) hrm); [done..|].
  intros [[machine|]|err] s2 _ Hr2 _; try by apply swp_ret, running_done.
  apply (swp_step hrm (book s) hrm); [done..|]. intros [[cluster|]|err] s3 _ Hr3 _; try by apply swp_ret, running_done.
  destruct (cl_Paused cluster); [by apply swp_ret, running_done|].
  destruct (cl_InfrastructureRef cluster) as [ref|]; [|by apply swp_ret, running_done].
  apply (swp_step hrm (book s) hrm); [done..|]. intros [hrc|err] s4 _ Hr4 _; [|by apply swp_ret, running_done].
  apply (swp_step hrm (book s) hrm); [done..|]. intros [err|] s5 _ Hr5 _; [by apply swp_ret, running_done|].
  apply swp_bind. eapply swp_mono; [|by apply (swp_reconcileMachine hrm (book s))].
  intros [m o] s6 Hm. apply swp_bind. intros s7 x s8 HI7 _ He. apply swp_ret.
  destruct (patch_settled hrm (book s) m x s6 s7 s8 Hw Hm HI7 He) as (Hi8 & Hl & Hg). split; [done|].
  by eapply leaseSteps_mono.
Qed.
