(* ===== verification/System.v ===== *)
(** * The controllers on one store

    The system: the four reconcilers on the store of Store, and users and
    Cluster API that create, edit and delete machines and hosts.  Between any
    two calls of a run of the machine reconciler the others may work: runs of
    the other three reconcilers, each as a whole, the writes of runs of the host
    reconciler that began at any time before, and requests of users.  The
    machine reconciler itself makes one run at a time, as the manager runs it.
    From an empty store, ownership of hosts stays exclusive in every state the
    system reaches, when reads are up to date in what Store calls
    [upToDate] and no step ends with a deletion half done ([cleanStep]).  The
    lemmas at the end show that the claim needs its assumptions: it fails with
    two claims at a time, with a claim that reads a host from a stale cache, with
    a run for a new host that is not atomic, and after a deletion that leaves the
    machine behind. *)

From S2P Require Import Prelude GoStrings GoTime Api Effects Store Lib Samples Policy.
From S2P Require Import Robot Rescue Talos HostClaim Inject Ignition Retry States Machine.
From S2P Require Import Safety Remediation HostCtl ClusterCtl Writes Leases Ownership OwnershipRuns.

Local Open Scope Z_scope.

(** ** The other reconcilers *)

Section Others.
Context `{LibLaws}.

Lemma ownership_dropHost gone s k h :
  ownershipBut gone s -> sy_hosts s !! k = Some h -> ownerOf (claimOf h) = None ->
  ownershipBut gone (s <| sy_hosts := delete k (sy_hosts s) |>).
Proof.
  intros [Hh Hm] Hk Ho. split.
  - intros k' h'. cbn. intros [_ Hl]%lookup_delete_Some. by apply Hh.
  - intros k' m Hl. change (sy_machines s !! k' = Some m) in Hl. destruct (Hm k' m Hl) as [Hw Hho]. split; [done|].
    intros Hg Href. destruct (Hho Hg Href) as (host & Hhost & Hown). exists host. split; [|done]. cbn.
    rewrite lookup_delete_ne; [done|]. intros ->. congruence.
Qed.

(** A host goes that has no owner. *)
Lemma dropHost_interferes s k h :
  sy_hosts s !! k = Some h -> ownerOf (claimOf h) = None ->
  interferes s (s <| sy_hosts := delete k (sy_hosts s) |>).
Proof.
  intros Hk Ho gone Hi. split; [by eapply ownership_dropHost|]. split; [|intros k'; reflexivity].
  intros k'. cbn. destruct (decide (k = k')) as [<-|Hne].
  - by rewrite Hk, lookup_delete_eq.
  - rewrite lookup_delete_ne by done. reflexivity.
Qed.

(** A host changes without a change of ownership. *)
Lemma setHost_interferes s k h new :
  sy_hosts s !! k = Some h -> keyOf (hrh_Meta new) = keyOf (hrh_Meta h) ->
  (claimOK (claimOf h) -> claimOK (claimOf new) /\ evolved (Some h) (Some new)) ->
  interferes s (setHost k new s).
Proof.
  intros Hk Hkey Hev gone Hi. destruct (proj1 Hi _ _ Hk) as [Hkh Hok]. destruct (Hev Hok) as [Hokn He].
  split; [|split; [|intros k'; reflexivity]].
  - eapply ownership_setHost; [done|exact Hk|congruence|done|].
    intros r Hr Hne. exfalso. destruct He as [He|[He _]]; congruence.
  - intros k'. unfold setHost. cbn. destruct (decide (k = k')) as [<-|Hne].
    + by rewrite Hk, lookup_insert_eq.
    + rewrite lookup_insert_ne by done. reflexivity.
Qed.

(** A host is created. *)
Lemma createHost_interferes s k h :
  sy_hosts s !! k = None -> keyOf (hrh_Meta h) = k -> claimOf h = (HostStateUnset, None, None) ->
  interferes s (setHost k h s).
Proof.
  intros Hk Hkey Hc gone [Hh Hm]. split; [split|split; [|intros k'; reflexivity]].
  - intros k' h' Hl. change (<[k := h]> (sy_hosts s) !! k' = Some h') in Hl.
    apply lookup_insert_Some in Hl as [[<- <-]|[_ Hl]]; [|by apply Hh]. split; [done|].
    rewrite Hc. unfold claimOK, freeState. split; [done|]. naive_solver.
  - intros k' m Hl. destruct (Hm k' m Hl) as [Hw Hho]. split; [done|]. intros Hg Href.
    destruct (Hho Hg Href) as (host & Hhost & Hown). exists host. split; [|done]. cbn.
    rewrite lookup_insert_ne; [done|]. intros ->. congruence.
  - intros k'. unfold setHost. cbn. destruct (decide (k = k')) as [<-|Hne].
    + rewrite Hk, lookup_insert_eq. cbn. by rewrite Hc.
    + rewrite lookup_insert_ne by done. reflexivity.
Qed.

(** The write of the host reconciler, of a host that was seen as it is stored. *)
Lemma patch_hostStep k cur b a x s s1 :
  sy_hosts s !! k = Some cur -> keyOf (hrh_Meta b) = k -> claimOf b = claimOf cur -> hostStep b a ->
  effect s (EPatch KHost b a) x s1 -> interferes s s1.
Proof.
  intros Hk Hkey Hseen (ip & net & st & fs & -> & _ & _ & Hst & Hfs) (hosts & Hp & ->).
  unfold patched in Hp. rewrite Hkey, Hk in Hp.
  destruct Hp as (main & status & _ & ->). unfold put.
  set (a := MkHRH _ _ _). set (new := mergeHost main status cur b a).
  assert (Finalizers (hrh_Meta new) = mergeField main (Finalizers (hrh_Meta cur)) (Finalizers (hrh_Meta b)) fs) as Hfin by done.
  destruct (removed _ _) eqn:Hrem.
  - apply (dropHost_interferes s k cur); [done|]. unfold removed in Hrem. rewrite Hfin in Hrem.
    apply andb_prop in Hrem as [[_ Hnil]%andb_prop Hcur]. bool_prop.
    destruct Hfs as [->|[[_ ->]|(_ & Hc & Hr & _)]]; [by rewrite mergeField_same in Hnil| |].
    + destruct (mergeField_in main (Finalizers (hrh_Meta cur)) (Finalizers (hrh_Meta b))
        (AddFinalizer (Finalizers (hrh_Meta b)) HostFinalizer)) as [He|He]; rewrite He in Hnil; [done|].
      by apply AddFinalizer_nonempty in Hnil.
    + rewrite <- Hseen. unfold ownerOf, claimOf. cbn. by rewrite Hc.
  - apply (setHost_interferes s k cur new Hk); [done|]. rewrite <- Hseen. intros Hok.
    assert (claimOf new = claimOf a \/ claimOf new = claimOf b) as [Hn|Hn].
    { unfold new. destruct status; [left; by apply mergeHost_claim|right; by rewrite mergeHost_none]. }
    2: { split; [by rewrite Hn|left; congruence]. }
    change (claimOK (claimOf new) /\ (claimOf new = claimOf cur \/
      ownerOf (claimOf cur) = None /\ ownerOf (claimOf new) = None)).
    rewrite <- Hseen, Hn. destruct Hst as [->|[Hu ->]]; [split; [exact Hok|by left]|].
    assert (freeState (hst_State (hrh_Status b))) as Hfree by (by right).
    destruct (proj1 (proj2 Hok) Hfree) as [Hc Hr]. unfold claimOK, claimOf, ownerOf, freeState. cbn.
    rewrite Hc, Hr. split; [naive_solver|by right].
Qed.

(** The write of the host reconciler, of a host as it was read at any time
    before, if it was neither new nor under deletion: nothing the invariant
    looks at. *)
Lemma late_hostStep b a x s s1 :
  hst_State (hrh_Status b) <> HostStateUnset -> DeletionTimestamp (hrh_Meta b) = None -> hostStep b a ->
  effect s (EPatch KHost b a) x s1 -> sameClaims s s1.
Proof.
  intros Hu Hd (ip & net & st & fs & -> & _ & _ & Hst & Hfs) (hosts & Hp & ->). unfold patched in Hp.
  assert (st = hst_State (hrh_Status b)) as -> by (destruct Hst as [->|[? _]]; done).
  assert (fs = Finalizers (hrh_Meta b) \/ fs = AddFinalizer (Finalizers (hrh_Meta b)) HostFinalizer) as Hf
    by (destruct Hfs as [->|[[_ ->]|[? _]]]; [by left|by right|done]). clear Hst Hfs.
  destruct (sy_hosts s !! keyOf (hrh_Meta b)) as [cur|] eqn:Hcur; [|destruct Hp as [_ ->]; by destruct s].
  destruct Hp as (main & status & _ & ->). split; [done|]. intros k. cbn. unfold put.
  set (a := MkHRH _ _ _). assert (removed (hrh_Meta cur) (hrh_Meta (mergeHost main status cur b a)) = false) as ->.
  { assert (Finalizers (hrh_Meta (mergeHost main status cur b a)) = Finalizers (hrh_Meta cur) \/
      Finalizers (hrh_Meta (mergeHost main status cur b a)) <> []) as [He|He].
    { unfold a. cbn -[mergeField]. destruct Hf as [->| ->]; [left; apply mergeField_same|].
      destruct (mergeField_in main (Finalizers (hrh_Meta cur)) (Finalizers (hrh_Meta b))
        (AddFinalizer (Finalizers (hrh_Meta b)) HostFinalizer)) as [->| ->]; [by left|right; apply AddFinalizer_nonempty]. }
    - by apply removed_same.
    - unfold removed. rewrite (bool_decide_eq_false_2 (Finalizers (hrh_Meta _) = [])) by done. by rewrite andb_false_r. }
  destruct (decide (k = keyOf (hrh_Meta b))) as [->|Hk].
  - rewrite Hcur, lookup_insert_eq. split; [done|]. unfold claimOf. cbn -[mergeField]. by rewrite !mergeField_same.
  - rewrite lookup_insert_ne by done. by destruct (sy_hosts s !! k).
Qed.

(** The other three reconcilers, run without interference. *)
Lemma swp_ReconcileHost req s gone :
  ownershipBut gone s -> swp eq (ReconcileHost req) (fun _ s' => interferes s s') s.
Proof.
  intros Hi. unfold ReconcileHost. apply swp_call; [done|]. intros [host|err] ? <- Hf; [|apply swp_ret; reflexivity].
  apply swp_call; [done|]. intros [err|] ? <- _; [apply swp_ret; reflexivity|].
  assert (forall X e, hostCall X e -> noWrite X e) as Hq by (by intros X e; destruct e).
  pose proof (yields_reconcileHost host) as Hy. apply swp_bind.
  assert (swp eq (reconcileHost host) (fun r s' => s' = s /\ hostStep host r.1) s) as Hs.
  { apply (swp_yields eq hostCall _ (fun r => hostStep host r.1)); [done|exact Hy|]. by intros a s' <-. }
  eapply swp_mono; [|exact Hs]. intros [host' o] s1 [-> Hstep].
  apply swp_bind. intros s2 x s3 <- _ He. apply swp_ret. destruct (fresh_read _ _ _ _ Hi Hf) as (Hk & _ & cur & Hcur & Hc).
  eapply patch_hostStep; [exact Hcur|exact Hk|done|exact Hstep|exact He].
Qed.

Lemma quiet_interferes {A} rd (p : prog A) s o s' :
  upToDate rd -> emits quiet p -> srun rd alone p s o s' -> interferes s s'.
Proof.
  intros Hrd Hp Hr. apply sameClaims_interferes.
  refine (swp_sound rd alone sameClaims p (fun _ s' => sameClaims s s') s o s' Hrd _ Hr _).
  - intros s1 s2 He%rtc_alone. subst s2. reflexivity.
  - by apply (swp_quiet sameClaims (fun _ => True) p _ s []); [|done|apply wp_any|].
Qed.

Lemma quiet_ReconcileCluster req : emits quiet (ReconcileCluster req).
Proof.
  unfold ReconcileCluster.
  repeat match goal with |- emits _ (reconcileCluster _) => fail 1 | _ => emits_step end; try done.
  apply (emits_of_wp _ _ (fun _ _ => True) []), wp_reconcileCluster; [|done]. intros h X e He. by apply read_quiet.
Qed.

Lemma quiet_ReconcileRemediation req : emits quiet (ReconcileRemediation req).
Proof.
  apply (emits_of_wp _ _ (fun _ _ => True) []), wp_ReconcileRemediation; try done. intros h X e He. by apply read_quiet.
Qed.
End Others.

(** ** The system *)

Definition emptySys : Sys := MkSys ∅ ∅.

(** An object is deleted: removed at once when it has no finalizer, and else
    marked. *)
Definition deletedAt (t : Z) (m : ObjectMeta) : ObjectMeta := m <| DeletionTimestamp := Some t |>.

(** A step of anybody but the machine reconciler, when calls are answered as
    [rd] says: a run of another reconciler; the write of a run of the host
    reconciler that may have begun at any time before, whatever it was answered,
    when the host it read was neither new nor under deletion; or a request of a
    user or of Cluster API.  Objects are created without status; later edits
    leave the status and the controller's finalizer to the controllers, but may
    add and remove others.  A machine goes only without the controller's
    finalizer, and a host, but for its own controller, only without any finalizer
    and without an owner. *)
Inductive otherStep `{Lib} (rd : reads) : Sys -> Sys -> Prop :=
| other_host req o s s' : srun rd alone (ReconcileHost req) s o s' -> otherStep rd s s'
| other_hostWrite req h o b a x s s' :
    exec (ReconcileHost req) [] h o -> (b, a, x) ∈ patches KHost h ->
    hst_State (hrh_Status b) <> HostStateUnset -> DeletionTimestamp (hrh_Meta b) = None ->
    effect s (EPatch KHost b a) x s' -> otherStep rd s s'
| other_cluster req o s s' : srun rd alone (ReconcileCluster req) s o s' -> otherStep rd s s'
| other_remediation req o s s' : srun rd alone (ReconcileRemediation req) s o s' -> otherStep rd s s'
| other_createMachine k m s :
    sy_machines s !! k = None -> keyOf (hrm_Meta m) = k -> k.1 <> "" ->
    DeletionTimestamp (hrm_Meta m) = None -> statusHostRef m = "" ->
    otherStep rd s (putMachine k m s)
| other_editMachine k m m' s :
    sy_machines s !! k = Some m -> keyOf (hrm_Meta m') = k -> (held m <-> held m') ->
    DeletionTimestamp (hrm_Meta m') = DeletionTimestamp (hrm_Meta m) -> statusHostRef m' = statusHostRef m ->
    otherStep rd s (putMachine k m' s)
| other_deleteMachine k m t s :
    sy_machines s !! k = Some m -> Finalizers (hrm_Meta m) <> [] ->
    otherStep rd s (putMachine k (m <| hrm_Meta := deletedAt t (hrm_Meta m) |>) s)
| other_removeMachine k m s :
    sy_machines s !! k = Some m -> ~ held m ->
    otherStep rd s (s <| sy_machines := delete k (sy_machines s) |>)
| other_createHost k h s :
    sy_hosts s !! k = None -> keyOf (hrh_Meta h) = k -> claimOf h = (HostStateUnset, None, None) ->
    otherStep rd s (setHost k h s)
| other_editHost k h h' s :
    sy_hosts s !! k = Some h -> keyOf (hrh_Meta h') = keyOf (hrh_Meta h) -> claimOf h' = claimOf h ->
    otherStep rd s (setHost k h' s)
| other_deleteHost k h t s :
    sy_hosts s !! k = Some h -> Finalizers (hrh_Meta h) <> [] ->
    otherStep rd s (setHost k (h <| hrh_Meta := deletedAt t (hrh_Meta h) |>) s)
| other_removeHost k h s :
    sy_hosts s !! k = Some h -> Finalizers (hrh_Meta h) = [] -> ownerOf (claimOf h) = None ->
    otherStep rd s (s <| sy_hosts := delete k (sy_hosts s) |>).

(** A step of the system: a run of the machine reconciler, with the steps of
    others between its calls, or a step of others. *)
Inductive sysStep `{Lib} (rd : reads) : Sys -> Sys -> Prop :=
| sys_machine req o s s' : srun rd (otherStep rd) (Reconcile req) s o s' -> sysStep rd s s'
| sys_other s s' : otherStep rd s s' -> sysStep rd s s'.

(** A step that does not end with a deletion half done. *)
Definition cleanStep `{Lib} (rd : reads) (s s' : Sys) : Prop := sysStep rd s s' /\ finished s'.

Section System.
Context `{LibLaws} (rd : reads) (Hrd : upToDate rd).
Implicit Types (s : Sys).

Lemma ownership_empty : ownership emptySys.
Proof. split; [intros k h|intros k m]; cbn; by rewrite lookup_empty. Qed.

Lemma putMachine_interferes s k m :
  wellFormed k m -> (forall gone, ownershipBut gone s -> gone <> Some k -> holds s m) ->
  evolvedMachine (sy_machines s !! k) (Some m) -> interferes s (putMachine k m s).
Proof.
  intros Hw Hh He gone [Hhosts Hm]. split; [split; [done|]|split; [intros k'; reflexivity|]].
  - intros k' m'. cbn. intros [[<- <-]|[Hk Hl]]%lookup_insert_Some; [|by apply Hm].
    split; [done|]. by apply (Hh gone).
  - intros k'. unfold putMachine. cbn. destruct (decide (k = k')) as [<-|Hne].
    + by rewrite lookup_insert_eq.
    + rewrite lookup_insert_ne by done. reflexivity.
Qed.

(** An edit of a machine, or its deletion. *)
Lemma editMachine_interferes s k m m' :
  sy_machines s !! k = Some m -> keyOf (hrm_Meta m') = keyOf (hrm_Meta m) ->
  (held m <-> held m') -> statusHostRef m' = statusHostRef m ->
  (DeletionTimestamp (hrm_Meta m) <> None -> DeletionTimestamp (hrm_Meta m') <> None) ->
  interferes s (putMachine k m' s).
Proof.
  intros Hk Hkey Hf Href Hd gone Hi. destruct (proj2 Hi _ _ Hk) as [(Hkm & Hns) Hh].
  revert gone Hi Hh. assert (interferes s (putMachine k m' s)) as HI; [|intros gone Hi _; by apply HI].
  apply putMachine_interferes.
  - split; [congruence|done].
  - intros gone Hi Hg. apply (holds_key s m); [done..|]. by apply (proj2 Hi _ _ Hk).
  - rewrite Hk. cbn. auto.
Qed.

Lemma otherStep_interferes s s' gone : ownershipBut gone s -> otherStep rd s s' -> interferes s s'.
Proof using All.
  intros Hi Hs. destruct Hs as [req o s s' Hr|req h o b a x s s' Hr Hin Hu Hd He|req o s s' Hr|req o s s' Hr
    |k m s Hk Hkey Hns Hd Href|k m m' s Hk Hkey Hf Hd Href|k m t s Hk Hf|k m s Hk Hf
    |k h s Hk Hkey Hc|k h h' s Hk Hkey Hc|k h t s Hk Hf|k h s Hk Hf Ho].
  - refine (swp_sound rd alone eq _ (fun _ s' => interferes s s') s o s' Hrd rtc_alone Hr _). by eapply swp_ReconcileHost.
  - apply sameClaims_interferes. apply host_patches in Hr. rewrite Forall_forall in Hr.
    eapply late_hostStep, He; [done..|]. apply (Hr (b, a, x)), list_elem_of_In, Hin.
  - eapply quiet_interferes, Hr; [done|]. apply quiet_ReconcileCluster.
  - eapply quiet_interferes, Hr; [done|]. apply quiet_ReconcileRemediation.
  - apply putMachine_interferes; [done|by intros _ _ _ ?|by rewrite Hk].
  - destruct (proj2 Hi _ _ Hk) as [(Hkm & _) _].
    eapply editMachine_interferes; [exact Hk|congruence|done|done|by rewrite Hd].
  - by eapply editMachine_interferes; [exact Hk|..].
  - intros gone' [Hhosts Hm]. split; [split; [done|]|split; [intros k'; reflexivity|]].
    + intros k' m'. cbn. intros [_ Hl]%lookup_delete_Some. by apply Hm.
    + intros k'. cbn. destruct (decide (k = k')) as [<-|Hne]; [by rewrite Hk, lookup_delete_eq|].
      rewrite lookup_delete_ne by done. reflexivity.
  - by apply createHost_interferes.
  - apply (setHost_interferes s k h); [done..|]. intros Hok. split; [by rewrite Hc|by left].
  - apply (setHost_interferes s k h); [done..|]. intros Hok. split; [done|by left].
  - by eapply dropHost_interferes.
Qed.

Lemma otherSteps_interfere s s' : rtc (otherStep rd) s s' -> interferes s s'.
Proof using All.
  intros Hr gone Hi. revert gone Hi. induction Hr as [s|s1 s2 s3 Hs _ IH]; [by apply interferes_preorder|].
  intros gone Hi. pose proof (otherStep_interferes _ _ gone Hi Hs) as HI.
  refine (transitivity HI _ gone Hi). exact IH.
Qed.

Lemma run_done req o s s' :
  srun rd (otherStep rd) (Reconcile req) s o s' -> ownership s -> runDone (nnKey req) s s'.
Proof using All.
  intros Hr Hi.
  refine (swp_sound rd _ interferes _ (fun _ s' => runDone (nnKey req) s s') s o s' Hrd otherSteps_interfere Hr _).
  by apply swp_Reconcile.
Qed.

Lemma cleanStep_ownership s s' : cleanStep rd s s' -> ownership s -> ownership s'.
Proof using All.
  intros [Hs Hf] Hi. destruct Hs as [req o s s' Hr|s s' Hs].
  - by eapply run_done.
  - by apply (otherStep_interferes s s' None Hi Hs None).
Qed.

Lemma reachable_ownership s s' : rtc (cleanStep rd) s s' -> ownership s -> ownership s'.
Proof using All. intros Hr. induction Hr; [done|]. intros Hi. eauto using cleanStep_ownership. Qed.

(** Machine [k] records a host. *)
Definition records s (k : okey) (name : string) : Prop :=
  name <> "" /\ exists m, sy_machines s !! k = Some m /\ statusHostRef m = name.

Lemma records_owner s k name :
  ownership s -> records s k name ->
  exists h, sy_hosts s !! (k.1, name) = Some h /\ claimOK (claimOf h) /\
    ownerOf (claimOf h) = Some (MkMachineReference k.2 k.1).
Proof.
  intros Hi (Hn & m & Hk & <-). destruct (proj2 Hi _ _ Hk) as [[<- _] Hh].
  destruct (Hh ltac:(done) Hn) as (h & Hl & Ho). exists h. split; [done|]. split; [|done].
  exact (proj2 (proj1 Hi _ _ Hl)).
Qed.
End System.

(** * Properties *)

(** C3: a host never serves two machines.  In every state that is reached from
    an empty store by runs of the machine reconciler, one at a time, with other
    work between any two of their calls (runs of the other reconcilers, and the
    creation, editing and deletion of machines and hosts), whatever the Robot
    service, the servers and the rest of the API server answer, whichever writes
    fail, and whatever finalizers others add or remove: a host that a machine
    records in its status exists, its references name that machine, and its
    state is neither unset nor Available, so that no claim takes it; and two
    machines of a namespace that record the same host are one machine.  Users
    create objects without a status, leave the status and the finalizer of the
    machine controller to the controllers, and do not remove a host that has an
    owner.  Three more assumptions: (1) reads of hosts and machines are up to date in whose a host
    is, which host a machine records, the controller's finalizer and existence
    (they may lag in all else); (2) a run of the host reconciler for a host that
    is new or under deletion does not overlap other steps (the writes of its
    other runs may come at any time); (3) no step ends with a deletion half
    done, that is with a machine under deletion that still records a host which
    has been released, as when the last write of its run fails or a foreign
    finalizer keeps it.  The claim fails without them: [cached_read_steals],
    [adoption_races_with_host_run], [stale_deletion_takes_host]. *)
Theorem exclusive_ownership `{LibLaws} rd s k name :
  upToDate rd -> rtc (cleanStep rd) emptySys s -> records s k name ->
  (exists h, sy_hosts s !! (k.1, name) = Some h /\
     ownerOf (claimOf h) = Some (MkMachineReference k.2 k.1) /\
     hst_State (hrh_Status h) <> HostStateAvailable /\ hst_State (hrh_Status h) <> HostStateUnset) /\
  (forall k', k'.1 = k.1 -> records s k' name -> k' = k).
Proof.
  intros Hrd Hr Hk. apply reachable_ownership in Hr; [|done|apply ownership_empty].
  destruct (records_owner s k name Hr Hk) as (h & Hh & Hok & Ho). split.
  - exists h. split; [done|]. split; [done|]. apply owned_busy in Ho; [|done]. by split; intros Hs; apply Ho; [left|right].
  - intros k' Hns Hk'. destruct (records_owner s k' name Hr Hk') as (h' & Hh' & _ & Ho').
    rewrite Hns, Hh in Hh'. injection Hh' as <-. rewrite Ho in Ho'. destruct k, k'. cbn in *. congruence.
Qed.

(** C4: the controllers refine the lease book.  In every state that is reached
    from an empty store as in C3, under its assumptions, each host of the
    book has the one machine that its status names, and each machine that has
    written down a host, and has the controller's finalizer, has it.  A run of
    the machine reconciler, with the work of others between its calls, and
    whether or not its writes succeed, makes only entries of the machine of its
    request: the machine takes a host that nobody has or whose machine has
    written down none, writes down a host that it has, once, and, only if it is
    gone at the end of the run or under deletion, is struck off; it gives a host
    back only then, or when it has written down none.  Nobody else enters
    anything: no run of another reconciler, and no creation, edit or deletion of
    an object.  So a machine that lives and is not being deleted keeps the host
    it has written down over every step. *)
Theorem controllers_keep_leases `{LibLaws} rd s s' :
  upToDate rd -> rtc (cleanStep rd) emptySys s ->
  bookOK (book s) /\
  (forall req o, srun rd (otherStep rd) (Reconcile req) s o s' ->
     rtc (leaseStep (nnKey req) (going (nnKey req) s')) (book s) (book s')) /\
  (otherStep rd s s' -> book s' = book s) /\
  (forall k n, cleanStep rd s s' -> recorded (book s) !! k = Some n -> ~ going k s' ->
     recorded (book s') !! k = Some n /\ leases (book s') !! (k.1, n) = Some k).
Proof.
  intros Hrd Hr. apply reachable_ownership in Hr as Hi; [|done|apply ownership_empty].
  assert (forall req o, srun rd (otherStep rd) (Reconcile req) s o s' ->
    rtc (leaseStep (nnKey req) (going (nnKey req) s')) (book s) (book s')) as Hrun
    by (intros req o Hs; by eapply run_done).
  assert (otherStep rd s s' -> book s' = book s) as Hother
    by (intros Hs; by eapply (interferes_book None), (otherStep_interferes rd Hrd s s' None)).
  split; [by apply ownership_book|]. split; [done|]. split; [done|]. intros k n Hs Hk Hg.
  assert (recorded (book s') !! k = Some n) as Hk'.
  { destruct Hs as [Hs _]. destruct Hs as [req o s s' Hs|s s' Hs]; [|by rewrite Hother]. eapply leaseSteps_keep; [by eapply Hrun| |done].
    by intros ->. }
  split; [done|]. apply (ownership_book s' (cleanStep_ownership rd Hrd s s' Hs Hi) k n Hk').
Qed.

(** ** Witnesses *)

Import Demo.

(** Everything but the store answers, and every call succeeds. *)
Definition others : forall X : Set, Eff X -> X := answer (goodWorld sampleHRM sampleHost) [].

Definition runOf {A} (p : prog A) (s : Sys) : Sys := (serveAll others p s).2.

Definition named (name : string) (finalizers : list string) : HetznerRobotMachine :=
  sampleHRM <| hrm_Meta := (hrm_Meta sampleHRM) <| Finalizers := finalizers |> <| Name := name |> |>.

Definition runMachine (name : string) : Sys -> Sys := runOf (Reconcile (MkNamespacedName "prod" name)).
Definition runHost : Sys -> Sys := runOf (ReconcileHost (MkNamespacedName "prod" "host-1")).

Definition newHost : HetznerRobotHost := set_hst hst_State HostStateUnset sampleHost.

(** The host is created and becomes Available; the machine is created, gets its
    finalizer and claims the host. *)
Definition availableSys : Sys := runHost (runHost (setHost ("prod", "host-1") newHost emptySys)).

Definition claimedSys (m : HetznerRobotMachine) : Sys :=
  runMachine "hrm-1" (runMachine "hrm-1" (putMachine ("prod", "hrm-1") m availableSys)).

Definition hostOwner (s : Sys) : option (HostState * option MachineReference) :=
  (fun h => (hst_State (hrh_Status h), ownerOf (claimOf h))) <$> sy_hosts s !! ("prod", "host-1").

Definition machineRef (s : Sys) (name : string) : option string :=
  (fun m => statusHostRef m) <$> sy_machines s !! ("prod", name).

(** No machine is under deletion. *)
Definition alive (s : Sys) : bool :=
  bool_decide (map_Forall (fun _ m => DeletionTimestamp (hrm_Meta m) = None) (sy_machines s)).

Lemma alive_finished s : alive s = true -> finished s.
Proof. unfold alive. intros Ha k m Hk [Hd _]. bool_prop. by apply Hd, (Ha k). Qed.

(** The reads are those of the store itself. *)
Abbreviation current := (served others).

Lemma reach_step s s' :
  rtc (cleanStep current) emptySys s -> sysStep current s s' -> alive s' = true -> rtc (cleanStep current) emptySys s'.
Proof. intros Hr Hs Ha. eapply rtc_r; [exact Hr|]. by split; [|apply alive_finished]. Qed.

Lemma reach_machine name s :
  rtc (cleanStep current) emptySys s -> alive (runMachine name s) = true ->
  rtc (cleanStep current) emptySys (runMachine name s).
Proof. intros Hr. apply (reach_step s); [done|]. eapply sys_machine, serveAll_run. Qed.

Lemma reach_host s :
  rtc (cleanStep current) emptySys s -> alive (runHost s) = true -> rtc (cleanStep current) emptySys (runHost s).
Proof. intros Hr. apply (reach_step s); [done|]. eapply sys_other, other_host, serveAll_run. Qed.

Lemma claimed_reachable : rtc (cleanStep current) emptySys (claimedSys (named "hrm-1" [])).
Proof.
  assert (rtc (cleanStep current) emptySys (setHost ("prod", "host-1") newHost emptySys)) as H1.
  { eapply reach_step; [apply rtc_refl|apply sys_other, other_createHost|]; vm_compute; reflexivity. }
  assert (rtc (cleanStep current) emptySys availableSys) as H2.
  { apply reach_host; [apply reach_host; [exact H1|]|]; vm_compute; reflexivity. }
  assert (rtc (cleanStep current) emptySys (putMachine ("prod", "hrm-1") (named "hrm-1" []) availableSys)) as H3.
  { eapply reach_step; [exact H2|apply sys_other, other_createMachine|]; vm_compute; done. }
  apply reach_machine; [apply reach_machine; [exact H3|]|]; vm_compute; reflexivity.
Qed.

Lemma exclusive_ownership_witness :
  let s := claimedSys (named "hrm-1" []) in
  machineRef s "hrm-1" = Some "host-1" /\
  (exists h, sy_hosts s !! ("prod", "host-1") = Some h /\
     ownerOf (claimOf h) = Some (MkMachineReference "hrm-1" "prod") /\
     hst_State (hrh_Status h) <> HostStateAvailable /\ hst_State (hrh_Status h) <> HostStateUnset) /\
  (forall k', k'.1 = "prod" -> records s k' "host-1" -> k' = ("prod", "hrm-1")).
Proof.
  intros s. assert (machineRef s "hrm-1" = Some "host-1") as Hr by (vm_compute; reflexivity). split; [exact Hr|].
  apply (exclusive_ownership current s ("prod", "hrm-1") "host-1"); [apply served_upToDate|exact claimed_reachable|].
  split; [done|]. apply fmap_Some in Hr as (m & Hm & Href). exists m. exact (conj Hm (eq_sym Href)).
Defined.

(** The machine that claimed the host is reconciled once more, and keeps it. *)
Lemma controllers_keep_leases_witness :
  let s := claimedSys (named "hrm-1" []) in
  let s' := runMachine "hrm-1" s in
  let k := ("prod", "hrm-1") in
  bookOK (book s) /\ rtc (leaseStep k (going k s')) (book s) (book s') /\
  recorded (book s) !! k = Some "host-1" /\
  recorded (book s') !! k = Some "host-1" /\ leases (book s') !! ("prod", "host-1") = Some k.
Proof.
  intros s s' k. destruct (controllers_keep_leases current s s' (served_upToDate others) claimed_reachable)
    as (Hok & Hrun & _ & Hkeep).
  assert (recorded (book s) !! k = Some "host-1") as Hk by (vm_compute; reflexivity).
  pose proof (serveAll_run others (otherStep current) (Reconcile (MkNamespacedName "prod" "hrm-1")) s) as Hs.
  split; [exact Hok|]. split; [exact (Hrun _ _ Hs)|]. split; [exact Hk|].
  apply (Hkeep k "host-1"); [split; [by eapply sys_machine|apply alive_finished; vm_compute; reflexivity]|exact Hk|].
  intros Hg. assert ((fun m => DeletionTimestamp (hrm_Meta m)) <$> sy_machines s' !! k = Some None) as Hm by (vm_compute; reflexivity).
  apply fmap_Some in Hm as (m & Hm & Hd). by apply (Hg m Hm).
Defined.

(** ** Deletion after the release

    Machine hrm-1 owns the host and is deleted while it carries a finalizer of
    somebody else.  Its first run resets and releases the host and removes the
    controller's finalizer; the machine stays, with the host in its status.
    The host is claimed by hrm-2, and the next run of hrm-1, which still is
    under deletion, resets and releases it again. *)
Definition markDeleted (name : string) (s : Sys) : Sys :=
  match sy_machines s !! ("prod", name) with
  | Some m => putMachine ("prod", name) (m <| hrm_Meta := deletedAt 900 (hrm_Meta m) |>) s
  | None => s
  end.

Definition takenOver : Sys :=
  runMachine "hrm-2" (putMachine ("prod", "hrm-2") (named "hrm-2" [MachineFinalizer])
    (runMachine "hrm-1" (markDeleted "hrm-1" (claimedSys (named "hrm-1" ["foregroundDeletion"]))))).

Lemma stale_deletion_takes_host :
  let s := takenOver in
  let s' := runMachine "hrm-1" s in
  hostOwner s = Some (HostStateClaimed, Some (MkMachineReference "hrm-2" "prod")) /\
  machineRef s "hrm-2" = Some "host-1" /\
  hostOwner s' = Some (HostStateAvailable, None) /\ machineRef s' "hrm-2" = Some "host-1".
Proof. vm_compute. auto. Qed.

(** ** Claims that interleave

    The patch of a claim carries no version of the host: when a second claim
    runs between the read and the write of a first, both are accepted, and the
    host is the first one's, whose write came last. *)
Fixpoint pause {A} (n : nat) (p : prog A) (s : Sys) : prog A * Sys :=
  match n, p with
  | S n, Vis e k => pause n (k (serve others s e).1) (serve others s e).2
  | _, _ => (p, s)
  end.

Lemma concurrent_claims_collide :
  let s := setHost ("prod", "host-1") sampleHost emptySys in
  let paused := pause 2 (claimCandidate (named "hrm-1" []) "host-1") s in
  let second := serveAll others (claimCandidate (named "hrm-2" []) "host-1") paused.2 in
  let first := serveAll others paused.1 second.2 in
  statusHostRef second.1.1 = "host-1" /\ statusHostRef first.1.1 = "host-1" /\
  hostOwner second.2 = Some (HostStateClaimed, Some (MkMachineReference "hrm-2" "prod")) /\
  hostOwner first.2 = Some (HostStateClaimed, Some (MkMachineReference "hrm-1" "prod")).
Proof. vm_compute. auto. Qed.

(** The same happens to two runs one after the other, when the second reads
    hosts from a cache that has not seen the first one's claim: it finds the host
    Available, and takes it from the machine that has written it down. *)
Definition readsHost {X : Set} (e : Eff X) : bool :=
  match e with EGet KHost _ | EList KHost _ _ => true | _ => false end.

Fixpoint cachedRun {A} (cache : Sys) (p : prog A) (s : Sys) : A * Sys :=
  match p with
  | Ret a => (a, s)
  | Vis e k =>
      if readsHost e then cachedRun cache (k (serve others cache e).1) s
      else cachedRun cache (k (serve others s e).1) (serve others s e).2
  end.

Lemma cached_read_steals :
  let s := putMachine ("prod", "hrm-2") (named "hrm-2" [MachineFinalizer]) (claimedSys (named "hrm-1" [])) in
  let s' := (cachedRun availableSys (Reconcile (MkNamespacedName "prod" "hrm-2")) s).2 in
  hostOwner s = Some (HostStateClaimed, Some (MkMachineReference "hrm-1" "prod")) /\
  hostOwner s' = Some (HostStateClaimed, Some (MkMachineReference "hrm-2" "prod")) /\
  machineRef s' "hrm-1" = Some "host-1" /\ machineRef s' "hrm-2" = Some "host-1".
Proof. vm_compute. auto. Qed.

(** A host reconciliation that sees a new host before a provisioned machine
    adopts it, and writes after, makes the adopted host Available; the next
    machine that is looking for a host takes it. *)
Definition provisionedMachine : HetznerRobotMachine :=
  let hrm := set_mst mst_ProvisioningState StateProvisioned (named "hrm-1" [MachineFinalizer]) in
  hrm <| hrm_Spec := (hrm_Spec hrm) <| ms_ProviderID := Some (providerIDOf 4711) |> |>.

Definition adoptable : Sys :=
  putMachine ("prod", "hrm-1") provisionedMachine
    (runHost (setHost ("prod", "host-1") newHost emptySys)).

Lemma adoption_races_with_host_run :
  let hostRun := pause 2 (ReconcileHost (MkNamespacedName "prod" "host-1")) adoptable in
  let adopted := runMachine "hrm-1" hostRun.2 in
  let s := (serveAll others hostRun.1 adopted).2 in
  let s' := runMachine "hrm-2" (putMachine ("prod", "hrm-2") (named "hrm-2" [MachineFinalizer]) s) in
  hostOwner adopted = Some (HostStateProvisioned, Some (MkMachineReference "hrm-1" "prod")) /\
  hostOwner s = Some (HostStateAvailable, Some (MkMachineReference "hrm-1" "prod")) /\
  hostOwner s' = Some (HostStateClaimed, Some (MkMachineReference "hrm-2" "prod")) /\
  machineRef s' "hrm-1" = Some "host-1".
Proof. vm_compute. auto. Qed.
