(* ===== verification/Addresses.v ===== *)
(** * The addresses of a server

    The IPv6 address of a server is computed in five places, from the network
    the host reconciler stores.  For a network it has detected they agree. *)

From Stdlib Require Import Ascii.
From S2P Require Import Prelude GoStrings GoTime Api Codec Effects Lib Samples Robot Rescue HostClaim Inject Ignition Retry States Machine HostCtl.

(** * Facts *)

(** The part of a network before the slash. *)
Lemma ipv6Prefix_slash (p rest : string) :
  contains p "/" = false -> ipv6Prefix (p +:+ String "/" rest) = p.
Proof.
  intros Hp. unfold ipv6Prefix. rewrite split_unfold by done.
  by rewrite (cut_char "/" p rest Hp).
Qed.

(** What the host reconciler stores for a network the Robot service names. *)
Definition storedNet (net : string) : string := trimSuffix net "::" +:+ "::/64".

(** The address of the server in it. *)
Definition serverIPv6 (net : string) : string := trimSuffix net "::" +:+ "::1".

Lemma contains_app_char (a b : string) (c : ascii) :
  contains a (String c "") = false -> contains b (String c "") = false -> contains (a +:+ b) (String c "") = false.
Proof.
  induction a as [|x a IH]; [done|]. cbn [String.append contains]. rewrite !orb_false_iff.
  intros [Hx Ha] Hb. split; [|by apply IH]. cbn in Hx |- *. destruct (ascii_dec c x); [by destruct a|done].
Qed.

Lemma contains_trimSuffix (s suf : string) (c : ascii) :
  contains s (String c "") = false -> contains (trimSuffix s suf) (String c "") = false.
Proof.
  intros Hs. destruct (hasSuffix s suf) eqn:Hsuf; [|by rewrite trimSuffix_none].
  apply hasSuffix_spec in Hsuf as [t ->]. rewrite trimSuffix_app.
  destruct (contains t (String c "")) eqn:Ht; [|done]. by rewrite (contains_app_l _ _ _ Ht) in Hs.
Qed.

Lemma storedNet_prefix net :
  contains net "/" = false -> ipv6Prefix (storedNet net) = trimSuffix net "::" +:+ "::".
Proof.
  intros Hn. unfold storedNet. change "::/64" with ("::" +:+ String "/" "64"). rewrite <- app_assoc_str.
  apply ipv6Prefix_slash, contains_app_char; [by apply contains_trimSuffix|done].
Qed.

Lemma storedNet_nonempty net : String.eqb (storedNet net) "" = false.
Proof. unfold storedNet. by destruct (trimSuffix net "::"). Qed.

Lemma storedNet_node net : contains net "/" = false -> nodeIPv6Of (storedNet net) = serverIPv6 net.
Proof.
  intros Hn. unfold nodeIPv6Of. rewrite storedNet_nonempty, storedNet_prefix by done. by rewrite trimSuffix_app.
Qed.

Lemma fillAddresses_net host info :
  hs_ServerIPv6Net (hrh_Spec host) = "" -> si_ServerIPv6Net info <> "" ->
  hs_ServerIPv6Net (hrh_Spec (fillAddresses host info)) = storedNet (si_ServerIPv6Net info).
Proof.
  intros Hh Hi. apply String.eqb_neq in Hi. unfold fillAddresses. rewrite Hi.
  destruct host as [m [id ip net iip disk cl mm pol] st]. cbn in Hh. subst net. cbn.
  by destruct (String.eqb ip "" && _).
Qed.

Lemma contains_here (a b c d rest : string) :
  contains (a +:+ b +:+ c +:+ d +:+ rest) (a +:+ b +:+ c +:+ d) = true.
Proof. apply contains_spec. exists "", rest. by rewrite !app_assoc_str. Qed.

(** Looks for a text in a sequence of pieces. *)
Ltac find_text := first [ apply contains_here | apply contains_app_r; find_text ].

(** * Properties *)

(** C35: all parts agree on the IPv6 address of a server.  When the host
    reconciler fills in the network the Robot service names (without a prefix
    length), then the address on the interface of a Talos config, the address
    in the network file of a Flatcar server, the node address given to the
    kubelet and the address reported to the Cluster API are all that network
    with [::1] in place of a trailing [::], on the server's own [/64]. *)
Theorem ipv6_addresses_agree (host : HetznerRobotHost) (info : ServerInfo) (hrc : HetznerRobotCluster)
    (mac serverIP gatewayIP : string) :
  hs_ServerIPv6Net (hrh_Spec host) = "" -> si_ServerIPv6Net info <> "" ->
  contains (si_ServerIPv6Net info) "/" = false ->
  let filled := fillAddresses host info in
  let net := hs_ServerIPv6Net (hrh_Spec filled) in
  let addr := serverIPv6 (si_ServerIPv6Net info) in
  nodeIPOf "" net = addr /\
  (exists iface, ipv6Interface net mac = VMap iface /\ iface !! "addresses" = Some (VList [VString (addr +:+ "/64")])) /\
  contains (primaryNetwork mac serverIP gatewayIP net None) ("Address=" +:+ addr +:+ "/64" +:+ nl) = true /\
  MkMachineAddress MachineExternalIP addr ∈ machineAddresses hrc filled.
Proof.
  intros Hh Hi Hs filled net addr.
  assert (net = storedNet (si_ServerIPv6Net info)) as Hnet by by apply fillAddresses_net.
  pose proof (storedNet_prefix _ Hs) as Hp. pose proof (storedNet_nonempty (si_ServerIPv6Net info)) as Hne.
  split; [|split; [|split]].
  - unfold nodeIPOf. rewrite Hnet, storedNet_node by done. cbn [String.eqb negb andb].
    fold addr. assert (String.eqb addr "" = false) as -> by (unfold addr, serverIPv6; by destruct (trimSuffix _ "::")).
    done.
  - eexists. split; [done|]. rewrite Hnet, Hp. cbn. rewrite lookup_insert_ne, lookup_insert_eq by done.
    unfold addr, serverIPv6. by rewrite !app_assoc_str.
  - unfold primaryNetwork. rewrite Hnet, Hne, Hp, trimSuffix_app. cbv zeta.
    replace (trimSuffix (si_ServerIPv6Net info) "::" +:+ "::1/64") with (addr +:+ "/64")
      by (unfold addr, serverIPv6; by rewrite app_assoc_str).
    rewrite (app_assoc_str addr "/64"). find_text.
  - unfold machineAddresses. cbv zeta. fold net. rewrite Hnet, Hne, Hp, trimSuffix_app.
    apply elem_of_app. right. constructor.
Qed.

(** ** Witness and an observation *)

Definition noNetHost : HetznerRobotHost := set_hs hs_ServerIPv6Net "" sampleHost.

Definition robotInfo : ServerInfo :=
  MkServerInfo 4711 "host-1" "192.0.2.10" "2001:db8:1:2::" "EX44" "FSN1" "ready" false.

Lemma ipv6_addresses_agree_witness :
  hs_ServerIPv6Net (hrh_Spec (fillAddresses noNetHost robotInfo)) = "2001:db8:1:2::/64" /\
  nodeIPOf "" (hs_ServerIPv6Net (hrh_Spec (fillAddresses noNetHost robotInfo))) = "2001:db8:1:2::1" /\
  MkMachineAddress MachineExternalIP "2001:db8:1:2::1" ∈ machineAddresses sampleHRC (fillAddresses noNetHost robotInfo).
Proof.
  split; [vm_compute; reflexivity|].
  destruct (ipv6_addresses_agree noNetHost robotInfo sampleHRC "aa:bb" "192.0.2.10" "192.0.2.1")
    as (Hn & _ & _ & Ha); [reflexivity|discriminate|vm_compute; reflexivity|].
  split; [exact Hn|exact Ha].
Defined.

(** For a network written out in full, the address on the
    interface and the node address differ: [injectIPv6Config] does not trim as
    the others do. *)
Example ipv6_addresses_differ :
  let net := "2001:db8:1:2:0:0:0:0/64" in
  nodeIPv6Of net = "2001:db8:1:2:0:0:0:0::1" /\ ipv6Prefix net +:+ "1/64" = "2001:db8:1:2:0:0:0:01/64".
Proof. by vm_compute. Qed.
